(** * Provider revenue share and tier management

    A shallow embedding of [src/providers/revenue-share/revenue-share.service.ts]
    (classes [RevenueShareService] and [TierManagerService]) together with the
    parts of the JavaScript run time the two services lean on: decimal
    strings handled by big.js, [parseFloat], [Date] and the TypeORM
    repositories.  Strings are taken over the ASCII range. *)

From stdpp Require Import gmap strings list fin_maps.
From Stdlib Require Import ZArith Ascii String Lia Sorted QArith.

Local Open Scope Z_scope.

(** ** Decimal numerals *)

Definition pow10 (n : nat) : Z := 10 ^ Z.of_nat n.

Definition digit_char (d : Z) : ascii := ascii_of_N (Z.to_N (48 + d)).

Definition digit_val (c : ascii) : option Z :=
  let n := Z.of_N (N_of_ascii c) in
  if (48 <=? n) && (n <=? 57) then Some (n - 48) else None.

(** The [k] low-order decimal digits of [n], most significant first, put in
    front of [acc]. *)
Fixpoint fixed_digits (k : nat) (n : Z) (acc : string) : string :=
  match k with
  | O => acc
  | S k' => fixed_digits k' (n / 10) (String (digit_char (n mod 10)) acc)
  end.

(** All the digits of [n] (at least one), put in front of [acc]. *)
Fixpoint int_digits (fuel : nat) (n : Z) (acc : string) : string :=
  match fuel with
  | O => acc
  | S f =>
      let acc' := String (digit_char (n mod 10)) acc in
      if n / 10 =? 0 then acc' else int_digits f (n / 10) acc'
  end.

Definition Z_digits (n : Z) (acc : string) : string :=
  int_digits (S (Z.to_nat (Z.log2 n))) n acc.

(** Longest run of digits at the head of [s]: its value on top of [acc],
    the number of digits read on top of [cnt], and what is left. *)
Fixpoint scan_digits (s : string) (acc : Z) (cnt : nat) : Z * nat * string :=
  match s with
  | String c s' =>
      match digit_val c with
      | Some d => scan_digits s' (acc * 10 + d) (S cnt)
      | None => (acc, cnt, s)
      end
  | EmptyString => (acc, cnt, s)
  end.

(** Exponent part: the letter e (either case), an optional sign and at
    least one digit; when the letter is not followed by a complete exponent
    nothing is consumed. *)
Definition scan_exponent (s : string) : Z * string :=
  match s with
  | String c r =>
      if (Ascii.eqb c "e" || Ascii.eqb c "E")%bool then
        let '(neg, r1) :=
          match r with
          | String "-" r' => (true, r')
          | String "+" r' => (false, r')
          | _ => (false, r)
          end in
        let '(v, n, rest) := scan_digits r1 0 0 in
        if Nat.eqb n 0 then (0, s) else ((if neg then - v else v), rest)
      else (0, s)
  | EmptyString => (0, s)
  end.

(** Longest prefix made of digits with an optional fraction (or of a dot
    followed by digits) and an optional exponent: the digits read as one
    integer, the power of ten that scales it, and the rest of the string. *)
Definition scan_decimal (s : string) : option (Z * Z * string) :=
  let '(ip, ni, s1) := scan_digits s 0 0 in
  let '(c, nf, s2) :=
    match s1 with
    | String "." r => scan_digits r ip 0
    | _ => (ip, 0%nat, s1)
    end in
  if (Nat.eqb ni 0 && Nat.eqb nf 0)%bool then None
  else
    let '(e, s3) := scan_exponent s2 in
    Some (c, e - Z.of_nat nf, s3).

(** ** big.js

    A [Big] is a sign, an exponent and an array of decimal digits; the
    operations used by the services depend only on the number denoted, kept
    here as an integer coefficient and a count of decimal places.  The
    library runs with its defaults, [DP = 20] and [RM = 1] (half up). *)
Module Big.

Record t : Type := mk { coef : Z; dp : nat }.

Definition DP : nat := 20.

Definition of_Z (z : Z) : t := mk z 0.

(** [new Big(s)]: the whole string has to be an optional minus sign
    followed by a numeral as read by [scan_decimal] (the library's NUMERIC
    pattern), otherwise the constructor throws. *)
Definition of_string (s : string) : option t :=
  let '(neg, s1) :=
    match s with
    | String "-" r => (true, r)
    | _ => (false, s)
    end in
  match scan_decimal s1 with
  | Some (c, e, EmptyString) =>
      let c := if neg then - c else c in
      Some (if 0 <=? e then mk (c * 10 ^ e) 0 else mk c (Z.to_nat (- e)))
  | _ => None
  end.

Definition cmp (x y : t) : comparison :=
  (coef x * pow10 (dp y)) ?= (coef y * pow10 (dp x)).

Definition lte (x y : t) : bool :=
  match cmp x y with Gt => false | _ => true end.

Definition gt (x y : t) : bool :=
  match cmp x y with Gt => true | _ => false end.

Definition eq (x y : t) : bool :=
  match cmp x y with Eq => true | _ => false end.

Definition times (x y : t) : t := mk (coef x * coef y) (dp x + dp y).

Definition plus (x y : t) : t :=
  mk (coef x * pow10 (dp y - dp x) + coef y * pow10 (dp x - dp y))
     (Nat.max (dp x) (dp y)).

(** [n / d] to the nearest integer, ties away from zero. *)
Definition half_up (n d : Z) : Z :=
  Z.sgn n * Z.sgn d * ((2 * Z.abs n + Z.abs d) / (2 * Z.abs d)).

(** [x.div(y)]: throws on a zero divisor, otherwise the quotient
    rounded to [DP] decimal places. *)
Definition div (x y : t) : option t :=
  if coef y =? 0 then None
  else Some (mk (half_up (coef x * pow10 (DP + dp y)) (coef y * pow10 (dp x))) DP).

(** [x] rounded to [d] decimal places. *)
Definition round (x : t) (d : nat) : t :=
  mk (half_up (coef x * pow10 (d - dp x)) (pow10 (dp x - d))) d.

(** [x.toFixed(d)]: the sign is that of [x] before rounding, and is
    dropped only for zero. *)
Definition toFixed (x : t) (d : nat) : string :=
  let a := Z.abs (coef (round x d)) in
  let frac := if Nat.eqb d 0 then EmptyString
              else String "." (fixed_digits d a EmptyString) in
  let body := Z_digits (a / pow10 d) frac in
  if coef x <? 0 then String "-" body else body.

End Big.

(** ** JavaScript numbers

    A [number] is an IEEE 754 double: not-a-number, an infinity, or a
    finite value [m * 2 ^ e].  The two zeros compare equal and are not
    told apart. *)
Module Js.

Inductive number : Type :=
| NaN
| Infinity (neg : bool)
| Num (m e : Z).

Definition of_Z (z : Z) : number := Num z 0.

Definition compare (a b : number) : option comparison :=
  match a, b with
  | NaN, _ | _, NaN => None
  | Infinity n1, Infinity n2 =>
      Some (if n1 then (if n2 then Eq else Lt) else (if n2 then Gt else Eq))
  | Infinity n1, Num _ _ => Some (if n1 then Lt else Gt)
  | Num _ _, Infinity n2 => Some (if n2 then Gt else Lt)
  | Num m1 e1, Num m2 e2 =>
      let e := Z.min e1 e2 in
      Some (m1 * 2 ^ (e1 - e) ?= m2 * 2 ^ (e2 - e))
  end.

(** [a >= b], [a > b] and [a === b]; each is false as soon as one side
    is [NaN]. *)
Definition geb (a b : number) : bool :=
  match compare a b with Some Gt | Some Eq => true | _ => false end.

Definition gtb (a b : number) : bool :=
  match compare a b with Some Gt => true | _ => false end.

Definition eqb (a b : number) : bool :=
  match compare a b with Some Eq => true | _ => false end.

(** [n / d] to the nearest integer, ties to even. *)
Definition rne (n d : Z) : Z :=
  let q := n / d in
  match 2 * (n mod d) ?= d with
  | Lt => q
  | Gt => q + 1
  | Eq => if Z.even q then q else q + 1
  end.

(** The double nearest to [n / d], for positive [n] and [d]: 53 bits of
    precision, gradual underflow below [2 ^ -1022], overflow to
    [Infinity]. *)
Definition binary64 (n d : Z) : number :=
  let k0 := Z.log2 n - Z.log2 d in
  let fits := if 0 <=? k0 then d * 2 ^ k0 <=? n else d <=? n * 2 ^ (- k0) in
  let k := if fits then k0 else k0 - 1 in
  let e := Z.max (k - 52) (-1074) in
  let m := if 0 <=? e then rne n (d * 2 ^ e) else rne (n * 2 ^ (- e)) d in
  if (971 <=? e) && (2 ^ 1024 <=? m * 2 ^ e) then Infinity false else Num m e.

Definition negate (x : number) : number :=
  match x with
  | NaN => NaN
  | Infinity n => Infinity (negb n)
  | Num m e => Num (- m) e
  end.

(** The double denoted by the decimal [c * 10 ^ e10], [c >= 0]. *)
Definition of_decimal (c e10 : Z) : number :=
  if c =? 0 then Num 0 0
  else if 0 <=? e10 then binary64 (c * 10 ^ e10) 1
  else binary64 c (10 ^ (- e10)).

Definition is_space (c : ascii) : bool :=
  let n := N_of_ascii c in
  ((9 <=? n) && (n <=? 13) || (n =? 32))%N.

Fixpoint trim_start (s : string) : string :=
  match s with
  | String c r => if is_space c then trim_start r else s
  | EmptyString => s
  end.

(** [parseFloat(s)]: leading white space is dropped, then the longest
    prefix that is a decimal literal is read; what follows is ignored. *)
Definition parseFloat (s : string) : number :=
  let s0 := trim_start s in
  let '(neg, s1) :=
    match s0 with
    | String "-" r => (true, r)
    | String "+" r => (false, r)
    | _ => (false, s0)
    end in
  let x :=
    if String.prefix "Infinity" s1 then Infinity false
    else match scan_decimal s1 with
         | Some (c, e10, _) => of_decimal c e10
         | None => NaN
         end in
  if neg then negate x else x.

End Js.

(** ** Arrays *)

(** [Array.prototype.sort] with a comparator: stable, an element moves
    behind those the comparator puts strictly before it. *)
Fixpoint sort_insert {A : Type} (cmp : A -> A -> Z) (x : A) (l : list A) : list A :=
  match l with
  | [] => [x]
  | y :: l' => if 0 <? cmp x y then y :: sort_insert cmp x l' else x :: l
  end.

Definition js_sort {A : Type} (cmp : A -> A -> Z) (l : list A) : list A :=
  foldr (sort_insert cmp) [] l.

(** [Array.prototype.indexOf], [-1] when the element is absent. *)
Fixpoint indexOf {A : Type} (eqb : A -> A -> bool) (l : list A) (x : A) : Z :=
  match l with
  | [] => -1
  | y :: l' =>
      if eqb y x then 0
      else let i := indexOf eqb l' x in if i <? 0 then -1 else i + 1
  end.

(** ** Dates

    A local calendar time: year, month (from 0) and the milliseconds
    elapsed since the month began. *)
Module Date.

Record t : Type := mk { getFullYear : Z; getMonth : Z; sinceMonthStart : N }.

(** [new Date(year, month, 1)] *)
Definition firstOfMonth (year month : Z) : t := mk year month 0.

Definition leb (a b : t) : bool :=
  (getFullYear a <? getFullYear b)
  || ((getFullYear a =? getFullYear b)
      && ((getMonth a <? getMonth b)
          || ((getMonth a =? getMonth b)
              && (sinceMonthStart a <=? sinceMonthStart b)%N))).

(** TypeORM's [Between(lo, hi)], bounds included. *)
Definition between (lo hi x : t) : bool := leb lo x && leb x hi.

End Date.

(** ** Entities

    The declarations of [entities/revenue-share-tier.entity],
    [provider-stats.entity] and [user.entity] are not among the sources;
    the two services import them. *)

(** Modelled from the spec: the enumeration [ProviderTierLevel] of the
    entity file, with the five levels of section 3 in their order. *)
Inductive ProviderTierLevel : Type := BRONZE | SILVER | GOLD | PLATINUM | ELITE.

(** Modelled from the spec: the enumeration [BonusType] of the entity
    file. *)
Inductive BonusType : Type := PERFORMANCE | MONTHLY_TOP | STREAK.

(** Modelled from the spec: the enumeration [PayoutStatus] of the entity
    file. *)
Inductive PayoutStatus : Type := PENDING | PROCESSING | COMPLETED | FAILED.

#[global] Instance ProviderTierLevel_eq_dec : EqDecision ProviderTierLevel.
Proof. solve_decision. Defined.

#[global] Instance BonusType_eq_dec : EqDecision BonusType.
Proof. solve_decision. Defined.

#[global] Instance PayoutStatus_eq_dec : EqDecision PayoutStatus.
Proof. solve_decision. Defined.

(** Modelled from the spec: the entity class [RevenueShareTier]; the
    members are those of [DEFAULT_TIERS], decimal columns being strings
    and integer columns numbers. *)
Module RevenueShareTier.
Record t : Type := mk {
  tierLevel : ProviderTierLevel;
  name : string;
  description : string;
  revenueSharePercentage : string;
  minWinRate : string;
  minSignals : Z;
  minCopiers : Z;
  minReputationScore : string;
  performanceBonusUsdc : string;
  monthlyRetentionBonusUsdc : string;
  isActive : bool;
  sortOrder : Z;
}.
End RevenueShareTier.

(** Modelled from the spec: the entity class [ProviderTierAssignment],
    one row per provider.  The snapshot columns hold [String(n)] of the
    metric [n]; the number itself is kept here, nothing reads it back. *)
Module ProviderTierAssignment.
Record t : Type := mk {
  providerId : string;
  currentTier : ProviderTierLevel;
  previousTier : option ProviderTierLevel;
  winRateSnapshot : option Js.number;
  signalsSnapshot : option Js.number;
  copiersSnapshot : option Js.number;
  reputationSnapshot : option Js.number;
  lastEvaluatedAt : option Date.t;
  promotionBonusPaid : bool;
}.
End ProviderTierAssignment.

(** Modelled from the spec: the entity class [ProviderRevenuePayout].
    The id is generated when the row is inserted (its rank in the ledger
    stands for it), [createdAt] is the time of insertion and [retryCount]
    starts at 0. *)
Module ProviderRevenuePayout.
Record t : Type := mk {
  id : nat;
  providerId : string;
  tierLevel : ProviderTierLevel;
  baseRevenue : string;
  sharePercentage : string;
  revenueShareAmount : string;
  bonusAmount : string;
  bonusType : option BonusType;
  totalPayout : string;
  assetCode : string;
  providerWalletAddress : string;
  status : PayoutStatus;
  periodYear : Z;
  periodMonth : Z;
  stellarTxHash : option string;
  failureReason : option string;
  retryCount : Z;
  paidAt : option Date.t;
  createdAt : Date.t;
}.

Definition set_status (s : PayoutStatus) (p : t) : t :=
  mk (id p) (providerId p) (tierLevel p) (baseRevenue p) (sharePercentage p)
     (revenueShareAmount p) (bonusAmount p) (bonusType p) (totalPayout p)
     (assetCode p) (providerWalletAddress p) s (periodYear p) (periodMonth p)
     (stellarTxHash p) (failureReason p) (retryCount p) (paidAt p) (createdAt p).

Definition set_stellarTxHash (h : option string) (p : t) : t :=
  mk (id p) (providerId p) (tierLevel p) (baseRevenue p) (sharePercentage p)
     (revenueShareAmount p) (bonusAmount p) (bonusType p) (totalPayout p)
     (assetCode p) (providerWalletAddress p) (status p) (periodYear p) (periodMonth p)
     h (failureReason p) (retryCount p) (paidAt p) (createdAt p).

Definition set_failureReason (r : option string) (p : t) : t :=
  mk (id p) (providerId p) (tierLevel p) (baseRevenue p) (sharePercentage p)
     (revenueShareAmount p) (bonusAmount p) (bonusType p) (totalPayout p)
     (assetCode p) (providerWalletAddress p) (status p) (periodYear p) (periodMonth p)
     (stellarTxHash p) r (retryCount p) (paidAt p) (createdAt p).

Definition set_retryCount (n : Z) (p : t) : t :=
  mk (id p) (providerId p) (tierLevel p) (baseRevenue p) (sharePercentage p)
     (revenueShareAmount p) (bonusAmount p) (bonusType p) (totalPayout p)
     (assetCode p) (providerWalletAddress p) (status p) (periodYear p) (periodMonth p)
     (stellarTxHash p) (failureReason p) n (paidAt p) (createdAt p).

Definition set_paidAt (d : option Date.t) (p : t) : t :=
  mk (id p) (providerId p) (tierLevel p) (baseRevenue p) (sharePercentage p)
     (revenueShareAmount p) (bonusAmount p) (bonusType p) (totalPayout p)
     (assetCode p) (providerWalletAddress p) (status p) (periodYear p) (periodMonth p)
     (stellarTxHash p) (failureReason p) (retryCount p) d (createdAt p).

(** The nullable properties the services assign.  In an object in memory
    such a property holds a value, [null] or [undefined]; [None] stands for
    the last two, which a reader of the object does not tell apart, but
    [save] does. *)
Inductive key : Type := StellarTxHashKey | FailureReasonKey | PaidAtKey.

(** The row [save] writes for the object [p] over the row [stored]: a
    column takes the value of its property in [p], except that the column
    of a property that holds [undefined] is left as stored. *)
Definition written (undefined : list key) (stored p : t) : t :=
  foldr (fun k row =>
           match k with
           | StellarTxHashKey => set_stellarTxHash (stellarTxHash stored) row
           | FailureReasonKey => set_failureReason (failureReason stored) row
           | PaidAtKey => set_paidAt (paidAt stored) row
           end) p undefined.
End ProviderRevenuePayout.

(** Modelled from the spec: the entity class [ProviderStats], with the
    members the services read. *)
Module ProviderStats.
Record t : Type := mk {
  providerId : string;
  winRate : string;
  totalSignals : Z;
  totalCopiers : Z;
  reputationScore : string;
  streakWins : Z;
}.
End ProviderStats.

(** Modelled from the spec: the entity class [User], with the members
    the services read. *)
Module User.
Record t : Type := mk { id : string; walletAddress : string }.
End User.

(** ** Exceptions *)

(** The messages the services build, with their interpolated values. *)
Inductive Message : Type :=
| BaseRevenueMustBePositive
| TierDefinitionNotFound (tier : ProviderTierLevel)
| ProviderUserNotFound (providerId : string)
| ProviderNotFound (providerId : string)
| PayoutNotFound (payoutId : nat)
| OnlyFailedCanBeRetried (current : PayoutStatus)
| MaxRetryAttemptsExceeded (payoutId : nat)
| TierNotFound (tier : ProviderTierLevel)
| BigInvalidNumber
| BigDivisionByZero
| NoTierAssignment (providerId : string).

Inductive Exception : Type :=
| BadRequestException (message : Message)
| NotFoundException (message : Message)
| Error (message : Message).

Definition message (e : Exception) : Message :=
  match e with
  | BadRequestException m | NotFoundException m | Error m => m
  end.

(** The error kinds of the specification, read off the exception class and
    its message. *)
Inductive ErrorKind : Type :=
| InvalidArgument | NotFound | InvalidState | LimitExceeded | Unclassified.

Definition errorKind (e : Exception) : ErrorKind :=
  match e with
  | BadRequestException BaseRevenueMustBePositive => InvalidArgument
  | BadRequestException (OnlyFailedCanBeRetried _) => InvalidState
  | BadRequestException (MaxRetryAttemptsExceeded _) => LimitExceeded
  | NotFoundException _ => NotFound
  | _ => Unclassified
  end.

(** ** The store and the monad of the services *)

Record Store : Type := mkStore {
  tierRepo : list RevenueShareTier.t;
  assignmentRepo : gmap string ProviderTierAssignment.t;
  payoutRepo : list ProviderRevenuePayout.t;
  statsRepo : gmap string ProviderStats.t;
  userRepo : gmap string User.t;
  tierCache : list RevenueShareTier.t;
  clock : Date.t;
}.

Inductive result (A : Type) : Type :=
| Ok (a : A)
| Throw (e : Exception).
Arguments Ok {A} a.
Arguments Throw {A} e.

(** An awaited call: it may change the store and either returns or
    throws; what was written before a throw stays written. *)
Definition M (A : Type) : Type := Store -> Store * result A.

Definition ret {A : Type} (a : A) : M A := fun st => (st, Ok a).

Definition throw {A : Type} (e : Exception) : M A := fun st => (st, Throw e).

Definition bind {A B : Type} (c : M A) (k : A -> M B) : M B :=
  fun st =>
    match c st with
    | (st', Ok a) => k a st'
    | (st', Throw e) => (st', Throw e)
    end.

Definition try_catch {A : Type} (c : M A) (h : Exception -> M A) : M A :=
  fun st =>
    match c st with
    | (st', Ok a) => (st', Ok a)
    | (st', Throw e) => h e st'
    end.

Definition gets {A : Type} (f : Store -> A) : M A := fun st => (st, Ok (f st)).

Definition modify (f : Store -> Store) : M unit := fun st => (f st, Ok tt).

Notation "'let*' x ':=' c 'in' k" := (bind c (fun x => k))
  (at level 10, x name, c at level 200, k at level 200).
Notation "'let*' ' pat ':=' c 'in' k" := (bind c (fun pat => k))
  (at level 10, pat pattern, c at level 200, k at level 200).

(** [new Big(s)] as a call that may throw. *)
Definition newBig (s : string) : M Big.t :=
  match Big.of_string s with
  | Some b => ret b
  | None => throw (Error BigInvalidNumber)
  end.

Definition bigDiv (x y : Big.t) : M Big.t :=
  match Big.div x y with
  | Some q => ret q
  | None => throw (Error BigDivisionByZero)
  end.

(** [new Date()] *)
Definition newDate : M Date.t := gets clock.

(** A loop over an array whose body updates the loop's variables. *)
Fixpoint forEach {A S : Type} (l : list A) (body : A -> S -> M S) (s : S) : M S :=
  match l with
  | [] => ret s
  | x :: l' => let* s' := body x s in forEach l' body s'
  end.

(** ** TierManagerService *)

Record ProviderMetrics : Type := mkMetrics {
  providerId : string;
  winRate : Js.number;
  totalSignals : Js.number;
  totalCopiers : Js.number;
  reputationScore : Js.number;
  walletAddress : string;
}.

Record TierEvaluationResult : Type := mkEvaluation {
  ev_providerId : string;
  ev_previousTier : option ProviderTierLevel;
  newTier : ProviderTierLevel;
  promoted : bool;
  demoted : bool;
  bonusTriggered : bool;
  ev_bonusAmount : string;
}.

(** The parameter object of [recordPayout]. *)
Record PayoutParams : Type := mkParams {
  pp_providerId : string;
  pp_tierLevel : ProviderTierLevel;
  pp_baseRevenue : string;
  pp_sharePercentage : string;
  pp_revenueShareAmount : string;
  pp_bonusAmount : string;
  pp_bonusType : option BonusType;
  pp_totalPayout : string;
  pp_providerWalletAddress : string;
  pp_periodYear : option Z;
  pp_periodMonth : option Z;
}.

Definition DEFAULT_TIERS : list RevenueShareTier.t :=
  [ RevenueShareTier.mk BRONZE "Bronze Provider"
      "Entry-level tier for new signal providers."
      "4.00" "0" 0 0 "0" "0" "0" true 1;
    RevenueShareTier.mk SILVER "Silver Provider"
      "Established providers with a consistent track record."
      "6.00" "55" 20 10 "55" "10" "5" true 2;
    RevenueShareTier.mk GOLD "Gold Provider"
      "High-performing providers with strong copier engagement."
      "8.00" "62" 50 50 "65" "50" "20" true 3;
    RevenueShareTier.mk PLATINUM "Platinum Provider"
      "Elite-class providers with outstanding performance."
      "9.00" "68" 100 150 "75" "150" "50" true 4;
    RevenueShareTier.mk ELITE "Elite Provider"
      "Top-tier providers who receive the maximum 10 % revenue share."
      "10.00" "75" 200 300 "85" "500" "100" true 5 ].

(** Tier precedence used for promotion/demotion comparison. *)
Definition TIER_ORDER : list ProviderTierLevel :=
  [BRONZE; SILVER; GOLD; PLATINUM; ELITE].

Definition tierIndex (t : ProviderTierLevel) : Z :=
  indexOf (fun a b => bool_decide (a = b)) TIER_ORDER t.

(** [tierRepo.findOne({ where: { tierLevel } })] *)
Definition findTier (l : ProviderTierLevel) (rows : list RevenueShareTier.t)
  : option RevenueShareTier.t :=
  List.find (fun t => bool_decide (RevenueShareTier.tierLevel t = l)) rows.

(** [payoutRepo.findOne({ where: { id } })] *)
Definition findPayout (i : nat) (rows : list ProviderRevenuePayout.t)
  : option ProviderRevenuePayout.t :=
  List.find (fun p => Nat.eqb (ProviderRevenuePayout.id p) i) rows.

(** [payoutRepo.save(payout)] for a payout that already has its row.
    [save] writes the properties of the object that are defined and skips
    those that hold [undefined], whose columns stay as they are stored;
    [undefined] lists the properties the caller has set to [undefined].  The
    object itself is returned. *)
Definition savePayout (undefined : list ProviderRevenuePayout.key)
    (p : ProviderRevenuePayout.t) : M ProviderRevenuePayout.t :=
  fun st =>
    let rows :=
      List.map (fun q => if Nat.eqb (ProviderRevenuePayout.id q) (ProviderRevenuePayout.id p)
                         then ProviderRevenuePayout.written undefined q p else q)
               (payoutRepo st) in
    (mkStore (tierRepo st) (assignmentRepo st) rows (statsRepo st) (userRepo st)
             (tierCache st) (clock st), Ok p).

(** [payoutRepo.save(payoutRepo.create(..))]: the row gets the next free
    id and the time of insertion. *)
Definition insertPayout (mkRow : nat -> Date.t -> ProviderRevenuePayout.t)
  : M ProviderRevenuePayout.t :=
  fun st =>
    let p := mkRow (List.length (payoutRepo st)) (clock st) in
    (mkStore (tierRepo st) (assignmentRepo st) (payoutRepo st ++ [p]) (statsRepo st)
             (userRepo st) (tierCache st) (clock st), Ok p).

(** [assignmentRepo.save(assignment)] *)
Definition saveAssignment (a : ProviderTierAssignment.t) : M unit :=
  modify (fun st =>
    mkStore (tierRepo st) (<[ProviderTierAssignment.providerId a := a]> (assignmentRepo st))
            (payoutRepo st) (statsRepo st) (userRepo st) (tierCache st) (clock st)).

(** [tierRepo.save(tierRepo.create(tier))] *)
Definition insertTier (t : RevenueShareTier.t) : M unit :=
  modify (fun st =>
    mkStore (tierRepo st ++ [t]) (assignmentRepo st) (payoutRepo st) (statsRepo st)
            (userRepo st) (tierCache st) (clock st)).

Definition seedDefaultTiers : M unit :=
  forEach DEFAULT_TIERS
    (fun tier _ =>
       let* exists_ := gets (fun st => findTier (RevenueShareTier.tierLevel tier) (tierRepo st)) in
       match exists_ with
       | None => insertTier tier
       | Some _ => ret tt
       end) tt.

Definition refreshTierCache : M unit :=
  modify (fun st =>
    let rows :=
      js_sort (fun a b => RevenueShareTier.sortOrder a - RevenueShareTier.sortOrder b)
              (List.filter RevenueShareTier.isActive (tierRepo st)) in
    mkStore (tierRepo st) (assignmentRepo st) (payoutRepo st) (statsRepo st)
            (userRepo st) rows (clock st)).

Definition onModuleInit : M unit :=
  let* _ := seedDefaultTiers in refreshTierCache.

Definition getCachedTiers (st : Store) : list RevenueShareTier.t := tierCache st.

Definition qualifies (metrics : ProviderMetrics) (tier : RevenueShareTier.t) : bool :=
  Js.geb (winRate metrics) (Js.parseFloat (RevenueShareTier.minWinRate tier))
  && Js.geb (totalSignals metrics) (Js.of_Z (RevenueShareTier.minSignals tier))
  && Js.geb (totalCopiers metrics) (Js.of_Z (RevenueShareTier.minCopiers tier))
  && Js.geb (reputationScore metrics) (Js.parseFloat (RevenueShareTier.minReputationScore tier)).

Definition resolveTierForMetrics (st : Store) (metrics : ProviderMetrics)
  : ProviderTierLevel :=
  let tiers :=
    js_sort (fun a b => tierIndex (RevenueShareTier.tierLevel b)
                        - tierIndex (RevenueShareTier.tierLevel a))
            (getCachedTiers st) in
  match List.find (qualifies metrics) tiers with
  | Some tier => RevenueShareTier.tierLevel tier
  | None => BRONZE
  end.

(** The fields [updateTierConfig] accepts; a field left out is [None]. *)
Record TierConfigUpdates : Type := mkUpdates {
  upd_revenueSharePercentage : option string;
  upd_minWinRate : option string;
  upd_minSignals : option Z;
  upd_minCopiers : option Z;
  upd_performanceBonusUsdc : option string;
  upd_monthlyRetentionBonusUsdc : option string;
  upd_isActive : option bool;
}.

(** [Object.assign(tier, updates)] *)
Definition assignUpdates (tier : RevenueShareTier.t) (updates : TierConfigUpdates)
  : RevenueShareTier.t :=
  RevenueShareTier.mk
    (RevenueShareTier.tierLevel tier) (RevenueShareTier.name tier)
    (RevenueShareTier.description tier)
    (default (RevenueShareTier.revenueSharePercentage tier)
             (upd_revenueSharePercentage updates))
    (default (RevenueShareTier.minWinRate tier) (upd_minWinRate updates))
    (default (RevenueShareTier.minSignals tier) (upd_minSignals updates))
    (default (RevenueShareTier.minCopiers tier) (upd_minCopiers updates))
    (RevenueShareTier.minReputationScore tier)
    (default (RevenueShareTier.performanceBonusUsdc tier)
             (upd_performanceBonusUsdc updates))
    (default (RevenueShareTier.monthlyRetentionBonusUsdc tier)
             (upd_monthlyRetentionBonusUsdc updates))
    (default (RevenueShareTier.isActive tier) (upd_isActive updates))
    (RevenueShareTier.sortOrder tier).

(** The rows with the first one of level [l] replaced by [t]. *)
Fixpoint replaceTier (l : ProviderTierLevel) (t : RevenueShareTier.t)
    (rows : list RevenueShareTier.t) : list RevenueShareTier.t :=
  match rows with
  | [] => []
  | r :: rows' =>
      if bool_decide (RevenueShareTier.tierLevel r = l) then t :: rows'
      else r :: replaceTier l t rows'
  end.

(** [tierRepo.save(tier)] for the row [findTier] has returned. *)
Definition saveTier (tier : RevenueShareTier.t) : M RevenueShareTier.t :=
  fun st =>
    (mkStore (replaceTier (RevenueShareTier.tierLevel tier) tier (tierRepo st))
             (assignmentRepo st) (payoutRepo st) (statsRepo st) (userRepo st)
             (tierCache st) (clock st), Ok tier).

Definition updateTierConfig (tierLevel : ProviderTierLevel) (updates : TierConfigUpdates)
  : M RevenueShareTier.t :=
  let* tier := gets (fun st => findTier tierLevel (tierRepo st)) in
  match tier with
  | None => throw (Error (TierNotFound tierLevel))
  | Some tier =>
      let* saved := saveTier (assignUpdates tier updates) in
      let* _ := refreshTierCache in
      ret saved
  end.

Definition recordPayout (params : PayoutParams) : M ProviderRevenuePayout.t :=
  let* now := newDate in
  insertPayout (fun id createdAt =>
    ProviderRevenuePayout.mk id
      (pp_providerId params) (pp_tierLevel params) (pp_baseRevenue params)
      (pp_sharePercentage params) (pp_revenueShareAmount params)
      (pp_bonusAmount params) (pp_bonusType params) (pp_totalPayout params)
      "USDC" (pp_providerWalletAddress params) PENDING
      (default (Date.getFullYear now) (pp_periodYear params))
      (default (Date.getMonth now + 1) (pp_periodMonth params))
      None None 0 None createdAt).

Definition evaluateProviderWithMetrics (metrics : ProviderMetrics)
  : M TierEvaluationResult :=
  let* newTier := gets (fun st => resolveTierForMetrics st metrics) in
  let* found := gets (fun st => assignmentRepo st !! providerId metrics) in
  let previousTier := ProviderTierAssignment.currentTier <$> found in
  let wasPromoted :=
    match previousTier with
    | Some prev => tierIndex prev <? tierIndex newTier
    | None => false
    end in
  let wasDemoted :=
    match previousTier with
    | Some prev => tierIndex newTier <? tierIndex prev
    | None => false
    end in
  let* now := newDate in
  let '(prev, paid) :=
    match found with
    | None => (None, false)
    | Some a => (Some (ProviderTierAssignment.currentTier a),
                 ProviderTierAssignment.promotionBonusPaid a)
    end in
  let assignment paid' :=
    ProviderTierAssignment.mk (providerId metrics) newTier prev
      (Some (winRate metrics)) (Some (totalSignals metrics))
      (Some (totalCopiers metrics)) (Some (reputationScore metrics))
      (Some now) paid' in
  let tierDef st :=
    List.find (fun t => bool_decide (RevenueShareTier.tierLevel t = newTier))
              (getCachedTiers st) in
  let* '(bonusTriggered, bonusAmount, paid') :=
    (if wasPromoted && negb (String.eqb (walletAddress metrics) "") then
       let* def := gets tierDef in
       match def with
       | Some def =>
           if Js.gtb (Js.parseFloat (RevenueShareTier.performanceBonusUsdc def)) (Js.of_Z 0)
           then
             let bonusAmount := RevenueShareTier.performanceBonusUsdc def in
             let* _ := recordPayout
               (mkParams (providerId metrics) newTier "0" "0" "0" bonusAmount
                         (Some PERFORMANCE) bonusAmount (walletAddress metrics)
                         None None) in
             ret (true, bonusAmount, true)
           else ret (false, "0"%string, paid)
       | None => ret (false, "0"%string, paid)
       end
     else ret (false, "0"%string, paid)) in
  let* _ := saveAssignment (assignment paid') in
  ret (mkEvaluation (providerId metrics) previousTier newTier wasPromoted wasDemoted
                    bonusTriggered bonusAmount).

Definition evaluateProvider (providerId : string) : M TierEvaluationResult :=
  let* stats := gets (fun st => statsRepo st !! providerId) in
  let metrics :=
    mkMetrics providerId
      (match stats with Some s => Js.parseFloat (ProviderStats.winRate s) | None => Js.of_Z 0 end)
      (match stats with Some s => Js.of_Z (ProviderStats.totalSignals s) | None => Js.of_Z 0 end)
      (match stats with Some s => Js.of_Z (ProviderStats.totalCopiers s) | None => Js.of_Z 0 end)
      (match stats with Some s => Js.parseFloat (ProviderStats.reputationScore s) | None => Js.of_Z 0 end)
      "" in
  evaluateProviderWithMetrics metrics.

Definition evaluateAllProviders : M (list TierEvaluationResult) :=
  let* allStats := gets (fun st => (map_to_list (statsRepo st)).*2) in
  forEach allStats
    (fun stats results =>
       try_catch
         (let* r := evaluateProvider (ProviderStats.providerId stats) in
          ret (results ++ [r]))
         (fun _ => ret results)) [].

(** ** RevenueShareService *)

Module RevenueShareCalculationDto.
Record t : Type := mk {
  providerId : string;
  tierLevel : ProviderTierLevel;
  sharePercentage : string;
  baseRevenue : string;
  revenueShareAmount : string;
  bonusAmount : string;
  bonusType : option BonusType;
  totalPayout : string;
}.
End RevenueShareCalculationDto.

(** The [options] object of [processProviderPayout]. *)
Record PayoutOptions : Type := mkOptions {
  includeBonus : option bool;
  periodYear : option Z;
  periodMonth : option Z;
  bonusOverride : option (string * BonusType);
}.

Inductive DetailStatus : Type := success | failed | skipped.

Inductive DetailReason : Type :=
| ZeroRevenue
| ErrMessage (m : Message).

Record BatchDetail : Type := mkDetail {
  d_providerId : string;
  d_status : DetailStatus;
  d_amount : string;
  d_reason : option DetailReason;
}.

Module MonthlyBatchResult.
Record t : Type := mk {
  processed : Z;
  totalDispatched : string;
  successfulPayouts : Z;
  failedPayouts : Z;
  skipped : Z;
  details : list BatchDetail;
}.
End MonthlyBatchResult.

Record StreakBonusResult : Type := mkStreak {
  bonusIssued : bool;
  sb_bonusAmount : string;
  streakCount : Z;
}.

Record RetentionRoundResult : Type := mkRetention {
  credited : Z;
  totalBonusUsdc : string;
}.

Definition calculateRevenueShare (providerId baseRevenue : string)
    (includeBonus : option bool) : M RevenueShareCalculationDto.t :=
  let includeBonus := default false includeBonus in
  let* b := newBig baseRevenue in
  if Big.lte b (Big.of_Z 0) then throw (BadRequestException BaseRevenueMustBePositive)
  else
    let* assignment := gets (fun st => assignmentRepo st !! providerId) in
    let* assignment :=
      match assignment with
      | Some a => ret (Some a)
      | None =>
          let* _ := evaluateProvider providerId in
          gets (fun st => assignmentRepo st !! providerId)
      end in
    let tierLevel :=
      match assignment with
      | Some a => ProviderTierAssignment.currentTier a
      | None => BRONZE
      end in
    let* tierDef := gets (fun st => findTier tierLevel (tierRepo st)) in
    match tierDef with
    | None => throw (NotFoundException (TierDefinitionNotFound tierLevel))
    | Some tierDef =>
        let sharePercentage := RevenueShareTier.revenueSharePercentage tierDef in
        let* b := newBig baseRevenue in
        let* pct := newBig sharePercentage in
        let* q := bigDiv (Big.times b pct) (Big.of_Z 100) in
        let revenueShareAmount := Big.toFixed q 8 in
        let* '(bonusAmount, bonusType) :=
          (if includeBonus
              && Js.gtb (Js.parseFloat (RevenueShareTier.monthlyRetentionBonusUsdc tierDef))
                        (Js.of_Z 0)
           then
             let* g := newBig (RevenueShareTier.monthlyRetentionBonusUsdc tierDef) in
             ret (Big.toFixed g 8, Some MONTHLY_TOP)
           else ret ("0.00000000"%string, None)) in
        let* r := newBig revenueShareAmount in
        let* g := newBig bonusAmount in
        let totalPayout := Big.toFixed (Big.plus r g) 8 in
        ret (RevenueShareCalculationDto.mk providerId tierLevel sharePercentage
               baseRevenue revenueShareAmount bonusAmount bonusType totalPayout)
    end.

(** Mark a payout as processing (escalation path for top-tier providers);
    the payout object handed in is the one that is changed. *)
Definition escalatePayout (payout : ProviderRevenuePayout.t) : M ProviderRevenuePayout.t :=
  savePayout [] (ProviderRevenuePayout.set_status PROCESSING payout).

Definition processProviderPayout (providerId baseRevenue : string)
    (options : PayoutOptions) : M ProviderRevenuePayout.t :=
  let includeBonus := default true (includeBonus options) in
  let* calc := calculateRevenueShare providerId baseRevenue (Some includeBonus) in
  let* user := gets (fun st => userRepo st !! providerId) in
  match user with
  | None => throw (NotFoundException (ProviderUserNotFound providerId))
  | Some user =>
      let bonusAmount :=
        match bonusOverride options with
        | Some (amount, _) => amount
        | None => RevenueShareCalculationDto.bonusAmount calc
        end in
      let bonusType :=
        match bonusOverride options with
        | Some (_, type) => Some type
        | None => RevenueShareCalculationDto.bonusType calc
        end in
      let* r := newBig (RevenueShareCalculationDto.revenueShareAmount calc) in
      let* g := newBig bonusAmount in
      let totalPayout := Big.toFixed (Big.plus r g) 8 in
      let* payout := recordPayout
        (mkParams providerId (RevenueShareCalculationDto.tierLevel calc) baseRevenue
           (RevenueShareCalculationDto.sharePercentage calc)
           (RevenueShareCalculationDto.revenueShareAmount calc)
           bonusAmount bonusType totalPayout (User.walletAddress user)
           (periodYear options) (periodMonth options)) in
      if bool_decide (RevenueShareCalculationDto.tierLevel calc = ELITE)
         || bool_decide (RevenueShareCalculationDto.tierLevel calc = PLATINUM)
      then escalatePayout payout
      else ret payout
  end.

(** The body of the loop of [processMontlyBatch]: [result] and the running
    total after one more entry of the revenue map.  The revenue is compared
    with zero before the [try] block is entered. *)
Definition batchStep (year month : Z) (entry : string * string)
    (vars : MonthlyBatchResult.t * Big.t) : M (MonthlyBatchResult.t * Big.t) :=
  let '(providerId, baseRevenue) := entry in
  let '(result, totalDispatched) := vars in
  let processed := MonthlyBatchResult.processed result + 1 in
  let* b := newBig baseRevenue in
  if Big.lte b (Big.of_Z 0) then
    ret (MonthlyBatchResult.mk processed
           (MonthlyBatchResult.totalDispatched result)
           (MonthlyBatchResult.successfulPayouts result)
           (MonthlyBatchResult.failedPayouts result)
           (MonthlyBatchResult.skipped result + 1)
           (MonthlyBatchResult.details result
              ++ [mkDetail providerId skipped "0" (Some ZeroRevenue)]),
         totalDispatched)
  else
    try_catch
      (let* payout := processProviderPayout providerId baseRevenue
                        (mkOptions (Some true) (Some year) (Some month) None) in
       let* t := newBig (ProviderRevenuePayout.totalPayout payout) in
       ret (MonthlyBatchResult.mk processed
              (MonthlyBatchResult.totalDispatched result)
              (MonthlyBatchResult.successfulPayouts result + 1)
              (MonthlyBatchResult.failedPayouts result)
              (MonthlyBatchResult.skipped result)
              (MonthlyBatchResult.details result
                 ++ [mkDetail providerId success
                       (ProviderRevenuePayout.totalPayout payout) None]),
            Big.plus totalDispatched t))
      (fun err =>
         ret (MonthlyBatchResult.mk processed
                (MonthlyBatchResult.totalDispatched result)
                (MonthlyBatchResult.successfulPayouts result)
                (MonthlyBatchResult.failedPayouts result + 1)
                (MonthlyBatchResult.skipped result)
                (MonthlyBatchResult.details result
                   ++ [mkDetail providerId failed "0"
                         (Some (ErrMessage (message err)))]),
              totalDispatched)).

Definition processMontlyBatch (year month : Z) (revenueMap : list (string * string))
  : M MonthlyBatchResult.t :=
  let* '(result, totalDispatched) :=
    forEach revenueMap (batchStep year month)
      (MonthlyBatchResult.mk 0 "0" 0 0 0 [], Big.of_Z 0) in
  ret (MonthlyBatchResult.mk
         (MonthlyBatchResult.processed result)
         (Big.toFixed totalDispatched 8)
         (MonthlyBatchResult.successfulPayouts result)
         (MonthlyBatchResult.failedPayouts result)
         (MonthlyBatchResult.skipped result)
         (MonthlyBatchResult.details result)).

(** The [reason] is only written to the log. *)
Definition awardPerformanceBonus (providerId bonusAmountUsdc : string)
    (bonusType : BonusType) (reason : option string) : M ProviderRevenuePayout.t :=
  let* user := gets (fun st => userRepo st !! providerId) in
  match user with
  | None => throw (NotFoundException (ProviderNotFound providerId))
  | Some user =>
      let* assignment := gets (fun st => assignmentRepo st !! providerId) in
      let tierLevel :=
        match assignment with
        | Some a => ProviderTierAssignment.currentTier a
        | None => BRONZE
        end in
      recordPayout
        (mkParams providerId tierLevel "0" "0" "0" bonusAmountUsdc (Some bonusType)
                  bonusAmountUsdc (User.walletAddress user) None None)
  end.

Definition confirmPayout (payoutId : nat) (stellarTxHash : string)
  : M ProviderRevenuePayout.t :=
  let* payout := gets (fun st => findPayout payoutId (payoutRepo st)) in
  match payout with
  | None => throw (NotFoundException (PayoutNotFound payoutId))
  | Some payout =>
      if bool_decide (ProviderRevenuePayout.status payout = COMPLETED) then ret payout
      else
        let* now := newDate in
        savePayout []
          (ProviderRevenuePayout.set_paidAt (Some now)
             (ProviderRevenuePayout.set_stellarTxHash (Some stellarTxHash)
                (ProviderRevenuePayout.set_status COMPLETED payout)))
  end.

Definition markPayoutFailed (payoutId : nat) (reason : string)
  : M ProviderRevenuePayout.t :=
  let* payout := gets (fun st => findPayout payoutId (payoutRepo st)) in
  match payout with
  | None => throw (NotFoundException (PayoutNotFound payoutId))
  | Some payout =>
      savePayout []
        (ProviderRevenuePayout.set_retryCount (ProviderRevenuePayout.retryCount payout + 1)
           (ProviderRevenuePayout.set_failureReason (Some reason)
              (ProviderRevenuePayout.set_status FAILED payout)))
  end.

Definition runRetentionBonusRound (year month : Z) : M RetentionRoundResult :=
  let topTiers := [ELITE; PLATINUM] in
  let* '(credited, totalBonus) :=
    forEach topTiers
      (fun tier '(credited, totalBonus) =>
         let* assignments := gets (fun st =>
           List.filter (fun a => bool_decide (ProviderTierAssignment.currentTier a = tier))
                       (map_to_list (assignmentRepo st)).*2) in
         let* tierDef := gets (fun st => findTier tier (tierRepo st)) in
         match tierDef with
         | None => ret (credited, totalBonus)
         | Some tierDef =>
             if Js.eqb (Js.parseFloat (RevenueShareTier.monthlyRetentionBonusUsdc tierDef))
                       (Js.of_Z 0)
             then ret (credited, totalBonus)
             else
               forEach assignments
                 (fun assignment '(credited, totalBonus) =>
                    try_catch
                      (let* user := gets (fun st =>
                         userRepo st !! ProviderTierAssignment.providerId assignment) in
                       match user with
                       | None => ret (credited, totalBonus)
                       | Some user =>
                           let* _ := recordPayout
                             (mkParams (ProviderTierAssignment.providerId assignment) tier
                                "0" "0" "0"
                                (RevenueShareTier.monthlyRetentionBonusUsdc tierDef)
                                (Some MONTHLY_TOP)
                                (RevenueShareTier.monthlyRetentionBonusUsdc tierDef)
                                (User.walletAddress user) (Some year) (Some month)) in
                           let* g := newBig (RevenueShareTier.monthlyRetentionBonusUsdc tierDef) in
                           ret (credited + 1, Big.plus totalBonus g)
                       end)
                      (fun _ => ret (credited, totalBonus)))
                 (credited, totalBonus)
         end)
      (0, Big.of_Z 0) in
  ret (mkRetention credited (Big.toFixed totalBonus 8)).

Definition retryFailedPayout (payoutId : nat) : M ProviderRevenuePayout.t :=
  let* payout := gets (fun st => findPayout payoutId (payoutRepo st)) in
  match payout with
  | None => throw (NotFoundException (PayoutNotFound payoutId))
  | Some payout =>
      if negb (bool_decide (ProviderRevenuePayout.status payout = FAILED)) then
        throw (BadRequestException
                 (OnlyFailedCanBeRetried (ProviderRevenuePayout.status payout)))
      else if 5 <=? ProviderRevenuePayout.retryCount payout then
        throw (BadRequestException (MaxRetryAttemptsExceeded payoutId))
      else
        (* payout.status = PENDING; payout.failureReason = undefined *)
        savePayout [ProviderRevenuePayout.FailureReasonKey]
          (ProviderRevenuePayout.set_failureReason None
             (ProviderRevenuePayout.set_status PENDING payout))
  end.

(** Win-streak thresholds and their bonus amounts (USDC). *)
Definition streakThresholds : list (Z * string) :=
  [(20, "200"); (10, "75"); (5, "25")]%string.

Definition checkAndIssueStreakBonus (providerId : string) : M StreakBonusResult :=
  let* stats := gets (fun st => statsRepo st !! providerId) in
  match stats with
  | None => ret (mkStreak false "0" 0)
  | Some stats =>
      let streak := ProviderStats.streakWins stats in
      let match_ :=
        List.find (fun t => (t.1 <=? streak) && (Z.rem streak t.1 =? 0)) streakThresholds in
      match match_ with
      | None => ret (mkStreak false "0" streak)
      | Some (_, bonus) =>
          let* now := newDate in
          let startOfMonth := Date.firstOfMonth (Date.getFullYear now) (Date.getMonth now) in
          let* existingBonus := gets (fun st =>
            List.find
              (fun p => String.eqb (ProviderRevenuePayout.providerId p) providerId
                        && bool_decide (ProviderRevenuePayout.bonusType p = Some STREAK)
                        && Date.between startOfMonth now (ProviderRevenuePayout.createdAt p))
              (payoutRepo st)) in
          match existingBonus with
          | Some _ => ret (mkStreak false "0" streak)
          | None =>
              let* _ := awardPerformanceBonus providerId bonus STREAK
                          (Some (String.append "Win streak of " (Z_digits streak ""))) in
              ret (mkStreak true bonus streak)
          end
      end
  end.

(** ** Notions used in the statements *)

(** [digit_run s k v rest]: [s] is [k] digits of value [v] followed by
    [rest], as the scanner sees it. *)
Definition digit_run (s : string) (k : nat) (v : Z) (rest : string) : Prop :=
  forall a c, scan_digits s a c = scan_digits rest (a * pow10 k + v) (c + k)%nat.

(** A non-negative amount [a] in units of [10 ^ -d], printed in fixed
    notation with [d] decimals. *)
Definition fixed_body (a : Z) (d : nat) : string :=
  Z_digits (a / pow10 d)
    (if Nat.eqb d 0 then EmptyString else String "." (fixed_digits d a EmptyString)).


(** A tier some threshold of which is above zero. *)
Definition hasPositiveThreshold (t : RevenueShareTier.t) : bool :=
  Js.gtb (Js.parseFloat (RevenueShareTier.minWinRate t)) (Js.of_Z 0)
  || (0 <? RevenueShareTier.minSignals t)
  || (0 <? RevenueShareTier.minCopiers t)
  || Js.gtb (Js.parseFloat (RevenueShareTier.minReputationScore t)) (Js.of_Z 0).

(** The metrics of a provider without any record. *)
Definition zeroMetrics (providerId walletAddress : string) : ProviderMetrics :=
  mkMetrics providerId (Js.of_Z 0) (Js.of_Z 0) (Js.of_Z 0) (Js.of_Z 0) walletAddress.

(** The tiers as [resolveTierForMetrics] walks through them. *)
Definition tiersByPrecedence (st : Store) : list RevenueShareTier.t :=
  js_sort (fun a b => tierIndex (RevenueShareTier.tierLevel b)
                      - tierIndex (RevenueShareTier.tierLevel a))
          (getCachedTiers st).

(** *** Stores used as concrete inputs *)

Definition noon : Date.t := Date.mk 2026 10 43200000.

Definition emptyStore : Store := mkStore [] ∅ [] ∅ ∅ [] noon.

(** The store once the module has started on an empty database. *)
Definition seededStore : Store := (onModuleInit emptyStore).1.

(** Time passing: the clock of the store is put forward to [d]. *)
Definition setClock (d : Date.t) (st : Store) : Store :=
  mkStore (tierRepo st) (assignmentRepo st) (payoutRepo st) (statsRepo st)
          (userRepo st) (tierCache st) d.

(** One more failed dispatch of a payout that is being retried. *)
Definition retryThenFail (payoutId : nat) (reason : string) : M ProviderRevenuePayout.t :=
  let* _ := retryFailedPayout payoutId in markPayoutFailed payoutId reason.

Fixpoint times {A : Type} (n : nat) (c : M A) : M unit :=
  match n with
  | O => ret tt
  | S n' => let* _ := c in times n' c
  end.

(** A provider with a wallet, and a ledger holding one payout of theirs
    in the given state. *)
Definition payoutRow (status : PayoutStatus) (retryCount : Z) : ProviderRevenuePayout.t :=
  ProviderRevenuePayout.mk 0 "provider-1" GOLD "1000" "8.00" "80.00000000"
    "20.00000000" (Some MONTHLY_TOP) "100.00000000" "USDC" "GWALLET1" status
    2026 11 None None retryCount None noon.

Definition ledgerStore (status : PayoutStatus) (retryCount : Z) : Store :=
  mkStore (tierRepo seededStore) ∅ [payoutRow status retryCount] ∅
          (<["provider-1" := User.mk "provider-1" "GWALLET1"]> ∅)
          (tierCache seededStore) noon.

(** A ledger as the services write it: a payout recorded for a GOLD
    provider whose dispatch has then failed once. *)
Definition failedOnceStore : Store :=
  (markPayoutFailed 0 "rejected" (ledgerStore PENDING 0)).1.

(** A call that leaves the ledger of payouts as it found it, whether it
    returns or throws. *)
Definition keepsLedger {A : Type} (c : M A) : Prop :=
  forall st, payoutRepo (c st).1 = payoutRepo st.

(** The metrics [evaluateProvider] builds for a provider. *)
Definition metricsOf (st : Store) (providerId : string) : ProviderMetrics :=
  let stats := statsRepo st !! providerId in
  mkMetrics providerId
    (match stats with Some s => Js.parseFloat (ProviderStats.winRate s) | None => Js.of_Z 0 end)
    (match stats with Some s => Js.of_Z (ProviderStats.totalSignals s) | None => Js.of_Z 0 end)
    (match stats with Some s => Js.of_Z (ProviderStats.totalCopiers s) | None => Js.of_Z 0 end)
    (match stats with Some s => Js.parseFloat (ProviderStats.reputationScore s) | None => Js.of_Z 0 end)
    "".

(** The assignment an evaluation writes. *)
Definition evaluatedAssignment (st : Store) (metrics : ProviderMetrics) (paid : bool)
  : ProviderTierAssignment.t :=
  let found := assignmentRepo st !! providerId metrics in
  ProviderTierAssignment.mk (providerId metrics) (resolveTierForMetrics st metrics)
    (ProviderTierAssignment.currentTier <$> found)
    (Some (winRate metrics)) (Some (totalSignals metrics))
    (Some (totalCopiers metrics)) (Some (reputationScore metrics))
    (Some (clock st))
    (paid || match found with
             | Some a => ProviderTierAssignment.promotionBonusPaid a
             | None => false
             end).

(** Whether the evaluation of [metrics] in [st] is a promotion. *)
Definition isPromotion (st : Store) (metrics : ProviderMetrics) : bool :=
  match assignmentRepo st !! providerId metrics with
  | Some a => tierIndex (ProviderTierAssignment.currentTier a)
              <? tierIndex (resolveTierForMetrics st metrics)
  | None => false
  end.

(** The promotion bonus of the tier [metrics] resolve to, when the cached
    definition has one above zero. *)
Definition promotionBonus (st : Store) (metrics : ProviderMetrics) : option string :=
  match List.find (fun t => bool_decide (RevenueShareTier.tierLevel t
                                         = resolveTierForMetrics st metrics))
                  (getCachedTiers st) with
  | Some def =>
      if Js.gtb (Js.parseFloat (RevenueShareTier.performanceBonusUsdc def)) (Js.of_Z 0)
      then Some (RevenueShareTier.performanceBonusUsdc def)
      else None
  | None => None
  end.

(** The bonus-only payout row written for [providerId]. *)
Definition bonusRow (st : Store) (providerId : string) (tier : ProviderTierLevel)
    (amount : string) (type : BonusType) (wallet : string)
    (year month : option Z) : ProviderRevenuePayout.t :=
  ProviderRevenuePayout.mk (List.length (payoutRepo st)) providerId tier "0" "0" "0"
    amount (Some type) amount "USDC" wallet PENDING
    (default (Date.getFullYear (clock st)) year)
    (default (Date.getMonth (clock st) + 1) month)
    None None 0 None (clock st).

(** Metrics that meet the default SILVER thresholds and no higher ones,
    with a wallet address. *)
Definition silverMetrics (providerId : string) : ProviderMetrics :=
  mkMetrics providerId (Js.of_Z 60) (Js.of_Z 25) (Js.of_Z 12) (Js.of_Z 60) "GWALLET1".

(** Four evaluations in a row: first seen, promoted to SILVER, demoted to
    BRONZE, promoted to SILVER again. *)
Definition upDownUp (providerId : string) : M (list TierEvaluationResult) :=
  let* r1 := evaluateProviderWithMetrics (zeroMetrics providerId "GWALLET1") in
  let* r2 := evaluateProviderWithMetrics (silverMetrics providerId) in
  let* r3 := evaluateProviderWithMetrics (zeroMetrics providerId "GWALLET1") in
  let* r4 := evaluateProviderWithMetrics (silverMetrics providerId) in
  ret [r1; r2; r3; r4].

(** A provider assigned to BRONZE whose statistics now meet the SILVER
    thresholds. *)
Definition risingStore : Store :=
  mkStore (tierRepo seededStore)
    (<["provider-1" := ProviderTierAssignment.mk "provider-1" BRONZE None None None None
                         None None false]> ∅)
    []
    (<["provider-1" := ProviderStats.mk "provider-1" "60.5" 25 12 "60" 10]> ∅)
    (<["provider-1" := User.mk "provider-1" "GWALLET1"]> ∅)
    (tierCache seededStore) noon.

(** The store three evaluations into [upDownUp]: the provider has been
    promoted and paid once, then demoted. *)
Definition afterDemotion : Store :=
  ((let* _ := evaluateProviderWithMetrics (zeroMetrics "provider-1" "GWALLET1") in
    let* _ := evaluateProviderWithMetrics (silverMetrics "provider-1") in
    evaluateProviderWithMetrics (zeroMetrics "provider-1" "GWALLET1")) seededStore).1.



(** The tier a provider is currently assigned to, BRONZE without an
    assignment. *)
Definition assignedTier (st : Store) (providerId : string) : ProviderTierLevel :=
  match assignmentRepo st !! providerId with
  | Some a => ProviderTierAssignment.currentTier a
  | None => BRONZE
  end.

(** The store with one more row in the ledger. *)
Definition withPayout (st : Store) (p : ProviderRevenuePayout.t) : Store :=
  mkStore (tierRepo st) (assignmentRepo st) (payoutRepo st ++ [p]) (statsRepo st)
          (userRepo st) (tierCache st) (clock st).


(** The store [calculateRevenueShare] goes on with: a provider without an
    assignment is evaluated first. *)
Definition withAssignment (st : Store) (providerId : string) : Store :=
  match assignmentRepo st !! providerId with
  | Some _ => st
  | None => (evaluateProvider providerId st).1
  end.

(** A provider assigned to a tier, with a wallet. *)
Definition tierStore (tier : ProviderTierLevel) : Store :=
  mkStore (tierRepo seededStore)
    (<["provider-1" := ProviderTierAssignment.mk "provider-1" tier None None None None
                         None None false]> ∅)
    [] ∅
    (<["provider-1" := User.mk "provider-1" "GWALLET1"]> ∅)
    (tierCache seededStore) noon.

(** The bonus [processProviderPayout] records: the override when there is
    one, what was calculated otherwise. *)
Definition appliedBonus (options : PayoutOptions) (calc : RevenueShareCalculationDto.t)
  : string * option BonusType :=
  match bonusOverride options with
  | Some (amount, type) => (amount, Some type)
  | None => (RevenueShareCalculationDto.bonusAmount calc,
             RevenueShareCalculationDto.bonusType calc)
  end.

(** The tiers whose payouts are approved automatically. *)
Definition isTopTier (tier : ProviderTierLevel) : bool :=
  bool_decide (tier = ELITE) || bool_decide (tier = PLATINUM).

(** The parameters [processProviderPayout] hands to [recordPayout]. *)
Definition payoutParams (providerId baseRevenue : string) (options : PayoutOptions)
    (calc : RevenueShareCalculationDto.t) (total wallet : string) : PayoutParams :=
  mkParams providerId (RevenueShareCalculationDto.tierLevel calc) baseRevenue
    (RevenueShareCalculationDto.sharePercentage calc)
    (RevenueShareCalculationDto.revenueShareAmount calc)
    (appliedBonus options calc).1 (appliedBonus options calc).2 total wallet
    (periodYear options) (periodMonth options).

(** The row [recordPayout] writes for the given parameters. *)
Definition recordedRow (st : Store) (params : PayoutParams) : ProviderRevenuePayout.t :=
  ProviderRevenuePayout.mk (List.length (payoutRepo st))
    (pp_providerId params) (pp_tierLevel params) (pp_baseRevenue params)
    (pp_sharePercentage params) (pp_revenueShareAmount params)
    (pp_bonusAmount params) (pp_bonusType params) (pp_totalPayout params)
    "USDC" (pp_providerWalletAddress params) PENDING
    (default (Date.getFullYear (clock st)) (pp_periodYear params))
    (default (Date.getMonth (clock st) + 1) (pp_periodMonth params))
    None None 0 None (clock st).

(** The options the monthly batch pays every provider with. *)
Definition batchOptions (year month : Z) : PayoutOptions :=
  mkOptions (Some true) (Some year) (Some month) None.

(** The monthly batch as the specification words it: provider after
    provider, a revenue of zero or less is skipped, a payout that returns
    is a success carrying its total, a payout that throws is a failure
    carrying the message, and in each case the run goes on with the rest
    from the store that provider left. *)
Inductive batchRun (year month : Z)
  : list (string * string) -> Store -> list BatchDetail -> Store -> Prop :=
| batch_done (st : Store) :
    batchRun year month [] st [] st
| batch_skipped (pid rev : string) (b : Big.t) rest st ds st' :
    Big.of_string rev = Some b -> Big.coef b <= 0 ->
    batchRun year month rest st ds st' ->
    batchRun year month ((pid, rev) :: rest) st
      (mkDetail pid skipped "0" (Some ZeroRevenue) :: ds) st'
| batch_success (pid rev : string) (b : Big.t) rest st st1 payout ds st' :
    Big.of_string rev = Some b -> 0 < Big.coef b ->
    processProviderPayout pid rev (batchOptions year month) st = (st1, Ok payout) ->
    batchRun year month rest st1 ds st' ->
    batchRun year month ((pid, rev) :: rest) st
      (mkDetail pid success (ProviderRevenuePayout.totalPayout payout) None :: ds) st'
| batch_failed (pid rev : string) (b : Big.t) rest st st1 e ds st' :
    Big.of_string rev = Some b -> 0 < Big.coef b ->
    processProviderPayout pid rev (batchOptions year month) st = (st1, Throw e) ->
    batchRun year month rest st1 ds st' ->
    batchRun year month ((pid, rev) :: rest) st
      (mkDetail pid failed "0" (Some (ErrMessage (message e))) :: ds) st'.

(** How many details carry a status. *)
Definition countStatus (s : DetailStatus) (ds : list BatchDetail) : Z :=
  Z.of_nat (List.length
              (List.filter (fun d => match d_status d, s with
                                     | success, success | failed, failed
                                     | skipped, skipped => true
                                     | _, _ => false
                                     end) ds)).

(** An amount in units of [10 ^ -8], zero for a string that is no
    numeral. *)
Definition amountUnits (s : string) : Z :=
  match Big.of_string s with
  | Some x => Big.coef (Big.round x 8)
  | None => 0
  end.

(** The amounts of the successes, added up. *)
Fixpoint dispatchedUnits (ds : list BatchDetail) : Z :=
  match ds with
  | [] => 0
  | d :: ds' =>
      match d_status d with
      | success => amountUnits (d_amount d) + dispatchedUnits ds'
      | _ => dispatchedUnits ds'
      end
  end.

(** The running total of the batch stands for [u] units. *)
Definition totalStandsFor (acc : Big.t) (u : Z) : Prop :=
  Big.toFixed acc 8 = Big.toFixed (Big.mk u 8) 8
  /\ forall c, Big.plus acc (Big.mk c 8) = Big.mk (u + c) 8.

(** The total of a payout is the sum of its two amounts, printed with
    8 decimals. *)
Definition totalIsFormattedSum (p : ProviderRevenuePayout.t) : Prop :=
  exists r g,
    Big.of_string (ProviderRevenuePayout.revenueShareAmount p) = Some r
    /\ Big.of_string (ProviderRevenuePayout.bonusAmount p) = Some g
    /\ ProviderRevenuePayout.totalPayout p = Big.toFixed (Big.plus r g) 8.

(** A payout that is a bonus and nothing else: the share is "0" and the
    total is the very string of the bonus amount. *)
Definition isBonusOnly (p : ProviderRevenuePayout.t) : Prop :=
  ProviderRevenuePayout.revenueShareAmount p = "0"%string
  /\ ProviderRevenuePayout.totalPayout p = ProviderRevenuePayout.bonusAmount p.

(** A call that, whether it returns or throws, only adds bonus-only rows
    at the end of the ledger. *)
Definition addsBonusRows {A : Type} (c : M A) : Prop :=
  forall st, exists rows,
    payoutRepo (c st).1 = payoutRepo st ++ rows /\ Forall isBonusOnly rows.

(** Providers of the two top tiers, with wallets. *)
Definition topTierStore : Store :=
  mkStore (tierRepo seededStore)
    (<["provider-1" := ProviderTierAssignment.mk "provider-1" ELITE None None None None
                         None None false]>
       (<["provider-2" := ProviderTierAssignment.mk "provider-2" PLATINUM None None None
                            None None None false]> ∅))
    [] ∅
    (<["provider-1" := User.mk "provider-1" "GWALLET1"]>
       (<["provider-2" := User.mk "provider-2" "GWALLET2"]> ∅))
    (tierCache seededStore) noon.

(** The module started on an empty database, then a series of calls of
    [updateTierConfig], the ones that throw included. *)
Definition configuredStore (updates : list (ProviderTierLevel * TierConfigUpdates))
  : Store :=
  (forEach updates
     (fun '(tierLevel, upd) _ =>
        try_catch (let* _ := updateTierConfig tierLevel upd in ret tt)
                  (fun _ => ret tt)) tt seededStore).1.

(** A tier that is BRONZE or asks for a reputation above zero. *)
Definition floorOrReputed (t : RevenueShareTier.t) : Prop :=
  RevenueShareTier.tierLevel t = BRONZE
  \/ Js.gtb (Js.parseFloat (RevenueShareTier.minReputationScore t)) (Js.of_Z 0) = true.

(** * Further operations of the two services *)

(** ** TierManagerService: queries *)

Definition getProviderTier (providerId : string) : M (option ProviderTierAssignment.t) :=
  gets (fun st => assignmentRepo st !! providerId).

(** [assignmentRepo.find({ where: { currentTier } })]; the rows come in
    the order the table gives them. *)
Definition assignmentsInTier (tierLevel : ProviderTierLevel) (st : Store)
  : list ProviderTierAssignment.t :=
  List.filter (fun a => bool_decide (ProviderTierAssignment.currentTier a = tierLevel))
              (map_to_list (assignmentRepo st)).*2.

Definition getProvidersInTier (tierLevel : ProviderTierLevel)
  : M (list ProviderTierAssignment.t) :=
  gets (assignmentsInTier tierLevel).

Record TierSummary : Type := mkSummary {
  ts_tierLevel : ProviderTierLevel;
  ts_name : string;
  ts_revenueSharePercentage : string;
  ts_minWinRate : string;
  ts_minSignals : Z;
  ts_minCopiers : Z;
  ts_performanceBonusUsdc : string;
  ts_monthlyRetentionBonusUsdc : string;
  providerCount : Z;
}.

Definition getTierSummaries : M (list TierSummary) :=
  let* tiers := gets (fun st =>
    js_sort (fun a b => RevenueShareTier.sortOrder a - RevenueShareTier.sortOrder b)
            (List.filter RevenueShareTier.isActive (tierRepo st))) in
  forEach tiers
    (fun tier summaries =>
       let* count := gets (fun st =>
         Z.of_nat (List.length (assignmentsInTier (RevenueShareTier.tierLevel tier) st))) in
       ret (summaries
              ++ [mkSummary (RevenueShareTier.tierLevel tier) (RevenueShareTier.name tier)
                    (RevenueShareTier.revenueSharePercentage tier)
                    (RevenueShareTier.minWinRate tier)
                    (RevenueShareTier.minSignals tier)
                    (RevenueShareTier.minCopiers tier)
                    (RevenueShareTier.performanceBonusUsdc tier)
                    (RevenueShareTier.monthlyRetentionBonusUsdc tier)
                    count]))
    [].

Definition getAllTierConfigs : M (list RevenueShareTier.t) :=
  gets (fun st =>
    js_sort (fun a b => RevenueShareTier.sortOrder a - RevenueShareTier.sortOrder b)
            (tierRepo st)).

Definition getTierConfig (tierLevel : ProviderTierLevel) : M (option RevenueShareTier.t) :=
  gets (fun st => findTier tierLevel (tierRepo st)).

(** ** Notions used in the statements on tiers *)

(** The levels of the tier rows, in table order. *)
Definition tierLevels (rows : list RevenueShareTier.t) : list ProviderTierLevel :=
  List.map RevenueShareTier.tierLevel rows.

(** The default tiers that have no row yet. *)
Definition missingDefaults (rows : list RevenueShareTier.t) : list RevenueShareTier.t :=
  List.filter (fun t => if findTier (RevenueShareTier.tierLevel t) rows is Some _
                        then false else true) DEFAULT_TIERS.

(** The active rows, by ascending [sortOrder]. *)
Definition activeTiers (rows : list RevenueShareTier.t) : list RevenueShareTier.t :=
  js_sort (fun a b => RevenueShareTier.sortOrder a - RevenueShareTier.sortOrder b)
          (List.filter RevenueShareTier.isActive rows).

(** An update that switches a tier off and leaves the rest alone. *)
Definition deactivate : TierConfigUpdates :=
  mkUpdates None None None None None None (Some false).

(** The store with other tier rows. *)
Definition withTierRows (st : Store) (rows : list RevenueShareTier.t) : Store :=
  mkStore rows (assignmentRepo st) (payoutRepo st) (statsRepo st) (userRepo st)
          (tierCache st) (clock st).

(** The summary of a tier row in a store. *)
Definition summaryOf (st : Store) (tier : RevenueShareTier.t) : TierSummary :=
  mkSummary (RevenueShareTier.tierLevel tier) (RevenueShareTier.name tier)
    (RevenueShareTier.revenueSharePercentage tier) (RevenueShareTier.minWinRate tier)
    (RevenueShareTier.minSignals tier) (RevenueShareTier.minCopiers tier)
    (RevenueShareTier.performanceBonusUsdc tier)
    (RevenueShareTier.monthlyRetentionBonusUsdc tier)
    (Z.of_nat (List.length (assignmentsInTier (RevenueShareTier.tierLevel tier) st))).

(** The provider counts of a list of summaries, added up. *)
Definition totalProviderCount (summaries : list TierSummary) : Z :=
  foldr (fun s n => providerCount s + n) 0 summaries.

(** The assignments whose tier is one of the given levels. *)
Definition assignmentsAt (levels : list ProviderTierLevel) (st : Store)
  : list ProviderTierAssignment.t :=
  List.filter (fun a => bool_decide (ProviderTierAssignment.currentTier a ∈ levels))
              (map_to_list (assignmentRepo st)).*2.

(** The statistics rows are filed under their own provider. *)
Definition statsKeyed (st : Store) : Prop :=
  forall pid s, statsRepo st !! pid = Some s -> ProviderStats.providerId s = pid.

(** A provider with statistics that meet the default SILVER thresholds
    and one without any signal so far. *)
Definition statsStore : Store :=
  mkStore (tierRepo seededStore) ∅ []
    (<["provider-1" := ProviderStats.mk "provider-1" "60" 25 12 "60" 0]>
       (<["provider-2" := ProviderStats.mk "provider-2" "0" 0 0 "0" 0]> ∅))
    ∅ (tierCache seededStore) noon.

(** ** RevenueShareService: history and reporting *)

(** The order of two dates: negative, zero or positive. *)
Definition dateCompare (a b : Date.t) : Z :=
  if Date.leb a b then (if Date.leb b a then 0 else -1) else 1.

(** [order: { createdAt: 'DESC' }]; rows created at the same time stay in
    table order, the database leaves their order open. *)
Definition newestFirst (rows : list ProviderRevenuePayout.t)
  : list ProviderRevenuePayout.t :=
  js_sort (fun a b => dateCompare (ProviderRevenuePayout.createdAt b)
                                  (ProviderRevenuePayout.createdAt a)) rows.

(** [order: { createdAt: 'ASC' }] *)
Definition oldestFirst (rows : list ProviderRevenuePayout.t)
  : list ProviderRevenuePayout.t :=
  js_sort (fun a b => dateCompare (ProviderRevenuePayout.createdAt a)
                                  (ProviderRevenuePayout.createdAt b)) rows.

(** [payoutRepo.find({ where: { providerId } })] *)
Definition payoutsOf (providerId : string) (rows : list ProviderRevenuePayout.t)
  : list ProviderRevenuePayout.t :=
  List.filter (fun p => String.eqb (ProviderRevenuePayout.providerId p) providerId) rows.

Record PayoutHistoryDto : Type := mkHistory {
  h_data : list ProviderRevenuePayout.t;
  h_total : Z;
  h_page : Z;
  h_limit : Z;
}.

(** [skip] and [take] are the offset and the limit of the query; they are
    modelled for a page and a limit of at least one. *)
Definition getProviderPayoutHistory (providerId : string) (page limit : option Z)
  : M PayoutHistoryDto :=
  let page := default 1 page in
  let limit := default 20 limit in
  let* found := gets (fun st => newestFirst (payoutsOf providerId (payoutRepo st))) in
  let data := List.firstn (Z.to_nat limit)
                (List.skipn (Z.to_nat ((page - 1) * limit)) found) in
  ret (mkHistory data (Z.of_nat (List.length found)) page limit).

(** [take] is the limit of the query, modelled for a limit of at least
    one. *)
Definition getPendingPayouts (limit : option Z) : M (list ProviderRevenuePayout.t) :=
  let limit := default 50 limit in
  gets (fun st =>
    List.firstn (Z.to_nat limit)
      (oldestFirst
         (List.filter (fun p => bool_decide (ProviderRevenuePayout.status p = PENDING))
                      (payoutRepo st)))).

(** A [Map] or a plain object used as one: the entries in the order their
    keys were first set. *)
Fixpoint mapGet {K V : Type} `{EqDecision K} (key : K) (m : list (K * V)) : option V :=
  match m with
  | [] => None
  | (k, v) :: m' => if bool_decide (k = key) then Some v else mapGet key m'
  end.

Fixpoint mapSet {K V : Type} `{EqDecision K} (key : K) (v : V) (m : list (K * V))
  : list (K * V) :=
  match m with
  | [] => [(key, v)]
  | (k, w) :: m' =>
      if bool_decide (k = key) then (k, v) :: m' else (k, w) :: mapSet key v m'
  end.

(** [String(n)] for an integer [n]. *)
Definition numberToString (n : Z) : string :=
  if n <? 0 then String "-" (Z_digits (- n) "") else Z_digits n "".

(** The key of a billing period in the monthly map: year, a dash,
    month. *)
Definition periodKey (year month : Z) : string :=
  String.append (numberToString year) (String "-" (numberToString month)).

Record MonthlyTotals : Type := mkMonthlyTotals {
  mt_year : Z;
  mt_month : Z;
  mt_revenueShare : Big.t;
  mt_bonuses : Big.t;
}.

Record MonthlyBreakdown : Type := mkBreakdown {
  mb_year : Z;
  mb_month : Z;
  mb_revenueShare : string;
  mb_bonuses : string;
  mb_total : string;
}.

Module ProviderEarningsSummaryDto.
Record t : Type := mk {
  providerId : string;
  currentTier : ProviderTierLevel;
  revenueSharePercentage : string;
  totalEarnings : string;
  totalBonuses : string;
  pendingPayouts : string;
  lastPayoutAt : option Date.t;
  monthlyBreakdown : list MonthlyBreakdown;
}.
End ProviderEarningsSummaryDto.

(** The variables of the loop of [getProviderEarningsSummary]. *)
Record SummaryVars : Type := mkVars {
  v_totalEarnings : Big.t;
  v_totalBonuses : Big.t;
  v_pendingPayouts : Big.t;
  v_lastPayoutAt : option Date.t;
  v_monthlyMap : list (string * MonthlyTotals);
}.

(** The body of that loop.  The entry of the period is created with zero
    sums when its key is new, and is then updated in place. *)
Definition summaryStep (p : ProviderRevenuePayout.t) (v : SummaryVars) : M SummaryVars :=
  let* rs := newBig (ProviderRevenuePayout.revenueShareAmount p) in
  let* bonus := newBig (ProviderRevenuePayout.bonusAmount p) in
  let* '(totalEarnings, totalBonuses, pendingPayouts, lastPayoutAt) :=
    (if bool_decide (ProviderRevenuePayout.status p = COMPLETED) then
       ret (Big.plus (Big.plus (v_totalEarnings v) rs) bonus,
            Big.plus (v_totalBonuses v) bonus,
            v_pendingPayouts v,
            if match v_lastPayoutAt v, ProviderRevenuePayout.paidAt p with
               | None, _ => true
               | Some last, Some paid => negb (Date.leb paid last)
               | Some _, None => false
               end
            then ProviderRevenuePayout.paidAt p
            else v_lastPayoutAt v)
     else if bool_decide (ProviderRevenuePayout.status p = PENDING)
             || bool_decide (ProviderRevenuePayout.status p = PROCESSING) then
       let* t := newBig (ProviderRevenuePayout.totalPayout p) in
       ret (v_totalEarnings v, v_totalBonuses v, Big.plus (v_pendingPayouts v) t,
            v_lastPayoutAt v)
     else ret (v_totalEarnings v, v_totalBonuses v, v_pendingPayouts v,
               v_lastPayoutAt v)) in
  let key := periodKey (ProviderRevenuePayout.periodYear p)
                       (ProviderRevenuePayout.periodMonth p) in
  let entry :=
    default (mkMonthlyTotals (ProviderRevenuePayout.periodYear p)
                             (ProviderRevenuePayout.periodMonth p)
                             (Big.of_Z 0) (Big.of_Z 0))
            (mapGet key (v_monthlyMap v)) in
  let entry' :=
    mkMonthlyTotals (mt_year entry) (mt_month entry)
      (Big.plus (mt_revenueShare entry) rs) (Big.plus (mt_bonuses entry) bonus) in
  ret (mkVars totalEarnings totalBonuses pendingPayouts lastPayoutAt
              (mapSet key entry' (v_monthlyMap v))).

Definition getProviderEarningsSummary (providerId : string)
  : M ProviderEarningsSummaryDto.t :=
  let* assignment := gets (fun st => assignmentRepo st !! providerId) in
  match assignment with
  | None => throw (NotFoundException (NoTierAssignment providerId))
  | Some assignment =>
      let* tierDef := gets (fun st =>
        findTier (ProviderTierAssignment.currentTier assignment) (tierRepo st)) in
      let* allPayouts := gets (fun st => payoutsOf providerId (payoutRepo st)) in
      let* v := forEach allPayouts summaryStep
                  (mkVars (Big.of_Z 0) (Big.of_Z 0) (Big.of_Z 0) None []) in
      let monthlyBreakdown :=
        List.map
          (fun m => mkBreakdown (mt_year m) (mt_month m)
                      (Big.toFixed (mt_revenueShare m) 8)
                      (Big.toFixed (mt_bonuses m) 8)
                      (Big.toFixed (Big.plus (mt_revenueShare m) (mt_bonuses m)) 8))
          (js_sort (fun a b => if mt_year b - mt_year a =? 0
                               then mt_month b - mt_month a
                               else mt_year b - mt_year a)
                   (v_monthlyMap v).*2) in
      ret (ProviderEarningsSummaryDto.mk providerId
             (ProviderTierAssignment.currentTier assignment)
             (match tierDef with
              | Some def => RevenueShareTier.revenueSharePercentage def
              | None => "0"%string
              end)
             (Big.toFixed (v_totalEarnings v) 8)
             (Big.toFixed (v_totalBonuses v) 8)
             (Big.toFixed (v_pendingPayouts v) 8)
             (v_lastPayoutAt v)
             monthlyBreakdown)
  end.

Record TierTotals : Type := mkTierTotals { tt_count : Z; tt_total : Big.t }.

Record PeriodPayouts : Type := mkPeriod {
  per_payouts : list ProviderRevenuePayout.t;
  per_totalDispatched : string;
  per_tierBreakdown : list (ProviderTierLevel * (Z * string));
}.

(** The body of the loop of [getPeriodPayouts]. *)
Definition periodStep (p : ProviderRevenuePayout.t)
    (vars : Big.t * list (ProviderTierLevel * TierTotals))
  : M (Big.t * list (ProviderTierLevel * TierTotals)) :=
  let '(totalDispatched, tierBreakdown) := vars in
  let* totalDispatched :=
    (if bool_decide (ProviderRevenuePayout.status p = COMPLETED)
        || bool_decide (ProviderRevenuePayout.status p = PROCESSING) then
       let* t := newBig (ProviderRevenuePayout.totalPayout p) in
       ret (Big.plus totalDispatched t)
     else ret totalDispatched) in
  let key := ProviderRevenuePayout.tierLevel p in
  let entry := default (mkTierTotals 0 (Big.of_Z 0)) (mapGet key tierBreakdown) in
  let* t := newBig (ProviderRevenuePayout.totalPayout p) in
  ret (totalDispatched,
       mapSet key (mkTierTotals (tt_count entry + 1) (Big.plus (tt_total entry) t))
              tierBreakdown).

Definition getPeriodPayouts (year month : Z) : M PeriodPayouts :=
  let* payouts := gets (fun st =>
    newestFirst
      (List.filter (fun p => (ProviderRevenuePayout.periodYear p =? year)
                             && (ProviderRevenuePayout.periodMonth p =? month))
                   (payoutRepo st))) in
  let* '(totalDispatched, tierBreakdown) :=
    forEach payouts periodStep (Big.of_Z 0, []) in
  ret (mkPeriod payouts (Big.toFixed totalDispatched 8)
         (List.map (fun '(tier, data) => (tier, (tt_count data, Big.toFixed (tt_total data) 8)))
                   tierBreakdown)).

(** ** The operations as a transition system *)

(** A call of a public method of one of the two services, with its
    arguments. *)
Inductive Call : Type :=
| CallOnModuleInit
| CallRefreshTierCache
| CallUpdateTierConfig (tierLevel : ProviderTierLevel) (updates : TierConfigUpdates)
| CallEvaluateProvider (providerId : string)
| CallEvaluateProviderWithMetrics (metrics : ProviderMetrics)
| CallEvaluateAllProviders
| CallRecordPayout (params : PayoutParams)
| CallCalculateRevenueShare (providerId baseRevenue : string) (includeBonus : option bool)
| CallProcessProviderPayout (providerId baseRevenue : string) (options : PayoutOptions)
| CallProcessMontlyBatch (year month : Z) (revenueMap : list (string * string))
| CallAwardPerformanceBonus (providerId amount : string) (bonusType : BonusType)
    (reason : option string)
| CallConfirmPayout (payoutId : nat) (stellarTxHash : string)
| CallMarkPayoutFailed (payoutId : nat) (reason : string)
| CallRunRetentionBonusRound (year month : Z)
| CallRetryFailedPayout (payoutId : nat)
| CallCheckAndIssueStreakBonus (providerId : string)
| CallGetProviderTier (providerId : string)
| CallGetProvidersInTier (tierLevel : ProviderTierLevel)
| CallGetTierSummaries
| CallGetAllTierConfigs
| CallGetTierConfig (tierLevel : ProviderTierLevel)
| CallGetProviderPayoutHistory (providerId : string) (page limit : option Z)
| CallGetProviderEarningsSummary (providerId : string)
| CallGetPeriodPayouts (year month : Z)
| CallGetPendingPayouts (limit : option Z).

(** What is left of a call once its result has been dropped. *)
Definition void {A : Type} (c : M A) : M unit :=
  let* _ := c in ret tt.

Definition perform (c : Call) : M unit :=
  match c with
  | CallOnModuleInit => onModuleInit
  | CallRefreshTierCache => refreshTierCache
  | CallUpdateTierConfig l u => void (updateTierConfig l u)
  | CallEvaluateProvider pid => void (evaluateProvider pid)
  | CallEvaluateProviderWithMetrics m => void (evaluateProviderWithMetrics m)
  | CallEvaluateAllProviders => void evaluateAllProviders
  | CallRecordPayout params => void (recordPayout params)
  | CallCalculateRevenueShare pid rev incl => void (calculateRevenueShare pid rev incl)
  | CallProcessProviderPayout pid rev options => void (processProviderPayout pid rev options)
  | CallProcessMontlyBatch y m revenueMap => void (processMontlyBatch y m revenueMap)
  | CallAwardPerformanceBonus pid amount type reason =>
      void (awardPerformanceBonus pid amount type reason)
  | CallConfirmPayout i h => void (confirmPayout i h)
  | CallMarkPayoutFailed i reason => void (markPayoutFailed i reason)
  | CallRunRetentionBonusRound y m => void (runRetentionBonusRound y m)
  | CallRetryFailedPayout i => void (retryFailedPayout i)
  | CallCheckAndIssueStreakBonus pid => void (checkAndIssueStreakBonus pid)
  | CallGetProviderTier pid => void (getProviderTier pid)
  | CallGetProvidersInTier l => void (getProvidersInTier l)
  | CallGetTierSummaries => void getTierSummaries
  | CallGetAllTierConfigs => void getAllTierConfigs
  | CallGetTierConfig l => void (getTierConfig l)
  | CallGetProviderPayoutHistory pid page limit =>
      void (getProviderPayoutHistory pid page limit)
  | CallGetProviderEarningsSummary pid => void (getProviderEarningsSummary pid)
  | CallGetPeriodPayouts y m => void (getPeriodPayouts y m)
  | CallGetPendingPayouts limit => void (getPendingPayouts limit)
  end.

(** What happens to the store: a call of the services, whether it returns
    or throws, or a change made from outside them (time passing, the
    statistics of a provider written, a user written). *)
Inductive Event : Type :=
| Invoke (c : Call)
| Tick (now : Date.t)
| StatsWritten (stats : ProviderStats.t)
| UserWritten (user : User.t).

Definition happen (e : Event) (st : Store) : Store :=
  match e with
  | Invoke c => (perform c st).1
  | Tick now => setClock now st
  | StatsWritten stats =>
      mkStore (tierRepo st) (assignmentRepo st) (payoutRepo st)
              (<[ProviderStats.providerId stats := stats]> (statsRepo st))
              (userRepo st) (tierCache st) (clock st)
  | UserWritten user =>
      mkStore (tierRepo st) (assignmentRepo st) (payoutRepo st) (statsRepo st)
              (<[User.id user := user]> (userRepo st)) (tierCache st) (clock st)
  end.

Definition history (events : list Event) (st : Store) : Store :=
  foldl (fun st e => happen e st) st events.

(** The tables a call may write. *)
Record Footprint : Type := mkFootprint {
  wTiers : bool;
  wCache : bool;
  wAssignments : bool;
  wLedger : bool;
}.

Definition footprint (c : Call) : Footprint :=
  match c with
  | CallOnModuleInit | CallUpdateTierConfig _ _ => mkFootprint true true false false
  | CallRefreshTierCache => mkFootprint false true false false
  | CallEvaluateProvider _ | CallEvaluateAllProviders | CallCalculateRevenueShare _ _ _ =>
      mkFootprint false false true false
  | CallEvaluateProviderWithMetrics _ | CallProcessProviderPayout _ _ _
  | CallProcessMontlyBatch _ _ _ =>
      mkFootprint false false true true
  | CallRecordPayout _ | CallAwardPerformanceBonus _ _ _ _ | CallConfirmPayout _ _
  | CallMarkPayoutFailed _ _ | CallRunRetentionBonusRound _ _ | CallRetryFailedPayout _
  | CallCheckAndIssueStreakBonus _ =>
      mkFootprint false false false true
  | _ => mkFootprint false false false false
  end.

(** [st'] is [st] but for the tables of the footprint; the statistics,
    the users and the clock are in no footprint. *)
Definition agreeOutside (w : Footprint) (st st' : Store) : Prop :=
  statsRepo st' = statsRepo st
  /\ userRepo st' = userRepo st
  /\ clock st' = clock st
  /\ (wTiers w = false -> tierRepo st' = tierRepo st)
  /\ (wCache w = false -> tierCache st' = tierCache st)
  /\ (wAssignments w = false -> assignmentRepo st' = assignmentRepo st)
  /\ (wLedger w = false -> payoutRepo st' = payoutRepo st).

Definition writesOnly (w : Footprint) {A : Type} (c : M A) : Prop :=
  forall st, agreeOutside w st (c st).1.

(** One footprint within another. *)
Definition within (w w' : Footprint) : Prop :=
  (wTiers w = true -> wTiers w' = true)
  /\ (wCache w = true -> wCache w' = true)
  /\ (wAssignments w = true -> wAssignments w' = true)
  /\ (wLedger w = true -> wLedger w' = true).

(** ** Invariants of the tables *)

(** The columns of a tier row no operation writes after the row has been
    created. *)
Definition tierCore (t : RevenueShareTier.t)
  : ProviderTierLevel * string * string * string * Z :=
  (RevenueShareTier.tierLevel t, RevenueShareTier.name t, RevenueShareTier.description t,
   RevenueShareTier.minReputationScore t, RevenueShareTier.sortOrder t).

(** One row per level at most, and a cache that holds the active rows by
    ascending sort order. *)
Definition tierTableOk (st : Store) : Prop :=
  NoDup (tierLevels (tierRepo st)) /\ tierCache st = activeTiers (tierRepo st).

(** The rows of [st] are still there in [st'], in their places and with
    the same fixed columns; [st'] may have more rows behind them. *)
Definition tierTableExtends (st st' : Store) : Prop :=
  List.map tierCore (tierRepo st) `prefix_of` List.map tierCore (tierRepo st').

(** The columns of a payout row no operation writes after the row has
    been recorded: all but the status, the transaction hash, the failure
    reason, the retry count and the payment date. *)
Definition payoutCore (p : ProviderRevenuePayout.t) :=
  (ProviderRevenuePayout.id p, ProviderRevenuePayout.providerId p,
   ProviderRevenuePayout.tierLevel p, ProviderRevenuePayout.baseRevenue p,
   ProviderRevenuePayout.sharePercentage p, ProviderRevenuePayout.revenueShareAmount p,
   ProviderRevenuePayout.bonusAmount p, ProviderRevenuePayout.bonusType p,
   ProviderRevenuePayout.totalPayout p, ProviderRevenuePayout.assetCode p,
   ProviderRevenuePayout.providerWalletAddress p, ProviderRevenuePayout.periodYear p,
   ProviderRevenuePayout.periodMonth p, ProviderRevenuePayout.createdAt p).

(** What holds of the row of rank [i] in a ledger the services have
    written. *)
Definition rowOk (i : nat) (p : ProviderRevenuePayout.t) : Prop :=
  ProviderRevenuePayout.id p = i
  /\ ProviderRevenuePayout.assetCode p = "USDC"%string
  /\ 0 <= ProviderRevenuePayout.retryCount p
  /\ (ProviderRevenuePayout.status p = COMPLETED ->
      is_Some (ProviderRevenuePayout.stellarTxHash p)
      /\ is_Some (ProviderRevenuePayout.paidAt p))
  /\ (ProviderRevenuePayout.status p = FAILED ->
      is_Some (ProviderRevenuePayout.failureReason p)
      /\ 1 <= ProviderRevenuePayout.retryCount p)
  /\ (ProviderRevenuePayout.status p = PROCESSING ->
      isTopTier (ProviderRevenuePayout.tierLevel p) = true
      /\ ProviderRevenuePayout.retryCount p = 0
      /\ ProviderRevenuePayout.stellarTxHash p = None
      /\ ProviderRevenuePayout.failureReason p = None
      /\ ProviderRevenuePayout.paidAt p = None).

Definition ledgerOk (rows : list ProviderRevenuePayout.t) : Prop :=
  forall i p, rows !! i = Some p -> rowOk i p.

(** The rows of the first ledger are still in the second, in their
    places and with the same fixed columns; the second may have more rows
    behind them. *)
Definition ledgerExtends (rows rows' : list ProviderRevenuePayout.t) : Prop :=
  List.map payoutCore rows `prefix_of` List.map payoutCore rows'.

(** A call that keeps a well-formed ledger well formed and only extends
    it, whether it returns or throws. *)
Definition ledgerSafe {A : Type} (c : M A) : Prop :=
  forall st, ledgerOk (payoutRepo st) ->
    ledgerOk (payoutRepo (c st).1)
    /\ ledgerExtends (payoutRepo st) (payoutRepo (c st).1).

(** A user and a provider's statistics written, the module started, and
    a payout processed, failed, retried and confirmed. *)
Definition sampleEvents : list Event :=
  [ Invoke CallOnModuleInit;
    UserWritten (User.mk "provider-1" "GWALLET1");
    StatsWritten (ProviderStats.mk "provider-1" "60" 25 12 "60" 10);
    Invoke (CallProcessProviderPayout "provider-1" "1000" (mkOptions None None None None));
    Invoke (CallMarkPayoutFailed 0 "rejected");
    Invoke (CallRetryFailedPayout 0);
    Invoke (CallCheckAndIssueStreakBonus "provider-1");
    Tick (Date.mk 2026 11 0);
    Invoke (CallConfirmPayout 0 "hash") ].

(** The details of the providers that were paid. *)
Definition successes (ds : list BatchDetail) : list BatchDetail :=
  List.filter (fun d => match d_status d with success => true | _ => false end) ds.

(** ** Notions used in the statements on reports *)

(** The rational number a [Big] stands for. *)
Definition bigValue (x : Big.t) : Q :=
  Qmake (Big.coef x) (Z.to_pos (pow10 (Big.dp x))).

(** The number a decimal string stands for, zero when it is no numeral. *)
Definition amountValue (s : string) : Q :=
  match Big.of_string s with
  | Some x => bigValue x
  | None => 0%Q
  end.

Definition sumOver {A : Type} (f : A -> Q) (l : list A) : Q :=
  foldr (fun a q => (f a + q)%Q) 0%Q l.

Definition isCompleted (p : ProviderRevenuePayout.t) : bool :=
  bool_decide (ProviderRevenuePayout.status p = COMPLETED).

Definition isOutstanding (p : ProviderRevenuePayout.t) : bool :=
  bool_decide (ProviderRevenuePayout.status p = PENDING)
  || bool_decide (ProviderRevenuePayout.status p = PROCESSING).

(** A row whose amounts, as far as the summary reads them, are decimal
    numerals. *)
Definition summable (p : ProviderRevenuePayout.t) : Prop :=
  is_Some (Big.of_string (ProviderRevenuePayout.revenueShareAmount p))
  /\ is_Some (Big.of_string (ProviderRevenuePayout.bonusAmount p))
  /\ (isOutstanding p = true -> is_Some (Big.of_string (ProviderRevenuePayout.totalPayout p))).

Definition inPeriod (year month : Z) (p : ProviderRevenuePayout.t) : bool :=
  (ProviderRevenuePayout.periodYear p =? year)
  && (ProviderRevenuePayout.periodMonth p =? month).

(** A billing period comes before another in the breakdown: it is the
    later of the two. *)
Definition laterPeriod (a b : MonthlyBreakdown) : Prop :=
  mb_year b < mb_year a \/ (mb_year b = mb_year a /\ mb_month b < mb_month a).

(** A number read back from the head of a string: an optional minus sign
    and digits; what it returns is the number and the rest. *)
Definition readNumber (s : string) : Z * string :=
  let '(v, cnt, rest) := scan_digits s 0 0 in
  if Nat.eqb cnt 0 then
    match s with
    | String "-" r => let '(v', _, rest') := scan_digits r 0 0 in (- v', rest')
    | _ => (v, rest)
    end
  else (v, rest).

(** The year and the month a period key was made of. *)
Definition readPeriodKey (key : string) : option (Z * Z) :=
  let '(year, rest) := readNumber key in
  match rest with
  | String "-" r => Some (year, (readNumber r).1)
  | _ => None
  end.

(** The loop of [getProviderEarningsSummary] half way: what its variables
    hold once the rows [seen] have been read. *)
Record summaryInv (seen : list ProviderRevenuePayout.t) (v : SummaryVars) : Prop :=
  mkSummaryInv {
  inv_earnings :
    (bigValue (v_totalEarnings v)
     == sumOver (fun p => amountValue (ProviderRevenuePayout.revenueShareAmount p)
                          + amountValue (ProviderRevenuePayout.bonusAmount p))
                (List.filter isCompleted seen))%Q;
  inv_bonuses :
    (bigValue (v_totalBonuses v)
     == sumOver (fun p => amountValue (ProviderRevenuePayout.bonusAmount p))
                (List.filter isCompleted seen))%Q;
  inv_pending :
    (bigValue (v_pendingPayouts v)
     == sumOver (fun p => amountValue (ProviderRevenuePayout.totalPayout p))
                (List.filter isOutstanding seen))%Q;
  inv_last_some :
    forall d, v_lastPayoutAt v = Some d ->
      (exists p, p ∈ seen /\ isCompleted p = true /\ ProviderRevenuePayout.paidAt p = Some d)
      /\ (forall p d', p ∈ seen -> isCompleted p = true ->
            ProviderRevenuePayout.paidAt p = Some d' -> Date.leb d' d = true);
  inv_last_none :
    v_lastPayoutAt v = None ->
    forall p, p ∈ seen -> isCompleted p = true -> ProviderRevenuePayout.paidAt p = None;
  inv_keys :
    NoDup (v_monthlyMap v).*1;
  inv_entries :
    forall key m, (key, m) ∈ v_monthlyMap v ->
      key = periodKey (mt_year m) (mt_month m)
      /\ (exists p, p ∈ seen /\ inPeriod (mt_year m) (mt_month m) p = true)
      /\ (bigValue (mt_revenueShare m)
          == sumOver (fun p => amountValue (ProviderRevenuePayout.revenueShareAmount p))
                     (List.filter (inPeriod (mt_year m) (mt_month m)) seen))%Q
      /\ (bigValue (mt_bonuses m)
          == sumOver (fun p => amountValue (ProviderRevenuePayout.bonusAmount p))
                     (List.filter (inPeriod (mt_year m) (mt_month m)) seen))%Q;
  inv_periods :
    forall p, p ∈ seen ->
      exists m, (periodKey (ProviderRevenuePayout.periodYear p)
                           (ProviderRevenuePayout.periodMonth p), m) ∈ v_monthlyMap v;
}.

(** The variables of the summary loop after one more row, when the
    amounts of the row are numerals. *)
Definition summaryNext (p : ProviderRevenuePayout.t) (v : SummaryVars) : SummaryVars :=
  let rs := default (Big.of_Z 0)
              (Big.of_string (ProviderRevenuePayout.revenueShareAmount p)) in
  let bonus := default (Big.of_Z 0) (Big.of_string (ProviderRevenuePayout.bonusAmount p)) in
  let total := default (Big.of_Z 0) (Big.of_string (ProviderRevenuePayout.totalPayout p)) in
  let key := periodKey (ProviderRevenuePayout.periodYear p)
                       (ProviderRevenuePayout.periodMonth p) in
  let entry :=
    default (mkMonthlyTotals (ProviderRevenuePayout.periodYear p)
                             (ProviderRevenuePayout.periodMonth p)
                             (Big.of_Z 0) (Big.of_Z 0))
            (mapGet key (v_monthlyMap v)) in
  mkVars
    (if isCompleted p then Big.plus (Big.plus (v_totalEarnings v) rs) bonus
     else v_totalEarnings v)
    (if isCompleted p then Big.plus (v_totalBonuses v) bonus else v_totalBonuses v)
    (if isOutstanding p then Big.plus (v_pendingPayouts v) total else v_pendingPayouts v)
    (if isCompleted p then
       if match v_lastPayoutAt v, ProviderRevenuePayout.paidAt p with
          | None, _ => true
          | Some last, Some paid => negb (Date.leb paid last)
          | Some _, None => false
          end
       then ProviderRevenuePayout.paidAt p
       else v_lastPayoutAt v
     else v_lastPayoutAt v)
    (mapSet key
       (mkMonthlyTotals (mt_year entry) (mt_month entry)
          (Big.plus (mt_revenueShare entry) rs) (Big.plus (mt_bonuses entry) bonus))
       (v_monthlyMap v)).

(** The comparator of the monthly breakdown: later periods first. *)
Definition byPeriodDesc (a b : MonthlyTotals) : Z :=
  if mt_year b - mt_year a =? 0 then mt_month b - mt_month a else mt_year b - mt_year a.

(** A provider with a GOLD assignment and three payouts: one completed
    in November, one pending in November and one failed in October. *)
Definition reportStore : Store :=
  mkStore (tierRepo seededStore)
    (<["provider-1" := ProviderTierAssignment.mk "provider-1" GOLD None None None None
                         None None false]> ∅)
    [ ProviderRevenuePayout.mk 0 "provider-1" GOLD "1000" "8.00" "80.00000000"
        "20.00000000" (Some MONTHLY_TOP) "100.00000000" "USDC" "GWALLET1" COMPLETED
        2026 11 (Some "hash") None 0 (Some noon) noon;
      ProviderRevenuePayout.mk 1 "provider-1" GOLD "0" "0" "0" "75" (Some STREAK) "75"
        "USDC" "GWALLET1" PENDING 2026 11 None None 0 None noon;
      ProviderRevenuePayout.mk 2 "provider-1" GOLD "500" "8.00" "40.00000000"
        "0.00000000" None "40.00000000" "USDC" "GWALLET1" FAILED
        2026 10 None (Some "rejected") 1 None noon ]
    ∅
    (<["provider-1" := User.mk "provider-1" "GWALLET1"]> ∅)
    (tierCache seededStore) noon.

(** A call whose effect on the store, whether it returns or throws, is
    within the relation [R]. *)
Definition preserves (R : relation Store) {A : Type} (c : M A) : Prop :=
  forall st, R st (c st).1.

(** The providers that have a tier assignment keep one. *)
Definition assignmentsKept (st st' : Store) : Prop :=
  forall pid, is_Some (assignmentRepo st !! pid) -> is_Some (assignmentRepo st' !! pid).

(** A payout that counts as dispatched in the report of a period. *)
Definition isDispatched (p : ProviderRevenuePayout.t) : bool :=
  bool_decide (ProviderRevenuePayout.status p = COMPLETED)
  || bool_decide (ProviderRevenuePayout.status p = PROCESSING).

Definition ofTier (tier : ProviderTierLevel) (p : ProviderRevenuePayout.t) : bool :=
  bool_decide (ProviderRevenuePayout.tierLevel p = tier).

(** The variables of the loop of [getPeriodPayouts] after one more row,
    when the total of the row is a numeral. *)
Definition periodNext (p : ProviderRevenuePayout.t)
    (vars : Big.t * list (ProviderTierLevel * TierTotals))
  : Big.t * list (ProviderTierLevel * TierTotals) :=
  let t := default (Big.of_Z 0) (Big.of_string (ProviderRevenuePayout.totalPayout p)) in
  let entry := default (mkTierTotals 0 (Big.of_Z 0))
                 (mapGet (ProviderRevenuePayout.tierLevel p) vars.2) in
  (if isDispatched p then Big.plus vars.1 t else vars.1,
   mapSet (ProviderRevenuePayout.tierLevel p)
          (mkTierTotals (tt_count entry + 1) (Big.plus (tt_total entry) t)) vars.2).

(** The counts of a tier breakdown, added up. *)
Definition totalCount {T : Type} (count : T -> Z) (m : list (ProviderTierLevel * T)) : Z :=
  foldr (fun e n => count e.2 + n) 0 m.

(** The loop of [getPeriodPayouts] half way. *)
Record periodInv (seen : list ProviderRevenuePayout.t)
    (vars : Big.t * list (ProviderTierLevel * TierTotals)) : Prop := mkPeriodInv {
  pinv_dispatched :
    (bigValue vars.1
     == sumOver (fun p => amountValue (ProviderRevenuePayout.totalPayout p))
                (List.filter isDispatched seen))%Q;
  pinv_keys : NoDup vars.2.*1;
  pinv_entries :
    forall tier e, (tier, e) ∈ vars.2 ->
      tt_count e = Z.of_nat (List.length (List.filter (ofTier tier) seen))
      /\ 0 < tt_count e
      /\ (bigValue (tt_total e)
          == sumOver (fun p => amountValue (ProviderRevenuePayout.totalPayout p))
                     (List.filter (ofTier tier) seen))%Q;
  pinv_tiers :
    forall p, p ∈ seen -> ProviderRevenuePayout.tierLevel p ∈ vars.2.*1;
  pinv_count : totalCount tt_count vars.2 = Z.of_nat (List.length seen);
}.

(** The payouts of a period with their dates of creation: the later
    first. *)
Definition createdNotBefore (a b : ProviderRevenuePayout.t) : Prop :=
  Date.leb (ProviderRevenuePayout.createdAt b) (ProviderRevenuePayout.createdAt a) = true.

(** The earlier first. *)
Definition createdNotAfter (a b : ProviderRevenuePayout.t) : Prop :=
  Date.leb (ProviderRevenuePayout.createdAt a) (ProviderRevenuePayout.createdAt b) = true.

(** ** The retention bonus round *)

(** The providers [runRetentionBonusRound] records a bonus for, for one
    of the two tiers: none when the tier has no row or its retention
    bonus parses to zero, else the providers assigned to the tier that
    have a user row. *)
Definition retentionRecipients (st : Store) (tier : ProviderTierLevel)
  : list ProviderTierAssignment.t :=
  match findTier tier (tierRepo st) with
  | None => []
  | Some tierDef =>
      if Js.eqb (Js.parseFloat (RevenueShareTier.monthlyRetentionBonusUsdc tierDef))
                (Js.of_Z 0)
      then []
      else
        List.filter
          (fun a => bool_decide (is_Some (userRepo st !! ProviderTierAssignment.providerId a)))
          (List.filter (fun a => bool_decide (ProviderTierAssignment.currentTier a = tier))
                       (map_to_list (assignmentRepo st)).*2)
  end.

(** The store with more payouts at the end of the ledger. *)
Definition withPayouts (st : Store) (rows : list ProviderRevenuePayout.t) : Store :=
  mkStore (tierRepo st) (assignmentRepo st) (payoutRepo st ++ rows) (statsRepo st)
          (userRepo st) (tierCache st) (clock st).

(** A bonus row whose amount [Big] reads. *)
Definition isCounted (p : ProviderRevenuePayout.t) : bool :=
  bool_decide (is_Some (Big.of_string (ProviderRevenuePayout.bonusAmount p))).

(** The body of the inner loop of [runRetentionBonusRound]. *)
Definition retentionStep (year month : Z) (tier : ProviderTierLevel)
    (tierDef : RevenueShareTier.t) (assignment : ProviderTierAssignment.t)
    (vars : Z * Big.t) : M (Z * Big.t) :=
  let '(credited, totalBonus) := vars in
  try_catch
    (let* user := gets (fun st =>
       userRepo st !! ProviderTierAssignment.providerId assignment) in
     match user with
     | None => ret (credited, totalBonus)
     | Some user =>
         let* _ := recordPayout
           (mkParams (ProviderTierAssignment.providerId assignment) tier
              "0" "0" "0"
              (RevenueShareTier.monthlyRetentionBonusUsdc tierDef)
              (Some MONTHLY_TOP)
              (RevenueShareTier.monthlyRetentionBonusUsdc tierDef)
              (User.walletAddress user) (Some year) (Some month)) in
         let* g := newBig (RevenueShareTier.monthlyRetentionBonusUsdc tierDef) in
         ret (credited + 1, Big.plus totalBonus g)
     end)
    (fun _ => ret (credited, totalBonus)).

(** The body of its outer loop. *)
Definition retentionTier (year month : Z) (tier : ProviderTierLevel)
    (vars : Z * Big.t) : M (Z * Big.t) :=
  let '(credited, totalBonus) := vars in
  let* assignments := gets (fun st =>
    List.filter (fun a => bool_decide (ProviderTierAssignment.currentTier a = tier))
                (map_to_list (assignmentRepo st)).*2) in
  let* tierDef := gets (fun st => findTier tier (tierRepo st)) in
  match tierDef with
  | None => ret (credited, totalBonus)
  | Some tierDef =>
      if Js.eqb (Js.parseFloat (RevenueShareTier.monthlyRetentionBonusUsdc tierDef))
                (Js.of_Z 0)
      then ret (credited, totalBonus)
      else forEach assignments (retentionStep year month tier tierDef) (credited, totalBonus)
  end.

(** What a row of a retention round looks like. *)
Definition retentionRow (year month : Z) (p : ProviderRevenuePayout.t) : Prop :=
  ProviderRevenuePayout.status p = PENDING
  /\ ProviderRevenuePayout.bonusType p = Some MONTHLY_TOP
  /\ ProviderRevenuePayout.periodYear p = year
  /\ ProviderRevenuePayout.periodMonth p = month
  /\ isTopTier (ProviderRevenuePayout.tierLevel p) = true.

(** Two ELITE providers with user rows, after [updateTierConfig] has set
    the retention bonus of the ELITE tier to the text "5 USDC". *)
Definition retentionStore : Store :=
  let configured :=
    (updateTierConfig ELITE
       (mkUpdates None None None None None (Some "5 USDC") None) seededStore).1 in
  mkStore (tierRepo configured)
    (<["provider-1" := ProviderTierAssignment.mk "provider-1" ELITE None None None None
                         None None false]>
       (<["provider-2" := ProviderTierAssignment.mk "provider-2" ELITE None None None None
                            None None false]> ∅))
    []
    ∅
    (<["provider-1" := User.mk "provider-1" "GWALLET1"]>
       (<["provider-2" := User.mk "provider-2" "GWALLET2"]> ∅))
    (tierCache configured) noon.

(** ** A payout that stays as it is *)

(** The payout at rank [i] of a well-formed ledger, being the row [p],
    is still that row afterwards, in a ledger that is well formed. *)
Definition rowStays (i : nat) (p : ProviderRevenuePayout.t) : relation Store :=
  fun st st' =>
    ledgerOk (payoutRepo st) -> payoutRepo st !! i = Some p ->
    ledgerOk (payoutRepo st') /\ payoutRepo st' !! i = Some p.

(** An event that is not a call of [markPayoutFailed] for the payout
    [i]. *)
Definition sparesPayout (i : nat) (e : Event) : Prop :=
  forall reason, e <> Invoke (CallMarkPayoutFailed i reason).

(** ** The resolution of a tier in the words of the specification *)

(** The order of the levels: BRONZE < SILVER < GOLD < PLATINUM < ELITE. *)
Definition spec_rank (level : ProviderTierLevel) : Z :=
  match level with
  | BRONZE => 0
  | SILVER => 1
  | GOLD => 2
  | PLATINUM => 3
  | ELITE => 4
  end.

(** ALL of: winRate >= minWinRate, totalSignals >= minSignals,
    totalCopiers >= minCopiers, reputationScore >= minReputationScore;
    the thresholds kept as text are read as numbers. *)
Definition spec_meets (metrics : ProviderMetrics) (tier : RevenueShareTier.t) : Prop :=
  Js.geb (winRate metrics) (Js.parseFloat (RevenueShareTier.minWinRate tier)) = true
  /\ Js.geb (totalSignals metrics) (Js.of_Z (RevenueShareTier.minSignals tier)) = true
  /\ Js.geb (totalCopiers metrics) (Js.of_Z (RevenueShareTier.minCopiers tier)) = true
  /\ Js.geb (reputationScore metrics)
            (Js.parseFloat (RevenueShareTier.minReputationScore tier)) = true.

(** [level] is the answer of the specification for a cache and metrics:
    the level of a cached tier for which the four conditions hold, no
    cached tier of a higher level being one for which they hold; or BRONZE,
    when they hold for no cached tier. *)
Definition spec_resolves (cache : list RevenueShareTier.t) (metrics : ProviderMetrics)
    (level : ProviderTierLevel) : Prop :=
  (exists tier, tier ∈ cache /\ RevenueShareTier.tierLevel tier = level
                /\ spec_meets metrics tier
                /\ forall other, other ∈ cache -> spec_meets metrics other ->
                     spec_rank (RevenueShareTier.tierLevel other) <= spec_rank level)
  \/ (level = BRONZE /\ forall tier, tier ∈ cache -> ~ spec_meets metrics tier).

(** A SILVER row without thresholds, as an operator may have put it in
    the table before the module starts. *)
Definition openSilverTier : RevenueShareTier.t :=
  RevenueShareTier.mk SILVER "Silver Provider" "Open to every provider."
    "6.00" "0" 0 0 "0" "10" "5" true 2.

(** The module started on a database that holds that row: seeding adds
    the four other default tiers and leaves the row as it is. *)
Definition presetStore : Store :=
  (onModuleInit (mkStore [openSilverTier] ∅ [] ∅ ∅ [] noon)).1.

(** * Properties *)

(** ** The run time on a few inputs *)

Example Big_of_string_1000 : Big.of_string "1000" = Some (Big.mk 1000 0).
Proof. reflexivity. Qed.

Example Big_of_string_pct : Big.of_string "8.00" = Some (Big.mk 800 2).
Proof. reflexivity. Qed.

Example Big_of_string_exp : Big.of_string "-1.5e-3" = Some (Big.mk (-15) 4).
Proof. reflexivity. Qed.

Example Big_of_string_bad :
  Big.of_string "abc" = None /\ Big.of_string "1e" = None /\
  Big.of_string "." = None /\ Big.of_string "+1" = None /\
  Big.of_string "" = None /\ Big.of_string " 1" = None.
Proof. repeat split; reflexivity. Qed.

Example Big_toFixed_80 :
  option_map (fun q => Big.toFixed q 8)
    (Big.div (Big.times (Big.mk 1000 0) (Big.mk 800 2)) (Big.of_Z 100))
  = Some "80.00000000"%string.
Proof. vm_compute. reflexivity. Qed.

Example Big_toFixed_neg :
  Big.toFixed (Big.mk (-1) 9) 8 = "-0.00000000"%string /\
  Big.toFixed (Big.mk (-15) 1) 0 = "-2"%string /\
  Big.toFixed (Big.mk 5 9) 8 = "0.00000001"%string /\
  Big.toFixed (Big.mk 4 9) 8 = "0.00000000"%string.
Proof. vm_compute. repeat split; reflexivity. Qed.

Example parseFloat_samples :
  Js.parseFloat "0.1" = Js.Num 7205759403792794 (-56) /\
  Js.parseFloat "55" = Js.Num 7740561859543040 (-47) /\
  Js.parseFloat "  -2.5e1xyz" = Js.Num (-7036874417766400) (-48) /\
  Js.parseFloat "abc" = Js.NaN /\
  Js.parseFloat "1e400" = Js.Infinity false /\
  Js.parseFloat "5e-324" = Js.Num 1 (-1074) /\
  Js.parseFloat "2e-324" = Js.Num 0 (-1074) /\
  Js.parseFloat "0" = Js.Num 0 0.
Proof. vm_compute. repeat split; reflexivity. Qed.

Example parseFloat_compare :
  Js.geb (Js.parseFloat "55.00") (Js.of_Z 55) = true /\
  Js.gtb (Js.parseFloat "20") (Js.of_Z 0) = true /\
  Js.gtb (Js.parseFloat "0") (Js.of_Z 0) = false /\
  Js.gtb (Js.parseFloat "") (Js.of_Z 0) = false /\
  Js.eqb (Js.parseFloat "0.00") (Js.of_Z 0) = true /\
  Js.geb (Js.parseFloat "0.3") (Js.parseFloat "0.30000000000000001") = true.
Proof. vm_compute. repeat split; reflexivity. Qed.

(** ** Numerals: what is printed is read back *)

Lemma digit_val_char (d : Z) : 0 <= d < 10 -> digit_val (digit_char d) = Some d.
Proof.
  intros H.
  assert (d = 0 \/ d = 1 \/ d = 2 \/ d = 3 \/ d = 4 \/ d = 5 \/ d = 6 \/ d = 7
          \/ d = 8 \/ d = 9) as Hd by lia.
  repeat (destruct Hd as [-> | Hd]; [reflexivity |]). subst d. reflexivity.
Qed.

Lemma pow10_pos (k : nat) : 0 < pow10 k.
Proof. unfold pow10. apply Z.pow_pos_nonneg; lia. Qed.

Lemma pow10_S (k : nat) : pow10 (S k) = 10 * pow10 k.
Proof. unfold pow10. rewrite Nat2Z.inj_succ, Z.pow_succ_r; lia. Qed.

Lemma pow10_add (j k : nat) : pow10 (j + k) = pow10 j * pow10 k.
Proof. unfold pow10. rewrite Nat2Z.inj_add, Z.pow_add_r; lia. Qed.

Lemma digit_run_nil (s : string) : digit_run s 0 0 s.
Proof.
  intros a c. unfold pow10. simpl. f_equal; [lia | lia].
Qed.

Lemma digit_run_cons (d : Z) (s : string) (k : nat) (v : Z) (rest : string) :
  0 <= d < 10 -> digit_run s k v rest ->
  digit_run (String (digit_char d) s) (S k) (d * pow10 k + v) rest.
Proof.
  intros Hd Hs a c. simpl. rewrite (digit_val_char d Hd), Hs, pow10_S.
  f_equal; lia.
Qed.

Lemma fixed_digits_run (k : nat) : forall (n : Z) (acc : string) (j : nat) (v : Z) rest,
  digit_run acc j v rest ->
  digit_run (fixed_digits k n acc) (j + k) ((n mod pow10 k) * pow10 j + v) rest.
Proof.
  induction k as [|k IH]; intros n acc j v rest Hacc.
  - simpl. rewrite Nat.add_0_r. unfold pow10 at 1. simpl. rewrite Z.mod_1_r. exact Hacc.
  - simpl fixed_digits.
    assert (Hd : 0 <= n mod 10 < 10) by (apply Z.mod_pos_bound; lia).
    pose proof (IH (n / 10) _ _ _ _ (digit_run_cons _ _ _ _ _ Hd Hacc)) as H.
    replace (j + S k)%nat with (S j + k)%nat by lia.
    replace (n mod pow10 (S k) * pow10 j + v)
      with ((n / 10) mod pow10 k * pow10 (S j) + (n mod 10 * pow10 j + v)); [exact H |].
    rewrite !pow10_S, Z.rem_mul_r by (pose proof (pow10_pos k); lia). ring.
Qed.

Lemma int_digits_run (fuel : nat) : forall (n : Z) (acc : string) (j : nat) (v : Z) rest,
  (0 < fuel)%nat -> 0 <= n < 2 ^ Z.of_nat fuel ->
  digit_run acc j v rest ->
  exists k, digit_run (int_digits fuel n acc) (j + S k) (n * pow10 j + v) rest.
Proof.
  induction fuel as [|fuel IH]; intros n acc j v rest Hf Hn Hacc.
  - lia.
  - simpl int_digits.
    assert (Hd : 0 <= n mod 10 < 10) by (apply Z.mod_pos_bound; lia).
    pose proof (digit_run_cons _ _ _ _ _ Hd Hacc) as Hacc'.
    pose proof (Z.div_mod n 10 ltac:(lia)) as Hdm.
    destruct (n / 10 =? 0) eqn:Hq.
    + apply Z.eqb_eq in Hq. exists 0%nat.
      replace (j + 1)%nat with (S j) by lia.
      replace (n * pow10 j + v) with (n mod 10 * pow10 j + v); [exact Hacc' |].
      rewrite Hq in Hdm. replace (n mod 10) with n by lia. reflexivity.
    + apply Z.eqb_neq in Hq.
      assert (Hn' : 0 <= n / 10 < 2 ^ Z.of_nat fuel).
      { split; [apply Z.div_pos; lia |].
        apply Z.div_lt_upper_bound; [lia |].
        rewrite Nat2Z.inj_succ, Z.pow_succ_r in Hn by lia.
        assert (0 < 2 ^ Z.of_nat fuel) by (apply Z.pow_pos_nonneg; lia). lia. }
      assert (Hf' : (0 < fuel)%nat).
      { destruct fuel; [simpl in Hn'; lia | lia]. }
      destruct (IH (n / 10) _ _ _ _ Hf' Hn' Hacc') as [k Hk].
      exists (S k).
      replace (j + S (S k))%nat with (S j + S k)%nat by lia.
      replace (n * pow10 j + v)
        with (n / 10 * pow10 (S j) + (n mod 10 * pow10 j + v)); [exact Hk |].
      rewrite pow10_S. rewrite Hdm at 3. ring.
Qed.

Lemma Z_digits_run (n : Z) (acc : string) :
  0 <= n ->
  exists k, digit_run (Z_digits n acc) (S k) n acc.
Proof.
  intros Hn. unfold Z_digits.
  assert (Hb : 0 <= n < 2 ^ Z.of_nat (S (Z.to_nat (Z.log2 n)))).
  { split; [exact Hn |].
    rewrite Nat2Z.inj_succ, Z2Nat.id by apply Z.log2_nonneg.
    destruct (Z.eq_dec n 0) as [-> | Hne]; [reflexivity |].
    apply Z.log2_spec. lia. }
  destruct (int_digits_run _ n acc 0 0 acc (Nat.lt_0_succ _) Hb (digit_run_nil acc))
    as [k Hk].
  exists k. change (pow10 0) with 1 in Hk.
  replace (n * 1 + 0) with n in Hk by lia. exact Hk.
Qed.


Lemma scan_digits_stop_dot (s : string) (a : Z) (c : nat) :
  scan_digits (String "." s) a c = (a, c, String "." s).
Proof. reflexivity. Qed.

Lemma not_minus_sign (s : string) (v : Z) (k : nat) (rest : string) :
  scan_digits s 0 0 = (v, S k, rest) ->
  match s with String "-" r => (true, r) | _ => (false, s) end = (false, s).
Proof.
  destruct s as [|c r]; [reflexivity |]. intros H.
  destruct c as [[] [] [] [] [] [] [] []]; try reflexivity.
  simpl in H. discriminate.
Qed.

Lemma scan_digits_fixed_body (a : Z) (d : nat) :
  0 <= a ->
  exists k, scan_digits (fixed_body a d) 0 0
            = (a / pow10 d, S k,
               if Nat.eqb d 0 then EmptyString
               else String "." (fixed_digits d a EmptyString)).
Proof.
  intros Ha. unfold fixed_body.
  assert (Hip : 0 <= a / pow10 d) by (apply Z.div_pos; [lia | apply pow10_pos]).
  destruct (Z_digits_run (a / pow10 d)
              (if Nat.eqb d 0 then EmptyString
               else String "." (fixed_digits d a EmptyString)) Hip) as [k Hk].
  exists k. rewrite Hk. simpl (0 * _ + _). destruct d; reflexivity.
Qed.

Lemma scan_decimal_fixed_body (a : Z) (d : nat) :
  0 <= a -> scan_decimal (fixed_body a d) = Some (a, - Z.of_nat d, EmptyString).
Proof.
  intros Ha. unfold scan_decimal.
  destruct (scan_digits_fixed_body a d Ha) as [k ->].
  destruct d as [|d].
  - simpl. change (pow10 0) with 1. rewrite Z.div_1_r. reflexivity.
  - cbn [Nat.eqb].
    pose proof (fixed_digits_run (S d) a EmptyString 0 0 EmptyString
                  (digit_run_nil EmptyString) (a / pow10 (S d)) 0%nat) as H.
    simpl (0 + _)%nat in H. rewrite H. cbn [scan_digits Nat.eqb andb scan_exponent].
    change (pow10 0) with 1.
    replace (a / pow10 (S d) * pow10 (S d) + (a mod pow10 (S d) * 1 + 0)) with a.
    + f_equal.
    + pose proof (Z.div_mod a (pow10 (S d))) as Hdm.
      pose proof (pow10_pos (S d)). lia.
Qed.

Lemma half_up_sign (n d : Z) :
  0 < d -> (n < 0 -> Big.half_up n d <= 0) /\ (0 <= n -> 0 <= Big.half_up n d).
Proof.
  intros Hd. unfold Big.half_up.
  assert (Hq : 0 <= (2 * Z.abs n + Z.abs d) / (2 * Z.abs d))
    by (apply Z.div_pos; lia).
  rewrite (Z.sgn_pos d Hd), Z.mul_1_r.
  split; intros Hn.
  - rewrite (Z.sgn_neg n Hn). lia.
  - destruct (Z.eq_dec n 0) as [-> | Hne]; [simpl; lia |].
    rewrite (Z.sgn_pos n) by lia. lia.
Qed.

Lemma toFixed_body (x : Big.t) (d : nat) :
  Big.toFixed x d
  = if Big.coef x <? 0 then String "-" (fixed_body (Z.abs (Big.coef (Big.round x d))) d)
    else fixed_body (Z.abs (Big.coef (Big.round x d))) d.
Proof. reflexivity. Qed.

Lemma of_string_fixed_body (a : Z) (d : nat) :
  0 <= a -> Big.of_string (fixed_body a d) = Some (Big.mk a d).
Proof.
  intros Ha. unfold Big.of_string.
  destruct (scan_digits_fixed_body a d Ha) as [k Hk].
  rewrite (not_minus_sign _ _ _ _ Hk), (scan_decimal_fixed_body a d Ha).
  destruct d as [|d].
  - simpl. rewrite Z.mul_1_r. reflexivity.
  - replace (0 <=? - Z.of_nat (S d)) with false by (symmetry; apply Z.leb_gt; lia).
    rewrite Z.opp_involutive, Nat2Z.id. reflexivity.
Qed.

Lemma of_string_minus_fixed_body (a : Z) (d : nat) :
  0 <= a -> Big.of_string (String "-" (fixed_body a d)) = Some (Big.mk (- a) d).
Proof.
  intros Ha. unfold Big.of_string.
  rewrite (scan_decimal_fixed_body a d Ha).
  destruct d as [|d].
  - simpl. rewrite Z.mul_1_r. reflexivity.
  - replace (0 <=? - Z.of_nat (S d)) with false by (symmetry; apply Z.leb_gt; lia).
    rewrite Z.opp_involutive, Nat2Z.id. reflexivity.
Qed.

(** Reading back what [toFixed] printed gives the rounded number: the
    constructor never throws on such a string. *)
Lemma of_string_toFixed (x : Big.t) (d : nat) :
  Big.of_string (Big.toFixed x d) = Some (Big.round x d).
Proof.
  rewrite toFixed_body.
  pose proof (half_up_sign (Big.coef x * pow10 (d - Big.dp x)) (pow10 (Big.dp x - d))
                (pow10_pos _)) as [Hneg Hpos].
  pose proof (pow10_pos (d - Big.dp x)) as Hp.
  destruct (Big.coef x <? 0) eqn:Hx.
  - apply Z.ltb_lt in Hx.
    rewrite of_string_minus_fixed_body by apply Z.abs_nonneg.
    unfold Big.round in *. cbn [Big.coef] in *. f_equal. f_equal.
    assert (Big.half_up (Big.coef x * pow10 (d - Big.dp x)) (pow10 (Big.dp x - d)) <= 0)
      by (apply Hneg; nia).
    lia.
  - apply Z.ltb_ge in Hx.
    rewrite of_string_fixed_body by apply Z.abs_nonneg.
    unfold Big.round in *. cbn [Big.coef] in *. f_equal. f_equal.
    assert (0 <= Big.half_up (Big.coef x * pow10 (d - Big.dp x)) (pow10 (Big.dp x - d)))
      by (apply Hpos; nia).
    lia.
Qed.

Lemma round_same_scale (c : Z) (d : nat) : Big.round (Big.mk c d) d = Big.mk c d.
Proof.
  unfold Big.round, Big.half_up. cbn [Big.coef Big.dp].
  rewrite Nat.sub_diag. change (pow10 0) with 1. f_equal.
  replace ((2 * Z.abs (c * 1) + Z.abs 1) / (2 * Z.abs 1)) with (Z.abs c).
  - rewrite Z.mul_1_r. simpl (Z.sgn 1). rewrite Z.mul_1_r. lia.
  - rewrite Z.mul_1_r. change (Z.abs 1) with 1.
    apply Z.div_unique with (r := 1); lia.
Qed.

Lemma plus_same_scale (a b : Z) (d : nat) :
  Big.plus (Big.mk a d) (Big.mk b d) = Big.mk (a + b) d.
Proof.
  unfold Big.plus. cbn [Big.coef Big.dp].
  rewrite Nat.sub_diag, Nat.max_id. change (pow10 0) with 1. f_equal. lia.
Qed.

Lemma lte_zero (b : Big.t) : Big.lte b (Big.of_Z 0) = (Big.coef b <=? 0).
Proof.
  unfold Big.lte, Big.cmp, Big.of_Z. cbn [Big.coef Big.dp].
  change (pow10 0) with 1. rewrite Z.mul_1_r, Z.mul_0_l.
  unfold Z.leb. destruct (Big.coef b ?= 0); reflexivity.
Qed.

(** ** [parseFloat] on the numerals big.js accepts *)

Lemma digit_val_nonneg (ch : ascii) (d : Z) : digit_val ch = Some d -> 0 <= d < 10.
Proof.
  unfold digit_val.
  destruct ((48 <=? Z.of_N (N_of_ascii ch)) && (Z.of_N (N_of_ascii ch) <=? 57)) eqn:H;
    [| discriminate].
  apply andb_true_iff in H as [H1%Z.leb_le H2%Z.leb_le]. intros [= <-]. lia.
Qed.

Lemma scan_digits_nonneg (s : string) : forall (acc : Z) (cnt : nat) v n rest,
  0 <= acc -> scan_digits s acc cnt = (v, n, rest) -> 0 <= v.
Proof.
  induction s as [|ch s IH]; intros acc cnt v n rest Hacc; cbn [scan_digits].
  - intros [= <- _ _]. exact Hacc.
  - destruct (digit_val ch) as [d|] eqn:Hd.
    + apply digit_val_nonneg in Hd. apply IH. lia.
    + intros [= <- _ _]. exact Hacc.
Qed.

Lemma scan_decimal_nonneg (s : string) (c e : Z) (rest : string) :
  scan_decimal s = Some (c, e, rest) -> 0 <= c.
Proof.
  unfold scan_decimal.
  destruct (scan_digits s 0 0) as [[ip ni] s1] eqn:H1.
  pose proof (scan_digits_nonneg _ _ _ _ _ _ (Z.le_refl 0) H1) as Hip.
  assert (H2 : forall c nf s2,
             match s1 with
             | String "." r => scan_digits r ip 0
             | _ => (ip, 0%nat, s1)
             end = (c, nf, s2) -> 0 <= c).
  { intros c' nf s2. destruct s1 as [|ch r]; [by intros [= <- _ _] |].
    destruct ch as [[] [] [] [] [] [] [] []];
      first [ by intros [= <- _ _] | apply scan_digits_nonneg; exact Hip ]. }
  destruct (match s1 with String "." r => scan_digits r ip 0 | _ => (ip, 0%nat, s1) end)
    as [[c' nf] s2] eqn:H3.
  specialize (H2 _ _ _ eq_refl).
  destruct (Nat.eqb ni 0 && Nat.eqb nf 0); [discriminate |].
  destruct (scan_exponent s2). intros [= <- _ _]. exact H2.
Qed.

(** A string that starts a numeral starts neither with white space nor
    with a sign nor with the word Infinity. *)
Lemma scan_decimal_head (s : string) (c e : Z) (rest : string) :
  scan_decimal s = Some (c, e, rest) ->
  Js.trim_start s = s
  /\ String.prefix "Infinity" s = false
  /\ match s with
     | String "-" r => (true, r)
     | String "+" r => (false, r)
     | _ => (false, s)
     end = (false, s)
  /\ match s with String "-" r => (true, r) | _ => (false, s) end = (false, s).
Proof.
  destruct s as [|ch r]; [discriminate |]. intros H.
  destruct ch as [[] [] [] [] [] [] [] []];
    first [ by repeat split | exfalso; cbn in H; discriminate ].
Qed.

Lemma minus_or_not (s : string) :
  (exists r, s = String "-" r)
  \/ match s with String "-" r => (true, r) | _ => (false, s) end = (false, s).
Proof.
  destruct s as [|ch r]; [by right |].
  destruct ch as [[] [] [] [] [] [] [] []]; first [ by right | left; by eexists ].
Qed.

Lemma parseFloat_minus (r : string) :
  Js.parseFloat (String "-" r)
  = Js.negate (if String.prefix "Infinity" r then Js.Infinity false
               else match scan_decimal r with
                    | Some (c, e10, _) => Js.of_decimal c e10
                    | None => Js.NaN
                    end).
Proof. reflexivity. Qed.

(** What big.js reads as a numeral, [parseFloat] reads as the double
    nearest to it. *)
Lemma parseFloat_of_string (s : string) (g : Big.t) :
  Big.of_string s = Some g ->
  exists (neg : bool) (c e : Z),
    0 <= c
    /\ g = (if 0 <=? e then Big.mk ((if neg then - c else c) * 10 ^ e) 0
            else Big.mk (if neg then - c else c) (Z.to_nat (- e)))
    /\ Js.parseFloat s
       = (if neg then Js.negate (Js.of_decimal c e) else Js.of_decimal c e).
Proof.
  unfold Big.of_string.
  destruct (minus_or_not s) as [[r ->] | Hs].
  - destruct (scan_decimal r) as [[[c e] rest]|] eqn:Hscan; [| discriminate].
    destruct rest; [| discriminate]. intros [= <-].
    destruct (scan_decimal_head _ _ _ _ Hscan) as (_ & Hinf & _).
    exists true, c, e. split; [by eapply scan_decimal_nonneg |]. split; [reflexivity |].
    rewrite parseFloat_minus, Hinf, Hscan. reflexivity.
  - rewrite Hs.
    destruct (scan_decimal s) as [[[c e] rest]|] eqn:Hscan; [| discriminate].
    destruct rest; [| discriminate]. intros [= <-].
    destruct (scan_decimal_head _ _ _ _ Hscan) as (Htrim & Hinf & Hsign & _).
    exists false, c, e. split; [by eapply scan_decimal_nonneg |]. split; [reflexivity |].
    unfold Js.parseFloat. rewrite Htrim, Hsign, Hinf, Hscan. reflexivity.
Qed.

Lemma rne_ge_quotient (n d : Z) : n / d <= Js.rne n d.
Proof. unfold Js.rne. destruct (2 * (n mod d) ?= d); [destruct (Z.even _) | |]; lia. Qed.

Lemma rne_nonneg (n d : Z) : 0 <= n -> 0 < d -> 0 <= Js.rne n d.
Proof.
  intros Hn Hd. pose proof (rne_ge_quotient n d).
  pose proof (Z.div_pos n d Hn Hd). lia.
Qed.

Lemma rne_positive (n d : Z) : 0 < d -> d <= n -> 1 <= Js.rne n d.
Proof.
  intros Hd Hn. pose proof (rne_ge_quotient n d).
  assert (1 <= n / d) by (apply Z.div_le_lower_bound; lia). lia.
Qed.

Lemma gtb_zero_Num (m e : Z) : Js.gtb (Js.Num m e) (Js.of_Z 0) = (0 <? m).
Proof.
  unfold Js.gtb, Js.of_Z. cbn [Js.compare]. rewrite Z.mul_0_l.
  assert (0 < 2 ^ (e - Z.min e 0)) by (apply Z.pow_pos_nonneg; lia).
  destruct (Z.ltb_spec 0 m) as [Hm | Hm].
  - replace (m * 2 ^ (e - Z.min e 0) ?= 0) with Gt; [done |].
    symmetry. apply Z.compare_gt_iff. nia.
  - destruct (m * 2 ^ (e - Z.min e 0) ?= 0) eqn:Hc; try done.
    apply Z.compare_gt_iff in Hc. nia.
Qed.

(** The scaled comparison inside [binary64] finds the binary order of
    magnitude of [n / d]. *)
Lemma binary64_magnitude (n d : Z) :
  0 < n -> 0 < d ->
  let k0 := Z.log2 n - Z.log2 d in
  let fits := if 0 <=? k0 then d * 2 ^ k0 <=? n else d <=? n * 2 ^ (- k0) in
  let k := if fits then k0 else k0 - 1 in
  Z.log2 n - Z.log2 d - 1 <= k
  /\ (0 <= k -> d * 2 ^ k <= n)
  /\ (k < 0 -> d <= n * 2 ^ (- k)).
Proof.
  intros Hn Hd k0 fits k.
  pose proof (Z.log2_spec n Hn) as [Hn1 Hn2].
  pose proof (Z.log2_spec d Hd) as [Hd1 Hd2].
  pose proof (Z.log2_nonneg n) as Ha. pose proof (Z.log2_nonneg d) as Hb.
  set (a := Z.log2 n) in *. set (b := Z.log2 d) in *.
  rewrite <- Z.add_1_r in Hn2, Hd2.
  subst k. destruct fits eqn:Hfits; subst fits.
  - split; [lia |]. destruct (Z.leb_spec 0 k0) as [Hk | Hk].
    + apply Z.leb_le in Hfits. split; [done | lia].
    + apply Z.leb_le in Hfits. split; [lia | done].
  - split; [lia |]. split.
    + intros Hk. subst k0.
      assert (d * 2 ^ (a - b - 1) < 2 ^ (b + 1) * 2 ^ (a - b - 1)).
      { apply Z.mul_lt_mono_pos_r; [apply Z.pow_pos_nonneg; lia | done]. }
      rewrite <- Z.pow_add_r in H by lia.
      replace (b + 1 + (a - b - 1)) with a in H by lia. lia.
    + intros Hk. subst k0.
      assert (2 ^ a * 2 ^ (- (a - b - 1)) <= n * 2 ^ (- (a - b - 1))).
      { apply Z.mul_le_mono_nonneg_r; [apply Z.pow_nonneg; lia | done]. }
      rewrite <- Z.pow_add_r in H by lia.
      replace (a + - (a - b - 1)) with (b + 1) in H by lia. lia.
Qed.

(** A quotient that is not below the smallest doubles is read as a double
    above zero. *)
Lemma binary64_positive (n d : Z) :
  0 < n -> 0 < d -> Z.log2 d <= Z.log2 n + 1073 ->
  Js.gtb (Js.binary64 n d) (Js.of_Z 0) = true.
Proof.
  intros Hn Hd Hsize. unfold Js.binary64.
  destruct (binary64_magnitude n d Hn Hd) as (Hk & Hhi & Hlo).
  cbv zeta in Hk, Hhi, Hlo.
  set (k := if (if 0 <=? Z.log2 n - Z.log2 d
                then d * 2 ^ (Z.log2 n - Z.log2 d) <=? n
                else d <=? n * 2 ^ (- (Z.log2 n - Z.log2 d)))
            then Z.log2 n - Z.log2 d else Z.log2 n - Z.log2 d - 1) in *.
  cbv zeta. set (e := Z.max (k - 52) (-1074)).
  assert (He : e <= k) by lia.
  set (m := if 0 <=? e then Js.rne n (d * 2 ^ e) else Js.rne (n * 2 ^ (- e)) d).
  assert (Hm : 1 <= m).
  { subst m. destruct (Z.leb_spec 0 e) as [He0 | He0].
    - assert (0 < 2 ^ e) by (apply Z.pow_pos_nonneg; lia).
      apply rne_positive; [nia |].
      assert (2 ^ e <= 2 ^ k) by (apply Z.pow_le_mono_r; lia).
      specialize (Hhi ltac:(lia)). nia.
    - apply rne_positive; [done |].
      destruct (Z_lt_ge_dec k 0) as [Hk0 | Hk0].
      + specialize (Hlo Hk0).
        assert (2 ^ (- k) <= 2 ^ (- e)) by (apply Z.pow_le_mono_r; lia). nia.
      + specialize (Hhi ltac:(lia)).
        assert (0 < 2 ^ k) by (apply Z.pow_pos_nonneg; lia).
        assert (0 < 2 ^ (- e)) by (apply Z.pow_pos_nonneg; lia). nia. }
  destruct ((971 <=? e) && (2 ^ 1024 <=? m * 2 ^ e)); [reflexivity |].
  rewrite gtb_zero_Num. apply Z.ltb_lt. lia.
Qed.

Lemma binary64_not_negative (n d : Z) :
  0 < n -> 0 < d -> Js.gtb (Js.negate (Js.binary64 n d)) (Js.of_Z 0) = false.
Proof.
  intros Hn Hd. unfold Js.binary64. cbv zeta.
  set (e := Z.max _ (-1074)).
  set (m := if 0 <=? e then Js.rne n (d * 2 ^ e) else Js.rne (n * 2 ^ (- e)) d).
  assert (Hm : 0 <= m).
  { subst m. destruct (Z.leb_spec 0 e).
    - apply rne_nonneg; [lia |].
      assert (0 < 2 ^ e) by (apply Z.pow_pos_nonneg; lia). nia.
    - apply rne_nonneg; [| done].
      assert (0 < 2 ^ (- e)) by (apply Z.pow_pos_nonneg; lia). nia. }
  destruct ((971 <=? e) && (2 ^ 1024 <=? m * 2 ^ e)); [reflexivity |].
  cbn [Js.negate]. rewrite gtb_zero_Num. apply Z.ltb_ge. lia.
Qed.

Lemma log2_pow10_bound (j : Z) : 0 <= j <= 300 -> Z.log2 (10 ^ j) <= 1073.
Proof.
  intros Hj. transitivity (Z.log2 (10 ^ 300)); [| by vm_compute].
  apply Z.log2_le_mono. apply Z.pow_le_mono_r; lia.
Qed.

(** For an amount with at most 300 decimals, the test [parseFloat(s) > 0]
    says whether the amount is above zero. *)
Lemma parseFloat_positive (s : string) (g : Big.t) :
  Big.of_string s = Some g -> (Big.dp g <= 300)%nat ->
  Js.gtb (Js.parseFloat s) (Js.of_Z 0) = (0 <? Big.coef g).
Proof.
  intros Hparse Hdp.
  destruct (parseFloat_of_string s g Hparse) as (neg & c & e & Hc & -> & ->).
  assert (He : -300 <= e).
  { destruct (Z.leb_spec 0 e); cbn [Big.dp] in Hdp; lia. }
  assert (Hcoef : Big.coef (if 0 <=? e then Big.mk ((if neg then - c else c) * 10 ^ e) 0
                            else Big.mk (if neg then - c else c) (Z.to_nat (- e)))
                  = (if neg then - c else c) * (if 0 <=? e then 10 ^ e else 1)).
  { destruct (0 <=? e); cbn [Big.coef]; lia. }
  rewrite Hcoef. clear Hcoef Hdp.
  assert (Hscale : 0 < (if 0 <=? e then 10 ^ e else 1)).
  { destruct (Z.leb_spec 0 e); [apply Z.pow_pos_nonneg; lia | lia]. }
  unfold Js.of_decimal.
  destruct (Z.eqb_spec c 0) as [-> | Hne].
  { destruct neg; simpl; symmetry; apply Z.ltb_ge; lia. }
  assert (Hpos : 0 < c) by lia.
  destruct neg.
  - transitivity false; [| symmetry; apply Z.ltb_ge; nia].
    destruct (Z.leb_spec 0 e).
    + apply binary64_not_negative; [| lia].
      assert (0 < 10 ^ e) by (apply Z.pow_pos_nonneg; lia). nia.
    + apply binary64_not_negative; [lia | apply Z.pow_pos_nonneg; lia].
  - transitivity true; [| symmetry; apply Z.ltb_lt; nia].
    destruct (Z.leb_spec 0 e).
    + assert (0 < 10 ^ e) by (apply Z.pow_pos_nonneg; lia).
      apply binary64_positive; [nia | lia |].
      change (Z.log2 1) with 0. pose proof (Z.log2_nonneg (c * 10 ^ e)). lia.
    + apply binary64_positive; [lia | apply Z.pow_pos_nonneg; lia |].
      pose proof (log2_pow10_bound (- e) ltac:(lia)).
      pose proof (Z.log2_nonneg c). lia.
Qed.

(** ** The sort of arrays *)

Lemma sort_insert_perm {A : Type} (cmp : A -> A -> Z) (x : A) (l : list A) :
  sort_insert cmp x l ≡ₚ x :: l.
Proof.
  induction l as [|y l IH]; [reflexivity |].
  simpl. destruct (0 <? cmp x y); [| reflexivity].
  rewrite IH. apply Permutation_swap.
Qed.

Lemma js_sort_perm {A : Type} (cmp : A -> A -> Z) (l : list A) :
  js_sort cmp l ≡ₚ l.
Proof.
  induction l as [|x l IH]; [reflexivity |].
  simpl. rewrite sort_insert_perm. by f_equiv.
Qed.

Section SortByKey.
Context {A : Type} (key : A -> Z).

(** The comparator [(a, b) => key(b) - key(a)] sorts by decreasing key. *)
Lemma sort_insert_sorted (x : A) (l : list A) :
StronglySorted (fun a b => key b <= key a) l ->
StronglySorted (fun a b => key b <= key a)
               (sort_insert (fun a b => key b - key a) x l).
Proof.
induction 1 as [|y l Hs IH Hy]; simpl.
- repeat constructor.
- destruct (0 <? key y - key x) eqn:Hc.
  + apply Z.ltb_lt in Hc. constructor; [exact IH |].
    rewrite sort_insert_perm. constructor; [lia | exact Hy].
  + apply Z.ltb_ge in Hc. constructor; [by constructor |].
    constructor; [lia |].
    eapply Forall_impl; [exact Hy |]. simpl. intros; lia.
Qed.

Lemma js_sort_sorted (l : list A) :
StronglySorted (fun a b => key b <= key a) (js_sort (fun a b => key b - key a) l).
Proof.
induction l as [|x l IH]; simpl; [constructor | by apply sort_insert_sorted].
Qed.
End SortByKey.

Lemma find_first {A : Type} (f : A -> bool) (l : list A) (x : A) :
  List.find f l = Some x ->
  exists pre post, l = pre ++ x :: post /\ Forall (fun y => f y = false) pre /\ f x = true.
Proof.
  induction l as [|y l IH]; simpl; [discriminate |].
  destruct (f y) eqn:Hy.
  - intros [= ->]. exists [], l. repeat split; [constructor | exact Hy].
  - intros H. destruct (IH H) as (pre & post & -> & Hpre & Hx).
    exists (y :: pre), post. repeat split; [by constructor | exact Hx].
Qed.

Lemma find_prefix {A : Type} (f : A -> bool) (pre post : list A) (x : A) :
  Forall (fun y => f y = false) pre -> f x = true ->
  List.find f (pre ++ x :: post) = Some x.
Proof.
  induction 1 as [|y pre Hy _ IH]; simpl; intros Hx; [by rewrite Hx |].
  rewrite Hy. by apply IH.
Qed.

Lemma find_none_all {A : Type} (f : A -> bool) (l : list A) :
  Forall (fun y => f y = false) l -> List.find f l = None.
Proof. induction 1 as [|y l Hy _ IH]; simpl; [done | by rewrite Hy]. Qed.

(** ** Comparisons with zero *)

Lemma geb_zero_positive (x : Js.number) :
  Js.gtb x (Js.of_Z 0) = true -> Js.geb (Js.of_Z 0) x = false.
Proof.
  destruct x as [| [] | m e]; try (simpl; done).
  unfold Js.gtb, Js.geb, Js.of_Z. cbn [Js.compare].
  rewrite (Z.min_comm 0 e), !Z.mul_0_l.
  destruct (m * 2 ^ (e - Z.min e 0) ?= 0) eqn:Hc; try discriminate. intros _.
  apply Z.compare_gt_iff in Hc.
  destruct (0 ?= m * 2 ^ (e - Z.min e 0)) eqn:Hc'; try reflexivity.
  - apply Z.compare_eq_iff in Hc'. lia.
  - apply Z.compare_gt_iff in Hc'. lia.
Qed.

Lemma geb_zero_of_Z (z : Z) : Js.geb (Js.of_Z 0) (Js.of_Z z) = (z <=? 0).
Proof.
  unfold Js.geb, Js.of_Z. cbn [Js.compare].
  change (0 - Z.min 0 0) with 0. change (2 ^ 0) with 1.
  change (0 * 1) with 0. rewrite Z.mul_1_r.
  unfold Z.leb. rewrite (Z.compare_antisym 0 z).
  destruct (0 ?= z); reflexivity.
Qed.

(** ** Tier resolution *)

Lemma qualifies_zero (pid w : string) (t : RevenueShareTier.t) :
  hasPositiveThreshold t = true -> qualifies (zeroMetrics pid w) t = false.
Proof.
  unfold hasPositiveThreshold, qualifies, zeroMetrics. cbn [winRate totalSignals totalCopiers reputationScore].
  rewrite !geb_zero_of_Z. intros H.
  destruct (Js.gtb (Js.parseFloat (RevenueShareTier.minWinRate t)) (Js.of_Z 0)) eqn:H1.
  { by rewrite (geb_zero_positive _ H1). }
  destruct (0 <? RevenueShareTier.minSignals t) eqn:H2.
  { apply Z.ltb_lt in H2. replace (RevenueShareTier.minSignals t <=? 0) with false
      by (symmetry; apply Z.leb_gt; lia). by rewrite andb_false_r. }
  destruct (0 <? RevenueShareTier.minCopiers t) eqn:H3.
  { apply Z.ltb_lt in H3. replace (RevenueShareTier.minCopiers t <=? 0) with false
      by (symmetry; apply Z.leb_gt; lia). by rewrite andb_false_r. }
  simpl in H. rewrite (geb_zero_positive _ H). by rewrite andb_false_r.
Qed.

Lemma replaceTier_Forall (P : RevenueShareTier.t -> Prop) l t rows :
  P t -> Forall P rows -> Forall P (replaceTier l t rows).
Proof.
  intros Ht. induction 1 as [|r rows Hr Hrows IH]; cbn [replaceTier]; [constructor |].
  destruct (bool_decide _); by constructor.
Qed.

Lemma floorOrReputed_assign (t : RevenueShareTier.t) (upd : TierConfigUpdates) :
  floorOrReputed t -> floorOrReputed (assignUpdates t upd).
Proof. intros H. exact H. Qed.

Lemma refreshTierCache_Forall (P : RevenueShareTier.t -> Prop) (st : Store) :
  Forall P (tierRepo st) ->
  Forall P (tierRepo (refreshTierCache st).1) /\ Forall P (tierCache (refreshTierCache st).1).
Proof.
  intros H. cbn. split; [exact H |].
  rewrite js_sort_perm. rewrite Forall_forall in H. apply Forall_forall.
  intros t Ht. apply H. apply list_elem_of_In. apply list_elem_of_In in Ht.
  apply List.filter_In in Ht. tauto.
Qed.

Lemma updateTierConfig_Forall (P : RevenueShareTier.t -> Prop) l upd (st : Store) :
  (forall t, P t -> P (assignUpdates t upd)) ->
  Forall P (tierRepo st) -> Forall P (tierCache st) ->
  Forall P (tierRepo (updateTierConfig l upd st).1)
  /\ Forall P (tierCache (updateTierConfig l upd st).1).
Proof.
  intros HP Hrepo Hcache. unfold updateTierConfig, bind, gets.
  destruct (findTier l (tierRepo st)) as [t|] eqn:Hfind; [| by split].
  assert (Ht : P t).
  { unfold findTier in Hfind. apply List.find_some in Hfind as [Hin _].
    rewrite Forall_forall in Hrepo. apply Hrepo. by apply list_elem_of_In. }
  cbn [saveTier fst snd].
  set (st1 := mkStore _ _ _ _ _ _ _).
  assert (Hrepo1 : Forall P (tierRepo st1)).
  { subst st1. cbn [tierRepo]. apply replaceTier_Forall; [by apply HP | exact Hrepo]. }
  destruct (refreshTierCache_Forall P st1 Hrepo1) as [H1 H2].
  change (refreshTierCache st1) with ((refreshTierCache st1).1, Ok tt). cbn [fst ret].
  by split.
Qed.

Lemma configuredStore_tiers (updates : list (ProviderTierLevel * TierConfigUpdates)) :
  Forall floorOrReputed (tierCache (configuredStore updates)).
Proof.
  unfold configuredStore.
  assert (Hseed : Forall floorOrReputed (tierRepo seededStore)
                  /\ Forall floorOrReputed (tierCache seededStore)).
  { split; repeat constructor; first [by left | by right]. }
  revert Hseed. generalize seededStore.
  induction updates as [|[l upd] updates IH]; intros st [Hrepo Hcache]; [exact Hcache |].
  cbn [forEach]. unfold bind at 1. unfold try_catch at 1. unfold bind at 1.
  destruct (updateTierConfig_Forall floorOrReputed l upd st
              (fun t => floorOrReputed_assign t upd) Hrepo Hcache) as [H1 H2].
  destruct (updateTierConfig l upd st) as [st1 [t | e]]; cbn [fst ret] in *;
    by apply IH.
Qed.

Lemma tierIndex_rank (level : ProviderTierLevel) : tierIndex level = spec_rank level.
Proof. by destruct level. Qed.

Lemma spec_rank_inj (l1 l2 : ProviderTierLevel) : spec_rank l1 = spec_rank l2 -> l1 = l2.
Proof. destruct l1, l2; cbn; intros H; first [reflexivity | lia]. Qed.

Lemma qualifies_meets (metrics : ProviderMetrics) (tier : RevenueShareTier.t) :
  qualifies metrics tier = true <-> spec_meets metrics tier.
Proof. unfold qualifies, spec_meets. rewrite !andb_true_iff. tauto. Qed.

Lemma qualifies_not_meets (metrics : ProviderMetrics) (tier : RevenueShareTier.t) :
  qualifies metrics tier = false <-> ~ spec_meets metrics tier.
Proof.
  rewrite <- qualifies_meets. destruct (qualifies metrics tier); split; try done;
    intros H; by destruct H.
Qed.

Lemma tiersByPrecedence_sorted (st : Store) :
  StronglySorted
    (fun a b => spec_rank (RevenueShareTier.tierLevel b)
                <= spec_rank (RevenueShareTier.tierLevel a))
    (tiersByPrecedence st).
Proof.
  pose proof (js_sort_sorted (fun t => tierIndex (RevenueShareTier.tierLevel t))
                (getCachedTiers st)) as Hs.
  cbn beta in Hs. unfold tiersByPrecedence. revert Hs.
  generalize (js_sort (fun a b => tierIndex (RevenueShareTier.tierLevel b)
                                  - tierIndex (RevenueShareTier.tierLevel a))
                      (getCachedTiers st)).
  intros tiers Hs. induction Hs as [|x rest Hs IH Hx]; constructor; [exact IH |].
  eapply Forall_impl; [exact Hx |]. intros y Hy. cbn beta in Hy.
  by rewrite <- !tierIndex_rank.
Qed.

Lemma StronglySorted_after {A : Type} (R : A -> A -> Prop) (pre post : list A) (x y : A) :
  StronglySorted R (pre ++ x :: post) -> y ∈ post -> R x y.
Proof.
  induction pre as [|z pre IH]; cbn [app]; intros Hs Hy.
  - apply StronglySorted_inv in Hs as [_ Hall]. rewrite Forall_forall in Hall.
    by apply Hall.
  - apply StronglySorted_inv in Hs as [Hs _]. by apply IH.
Qed.

Lemma resolveTierForMetrics_walk (st : Store) (metrics : ProviderMetrics) :
  resolveTierForMetrics st metrics
  = match List.find (qualifies metrics) (tiersByPrecedence st) with
    | Some tier => RevenueShareTier.tierLevel tier
    | None => BRONZE
    end.
Proof. reflexivity. Qed.

Lemma resolveTierForMetrics_resolves (st : Store) (metrics : ProviderMetrics) :
  spec_resolves (tierCache st) metrics (resolveTierForMetrics st metrics).
Proof.
  assert (Hperm : tiersByPrecedence st ≡ₚ tierCache st) by apply js_sort_perm.
  pose proof (tiersByPrecedence_sorted st) as Hsorted.
  rewrite resolveTierForMetrics_walk.
  destruct (List.find (qualifies metrics) (tiersByPrecedence st)) as [u|] eqn:Hfind.
  - destruct (find_first _ _ _ Hfind) as (pre & post & Heq & Hpre & Hu).
    left. exists u. split; [rewrite <- Hperm, Heq; set_solver |].
    split; [reflexivity |]. split; [by apply qualifies_meets |].
    intros t Ht Hmeets. rewrite <- Hperm, Heq in Ht. rewrite Heq in Hsorted.
    apply elem_of_app in Ht as [Ht | Ht].
    + rewrite Forall_forall in Hpre. apply qualifies_meets in Hmeets.
      rewrite (Hpre t Ht) in Hmeets. discriminate.
    + apply elem_of_cons in Ht as [-> | Ht]; [lia |].
      by apply (StronglySorted_after _ _ _ _ _ Hsorted).
  - right. split; [reflexivity |]. intros t Ht. apply qualifies_not_meets.
    rewrite <- Hperm in Ht. apply list_elem_of_In in Ht.
    by apply (List.find_none _ _ Hfind).
Qed.

Lemma spec_resolves_unique (cache : list RevenueShareTier.t) (metrics : ProviderMetrics)
    (l1 l2 : ProviderTierLevel) :
  spec_resolves cache metrics l1 -> spec_resolves cache metrics l2 -> l1 = l2.
Proof.
  intros [(t1 & Hin1 & Hl1 & Hm1 & Hmax1) | [-> Hnone1]]
         [(t2 & Hin2 & Hl2 & Hm2 & Hmax2) | [-> Hnone2]].
  - apply spec_rank_inj. specialize (Hmax1 t2 Hin2 Hm2). specialize (Hmax2 t1 Hin1 Hm1).
    rewrite Hl1 in Hmax2. rewrite Hl2 in Hmax1. lia.
  - by destruct (Hnone2 t1 Hin1).
  - by destruct (Hnone1 t2 Hin2).
  - reflexivity.
Qed.

(** C7. [resolveTierForMetrics] gives the answer of the specification,
    and no other level is one: the level of a cached tier whose four
    thresholds are all met, no cached tier of a higher level having its
    thresholds met, and BRONZE when no cached tier has.  It finds it as the
    specification says: the tiers it walks are the cached ones put in
    order from ELITE down to BRONZE, and it returns the level of the first
    one whose four thresholds are met.  On the default tiers, metrics that
    exactly meet the thresholds of ELITE, 75 / 200 / 300 / 85, give ELITE,
    one short on any one of the four gives PLATINUM, and the thresholds of
    PLATINUM, GOLD and SILVER give these levels.  For all-zero metrics it
    returns BRONZE when every cached tier other than BRONZE has a threshold
    above zero, which is so after the module has started on an empty
    database and the tiers have been reconfigured any number of times with
    [updateTierConfig].  The answer depends on the cache and the metrics
    only and the store is left as it was. *)
Theorem resolveTierForMetrics_first_match (st : Store) (metrics : ProviderMetrics) :
  spec_resolves (tierCache st) metrics (resolveTierForMetrics st metrics)
  /\ (forall level, spec_resolves (tierCache st) metrics level ->
        resolveTierForMetrics st metrics = level)
  /\ tiersByPrecedence st ≡ₚ tierCache st
  /\ StronglySorted
       (fun a b => spec_rank (RevenueShareTier.tierLevel b)
                   <= spec_rank (RevenueShareTier.tierLevel a))
       (tiersByPrecedence st)
  /\ (forall pre tier post,
        tiersByPrecedence st = pre ++ tier :: post ->
        Forall (fun t => ~ spec_meets metrics t) pre ->
        spec_meets metrics tier ->
        resolveTierForMetrics st metrics = RevenueShareTier.tierLevel tier)
  /\ ((forall t, t ∈ tierCache st -> ~ spec_meets metrics t) ->
      resolveTierForMetrics st metrics = BRONZE)
  /\ (forall pid w,
        let measured wr signals copiers reputation :=
          mkMetrics pid (Js.of_Z wr) (Js.of_Z signals) (Js.of_Z copiers)
                    (Js.of_Z reputation) w in
        resolveTierForMetrics seededStore (measured 75 200 300 85) = ELITE
        /\ resolveTierForMetrics seededStore (measured 74 200 300 85) = PLATINUM
        /\ resolveTierForMetrics seededStore (measured 75 199 300 85) = PLATINUM
        /\ resolveTierForMetrics seededStore (measured 75 200 299 85) = PLATINUM
        /\ resolveTierForMetrics seededStore (measured 75 200 300 84) = PLATINUM
        /\ resolveTierForMetrics seededStore (measured 68 100 150 75) = PLATINUM
        /\ resolveTierForMetrics seededStore (measured 62 50 50 65) = GOLD
        /\ resolveTierForMetrics seededStore (measured 55 20 10 55) = SILVER
        /\ resolveTierForMetrics seededStore (measured 54 20 10 55) = BRONZE
        /\ resolveTierForMetrics seededStore (measured 0 0 0 0) = BRONZE)
  /\ (forall pid w,
        forallb (fun t => bool_decide (RevenueShareTier.tierLevel t = BRONZE)
                          || hasPositiveThreshold t) (tierCache st) = true ->
        resolveTierForMetrics st (zeroMetrics pid w) = BRONZE)
  /\ (forall updates pid w,
        resolveTierForMetrics (configuredStore updates) (zeroMetrics pid w) = BRONZE)
  /\ (forall st', tierCache st' = tierCache st ->
        resolveTierForMetrics st' metrics = resolveTierForMetrics st metrics)
  /\ gets (fun s => resolveTierForMetrics s metrics) st
     = (st, Ok (resolveTierForMetrics st metrics)).
Proof.
  assert (Hperm : tiersByPrecedence st ≡ₚ tierCache st) by apply js_sort_perm.
  split; [apply resolveTierForMetrics_resolves |].
  split.
  { intros level Hlevel.
    exact (spec_resolves_unique _ _ _ _ (resolveTierForMetrics_resolves st metrics) Hlevel). }
  split; [exact Hperm |]. split; [apply tiersByPrecedence_sorted |].
  split; [| split; [| split; [| split; [| split; [| split]]]]].
  - intros pre tier post Heq Hpre Hq.
    rewrite resolveTierForMetrics_walk, Heq, (find_prefix _ pre post tier); [reflexivity | |].
    + eapply Forall_impl; [exact Hpre |]. intros t Ht. by apply qualifies_not_meets.
    + by apply qualifies_meets.
  - intros Hnone. rewrite resolveTierForMetrics_walk, find_none_all; [reflexivity |].
    rewrite Hperm. apply Forall_forall. intros t Ht. by apply qualifies_not_meets, Hnone.
  - intros pid w measured. subst measured. cbv beta.
    repeat split; vm_compute; reflexivity.
  - intros pid w Hall. rewrite resolveTierForMetrics_walk.
    destruct (List.find (qualifies (zeroMetrics pid w)) (tiersByPrecedence st))
      as [u|] eqn:Hfind; [| reflexivity].
    apply List.find_some in Hfind as [Hin Hq].
    apply list_elem_of_In in Hin. rewrite Hperm in Hin. apply list_elem_of_In in Hin.
    rewrite forallb_forall in Hall. specialize (Hall u Hin).
    apply orb_true_iff in Hall as [Hb | Hp].
    + by apply bool_decide_eq_true in Hb.
    + rewrite (qualifies_zero pid w u Hp) in Hq. discriminate.
  - intros updates pid w. unfold resolveTierForMetrics.
    destruct (List.find _ _) as [u|] eqn:Hfind; [| reflexivity].
    apply List.find_some in Hfind as [Hin Hq].
    apply list_elem_of_In in Hin. unfold getCachedTiers in Hin.
    rewrite js_sort_perm in Hin.
    pose proof (configuredStore_tiers updates) as Hall.
    rewrite Forall_forall in Hall. destruct (Hall u Hin) as [Hb | Hp]; [exact Hb |].
    rewrite (qualifies_zero pid w u) in Hq; [discriminate |].
    unfold hasPositiveThreshold. rewrite Hp. by rewrite !orb_true_r.
  - intros st' Hc. unfold resolveTierForMetrics, getCachedTiers. by rewrite Hc.
  - reflexivity.
Qed.

Lemma resolveTierForMetrics_first_match_witness :
  resolveTierForMetrics seededStore
    (mkMetrics "provider-1" (Js.of_Z 75) (Js.of_Z 200) (Js.of_Z 300) (Js.of_Z 85) "")
  = ELITE
  /\ resolveTierForMetrics seededStore (zeroMetrics "provider-1" "") = BRONZE.
Proof.
  destruct (resolveTierForMetrics_first_match seededStore (zeroMetrics "provider-1" ""))
    as (_ & Hunique & _ & _ & _ & _ & Hdefault & Hzero & _).
  split.
  - by destruct (Hdefault "provider-1"%string ""%string) as [H _].
  - apply Hzero. vm_compute. reflexivity.
Defined.

(** C7 as stated fails: the claim has all-zero metrics resolve to BRONZE
    on every cache.  Seeding never overwrites a row that is there, and a
    SILVER row without thresholds is met by metrics that are all zero:
    they resolve to SILVER. *)
Lemma zero_metrics_resolve_above_bronze :
  findTier SILVER (tierRepo presetStore) = Some openSilverTier
  /\ List.map RevenueShareTier.tierLevel (tierCache presetStore)
     = [BRONZE; SILVER; GOLD; PLATINUM; ELITE]
  /\ resolveTierForMetrics presetStore (zeroMetrics "provider-1" "") = SILVER
  /\ ~ (forall (st : Store) (pid w : string),
          resolveTierForMetrics st (zeroMetrics pid w) = BRONZE).
Proof.
  assert (H : resolveTierForMetrics presetStore (zeroMetrics "provider-1" "") = SILVER)
    by (vm_compute; reflexivity).
  split; [vm_compute; reflexivity |]. split; [vm_compute; reflexivity |].
  split; [exact H |].
  intros Hall. rewrite (Hall presetStore "provider-1"%string ""%string) in H. discriminate.
Qed.

(** ** The payout ledger *)

Lemma findPayout_id (i : nat) (rows : list ProviderRevenuePayout.t) p :
  findPayout i rows = Some p -> ProviderRevenuePayout.id p = i.
Proof.
  unfold findPayout. intros H. apply List.find_some in H as [_ H].
  by apply Nat.eqb_eq in H.
Qed.

Lemma written_id (u : list ProviderRevenuePayout.key) (q p : ProviderRevenuePayout.t) :
  ProviderRevenuePayout.id (ProviderRevenuePayout.written u q p) = ProviderRevenuePayout.id p.
Proof.
  induction u as [|k u IH]; [reflexivity |].
  cbn [ProviderRevenuePayout.written foldr]. by destruct k.
Qed.

Lemma findPayout_saved (rows : list ProviderRevenuePayout.t) (i : nat) p p'
    (u : list ProviderRevenuePayout.key) :
  findPayout i rows = Some p ->
  ProviderRevenuePayout.id p' = i ->
  findPayout i
    (List.map (fun q => if Nat.eqb (ProviderRevenuePayout.id q) (ProviderRevenuePayout.id p')
                        then ProviderRevenuePayout.written u q p' else q) rows)
  = Some (ProviderRevenuePayout.written u p p').
Proof.
  intros H <-. revert H.
  unfold findPayout. induction rows as [|q rows IH]; simpl; [discriminate |].
  destruct (Nat.eqb (ProviderRevenuePayout.id q) (ProviderRevenuePayout.id p')) eqn:Hq.
  - intros [= ->]. by rewrite written_id, Nat.eqb_refl.
  - rewrite Hq. exact IH.
Qed.

Lemma findPayout_other (rows : list ProviderRevenuePayout.t) p' (j : nat)
    (u : list ProviderRevenuePayout.key) :
  j <> ProviderRevenuePayout.id p' ->
  findPayout j
    (List.map (fun q => if Nat.eqb (ProviderRevenuePayout.id q) (ProviderRevenuePayout.id p')
                        then ProviderRevenuePayout.written u q p' else q) rows)
  = findPayout j rows.
Proof.
  intros Hj. unfold findPayout. induction rows as [|q rows IH]; simpl; [done |].
  destruct (Nat.eqb (ProviderRevenuePayout.id q) (ProviderRevenuePayout.id p')) eqn:Hq.
  - apply Nat.eqb_eq in Hq. rewrite written_id.
    replace (Nat.eqb (ProviderRevenuePayout.id p') j) with false
      by (symmetry; apply Nat.eqb_neq; congruence).
    replace (Nat.eqb (ProviderRevenuePayout.id q) j) with false
      by (symmetry; apply Nat.eqb_neq; congruence).
    exact IH.
  - rewrite IH. reflexivity.
Qed.

(** What [retryFailedPayout] does to a payout that exists: the object it
    returns has no failure reason, the row it stores has the reason it
    had. *)
Lemma retryFailedPayout_cases (st : Store) (i : nat) p :
  findPayout i (payoutRepo st) = Some p ->
  (ProviderRevenuePayout.status p <> FAILED ->
     retryFailedPayout i st
     = (st, Throw (BadRequestException
                     (OnlyFailedCanBeRetried (ProviderRevenuePayout.status p)))))
  /\ (ProviderRevenuePayout.status p = FAILED ->
      5 <= ProviderRevenuePayout.retryCount p ->
      retryFailedPayout i st
      = (st, Throw (BadRequestException (MaxRetryAttemptsExceeded i))))
  /\ (ProviderRevenuePayout.status p = FAILED ->
      ProviderRevenuePayout.retryCount p < 5 ->
      exists st', retryFailedPayout i st
                  = (st', Ok (ProviderRevenuePayout.set_failureReason None
                                (ProviderRevenuePayout.set_status PENDING p)))
                  /\ findPayout i (payoutRepo st')
                     = Some (ProviderRevenuePayout.set_status PENDING p)
                  /\ forall j, j <> i ->
                       findPayout j (payoutRepo st') = findPayout j (payoutRepo st)).
Proof.
  intros Hfind. pose proof (findPayout_id _ _ _ Hfind) as Hid.
  unfold retryFailedPayout, bind, gets, throw. rewrite Hfind.
  split; [| split].
  - intros Hs. by rewrite bool_decide_eq_false_2.
  - intros Hs Hc. rewrite bool_decide_eq_true_2 by done. simpl.
    by replace (5 <=? ProviderRevenuePayout.retryCount p) with true
      by (symmetry; apply Z.leb_le; lia).
  - intros Hs Hc. rewrite bool_decide_eq_true_2 by done. simpl.
    replace (5 <=? ProviderRevenuePayout.retryCount p) with false
      by (symmetry; apply Z.leb_gt; lia).
    eexists. split; [reflexivity |]. cbn [payoutRepo]. split.
    + by rewrite (findPayout_saved _ i p).
    + intros j Hj. apply findPayout_other. simpl. congruence.
Qed.

(** What [markPayoutFailed] does to a payout that exists: there is no
    condition on the status it is in. *)
Lemma markPayoutFailed_any (st : Store) (i : nat) (reason : string) p :
  findPayout i (payoutRepo st) = Some p ->
  let p' := ProviderRevenuePayout.set_retryCount (ProviderRevenuePayout.retryCount p + 1)
              (ProviderRevenuePayout.set_failureReason (Some reason)
                 (ProviderRevenuePayout.set_status FAILED p)) in
  exists st', markPayoutFailed i reason st = (st', Ok p')
              /\ findPayout i (payoutRepo st') = Some p'
              /\ forall j, j <> i ->
                   findPayout j (payoutRepo st') = findPayout j (payoutRepo st).
Proof.
  intros Hfind. pose proof (findPayout_id _ _ _ Hfind) as Hid.
  unfold markPayoutFailed, bind, gets. rewrite Hfind.
  eexists. split; [reflexivity |]. cbn [payoutRepo]. split.
  - by rewrite (findPayout_saved _ i p).
  - intros j Hj. apply findPayout_other. simpl. congruence.
Qed.

Lemma retryThenFail_step (st : Store) (i : nat) (reason : string) p :
  findPayout i (payoutRepo st) = Some p ->
  ProviderRevenuePayout.status p = FAILED ->
  ProviderRevenuePayout.retryCount p < 5 ->
  exists st' p', retryThenFail i reason st = (st', Ok p')
    /\ findPayout i (payoutRepo st') = Some p'
    /\ ProviderRevenuePayout.status p' = FAILED
    /\ ProviderRevenuePayout.failureReason p' = Some reason
    /\ ProviderRevenuePayout.retryCount p' = ProviderRevenuePayout.retryCount p + 1.
Proof.
  intros Hfind Hs Hc.
  destruct (retryFailedPayout_cases st i p Hfind) as (_ & _ & Hok).
  destruct (Hok Hs Hc) as (st1 & Hrun & Hfind1 & _).
  destruct (markPayoutFailed_any st1 i reason _ Hfind1) as (st2 & Hrun2 & Hfind2 & _).
  exists st2. eexists. unfold retryThenFail, bind. rewrite Hrun, Hrun2.
  split; [reflexivity |]. split; [exact Hfind2 |]. repeat split.
Qed.

Lemma retryThenFail_times (n : nat) : forall (st : Store) (i : nat) (reason : string) p,
  findPayout i (payoutRepo st) = Some p ->
  ProviderRevenuePayout.status p = FAILED ->
  ProviderRevenuePayout.retryCount p + Z.of_nat n <= 5 ->
  exists st' p', times n (retryThenFail i reason) st = (st', Ok tt)
    /\ findPayout i (payoutRepo st') = Some p'
    /\ ProviderRevenuePayout.status p' = FAILED
    /\ ProviderRevenuePayout.retryCount p'
       = ProviderRevenuePayout.retryCount p + Z.of_nat n.
Proof.
  induction n as [|n IH]; intros st i reason p Hfind Hs Hc.
  - exists st, p. repeat split; [done | done | simpl; lia].
  - destruct (retryThenFail_step st i reason p Hfind Hs ltac:(lia))
      as (st1 & p1 & Hrun & Hfind1 & Hs1 & _ & Hc1).
    destruct (IH st1 i reason p1 Hfind1 Hs1 ltac:(lia)) as (st2 & p2 & Hrun2 & Hf2 & Hs2 & Hc2).
    exists st2, p2. cbn [times]. unfold bind at 1. rewrite Hrun, Hrun2.
    repeat split; [done | done | lia].
Qed.

(** C5. For a payout that exists, [retryFailedPayout] throws the
    invalid-state error unless the status is FAILED and throws the
    limit-exceeded error when the status is FAILED and [retryCount] is 5 or
    more.  Otherwise it returns the payout object with status PENDING and
    no failure reason, but the row it stores, while PENDING, still has the
    failure reason it had: the object's [failureReason] is [undefined] and
    [save] skips it.  So the reason of a failed payout (every FAILED row
    of a well-formed ledger has one) is not cleared in the ledger; no other
    row is touched.  The count is the number of failures: a FAILED payout
    whose count is [c] can be retried and fail again [5 - c] times and the
    retry after that is refused, so that a payout the services have
    recorded is refused the retry that follows its fifth failure, four
    retries having been accepted. *)
Theorem retryFailedPayout_keeps_failure_reason (st : Store) (i : nat) (reason : string)
    (p : ProviderRevenuePayout.t) :
  findPayout i (payoutRepo st) = Some p ->
  (ProviderRevenuePayout.status p <> FAILED ->
     exists e, retryFailedPayout i st = (st, Throw e) /\ errorKind e = InvalidState)
  /\ (ProviderRevenuePayout.status p = FAILED ->
      5 <= ProviderRevenuePayout.retryCount p ->
      exists e, retryFailedPayout i st = (st, Throw e) /\ errorKind e = LimitExceeded)
  /\ (ProviderRevenuePayout.status p = FAILED ->
      ProviderRevenuePayout.retryCount p < 5 ->
      exists st' returned stored,
        retryFailedPayout i st = (st', Ok returned)
        /\ returned = ProviderRevenuePayout.set_failureReason None
                        (ProviderRevenuePayout.set_status PENDING p)
        /\ ProviderRevenuePayout.status returned = PENDING
        /\ ProviderRevenuePayout.failureReason returned = None
        /\ findPayout i (payoutRepo st') = Some stored
        /\ stored = ProviderRevenuePayout.set_status PENDING p
        /\ ProviderRevenuePayout.status stored = PENDING
        /\ ProviderRevenuePayout.failureReason stored
           = ProviderRevenuePayout.failureReason p
        /\ (rowOk i p -> exists r, ProviderRevenuePayout.failureReason stored = Some r)
        /\ forall j, j <> i ->
             findPayout j (payoutRepo st') = findPayout j (payoutRepo st))
  /\ (forall n : nat,
      ProviderRevenuePayout.status p = FAILED ->
      ProviderRevenuePayout.retryCount p + Z.of_nat n = 5 ->
      (rowOk i p -> (n <= 4)%nat)
      /\ exists st' e,
           times n (retryThenFail i reason) st = (st', Ok tt)
           /\ retryFailedPayout i st' = (st', Throw e)
           /\ errorKind e = LimitExceeded).
Proof.
  intros Hfind.
  destruct (retryFailedPayout_cases st i p Hfind) as (H1 & H2 & H3).
  split; [| split; [| split]].
  - intros Hs. eexists. split; [by apply H1 | reflexivity].
  - intros Hs Hc. eexists. split; [by apply H2 | reflexivity].
  - intros Hs Hc. destruct (H3 Hs Hc) as (st' & Hrun & Hf & Hother).
    exists st'. eexists _, _. split; [exact Hrun |]. split; [reflexivity |].
    split; [reflexivity |]. split; [reflexivity |]. split; [exact Hf |].
    split; [reflexivity |]. split; [reflexivity |]. split; [reflexivity |].
    split; [| exact Hother].
    intros (_ & _ & _ & _ & Hfailed & _). destruct (Hfailed Hs) as [[r Hr] _].
    exists r. exact Hr.
  - intros n Hs Hc. split.
    { intros (_ & _ & _ & _ & Hfailed & _). destruct (Hfailed Hs) as [_ Hone]. lia. }
    destruct (retryThenFail_times n st i reason p Hfind Hs ltac:(lia))
      as (st5 & p5 & Hrun & Hf5 & Hs5 & Hc5).
    destruct (retryFailedPayout_cases st5 i p5 Hf5) as (_ & Hlimit & _).
    exists st5. eexists. split; [exact Hrun |].
    split; [apply Hlimit; [exact Hs5 | lia] | reflexivity].
Qed.

(** On a ledger the services have written: the payout has failed once
    with the reason "rejected"; the retry returns an object without a
    reason and leaves the reason in the row; four more failures later the
    retry is refused. *)
Lemma retryFailedPayout_keeps_failure_reason_witness :
  (exists st' returned stored,
     retryFailedPayout 0 failedOnceStore = (st', Ok returned)
     /\ ProviderRevenuePayout.failureReason returned = None
     /\ findPayout 0 (payoutRepo st') = Some stored
     /\ ProviderRevenuePayout.status stored = PENDING
     /\ ProviderRevenuePayout.failureReason stored = Some "rejected"%string)
  /\ (exists st' e,
        times 4 (retryThenFail 0 "rejected") failedOnceStore = (st', Ok tt)
        /\ retryFailedPayout 0 st' = (st', Throw e)
        /\ errorKind e = LimitExceeded).
Proof.
  destruct (retryFailedPayout_keeps_failure_reason failedOnceStore 0 "rejected"
              (ProviderRevenuePayout.set_retryCount 1
                 (ProviderRevenuePayout.set_failureReason (Some "rejected"%string)
                    (ProviderRevenuePayout.set_status FAILED (payoutRow PENDING 0))))
              eq_refl) as (_ & _ & Hretry & Hlimit).
  split.
  - destruct (Hretry eq_refl ltac:(cbn; lia))
      as (st' & returned & stored & Hrun & -> & _ & _ & Hf & -> & _ & _ & _ & _).
    exists st'. eexists _, _. split; [exact Hrun |]. split; [reflexivity |].
    split; [exact Hf |]. split; reflexivity.
  - destruct (Hlimit 4%nat eq_refl eq_refl) as [_ H]. exact H.
Defined.

Lemma confirmPayout_completed (st : Store) (i : nat) (tx : string) p :
  findPayout i (payoutRepo st) = Some p ->
  ProviderRevenuePayout.status p = COMPLETED ->
  confirmPayout i tx st = (st, Ok p).
Proof.
  intros Hfind Hs. unfold confirmPayout, bind, gets. rewrite Hfind.
  by rewrite bool_decide_eq_true_2.
Qed.

(** C4. A COMPLETED payout is left as it is by [confirmPayout] and is
    refused by [retryFailedPayout], but [markPayoutFailed] has no guard on
    the status: it moves the COMPLETED payout to FAILED and counts one more
    failure, after which a retry brings it back to PENDING. *)
Theorem completed_payout_can_be_marked_failed (st : Store) (i : nat)
    (tx reason : string) (p : ProviderRevenuePayout.t) :
  findPayout i (payoutRepo st) = Some p ->
  ProviderRevenuePayout.status p = COMPLETED ->
  confirmPayout i tx st = (st, Ok p)
  /\ (exists e, retryFailedPayout i st = (st, Throw e) /\ errorKind e = InvalidState)
  /\ (exists st1 p1,
        markPayoutFailed i reason st = (st1, Ok p1)
        /\ findPayout i (payoutRepo st1) = Some p1
        /\ ProviderRevenuePayout.status p1 = FAILED
        /\ ProviderRevenuePayout.retryCount p1 = ProviderRevenuePayout.retryCount p + 1
        /\ (ProviderRevenuePayout.retryCount p1 < 5 ->
            exists st2 p2 q2,
              retryFailedPayout i st1 = (st2, Ok p2)
              /\ ProviderRevenuePayout.status p2 = PENDING
              /\ findPayout i (payoutRepo st2) = Some q2
              /\ ProviderRevenuePayout.status q2 = PENDING)).
Proof.
  intros Hfind Hs. split; [by apply confirmPayout_completed |]. split.
  - destruct (retryFailedPayout_cases st i p Hfind) as (H1 & _).
    eexists. split; [apply H1; congruence |]. reflexivity.
  - destruct (markPayoutFailed_any st i reason p Hfind) as (st1 & Hrun & Hf1 & _).
    exists st1. eexists. split; [exact Hrun |]. split; [exact Hf1 |].
    split; [reflexivity |]. split; [reflexivity |]. intros Hc.
    destruct (retryFailedPayout_cases st1 i _ Hf1) as (_ & _ & H3).
    destruct (H3 eq_refl Hc) as (st2 & Hrun2 & Hf2 & _).
    exists st2. eexists _, _. split; [exact Hrun2 |]. split; [reflexivity |].
    split; [exact Hf2 | reflexivity].
Qed.

Lemma completed_payout_can_be_marked_failed_witness :
  exists st1 p1,
    markPayoutFailed 0 "rejected" (ledgerStore COMPLETED 0) = (st1, Ok p1)
    /\ findPayout 0 (payoutRepo st1) = Some p1
    /\ ProviderRevenuePayout.status p1 = FAILED
    /\ ProviderRevenuePayout.retryCount p1 = 0 + 1
    /\ (ProviderRevenuePayout.retryCount p1 < 5 ->
        exists st2 p2 q2,
          retryFailedPayout 0 st1 = (st2, Ok p2)
          /\ ProviderRevenuePayout.status p2 = PENDING
          /\ findPayout 0 (payoutRepo st2) = Some q2
          /\ ProviderRevenuePayout.status q2 = PENDING).
Proof.
  apply (completed_payout_can_be_marked_failed (ledgerStore COMPLETED 0) 0 "tx-1"
           "rejected" (payoutRow COMPLETED 0)).
  - reflexivity.
  - reflexivity.
Defined.

(** ** Calls that do not touch the ledger *)

Arguments tierIndex : simpl never.
Arguments resolveTierForMetrics : simpl never.
Arguments Js.parseFloat : simpl never.
Arguments Js.gtb : simpl never.
Arguments Js.geb : simpl never.
Arguments Js.eqb : simpl never.
Arguments Big.of_string : simpl never.
Arguments Big.toFixed : simpl never.
Arguments Big.div : simpl never.
Arguments Big.plus : simpl never.
Arguments Big.times : simpl never.
Arguments Big.lte : simpl never.
Arguments Z_digits : simpl never.

Create HintDb ledger.

Lemma keepsLedger_ret {A : Type} (a : A) : keepsLedger (ret a).
Proof. by intros st. Qed.

Lemma keepsLedger_throw {A : Type} (e : Exception) : keepsLedger (@throw A e).
Proof. by intros st. Qed.

Lemma keepsLedger_gets {A : Type} (f : Store -> A) : keepsLedger (gets f).
Proof. by intros st. Qed.

Lemma keepsLedger_bind {A B : Type} (c : M A) (k : A -> M B) :
  keepsLedger c -> (forall a, keepsLedger (k a)) -> keepsLedger (bind c k).
Proof.
  intros Hc Hk st. unfold bind. specialize (Hc st).
  destruct (c st) as [st' [a | e]]; simpl in *; [| exact Hc].
  by rewrite Hk.
Qed.

Lemma keepsLedger_try_catch {A : Type} (c : M A) (h : Exception -> M A) :
  keepsLedger c -> (forall e, keepsLedger (h e)) -> keepsLedger (try_catch c h).
Proof.
  intros Hc Hh st. unfold try_catch. specialize (Hc st).
  destruct (c st) as [st' [a | e]]; simpl in *; [exact Hc |].
  by rewrite Hh.
Qed.

Lemma keepsLedger_newBig (s : string) : keepsLedger (newBig s).
Proof. unfold newBig. destruct (Big.of_string s); by intros st. Qed.

Lemma keepsLedger_bigDiv (x y : Big.t) : keepsLedger (bigDiv x y).
Proof. unfold bigDiv. destruct (Big.div x y); by intros st. Qed.

Lemma keepsLedger_saveAssignment a : keepsLedger (saveAssignment a).
Proof. by intros st. Qed.

Lemma keepsLedger_forEach {A S : Type} (l : list A) (body : A -> S -> M S) :
  (forall x s, keepsLedger (body x s)) -> forall s, keepsLedger (forEach l body s).
Proof.
  intros Hb. induction l as [|x l IH]; intros s; simpl.
  - apply keepsLedger_ret.
  - apply keepsLedger_bind; [apply Hb | intros s'; apply IH].
Qed.

#[local] Hint Resolve keepsLedger_ret keepsLedger_throw keepsLedger_gets
  keepsLedger_newBig keepsLedger_bigDiv keepsLedger_saveAssignment : ledger.

(** ** Evaluation *)

(** An evaluation never throws; it always writes the assignment, and it
    records one PERFORMANCE payout exactly when the provider is promoted,
    the metrics carry a wallet address and the new tier has a bonus above
    zero. *)
Lemma evaluateProviderWithMetrics_run (st : Store) (metrics : ProviderMetrics) :
  let found := assignmentRepo st !! providerId metrics in
  let newTier := resolveTierForMetrics st metrics in
  let pays := isPromotion st metrics && negb (String.eqb (walletAddress metrics) "") in
  let issued := if pays then promotionBonus st metrics else None in
  evaluateProviderWithMetrics metrics st
  = (mkStore (tierRepo st)
       (<[providerId metrics := evaluatedAssignment st metrics (if issued is Some _ then true else false)]>
          (assignmentRepo st))
       (payoutRepo st
        ++ match issued with
           | Some amount => [bonusRow st (providerId metrics) newTier amount PERFORMANCE
                               (walletAddress metrics) None None]
           | None => []
           end)
       (statsRepo st) (userRepo st) (tierCache st) (clock st),
     Ok (mkEvaluation (providerId metrics)
           (ProviderTierAssignment.currentTier <$> found) newTier
           (isPromotion st metrics)
           (match found with
            | Some a => tierIndex newTier <? tierIndex (ProviderTierAssignment.currentTier a)
            | None => false
            end)
           (if issued is Some _ then true else false)
           (default "0"%string issued))).
Proof.
  unfold evaluateProviderWithMetrics, isPromotion, promotionBonus, evaluatedAssignment.
  unfold bind, gets, newDate, recordPayout, insertPayout, saveAssignment, modify, ret, bonusRow.
  destruct (assignmentRepo st !! providerId metrics) as [a|] eqn:Hfound; cbn;
    [| rewrite app_nil_r; reflexivity].
  destruct (tierIndex (ProviderTierAssignment.currentTier a)
            <? tierIndex (resolveTierForMetrics st metrics)) eqn:Hp; cbn;
    [| rewrite app_nil_r; reflexivity].
  destruct (String.eqb (walletAddress metrics) "") eqn:Hw; cbn;
    [rewrite app_nil_r; reflexivity |].
  destruct (List.find _ (getCachedTiers st)) as [def|] eqn:Hdef; cbn;
    [| rewrite app_nil_r; reflexivity].
  destruct (Js.gtb _ _) eqn:Hb; cbn; [reflexivity |].
  rewrite app_nil_r. reflexivity.
Qed.

Lemma evaluateProvider_metrics (st : Store) (pid : string) :
  evaluateProvider pid st = evaluateProviderWithMetrics (metricsOf st pid) st.
Proof. reflexivity. Qed.

Lemma evaluateProvider_run (st : Store) (pid : string) :
  evaluateProvider pid st
  = (mkStore (tierRepo st)
       (<[pid := evaluatedAssignment st (metricsOf st pid) false]> (assignmentRepo st))
       (payoutRepo st) (statsRepo st) (userRepo st) (tierCache st) (clock st),
     Ok (mkEvaluation pid
           (ProviderTierAssignment.currentTier <$> assignmentRepo st !! pid)
           (resolveTierForMetrics st (metricsOf st pid))
           (isPromotion st (metricsOf st pid))
           (match assignmentRepo st !! pid with
            | Some a => tierIndex (resolveTierForMetrics st (metricsOf st pid))
                        <? tierIndex (ProviderTierAssignment.currentTier a)
            | None => false
            end)
           false "0")).
Proof.
  rewrite evaluateProvider_metrics, evaluateProviderWithMetrics_run.
  cbn [walletAddress metricsOf providerId]. rewrite andb_false_r.
  cbn [default]. rewrite app_nil_r. reflexivity.
Qed.

Lemma keepsLedger_evaluateProvider (pid : string) : keepsLedger (evaluateProvider pid).
Proof. intros st. by rewrite evaluateProvider_run. Qed.

#[local] Hint Resolve keepsLedger_evaluateProvider : ledger.

Lemma forEach_invariant {A S : Type} (I : Store -> S -> Prop) (l : list A)
    (body : A -> S -> M S) :
  (forall x s st, I st s -> exists st' s', body x s st = (st', Ok s') /\ I st' s') ->
  forall s st, I st s -> exists st' s', forEach l body s st = (st', Ok s') /\ I st' s'.
Proof.
  intros Hbody. induction l as [|x l IH]; intros s st HI; simpl.
  - by exists st, s.
  - destruct (Hbody x s st HI) as (st1 & s1 & Hrun & HI1).
    unfold bind. rewrite Hrun. by apply IH.
Qed.

Lemma keepsLedger_calculateRevenueShare (pid rev : string) (incl : option bool) :
  keepsLedger (calculateRevenueShare pid rev incl).
Proof.
  unfold calculateRevenueShare.
  repeat first
    [ solve [auto with ledger]
    | apply keepsLedger_bind; [| intros ?]
    | match goal with
      | |- keepsLedger (match ?x with _ => _ end) => destruct x
      | |- keepsLedger (if ?x then _ else _) => destruct x
      | |- keepsLedger (let '(_, _) := ?x in _) => destruct x
      end ].
Qed.

(** C10. [evaluateProvider] evaluates metrics whose wallet address is the
    empty string; whatever the store, it returns with [bonusTriggered]
    false and a bonus amount of "0" and the ledger of payouts is left as it
    was, also when the evaluation is a promotion.  The same holds for every
    result of [evaluateAllProviders], and [calculateRevenueShare], whose
    first-time evaluation goes through [evaluateProvider], never adds a
    payout either. *)
Theorem evaluateProvider_never_pays_bonus (st : Store) (pid : string) :
  evaluateProvider pid st = evaluateProviderWithMetrics (metricsOf st pid) st
  /\ walletAddress (metricsOf st pid) = ""%string
  /\ (exists st' r,
        evaluateProvider pid st = (st', Ok r)
        /\ bonusTriggered r = false
        /\ ev_bonusAmount r = "0"%string
        /\ promoted r = isPromotion st (metricsOf st pid)
        /\ payoutRepo st' = payoutRepo st)
  /\ (exists st' rs,
        evaluateAllProviders st = (st', Ok rs)
        /\ Forall (fun r => bonusTriggered r = false) rs
        /\ payoutRepo st' = payoutRepo st)
  /\ (forall rev incl,
        payoutRepo (calculateRevenueShare pid rev incl st).1 = payoutRepo st).
Proof.
  split; [reflexivity |]. split; [reflexivity |]. split; [| split].
  - eexists. eexists. split; [apply evaluateProvider_run |]. by repeat split.
  - unfold evaluateAllProviders, bind, gets.
    destruct (forEach_invariant
                (fun s rs => Forall (fun r => bonusTriggered r = false) rs
                             /\ payoutRepo s = payoutRepo st)
                (map_to_list (statsRepo st)).*2
                (fun stats results =>
                   try_catch
                     (let* r := evaluateProvider (ProviderStats.providerId stats) in
                      ret (results ++ [r]))
                     (fun _ => ret results))) with (s := @nil TierEvaluationResult) (st := st)
      as (st' & rs & Hrun & Hall & Hledger).
    + intros x rs s [Hall Hledger]. unfold try_catch, bind.
      rewrite evaluateProvider_run. eexists. eexists. split; [reflexivity |].
      split; [| exact Hledger].
      apply Forall_app. split; [exact Hall | by repeat constructor].
    + by split.
    + by exists st', rs.
  - intros rev incl. apply keepsLedger_calculateRevenueShare.
Qed.

(** A promotion through [evaluateProvider]: the provider moves from BRONZE
    to SILVER, whose promotion bonus is 10, and nothing is paid. *)
Example evaluateProvider_promotion_unpaid :
  exists st' r,
    evaluateProvider "provider-1" risingStore = (st', Ok r)
    /\ ev_previousTier r = Some BRONZE /\ newTier r = SILVER /\ promoted r = true
    /\ promotionBonus risingStore (metricsOf risingStore "provider-1") = Some "10"%string
    /\ bonusTriggered r = false
    /\ payoutRepo st' = [].
Proof.
  eexists. eexists. split; [apply evaluateProvider_run |].
  vm_compute. by repeat split.
Qed.

(** ** Promotion bonuses *)

(** C3. An evaluation records a PERFORMANCE payout of the new tier's
    promotion bonus exactly when the provider is promoted, the metrics
    carry a wallet address and that bonus is above zero, and it then sets
    [promotionBonusPaid]; the flag is never read, so a provider whose flag
    is already set is paid once more on the next promotion. *)
Theorem promotion_bonus_ignores_paid_flag (st : Store) (metrics : ProviderMetrics)
    (a : ProviderTierAssignment.t) (amount : string) :
  assignmentRepo st !! providerId metrics = Some a ->
  ProviderTierAssignment.promotionBonusPaid a = true ->
  isPromotion st metrics = true ->
  walletAddress metrics <> ""%string ->
  promotionBonus st metrics = Some amount ->
  exists st' r,
    evaluateProviderWithMetrics metrics st = (st', Ok r)
    /\ bonusTriggered r = true
    /\ ev_bonusAmount r = amount
    /\ payoutRepo st'
       = payoutRepo st
         ++ [bonusRow st (providerId metrics) (resolveTierForMetrics st metrics) amount
               PERFORMANCE (walletAddress metrics) None None].
Proof.
  intros Hfound Hpaid Hprom Hw Hbonus.
  eexists. eexists. split; [apply evaluateProviderWithMetrics_run |].
  rewrite Hprom, Hbonus.
  replace (String.eqb (walletAddress metrics) "") with false
    by (symmetry; by apply String.eqb_neq).
  by repeat split.
Qed.

Lemma promotion_bonus_ignores_paid_flag_witness :
  exists st' r,
    evaluateProviderWithMetrics (silverMetrics "provider-1") afterDemotion = (st', Ok r)
    /\ bonusTriggered r = true
    /\ ev_bonusAmount r = "10"%string
    /\ payoutRepo st'
       = payoutRepo afterDemotion
         ++ [bonusRow afterDemotion "provider-1"
               (resolveTierForMetrics afterDemotion (silverMetrics "provider-1")) "10"
               PERFORMANCE "GWALLET1" None None].
Proof.
  eapply (promotion_bonus_ignores_paid_flag afterDemotion (silverMetrics "provider-1")).
  - vm_compute. reflexivity.
  - reflexivity.
  - vm_compute. reflexivity.
  - discriminate.
  - vm_compute. reflexivity.
Defined.

(** First seen, promoted, demoted, promoted again: the promotion bonus of
    10 is paid at each of the two promotions. *)
Example upDownUp_pays_twice :
  exists st',
    upDownUp "provider-1" seededStore
    = (st', Ok [ mkEvaluation "provider-1" None BRONZE false false false "0";
                 mkEvaluation "provider-1" (Some BRONZE) SILVER true false true "10";
                 mkEvaluation "provider-1" (Some SILVER) BRONZE false true false "0";
                 mkEvaluation "provider-1" (Some BRONZE) SILVER true false true "10" ])
    /\ List.map (fun p => (ProviderRevenuePayout.providerId p,
                           ProviderRevenuePayout.bonusType p,
                           ProviderRevenuePayout.totalPayout p)) (payoutRepo st')
       = [ ("provider-1", Some PERFORMANCE, "10");
           ("provider-1", Some PERFORMANCE, "10") ]%string.
Proof. eexists. split; vm_compute; reflexivity. Qed.

(** ** Bonuses *)

Lemma recordPayout_bonus_run (st : Store) (pid : string) (tier : ProviderTierLevel)
    (amount : string) (type : BonusType) (wallet : string) (year month : option Z) :
  recordPayout (mkParams pid tier "0" "0" "0" amount (Some type) amount wallet year month) st
  = (withPayout st (bonusRow st pid tier amount type wallet year month),
     Ok (bonusRow st pid tier amount type wallet year month)).
Proof. reflexivity. Qed.

Lemma awardPerformanceBonus_run (st : Store) (pid amount : string) (type : BonusType)
    (reason : option string) :
  awardPerformanceBonus pid amount type reason st
  = match userRepo st !! pid with
    | None => (st, Throw (NotFoundException (ProviderNotFound pid)))
    | Some user =>
        let row := bonusRow st pid (assignedTier st pid) amount type
                     (User.walletAddress user) None None in
        (withPayout st row, Ok row)
    end.
Proof.
  unfold awardPerformanceBonus, bind, gets, assignedTier.
  destruct (userRepo st !! pid) as [user|]; [| reflexivity].
  destruct (assignmentRepo st !! pid); reflexivity.
Qed.







Lemma half_up_scale (n d k : Z) : 0 < k -> Big.half_up (n * k) (d * k) = Big.half_up n d.
Proof.
  intros Hk. unfold Big.half_up.
  rewrite !Z.sgn_mul, (Z.sgn_pos k Hk), !Z.mul_1_r, !Z.abs_mul, (Z.abs_eq k) by lia.
  destruct (Z.eq_dec d 0) as [-> | Hd]; [simpl; lia |].
  f_equal.
  replace (2 * (Z.abs n * k) + Z.abs d * k) with ((2 * Z.abs n + Z.abs d) * k) by ring.
  replace (2 * (Z.abs d * k)) with (2 * Z.abs d * k) by ring.
  apply Z.div_mul_cancel_r; lia.
Qed.

Lemma div_100 (x : Big.t) :
  Big.div x (Big.of_Z 100)
  = Some (Big.mk (Big.half_up (Big.coef x * pow10 20) (100 * pow10 (Big.dp x))) 20).
Proof. reflexivity. Qed.

Lemma share_exact (b p : Big.t) (q : Big.t) :
  (Big.dp b + Big.dp p <= 18)%nat ->
  Big.div (Big.times b p) (Big.of_Z 100) = Some q ->
  Big.coef (Big.round q 8)
  = Big.half_up (Big.coef b * Big.coef p * pow10 (6 - (Big.dp b + Big.dp p)))
                (pow10 (Big.dp b + Big.dp p - 6)).
Proof.
  intros Hs. rewrite div_100. intros [= <-].
  unfold Big.round, Big.times. cbn [Big.coef Big.dp].
  set (s := (Big.dp b + Big.dp p)%nat) in *. set (c := Big.coef b * Big.coef p).
  replace (8 - 20)%nat with 0%nat by lia. replace (20 - 8)%nat with 12%nat by lia.
  change (pow10 0) with 1. rewrite Z.mul_1_r.
  assert (Hq : Big.half_up (c * pow10 20) (100 * pow10 s) = c * pow10 (18 - s)).
  { replace (pow10 20) with (pow10 (18 - s) * (100 * pow10 s)).
    - rewrite Z.mul_assoc. rewrite <- (Z.mul_1_l (100 * pow10 s)) at 2.
      rewrite half_up_scale by (pose proof (pow10_pos s); lia).
      unfold Big.half_up. simpl (Z.sgn 1). change (Z.abs 1) with 1.
      replace ((2 * Z.abs (c * pow10 (18 - s)) + 1) / (2 * 1))
        with (Z.abs (c * pow10 (18 - s))) by (apply Z.div_unique with (r := 1); lia).
      lia.
    - change 100 with (pow10 2). rewrite <- !pow10_add. f_equal. lia. }
  rewrite Hq.
  replace (c * pow10 (18 - s)) with (c * pow10 (6 - s) * pow10 (12 - (s - 6)))
    by (rewrite <- Z.mul_assoc, <- pow10_add; do 2 f_equal; lia).
  replace (pow10 12) with (pow10 (s - 6) * pow10 (12 - (s - 6)))
    by (rewrite <- pow10_add; f_equal; lia).
  apply half_up_scale, pow10_pos.
Qed.

(** ** The calculation *)

Lemma newBig_toFixed (x : Big.t) (d : nat) (st : Store) :
  newBig (Big.toFixed x d) st = (st, Ok (Big.round x d)).
Proof. unfold newBig. by rewrite of_string_toFixed. Qed.

Lemma withAssignment_tierRepo (st : Store) (pid : string) :
  tierRepo (withAssignment st pid) = tierRepo st
  /\ payoutRepo (withAssignment st pid) = payoutRepo st
  /\ userRepo (withAssignment st pid) = userRepo st
  /\ clock (withAssignment st pid) = clock st.
Proof.
  unfold withAssignment. destruct (assignmentRepo st !! pid); [done |].
  by rewrite evaluateProvider_run.
Qed.

(** The calculation, step by step. *)
Lemma calculateRevenueShare_run (st : Store) (pid rev : string) (incl : option bool) :
  calculateRevenueShare pid rev incl st
  = match Big.of_string rev with
    | None => (st, Throw (Error BigInvalidNumber))
    | Some b =>
        if Big.lte b (Big.of_Z 0)
        then (st, Throw (BadRequestException BaseRevenueMustBePositive))
        else
          let st1 := withAssignment st pid in
          let tier := assignedTier st1 pid in
          match findTier tier (tierRepo st1) with
          | None => (st1, Throw (NotFoundException (TierDefinitionNotFound tier)))
          | Some def =>
              let pct := RevenueShareTier.revenueSharePercentage def in
              let bonus := RevenueShareTier.monthlyRetentionBonusUsdc def in
              match Big.of_string pct with
              | None => (st1, Throw (Error BigInvalidNumber))
              | Some p =>
                  match Big.div (Big.times b p) (Big.of_Z 100) with
                  | None => (st1, Throw (Error BigDivisionByZero))
                  | Some q =>
                      if default false incl && Js.gtb (Js.parseFloat bonus) (Js.of_Z 0)
                      then
                        match Big.of_string bonus with
                        | None => (st1, Throw (Error BigInvalidNumber))
                        | Some g =>
                            (st1, Ok (RevenueShareCalculationDto.mk pid tier pct rev
                                        (Big.toFixed q 8) (Big.toFixed g 8)
                                        (Some MONTHLY_TOP)
                                        (Big.toFixed
                                           (Big.plus (Big.round q 8) (Big.round g 8)) 8)))
                        end
                      else
                        (st1, Ok (RevenueShareCalculationDto.mk pid tier pct rev
                                    (Big.toFixed q 8) "0.00000000" None
                                    (Big.toFixed
                                       (Big.plus (Big.round q 8) (Big.mk 0 8)) 8)))
                  end
              end
          end
    end.
Proof.
  unfold calculateRevenueShare. unfold bind at 1. unfold newBig at 1.
  destruct (Big.of_string rev) as [b|] eqn:Hb; [| reflexivity]. cbn [ret].
  destruct (Big.lte b (Big.of_Z 0)); [reflexivity |].
  assert (Hst1 : (let* assignment := gets (fun st0 => assignmentRepo st0 !! pid) in
                  match assignment with
                  | Some a => ret (Some a)
                  | None => let* _ := evaluateProvider pid in
                            gets (fun st0 => assignmentRepo st0 !! pid)
                  end) st
                 = (withAssignment st pid, Ok (assignmentRepo (withAssignment st pid) !! pid))).
  { unfold bind, gets, withAssignment.
    destruct (assignmentRepo st !! pid) as [a|] eqn:Ha; [by rewrite Ha |].
    by rewrite evaluateProvider_run. }
  unfold bind at 1. unfold gets at 1. unfold bind at 1.
  unfold bind at 1 in Hst1. unfold gets at 1 in Hst1. rewrite Hst1. clear Hst1.
  fold (assignedTier (withAssignment st pid) pid).
  set (st1 := withAssignment st pid). set (tier := assignedTier st1 pid).
  unfold bind at 1. unfold gets at 1.
  destruct (findTier tier (tierRepo st1)) as [def|]; [| reflexivity].
  unfold bind at 1. unfold newBig at 1. rewrite Hb. cbn [ret].
  unfold bind at 1. unfold newBig at 1.
  destruct (Big.of_string (RevenueShareTier.revenueSharePercentage def)) as [p|];
    [| reflexivity]. cbn [ret].
  unfold bind at 1. unfold bigDiv.
  destruct (Big.div (Big.times b p) (Big.of_Z 100)) as [q|]; [| reflexivity]. cbn [ret].
  unfold bind at 1.
  destruct (default false incl
            && Js.gtb (Js.parseFloat (RevenueShareTier.monthlyRetentionBonusUsdc def))
                      (Js.of_Z 0)).
  - unfold bind at 1. unfold newBig at 1.
    destruct (Big.of_string (RevenueShareTier.monthlyRetentionBonusUsdc def)) as [g|];
      [| reflexivity]. cbn [ret].
    unfold bind. by rewrite !newBig_toFixed.
  - cbn [ret]. unfold bind. by rewrite newBig_toFixed.
Qed.

Lemma plus_round (x y : Big.t) (d : nat) :
  Big.plus (Big.round x d) (Big.round y d)
  = Big.mk (Big.coef (Big.round x d) + Big.coef (Big.round y d)) d.
Proof. apply plus_same_scale. Qed.

Lemma plus_round_zero (x : Big.t) (d : nat) :
  Big.plus (Big.round x d) (Big.mk 0 d) = Big.mk (Big.coef (Big.round x d) + 0) d.
Proof. apply plus_same_scale. Qed.

(** C1. For a base revenue that is a decimal numeral: when it is zero or
    negative the calculation throws the invalid-argument error and the
    store is untouched; when it is positive and the provider's tier has a
    definition whose percentage and retention bonus are decimal numerals,
    it returns with [revenueShareAmount] the quotient (base revenue times
    percentage, divided by 100) in fixed notation with 8 decimals,
    [bonusAmount] the retention bonus with 8 decimals and type MONTHLY_TOP
    when [includeBonus] is set and that bonus is above zero, and
    "0.00000000" without a type otherwise, and [totalPayout] the sum of
    the two amounts with 8 decimals.  When base revenue and percentage have
    at most 18 decimals together, the share is the exact quotient rounded
    half up at the eighth decimal; for a bonus with at most 300 decimals
    the test the code makes on it, [parseFloat(bonus) > 0], says whether
    the bonus is above zero. *)
Theorem calculateRevenueShare_spec (st : Store) (pid rev : string) (incl : option bool)
    (b : Big.t) :
  Big.of_string rev = Some b ->
  (Big.coef b <= 0 ->
   exists e, calculateRevenueShare pid rev incl st = (st, Throw e)
             /\ errorKind e = InvalidArgument)
  /\ (0 < Big.coef b ->
      forall def p g,
        findTier (assignedTier (withAssignment st pid) pid) (tierRepo st) = Some def ->
        Big.of_string (RevenueShareTier.revenueSharePercentage def) = Some p ->
        Big.of_string (RevenueShareTier.monthlyRetentionBonusUsdc def) = Some g ->
        let withBonus :=
          default false incl
          && Js.gtb (Js.parseFloat (RevenueShareTier.monthlyRetentionBonusUsdc def))
                    (Js.of_Z 0) in
        exists q calc,
          Big.div (Big.times b p) (Big.of_Z 100) = Some q
          /\ calculateRevenueShare pid rev incl st = (withAssignment st pid, Ok calc)
          /\ RevenueShareCalculationDto.providerId calc = pid
          /\ RevenueShareCalculationDto.tierLevel calc
             = assignedTier (withAssignment st pid) pid
          /\ RevenueShareCalculationDto.sharePercentage calc
             = RevenueShareTier.revenueSharePercentage def
          /\ RevenueShareCalculationDto.baseRevenue calc = rev
          /\ RevenueShareCalculationDto.revenueShareAmount calc = Big.toFixed q 8
          /\ RevenueShareCalculationDto.bonusAmount calc
             = (if withBonus then Big.toFixed g 8 else "0.00000000"%string)
          /\ RevenueShareCalculationDto.bonusType calc
             = (if withBonus then Some MONTHLY_TOP else None)
          /\ Big.of_string (RevenueShareCalculationDto.revenueShareAmount calc)
             = Some (Big.round q 8)
          /\ Big.of_string (RevenueShareCalculationDto.bonusAmount calc)
             = Some (if withBonus then Big.round g 8 else Big.mk 0 8)
          /\ RevenueShareCalculationDto.totalPayout calc
             = Big.toFixed
                 (Big.mk (Big.coef (Big.round q 8)
                          + (if withBonus then Big.coef (Big.round g 8) else 0)) 8) 8
          /\ Big.of_string (RevenueShareCalculationDto.totalPayout calc)
             = Some (Big.mk (Big.coef (Big.round q 8)
                             + (if withBonus then Big.coef (Big.round g 8) else 0)) 8)
          /\ ((Big.dp b + Big.dp p <= 18)%nat ->
              Big.coef (Big.round q 8)
              = Big.half_up (Big.coef b * Big.coef p * pow10 (6 - (Big.dp b + Big.dp p)))
                            (pow10 (Big.dp b + Big.dp p - 6)))
          /\ ((Big.dp g <= 300)%nat ->
              withBonus = default false incl && (0 <? Big.coef g))).
Proof.
  intros Hb. split.
  - intros Hle. rewrite calculateRevenueShare_run, Hb, lte_zero.
    rewrite (proj2 (Z.leb_le _ _) Hle). eexists. split; reflexivity.
  - intros Hpos def p g Hdef Hp Hg withBonus.
    destruct (withAssignment_tierRepo st pid) as (Htiers & _).
    pose proof (div_100 (Big.times b p)) as Hq.
    set (q := Big.mk _ 20) in Hq.
    rewrite calculateRevenueShare_run, Hb, lte_zero.
    replace (Big.coef b <=? 0) with false by (symmetry; apply Z.leb_gt; lia).
    cbn zeta. rewrite Htiers, Hdef, Hp, Hq, Hg. fold withBonus.
    exists q. destruct withBonus eqn:Hwith; eexists; (split; [exact Hq |]).
    + split; [reflexivity |].
      cbn [RevenueShareCalculationDto.providerId RevenueShareCalculationDto.tierLevel
           RevenueShareCalculationDto.sharePercentage RevenueShareCalculationDto.baseRevenue
           RevenueShareCalculationDto.revenueShareAmount RevenueShareCalculationDto.bonusAmount
           RevenueShareCalculationDto.bonusType RevenueShareCalculationDto.totalPayout].
      rewrite plus_round, !of_string_toFixed, round_same_scale.
      repeat (split; [reflexivity |]).
      split; [intros Hs; by apply share_exact |].
      intros Hdp. by rewrite <- (parseFloat_positive _ _ Hg Hdp).
    + split; [reflexivity |].
      cbn [RevenueShareCalculationDto.providerId RevenueShareCalculationDto.tierLevel
           RevenueShareCalculationDto.sharePercentage RevenueShareCalculationDto.baseRevenue
           RevenueShareCalculationDto.revenueShareAmount RevenueShareCalculationDto.bonusAmount
           RevenueShareCalculationDto.bonusType RevenueShareCalculationDto.totalPayout].
      rewrite plus_round_zero, !of_string_toFixed, round_same_scale.
      repeat (split; [reflexivity |]).
      split; [intros Hs; by apply share_exact |].
      intros Hdp. by rewrite <- (parseFloat_positive _ _ Hg Hdp).
Qed.

Lemma calculateRevenueShare_spec_witness :
  (exists e, calculateRevenueShare "provider-1" "0" (Some false) (tierStore GOLD)
             = (tierStore GOLD, Throw e)
             /\ errorKind e = InvalidArgument)
  /\ (exists q calc,
        Big.div (Big.times (Big.mk 1000 0) (Big.mk 800 2)) (Big.of_Z 100) = Some q
        /\ calculateRevenueShare "provider-1" "1000" (Some true) (tierStore GOLD)
           = (tierStore GOLD, Ok calc)
        /\ calc = RevenueShareCalculationDto.mk "provider-1" GOLD "8.00" "1000"
                    "80.00000000" "20.00000000" (Some MONTHLY_TOP) "100.00000000").
Proof.
  split.
  - apply (calculateRevenueShare_spec (tierStore GOLD) "provider-1" "0" (Some false)
             (Big.mk 0 0) eq_refl).
    vm_compute. discriminate.
  - destruct (calculateRevenueShare_spec (tierStore GOLD) "provider-1" "1000" (Some true)
                (Big.mk 1000 0) eq_refl) as [_ Hpos].
    destruct (Hpos eq_refl
                (RevenueShareTier.mk GOLD "Gold Provider"
                   "High-performing providers with strong copier engagement."
                   "8.00" "62" 50 50 "65" "50" "20" true 3)
                (Big.mk 800 2) (Big.mk 20 0) eq_refl eq_refl eq_refl)
      as (q & calc & Hq & Hrun & _).
    exists q, calc. split; [exact Hq |]. split; [exact Hrun |].
    vm_compute in Hrun. by injection Hrun as <-.
Defined.

(** ** Single payouts *)

Lemma zero_fixed : "0.00000000"%string = Big.toFixed (Big.mk 0 8) 8.
Proof. reflexivity. Qed.

(** What a calculation that returns has produced. *)
Lemma calculateRevenueShare_returns (st st1 : Store) (pid rev : string)
    (incl : option bool) (calc : RevenueShareCalculationDto.t) :
  calculateRevenueShare pid rev incl st = (st1, Ok calc) ->
  st1 = withAssignment st pid
  /\ RevenueShareCalculationDto.tierLevel calc = assignedTier st1 pid
  /\ exists b q x,
       Big.of_string rev = Some b /\ 0 < Big.coef b
       /\ RevenueShareCalculationDto.revenueShareAmount calc = Big.toFixed q 8
       /\ RevenueShareCalculationDto.bonusAmount calc = Big.toFixed x 8
       /\ RevenueShareCalculationDto.totalPayout calc
          = Big.toFixed (Big.mk (Big.coef (Big.round q 8) + Big.coef (Big.round x 8)) 8) 8.
Proof.
  rewrite calculateRevenueShare_run.
  destruct (Big.of_string rev) as [b|]; [| discriminate].
  rewrite lte_zero. destruct (Big.coef b <=? 0) eqn:Hb; [discriminate |].
  apply Z.leb_gt in Hb. cbn zeta.
  destruct (findTier _ _) as [def|]; [| discriminate].
  destruct (Big.of_string (RevenueShareTier.revenueSharePercentage def)) as [p|];
    [| discriminate].
  destruct (Big.div _ _) as [q|]; [| discriminate].
  destruct (default false incl && _).
  - destruct (Big.of_string (RevenueShareTier.monthlyRetentionBonusUsdc def)) as [g|];
      [| discriminate].
    intros [= <- <-]. split; [done |]. split; [done |].
    exists b, q, g. rewrite plus_round. by repeat split.
  - intros [= <- <-]. split; [done |]. split; [done |].
    exists b, q, (Big.mk 0 8). rewrite plus_round_zero. by repeat split.
Qed.

Lemma escalatePayout_last (st : Store) (row : ProviderRevenuePayout.t) :
  exists st',
    escalatePayout row (withPayout st row)
    = (st', Ok (ProviderRevenuePayout.set_status PROCESSING row))
    /\ last (payoutRepo st') = Some (ProviderRevenuePayout.set_status PROCESSING row)
    /\ List.length (payoutRepo st') = S (List.length (payoutRepo st))
    /\ tierRepo st' = tierRepo st /\ assignmentRepo st' = assignmentRepo st
    /\ statsRepo st' = statsRepo st /\ userRepo st' = userRepo st
    /\ tierCache st' = tierCache st /\ clock st' = clock st.
Proof.
  eexists. split; [reflexivity |]. cbn [payoutRepo withPayout].
  rewrite List.map_app. cbn [List.map].
  rewrite last_snoc, Nat.eqb_refl, List.length_app, List.length_map. cbn [List.length].
  repeat split. lia.
Qed.

Lemma recordPayout_run (st : Store) (params : PayoutParams) :
  recordPayout params st
  = (withPayout st (recordedRow st params), Ok (recordedRow st params)).
Proof. reflexivity. Qed.

(** The payout, step by step, once the calculation has returned. *)
Lemma processProviderPayout_run (st st1 : Store) (pid rev : string)
    (options : PayoutOptions) (calc : RevenueShareCalculationDto.t) :
  calculateRevenueShare pid rev (Some (default true (includeBonus options))) st
  = (st1, Ok calc) ->
  processProviderPayout pid rev options st
  = match userRepo st1 !! pid with
    | None => (st1, Throw (NotFoundException (ProviderUserNotFound pid)))
    | Some user =>
        match Big.of_string (RevenueShareCalculationDto.revenueShareAmount calc) with
        | None => (st1, Throw (Error BigInvalidNumber))
        | Some r =>
            match Big.of_string (appliedBonus options calc).1 with
            | None => (st1, Throw (Error BigInvalidNumber))
            | Some g =>
                let row :=
                  recordedRow st1
                    (payoutParams pid rev options calc
                       (Big.toFixed (Big.plus r g) 8) (User.walletAddress user)) in
                if isTopTier (RevenueShareCalculationDto.tierLevel calc)
                then escalatePayout row (withPayout st1 row)
                else (withPayout st1 row, Ok row)
            end
        end
    end.
Proof.
  intros Hcalc. unfold processProviderPayout. unfold bind at 1. rewrite Hcalc.
  unfold bind at 1. unfold gets at 1.
  destruct (userRepo st1 !! pid) as [user|]; [| reflexivity].
  unfold bind at 1. unfold newBig at 1.
  destruct (Big.of_string (RevenueShareCalculationDto.revenueShareAmount calc)) as [r|];
    [| reflexivity]. cbn [ret].
  unfold bind at 1. unfold newBig at 1. unfold payoutParams, appliedBonus, isTopTier.
  destruct (bonusOverride options) as [[amount type]|]; cbn [fst snd].
  - destruct (Big.of_string amount) as [g|]; [| reflexivity]. cbn [ret].
    unfold bind. rewrite recordPayout_run.
    destruct (bool_decide _ || bool_decide _); reflexivity.
  - destruct (Big.of_string (RevenueShareCalculationDto.bonusAmount calc)) as [g|];
      [| reflexivity]. cbn [ret].
    unfold bind. rewrite recordPayout_run.
    destruct (bool_decide _ || bool_decide _); reflexivity.
Qed.

(** C8. Once the calculation has returned, [processProviderPayout] throws
    the not-found error, without recording anything, when there is no user
    row for the provider; otherwise, the bonus being the override when one
    is given (a decimal numeral) and the calculated one if not, it records
    through [recordPayout] a PENDING payout whose total is the sum of share
    and bonus with 8 decimals, and the payout it returns and leaves as the
    last row of the ledger is that payout moved to PROCESSING when the
    provider's tier is ELITE or PLATINUM and that payout unchanged, still
    PENDING, for every other tier. *)
Theorem processProviderPayout_spec (st st1 : Store) (pid rev : string)
    (options : PayoutOptions) (calc : RevenueShareCalculationDto.t) :
  calculateRevenueShare pid rev (Some (default true (includeBonus options))) st
  = (st1, Ok calc) ->
  RevenueShareCalculationDto.tierLevel calc = assignedTier st1 pid
  /\ (userRepo st !! pid = None ->
      exists e, processProviderPayout pid rev options st = (st1, Throw e)
                /\ errorKind e = NotFound
                /\ payoutRepo st1 = payoutRepo st)
  /\ (bonusOverride options = None ->
      exists g, Big.of_string (appliedBonus options calc).1 = Some g)
  /\ (forall user g,
        userRepo st !! pid = Some user ->
        Big.of_string (appliedBonus options calc).1 = Some g ->
        exists r row st' payout,
          Big.of_string (RevenueShareCalculationDto.revenueShareAmount calc) = Some r
          /\ recordPayout
               (payoutParams pid rev options calc (Big.toFixed (Big.plus r g) 8)
                  (User.walletAddress user)) st1
             = (withPayout st1 row, Ok row)
          /\ ProviderRevenuePayout.status row = PENDING
          /\ ProviderRevenuePayout.bonusAmount row = (appliedBonus options calc).1
          /\ ProviderRevenuePayout.bonusType row = (appliedBonus options calc).2
          /\ ProviderRevenuePayout.totalPayout row = Big.toFixed (Big.plus r g) 8
          /\ processProviderPayout pid rev options st = (st', Ok payout)
          /\ payout = (if isTopTier (RevenueShareCalculationDto.tierLevel calc)
                       then ProviderRevenuePayout.set_status PROCESSING row else row)
          /\ (ProviderRevenuePayout.status payout = PROCESSING
              <-> RevenueShareCalculationDto.tierLevel calc = ELITE
                  \/ RevenueShareCalculationDto.tierLevel calc = PLATINUM)
          /\ (ProviderRevenuePayout.status payout = PENDING
              <-> ~ (RevenueShareCalculationDto.tierLevel calc = ELITE
                     \/ RevenueShareCalculationDto.tierLevel calc = PLATINUM))
          /\ last (payoutRepo st') = Some payout
          /\ List.length (payoutRepo st') = S (List.length (payoutRepo st))).
Proof.
  intros Hcalc.
  destruct (calculateRevenueShare_returns _ _ _ _ _ _ Hcalc)
    as (Hst1 & Htier & b & q & x & Hb & Hpos & Hshare & Hbonus & Htotal).
  destruct (withAssignment_tierRepo st pid) as (_ & Hledger & Husers & _).
  rewrite <- Hst1 in Hledger, Husers.
  split; [exact Htier |]. split; [| split].
  - intros Huser. rewrite (processProviderPayout_run _ _ _ _ _ _ Hcalc), Husers, Huser.
    eexists. by repeat split.
  - intros Hnone. unfold appliedBonus. rewrite Hnone. cbn [fst].
    rewrite Hbonus, of_string_toFixed. by eexists.
  - intros user g Huser Hg.
    rewrite (processProviderPayout_run _ _ _ _ _ _ Hcalc), Husers, Huser, Hg.
    rewrite Hshare, of_string_toFixed. cbn zeta.
    set (row := recordedRow st1 _).
    assert (Htop : isTopTier (RevenueShareCalculationDto.tierLevel calc) = true
                   <-> RevenueShareCalculationDto.tierLevel calc = ELITE
                       \/ RevenueShareCalculationDto.tierLevel calc = PLATINUM).
    { unfold isTopTier. rewrite orb_true_iff, !bool_decide_eq_true. reflexivity. }
    exists (Big.round q 8), row.
    destruct (isTopTier (RevenueShareCalculationDto.tierLevel calc)) eqn:Hc.
    + destruct (escalatePayout_last st1 row) as (st' & Hrun & Hlast & Hlen & _).
      exists st', (ProviderRevenuePayout.set_status PROCESSING row). rewrite Hrun.
      do 8 (split; [reflexivity |]).
      split; [split; [intros _; by apply Htop | reflexivity] |].
      split; [split; [discriminate | intros Hno; exfalso; apply Hno; by apply Htop] |].
      split; [exact Hlast | by rewrite Hlen, Hledger].
    + exists (withPayout st1 row), row.
      do 8 (split; [reflexivity |]).
      split; [split; [discriminate | intros Hyes; apply Htop in Hyes; discriminate] |].
      split; [split; [intros _ Hyes; apply Htop in Hyes; discriminate | reflexivity] |].
      cbn [withPayout payoutRepo].
      rewrite last_snoc, List.length_app, Hledger. cbn [List.length].
      split; [reflexivity | lia].
Qed.

Lemma processProviderPayout_spec_witness :
  exists row st' payout,
    recordPayout
      (payoutParams "provider-1" "1000" (mkOptions None None None None)
         (RevenueShareCalculationDto.mk "provider-1" ELITE "10.00" "1000"
            "100.00000000" "100.00000000" (Some MONTHLY_TOP) "200.00000000")
         "200.00000000" "GWALLET1") (tierStore ELITE)
    = (withPayout (tierStore ELITE) row, Ok row)
    /\ ProviderRevenuePayout.status row = PENDING
    /\ processProviderPayout "provider-1" "1000" (mkOptions None None None None)
         (tierStore ELITE) = (st', Ok payout)
    /\ ProviderRevenuePayout.status payout = PROCESSING
    /\ ProviderRevenuePayout.totalPayout payout = "200.00000000"%string
    /\ last (payoutRepo st') = Some payout.
Proof.
  destruct (processProviderPayout_spec (tierStore ELITE) (tierStore ELITE) "provider-1"
              "1000" (mkOptions None None None None)
              (RevenueShareCalculationDto.mk "provider-1" ELITE "10.00" "1000"
                 "100.00000000" "100.00000000" (Some MONTHLY_TOP) "200.00000000"))
    as (_ & _ & _ & Hrun).
  { vm_compute. reflexivity. }
  destruct (Hrun (User.mk "provider-1" "GWALLET1") (Big.mk 10000000000 8))
    as (r & row & st' & payout & Hr & Hrec & Hpending & _ & _ & Htotal & Hproc & Hpay
        & Hstatus & _ & Hlast & _).
  { reflexivity. }
  { vm_compute. reflexivity. }
  exists row, st', payout.
  assert (r = Big.mk 10000000000 8) as -> by (vm_compute in Hr; congruence).
  split; [exact Hrec |]. split; [exact Hpending |]. split; [exact Hproc |].
  split; [apply Hstatus; by left |]. split; [| exact Hlast].
  rewrite Hpay.
  change (ProviderRevenuePayout.totalPayout row = "200.00000000"%string).
  rewrite Htotal. vm_compute. reflexivity.
Defined.

(** ** The monthly batch *)

(** A payout that returns carries a total printed with 8 decimals. *)
Lemma processProviderPayout_total (st st' : Store) (pid rev : string)
    (options : PayoutOptions) (payout : ProviderRevenuePayout.t) :
  processProviderPayout pid rev options st = (st', Ok payout) ->
  exists y, ProviderRevenuePayout.totalPayout payout = Big.toFixed y 8.
Proof.
  destruct (calculateRevenueShare pid rev (Some (default true (includeBonus options))) st)
    as [st1 [calc | e]] eqn:Hcalc.
  - rewrite (processProviderPayout_run _ _ _ _ _ _ Hcalc).
    destruct (userRepo st1 !! pid) as [user|]; [| discriminate].
    destruct (Big.of_string (RevenueShareCalculationDto.revenueShareAmount calc)) as [r|];
      [| discriminate].
    destruct (Big.of_string (appliedBonus options calc).1) as [g|]; [| discriminate].
    cbn zeta. destruct (isTopTier _).
    + intros [= _ <-]. by eexists.
    + intros [= _ <-]. by eexists.
  - unfold processProviderPayout, bind. rewrite Hcalc. discriminate.
Qed.

Lemma amountUnits_toFixed (y : Big.t) :
  amountUnits (Big.toFixed y 8) = Big.coef (Big.round y 8).
Proof.
  unfold amountUnits. rewrite of_string_toFixed.
  change (Big.round y 8) with (Big.mk (Big.coef (Big.round y 8)) 8) at 1.
  by rewrite round_same_scale.
Qed.

Lemma totalStandsFor_zero : totalStandsFor (Big.of_Z 0) 0.
Proof.
  split; [reflexivity |]. intros c. unfold Big.plus, Big.of_Z. cbn [Big.coef Big.dp].
  f_equal. change (pow10 (0 - 8)) with 1. lia.
Qed.

Lemma totalStandsFor_plus (acc : Big.t) (u c : Z) :
  totalStandsFor acc u -> totalStandsFor (Big.plus acc (Big.mk c 8)) (u + c).
Proof.
  intros [_ Hplus]. rewrite Hplus. split; [reflexivity |].
  intros c'. apply plus_same_scale.
Qed.

Lemma countStatus_cons (s : DetailStatus) (d : BatchDetail) (ds : list BatchDetail) :
  countStatus s (d :: ds)
  = (match d_status d, s with
     | success, success | failed, failed | skipped, skipped => 1
     | _, _ => 0
     end) + countStatus s ds.
Proof.
  unfold countStatus. cbn [List.filter].
  destruct (d_status d), s; cbn [List.length]; lia.
Qed.

Lemma batchStep_skipped (year month : Z) (pid rev : string) (b : Big.t)
    (result : MonthlyBatchResult.t) (acc : Big.t) (st : Store) :
  Big.of_string rev = Some b -> Big.coef b <= 0 ->
  batchStep year month (pid, rev) (result, acc) st
  = (st, Ok (MonthlyBatchResult.mk (MonthlyBatchResult.processed result + 1)
               (MonthlyBatchResult.totalDispatched result)
               (MonthlyBatchResult.successfulPayouts result)
               (MonthlyBatchResult.failedPayouts result)
               (MonthlyBatchResult.skipped result + 1)
               (MonthlyBatchResult.details result
                  ++ [mkDetail pid skipped "0" (Some ZeroRevenue)]),
             acc)).
Proof.
  intros Hb Hle. unfold batchStep, bind, newBig. rewrite Hb. cbn [ret].
  rewrite lte_zero, (proj2 (Z.leb_le _ _) Hle). reflexivity.
Qed.

Lemma batchStep_success (year month : Z) (pid rev : string) (b : Big.t)
    (result : MonthlyBatchResult.t) (acc : Big.t) (st st1 : Store) payout :
  Big.of_string rev = Some b -> 0 < Big.coef b ->
  processProviderPayout pid rev (batchOptions year month) st = (st1, Ok payout) ->
  batchStep year month (pid, rev) (result, acc) st
  = (st1, Ok (MonthlyBatchResult.mk (MonthlyBatchResult.processed result + 1)
                (MonthlyBatchResult.totalDispatched result)
                (MonthlyBatchResult.successfulPayouts result + 1)
                (MonthlyBatchResult.failedPayouts result)
                (MonthlyBatchResult.skipped result)
                (MonthlyBatchResult.details result
                   ++ [mkDetail pid success (ProviderRevenuePayout.totalPayout payout) None]),
              Big.plus acc
                (Big.mk (amountUnits (ProviderRevenuePayout.totalPayout payout)) 8))).
Proof.
  intros Hb Hpos Hpay. unfold batchStep. unfold bind at 1. unfold newBig at 1.
  rewrite Hb. cbn [ret].
  rewrite lte_zero.
  replace (Big.coef b <=? 0) with false by (symmetry; apply Z.leb_gt; lia).
  unfold try_catch, bind. fold (batchOptions year month). rewrite Hpay.
  destruct (processProviderPayout_total _ _ _ _ _ _ Hpay) as [y Hy].
  rewrite Hy, newBig_toFixed, amountUnits_toFixed. reflexivity.
Qed.

Lemma batchStep_failed (year month : Z) (pid rev : string) (b : Big.t)
    (result : MonthlyBatchResult.t) (acc : Big.t) (st st1 : Store) e :
  Big.of_string rev = Some b -> 0 < Big.coef b ->
  processProviderPayout pid rev (batchOptions year month) st = (st1, Throw e) ->
  batchStep year month (pid, rev) (result, acc) st
  = (st1, Ok (MonthlyBatchResult.mk (MonthlyBatchResult.processed result + 1)
                (MonthlyBatchResult.totalDispatched result)
                (MonthlyBatchResult.successfulPayouts result)
                (MonthlyBatchResult.failedPayouts result + 1)
                (MonthlyBatchResult.skipped result)
                (MonthlyBatchResult.details result
                   ++ [mkDetail pid failed "0" (Some (ErrMessage (message e)))]),
              acc)).
Proof.
  intros Hb Hpos Hpay. unfold batchStep. unfold bind at 1. unfold newBig at 1.
  rewrite Hb. cbn [ret].
  rewrite lte_zero.
  replace (Big.coef b <=? 0) with false by (symmetry; apply Z.leb_gt; lia).
  unfold try_catch, bind. fold (batchOptions year month). rewrite Hpay. reflexivity.
Qed.

Lemma batchResult_ext (p p' : Z) (t : string) (s s' f f' k k' : Z)
    (d d' : list BatchDetail) :
  p = p' -> s = s' -> f = f' -> k = k' -> d = d' ->
  MonthlyBatchResult.mk p t s f k d = MonthlyBatchResult.mk p' t s' f' k' d'.
Proof. by intros -> -> -> -> ->. Qed.

Lemma batch_loop (year month : Z) (l : list (string * string)) :
  Forall (fun entry => is_Some (Big.of_string entry.2)) l ->
  forall (st : Store) (result : MonthlyBatchResult.t) (acc : Big.t) (u : Z),
    totalStandsFor acc u ->
    exists ds st' acc',
      batchRun year month l st ds st'
      /\ forEach l (batchStep year month) (result, acc) st
         = (st', Ok (MonthlyBatchResult.mk
                       (MonthlyBatchResult.processed result + Z.of_nat (List.length l))
                       (MonthlyBatchResult.totalDispatched result)
                       (MonthlyBatchResult.successfulPayouts result + countStatus success ds)
                       (MonthlyBatchResult.failedPayouts result + countStatus failed ds)
                       (MonthlyBatchResult.skipped result + countStatus skipped ds)
                       (MonthlyBatchResult.details result ++ ds),
                     acc'))
      /\ totalStandsFor acc' (u + dispatchedUnits ds).
Proof.
  induction 1 as [|[pid rev] l [b Hb] _ IH]; intros st result acc u Hacc.
  - exists [], st, acc. split; [constructor |]. split.
    + cbn [forEach ret List.length]. unfold countStatus. cbn [List.filter List.length].
      rewrite app_nil_r, !Z.add_0_r. by destruct result.
    + cbn [dispatchedUnits]. by rewrite Z.add_0_r.
  - cbn [snd] in Hb. cbn [forEach]. unfold bind at 1.
    destruct (Z_le_gt_dec (Big.coef b) 0) as [Hle | Hgt].
    + rewrite (batchStep_skipped _ _ _ _ _ _ _ _ Hb Hle).
      edestruct IH as (ds & st' & acc' & Hrun & Hloop & Htotal); [exact Hacc |].
      eexists (_ :: ds), st', acc'. split; [by eapply batch_skipped |].
      rewrite Hloop. split; [| exact Htotal].
      rewrite !countStatus_cons.
      cbn [MonthlyBatchResult.processed MonthlyBatchResult.totalDispatched
           MonthlyBatchResult.successfulPayouts MonthlyBatchResult.failedPayouts
           MonthlyBatchResult.skipped MonthlyBatchResult.details d_status List.length].
      rewrite <- app_assoc. do 3 f_equal. apply batchResult_ext; first [lia | reflexivity].
    + destruct (processProviderPayout pid rev (batchOptions year month) st)
        as [st1 [payout | e]] eqn:Hpay.
      * rewrite (batchStep_success _ _ _ _ _ _ _ _ _ _ Hb ltac:(lia) Hpay).
        edestruct IH as (ds & st' & acc' & Hrun & Hloop & Htotal);
          [by apply totalStandsFor_plus |].
        eexists (_ :: ds), st', acc'. split; [eapply batch_success; eauto; lia |].
        rewrite Hloop. split.
        -- rewrite !countStatus_cons.
           cbn [MonthlyBatchResult.processed MonthlyBatchResult.totalDispatched
                MonthlyBatchResult.successfulPayouts MonthlyBatchResult.failedPayouts
                MonthlyBatchResult.skipped MonthlyBatchResult.details d_status List.length].
           rewrite <- app_assoc. do 3 f_equal. apply batchResult_ext; first [lia | reflexivity].
        -- cbn [dispatchedUnits d_status d_amount]. by rewrite Z.add_assoc.
      * rewrite (batchStep_failed _ _ _ _ _ _ _ _ _ _ Hb ltac:(lia) Hpay).
        edestruct IH as (ds & st' & acc' & Hrun & Hloop & Htotal); [exact Hacc |].
        eexists (_ :: ds), st', acc'. split; [eapply batch_failed; eauto; lia |].
        rewrite Hloop. split; [| exact Htotal].
        rewrite !countStatus_cons.
        cbn [MonthlyBatchResult.processed MonthlyBatchResult.totalDispatched
             MonthlyBatchResult.successfulPayouts MonthlyBatchResult.failedPayouts
             MonthlyBatchResult.skipped MonthlyBatchResult.details d_status List.length].
        rewrite <- app_assoc. do 3 f_equal. apply batchResult_ext; first [lia | reflexivity].
Qed.

Lemma batchRun_providers (year month : Z) l st ds st' :
  batchRun year month l st ds st' -> List.map d_providerId ds = List.map fst l.
Proof. induction 1; cbn [List.map fst d_providerId]; congruence. Qed.

(** Without an override the total of a payout is printed from an amount
    that has exactly 8 decimals. *)
Lemma batch_payout_total (year month : Z) (st st' : Store) (pid rev : string)
    (payout : ProviderRevenuePayout.t) :
  processProviderPayout pid rev (batchOptions year month) st = (st', Ok payout) ->
  exists c, ProviderRevenuePayout.totalPayout payout = Big.toFixed (Big.mk c 8) 8.
Proof.
  destruct (calculateRevenueShare pid rev
              (Some (default true (includeBonus (batchOptions year month)))) st)
    as [st1 [calc | e]] eqn:Hcalc.
  - rewrite (processProviderPayout_run _ _ _ _ _ _ Hcalc).
    destruct (calculateRevenueShare_returns _ _ _ _ _ _ Hcalc)
      as (_ & _ & b & q & x & _ & _ & Hshare & Hbonus & _).
    destruct (userRepo st1 !! pid) as [user|]; [| discriminate].
    unfold appliedBonus. cbn [batchOptions bonusOverride fst].
    rewrite Hshare, Hbonus, !of_string_toFixed, plus_round. cbn zeta.
    destruct (isTopTier _); intros [= _ <-]; by eexists.
  - unfold processProviderPayout, bind. rewrite Hcalc. discriminate.
Qed.

(** For a revenue map whose amounts are decimal numerals the batch
    always returns: provider after provider, in the order of the map, it
    records "skipped" with reason zero revenue for a revenue of zero or
    less, "success" with the payout's total when [processProviderPayout]
    returns and "failed" with the message of the exception when it throws,
    and goes on with the next provider in each case; the counters count
    the details of each kind and [totalDispatched] is the sum of the totals
    of the successes with 8 decimals.  With one provider at zero revenue
    followed by one whose payout returns, the result has one skipped, one
    successful payout, and that payout's total as [totalDispatched]. *)
Lemma processMontlyBatch_numerals (year month : Z) (revenueMap : list (string * string))
    (st : Store) :
  Forall (fun entry => is_Some (Big.of_string entry.2)) revenueMap ->
  exists ds st' result,
    batchRun year month revenueMap st ds st'
    /\ processMontlyBatch year month revenueMap st = (st', Ok result)
    /\ MonthlyBatchResult.details result = ds
    /\ List.map d_providerId ds = List.map fst revenueMap
    /\ MonthlyBatchResult.processed result = Z.of_nat (List.length revenueMap)
    /\ MonthlyBatchResult.successfulPayouts result = countStatus success ds
    /\ MonthlyBatchResult.failedPayouts result = countStatus failed ds
    /\ MonthlyBatchResult.skipped result = countStatus skipped ds
    /\ MonthlyBatchResult.totalDispatched result
       = Big.toFixed (Big.mk (dispatchedUnits ds) 8) 8
    /\ (forall pid0 rev0 b0 pid1 rev1 b1 st1 payout,
          revenueMap = [(pid0, rev0); (pid1, rev1)] ->
          Big.of_string rev0 = Some b0 -> Big.coef b0 <= 0 ->
          Big.of_string rev1 = Some b1 -> 0 < Big.coef b1 ->
          processProviderPayout pid1 rev1 (batchOptions year month) st = (st1, Ok payout) ->
          st' = st1
          /\ result = MonthlyBatchResult.mk 2 (ProviderRevenuePayout.totalPayout payout) 1 0 1
                        [ mkDetail pid0 skipped "0" (Some ZeroRevenue);
                          mkDetail pid1 success
                            (ProviderRevenuePayout.totalPayout payout) None ]).
Proof.
  intros Hwf.
  destruct (batch_loop year month revenueMap Hwf st
              (MonthlyBatchResult.mk 0 "0" 0 0 0 []) (Big.of_Z 0) 0 totalStandsFor_zero)
    as (ds & st' & acc' & Hrun & Hloop & [Htotal _]).
  cbn [MonthlyBatchResult.processed MonthlyBatchResult.totalDispatched
       MonthlyBatchResult.successfulPayouts MonthlyBatchResult.failedPayouts
       MonthlyBatchResult.skipped MonthlyBatchResult.details] in Hloop.
  rewrite !Z.add_0_l in Hloop. rewrite Z.add_0_l in Htotal. cbn [app] in Hloop.
  exists ds, st'. eexists. split; [exact Hrun |]. split.
  { unfold processMontlyBatch, bind. rewrite Hloop. reflexivity. }
  cbn [MonthlyBatchResult.processed MonthlyBatchResult.totalDispatched
       MonthlyBatchResult.successfulPayouts MonthlyBatchResult.failedPayouts
       MonthlyBatchResult.skipped MonthlyBatchResult.details].
  split; [reflexivity |]. split; [by eapply batchRun_providers |].
  do 4 (split; [reflexivity |]). split; [exact Htotal |].
  intros pid0 rev0 b0 pid1 rev1 b1 st1 payout -> Hb0 Hle Hb1 Hpos Hpay.
  destruct (batch_payout_total _ _ _ _ _ _ _ Hpay) as [c Hc].
  inversion Hrun as [| ? ? ? ? ? ? ? _ _ Hrest | ? ? ? ? ? ? ? ? ? Hb0' Hpos0 |
                     ? ? ? ? ? ? ? ? ? Hb0' Hpos0]; subst;
    try (rewrite Hb0 in Hb0'; injection Hb0' as <-; lia).
  inversion Hrest as [| ? ? ? ? ? ? ? Hb1' Hle1 | ? ? ? ? ? ? ? ? ? _ _ Hpay' Hend |
                      ? ? ? ? ? ? ? ? ? _ _ Hpay']; subst;
    try (rewrite Hb1 in Hb1'; injection Hb1' as <-; lia);
    try (rewrite Hpay in Hpay'; discriminate).
  rewrite Hpay in Hpay'. injection Hpay' as <- <-.
  inversion Hend; subst. split; [reflexivity |].
  rewrite Htotal. cbn [dispatchedUnits d_status d_amount].
  rewrite Hc, amountUnits_toFixed, round_same_scale. cbn [Big.coef].
  rewrite Z.add_0_r. reflexivity.
Qed.

Example processMontlyBatch_zero_and_positive :
  exists st' result,
    processMontlyBatch 2026 11 [("provider-0", "0"); ("provider-1", "1000")]%string
      (tierStore GOLD) = (st', Ok result)
    /\ MonthlyBatchResult.skipped result = 1
    /\ MonthlyBatchResult.successfulPayouts result = 1
    /\ MonthlyBatchResult.failedPayouts result = 0
    /\ MonthlyBatchResult.totalDispatched result = "100.00000000"%string
    /\ List.map (fun p => ProviderRevenuePayout.totalPayout p) (payoutRepo st')
       = ["100.00000000"%string].
Proof.
  destruct (processMontlyBatch_numerals 2026 11
              [("provider-0", "0"); ("provider-1", "1000")]%string (tierStore GOLD))
    as (ds & st' & result & _ & Hbatch & _ & _ & _ & _ & _ & _ & _ & Hex).
  { repeat constructor; by eexists. }
  exists st', result. split; [exact Hbatch |].
  edestruct (Hex "provider-0" "0" (Big.mk 0 0) "provider-1" "1000" (Big.mk 1000 0))%string
    as [-> ->].
  - reflexivity.
  - reflexivity.
  - cbn. lia.
  - reflexivity.
  - cbn. lia.
  - vm_compute. reflexivity.
  - vm_compute. by repeat split.
Qed.

(** A payout that throws in the middle of the map does not stop the
    batch: the provider after it is still paid. *)
Example processMontlyBatch_goes_on :
  exists st',
    processMontlyBatch 2026 11
      [("provider-0", "0"); ("provider-9", "5"); ("provider-1", "1000")]%string
      (tierStore GOLD)
    = (st', Ok (MonthlyBatchResult.mk 3 "100.00000000" 1 1 1
                  [ mkDetail "provider-0" skipped "0" (Some ZeroRevenue);
                    mkDetail "provider-9" failed "0"
                      (Some (ErrMessage (ProviderUserNotFound "provider-9")));
                    mkDetail "provider-1" success "100.00000000" None ])).
Proof. eexists. vm_compute. reflexivity. Qed.

Lemma forEach_app {A S : Type} (l1 l2 : list A) (body : A -> S -> M S) (s : S)
    (st : Store) :
  forEach (l1 ++ l2) body s st
  = bind (forEach l1 body s) (fun s' => forEach l2 body s') st.
Proof.
  revert s st. induction l1 as [|x l1 IH]; intros s st; [reflexivity |].
  cbn [app forEach]. unfold bind.
  destruct (body x s st) as [st1 [s1 | e]]; [| reflexivity].
  rewrite IH. reflexivity.
Qed.

(** The amount of a provider is read outside the [try] block: at the first
    amount that is no numeral the batch throws, after the providers before
    it have been processed, and the providers after it are not looked
    at. *)
Lemma processMontlyBatch_malformed (year month : Z)
    (before after : list (string * string)) (pid amount : string) (st : Store) :
  Forall (fun entry => is_Some (Big.of_string entry.2)) before ->
  Big.of_string amount = None ->
  exists ds st',
    batchRun year month before st ds st'
    /\ processMontlyBatch year month (before ++ (pid, amount) :: after) st
       = (st', Throw (Error BigInvalidNumber)).
Proof.
  intros Hwf Hbad.
  destruct (batch_loop year month before Hwf st
              (MonthlyBatchResult.mk 0 "0" 0 0 0 []) (Big.of_Z 0) 0 totalStandsFor_zero)
    as (ds & st' & acc' & Hrun & Hloop & _).
  exists ds, st'. split; [exact Hrun |].
  unfold processMontlyBatch. unfold bind at 1. rewrite forEach_app.
  unfold bind at 1. rewrite Hloop. cbn [forEach]. unfold bind at 1.
  unfold batchStep, bind, newBig. rewrite Hbad. reflexivity.
Qed.

Example processMontlyBatch_malformed_amount :
  processMontlyBatch 2026 11 [("provider-0", "abc"); ("provider-1", "1000")]%string
    (tierStore GOLD)
  = (tierStore GOLD, Throw (Error BigInvalidNumber)).
Proof. vm_compute. reflexivity. Qed.

Lemma processProviderPayout_malformed (st : Store) (pid amount : string)
    (options : PayoutOptions) :
  Big.of_string amount = None ->
  processProviderPayout pid amount options st = (st, Throw (Error BigInvalidNumber)).
Proof.
  intros Hbad. unfold processProviderPayout, calculateRevenueShare, bind, newBig.
  by rewrite Hbad.
Qed.

(** C9. On a revenue map whose amounts are all decimal numerals the batch
    does what the claim says: it always returns, provider after provider in
    the order of the map, "skipped" with reason zero revenue for a revenue
    of zero or less, "success" with the payout's total when
    [processProviderPayout] returns and "failed" with the message of the
    exception when it throws, going on with the next provider in each case,
    the counters counting the details of each kind and [totalDispatched]
    being the sum of the totals of the successes; one provider at zero
    revenue followed by one whose payout returns give one skipped, one
    successful payout and that payout's total.  But the revenue of a
    provider is compared with zero before the [try] block is entered: at
    the first amount that is no decimal numeral the whole batch throws the
    big.js error, no result is returned and the providers after it are not
    processed, the payouts recorded before it staying in the ledger.  The
    payout of that provider, had it been reached inside the [try] block,
    throws that same error, which the block records as a failure. *)
Theorem processMontlyBatch_aborts_on_malformed_amount (year month : Z)
    (revenueMap : list (string * string)) (st : Store) :
  (Forall (fun entry => is_Some (Big.of_string entry.2)) revenueMap ->
   exists ds st' result,
     batchRun year month revenueMap st ds st'
     /\ processMontlyBatch year month revenueMap st = (st', Ok result)
     /\ MonthlyBatchResult.details result = ds
     /\ List.map d_providerId ds = List.map fst revenueMap
     /\ MonthlyBatchResult.processed result = Z.of_nat (List.length revenueMap)
     /\ MonthlyBatchResult.successfulPayouts result = countStatus success ds
     /\ MonthlyBatchResult.failedPayouts result = countStatus failed ds
     /\ MonthlyBatchResult.skipped result = countStatus skipped ds
     /\ MonthlyBatchResult.totalDispatched result
        = Big.toFixed (Big.mk (dispatchedUnits ds) 8) 8
     /\ (forall pid0 rev0 b0 pid1 rev1 b1 st1 payout,
           revenueMap = [(pid0, rev0); (pid1, rev1)] ->
           Big.of_string rev0 = Some b0 -> Big.coef b0 <= 0 ->
           Big.of_string rev1 = Some b1 -> 0 < Big.coef b1 ->
           processProviderPayout pid1 rev1 (batchOptions year month) st = (st1, Ok payout) ->
           st' = st1
           /\ result = MonthlyBatchResult.mk 2 (ProviderRevenuePayout.totalPayout payout) 1 0 1
                         [ mkDetail pid0 skipped "0" (Some ZeroRevenue);
                           mkDetail pid1 success
                             (ProviderRevenuePayout.totalPayout payout) None ]))
  /\ (forall before pid amount after,
        revenueMap = before ++ (pid, amount) :: after ->
        Forall (fun entry => is_Some (Big.of_string entry.2)) before ->
        Big.of_string amount = None ->
        exists ds st',
          batchRun year month before st ds st'
          /\ processMontlyBatch year month revenueMap st
             = (st', Throw (Error BigInvalidNumber))
          /\ processProviderPayout pid amount (batchOptions year month) st'
             = (st', Throw (Error BigInvalidNumber))).
Proof.
  split.
  - apply processMontlyBatch_numerals.
  - intros before pid amount after -> Hwf Hbad.
    destruct (processMontlyBatch_malformed year month before after pid amount st Hwf Hbad)
      as (ds & st' & Hrun & Hthrow).
    exists ds, st'. split; [exact Hrun |]. split; [exact Hthrow |].
    by apply processProviderPayout_malformed.
Qed.

(** Three providers: the first has no revenue, the amount of the second
    reads "abc", the third has earned 1000.  The batch throws; the third
    provider, whose payout would have been recorded, is not paid. *)
Lemma processMontlyBatch_aborts_on_malformed_amount_witness :
  (exists st',
     processMontlyBatch 2026 11
       [("provider-0", "0"); ("provider-9", "abc"); ("provider-1", "1000")]%string
       (tierStore GOLD)
     = (st', Throw (Error BigInvalidNumber))
     /\ payoutRepo st' = [])
  /\ (exists st' payout,
        processProviderPayout "provider-1" "1000" (batchOptions 2026 11) (tierStore GOLD)
        = (st', Ok payout)).
Proof.
  destruct (processMontlyBatch_aborts_on_malformed_amount 2026 11
              [("provider-0", "0"); ("provider-9", "abc"); ("provider-1", "1000")]%string
              (tierStore GOLD)) as [_ H].
  destruct (H [("provider-0", "0")]%string "provider-9"%string "abc"%string
              [("provider-1", "1000")]%string eq_refl)
    as (ds & st' & Hrun & Hthrow & _).
  - repeat constructor. by eexists.
  - reflexivity.
  - split.
    + exists st'. split; [exact Hthrow |].
      assert (Hc : payoutRepo
                     (processMontlyBatch 2026 11
                        [("provider-0", "0"); ("provider-9", "abc");
                         ("provider-1", "1000")]%string (tierStore GOLD)).1 = [])
        by (vm_compute; reflexivity).
      rewrite Hthrow in Hc. exact Hc.
    + eexists _, _. vm_compute. reflexivity.
Defined.

(** ** Totals of recorded payouts *)

Lemma addsBonusRows_keeps {A : Type} (c : M A) : keepsLedger c -> addsBonusRows c.
Proof. intros Hc st. exists []. by rewrite app_nil_r, Hc. Qed.

Lemma addsBonusRows_bind {A B : Type} (c : M A) (k : A -> M B) :
  addsBonusRows c -> (forall a, addsBonusRows (k a)) -> addsBonusRows (bind c k).
Proof.
  intros Hc Hk st. unfold bind. destruct (Hc st) as (rows1 & Heq1 & Hall1).
  destruct (c st) as [st' [a | e]]; cbn [fst] in *.
  - destruct (Hk a st') as (rows2 & Heq2 & Hall2).
    exists (rows1 ++ rows2). rewrite Heq2, Heq1, app_assoc.
    split; [reflexivity | by apply Forall_app].
  - by exists rows1.
Qed.

Lemma addsBonusRows_try_catch {A : Type} (c : M A) (h : Exception -> M A) :
  addsBonusRows c -> (forall e, addsBonusRows (h e)) -> addsBonusRows (try_catch c h).
Proof.
  intros Hc Hh st. unfold try_catch. destruct (Hc st) as (rows1 & Heq1 & Hall1).
  destruct (c st) as [st' [a | e]]; cbn [fst] in *.
  - by exists rows1.
  - destruct (Hh e st') as (rows2 & Heq2 & Hall2).
    exists (rows1 ++ rows2). rewrite Heq2, Heq1, app_assoc.
    split; [reflexivity | by apply Forall_app].
Qed.

Lemma addsBonusRows_forEach {A S : Type} (l : list A) (body : A -> S -> M S) :
  (forall x s, addsBonusRows (body x s)) -> forall s, addsBonusRows (forEach l body s).
Proof.
  intros Hb. induction l as [|x l IH]; intros s; cbn [forEach].
  - apply addsBonusRows_keeps, keepsLedger_ret.
  - apply addsBonusRows_bind; [apply Hb | intros s'; apply IH].
Qed.

Lemma addsBonusRows_recordPayout (pid : string) (tier : ProviderTierLevel)
    (amount : string) (type : option BonusType) (wallet : string) (year month : option Z) :
  addsBonusRows
    (recordPayout (mkParams pid tier "0" "0" "0" amount type amount wallet year month)).
Proof.
  intros st. rewrite recordPayout_run. eexists [_]. split; [reflexivity |].
  by repeat constructor.
Qed.

Lemma addsBonusRows_runRetentionBonusRound (year month : Z) :
  addsBonusRows (runRetentionBonusRound year month).
Proof.
  unfold runRetentionBonusRound.
  apply addsBonusRows_bind.
  - apply addsBonusRows_forEach. intros tier [credited totalBonus].
    apply addsBonusRows_bind; [apply addsBonusRows_keeps, keepsLedger_gets |].
    intros assignments.
    apply addsBonusRows_bind; [apply addsBonusRows_keeps, keepsLedger_gets |].
    intros [tierDef|]; [| apply addsBonusRows_keeps, keepsLedger_ret].
    destruct (Js.eqb _ _); [apply addsBonusRows_keeps, keepsLedger_ret |].
    apply addsBonusRows_forEach. intros assignment [credited' totalBonus'].
    apply addsBonusRows_try_catch;
      [| intros e; apply addsBonusRows_keeps, keepsLedger_ret].
    apply addsBonusRows_bind; [apply addsBonusRows_keeps, keepsLedger_gets |].
    intros [user|]; [| apply addsBonusRows_keeps, keepsLedger_ret].
    apply addsBonusRows_bind; [apply addsBonusRows_recordPayout |]. intros _.
    apply addsBonusRows_bind; [apply addsBonusRows_keeps, keepsLedger_newBig |].
    intros g. apply addsBonusRows_keeps, keepsLedger_ret.
  - intros [credited totalBonus]. apply addsBonusRows_keeps, keepsLedger_ret.
Qed.

Lemma processProviderPayout_formatted (st st' : Store) (pid rev : string)
    (options : PayoutOptions) (payout : ProviderRevenuePayout.t) :
  processProviderPayout pid rev options st = (st', Ok payout) ->
  totalIsFormattedSum payout /\ last (payoutRepo st') = Some payout.
Proof.
  destruct (calculateRevenueShare pid rev (Some (default true (includeBonus options))) st)
    as [st1 [calc | e]] eqn:Hcalc.
  - rewrite (processProviderPayout_run _ _ _ _ _ _ Hcalc).
    destruct (userRepo st1 !! pid) as [user|]; [| discriminate].
    destruct (Big.of_string (RevenueShareCalculationDto.revenueShareAmount calc))
      as [r|] eqn:Hr; [| discriminate].
    destruct (Big.of_string (appliedBonus options calc).1) as [g|] eqn:Hg;
      [| discriminate].
    cbn zeta. set (row := recordedRow st1 _).
    destruct (isTopTier _).
    + destruct (escalatePayout_last st1 row) as (st2 & Hrun & Hlast & _).
      rewrite Hrun. intros [= <- <-]. split; [| exact Hlast]. by exists r, g.
    + intros [= <- <-]. split; [by exists r, g |].
      cbn [withPayout payoutRepo]. apply last_snoc.
  - unfold processProviderPayout, bind. rewrite Hcalc. discriminate.
Qed.

Lemma bonusOnly_numeric (p : ProviderRevenuePayout.t) (g : Big.t) :
  isBonusOnly p ->
  Big.of_string (ProviderRevenuePayout.bonusAmount p) = Some g ->
  Big.of_string (ProviderRevenuePayout.revenueShareAmount p) = Some (Big.of_Z 0)
  /\ Big.of_string (ProviderRevenuePayout.totalPayout p) = Some g
  /\ Big.eq g (Big.plus (Big.of_Z 0) g) = true.
Proof.
  intros [Hshare Htotal] Hg. rewrite Hshare, Htotal, Hg.
  split; [reflexivity |]. split; [reflexivity |].
  unfold Big.eq, Big.cmp, Big.plus, Big.of_Z. cbn [Big.coef Big.dp].
  rewrite Nat.sub_0_r, Nat.max_0_l. change (pow10 (0 - Big.dp g)) with 1.
  rewrite Z.mul_0_l, Z.add_0_l, Z.mul_1_r, Z.compare_refl. reflexivity.
Qed.

(** C2, as the code has it.  The payout [processProviderPayout] returns
    and leaves as the last row of the ledger has a total that is the sum
    of its share and its bonus printed with 8 decimals.  The payouts
    created by [awardPerformanceBonus], by the promotion path of an
    evaluation and by [runRetentionBonusRound] have the share "0" and, as
    total, the string of the bonus amount as it was given: when that is a
    decimal numeral the total denotes the sum of the two amounts, but it
    is not put into the format with 8 decimals. *)
Theorem recorded_totals (st : Store) :
  (forall pid rev options st' payout,
     processProviderPayout pid rev options st = (st', Ok payout) ->
     totalIsFormattedSum payout /\ last (payoutRepo st') = Some payout)
  /\ (forall pid amount type reason st' payout,
        awardPerformanceBonus pid amount type reason st = (st', Ok payout) ->
        payoutRepo st' = payoutRepo st ++ [payout]
        /\ isBonusOnly payout
        /\ ProviderRevenuePayout.bonusAmount payout = amount
        /\ ProviderRevenuePayout.totalPayout payout = amount)
  /\ (forall metrics, exists rows,
        payoutRepo (evaluateProviderWithMetrics metrics st).1 = payoutRepo st ++ rows
        /\ Forall isBonusOnly rows)
  /\ (forall year month, exists rows,
        payoutRepo (runRetentionBonusRound year month st).1 = payoutRepo st ++ rows
        /\ Forall isBonusOnly rows)
  /\ (forall p g,
        isBonusOnly p ->
        Big.of_string (ProviderRevenuePayout.bonusAmount p) = Some g ->
        Big.of_string (ProviderRevenuePayout.revenueShareAmount p) = Some (Big.of_Z 0)
        /\ Big.of_string (ProviderRevenuePayout.totalPayout p) = Some g
        /\ Big.eq g (Big.plus (Big.of_Z 0) g) = true).
Proof.
  split; [| split; [| split; [| split]]].
  - intros pid rev options st' payout. apply processProviderPayout_formatted.
  - intros pid amount type reason st' payout. rewrite awardPerformanceBonus_run.
    destruct (userRepo st !! pid) as [user|]; [| discriminate].
    cbn zeta. intros [= <- <-]. by repeat split.
  - intros metrics. rewrite evaluateProviderWithMetrics_run. cbn [fst payoutRepo].
    eexists. split; [reflexivity |].
    destruct (if isPromotion st metrics && _ then _ else None); by repeat constructor.
  - intros year month. apply addsBonusRows_runRetentionBonusRound.
  - intros p g. apply bonusOnly_numeric.
Qed.

Lemma recorded_totals_witness :
  exists st' payout,
    awardPerformanceBonus "provider-1" "75" STREAK None (tierStore GOLD) = (st', Ok payout)
    /\ payoutRepo st' = payoutRepo (tierStore GOLD) ++ [payout]
    /\ isBonusOnly payout
    /\ ProviderRevenuePayout.totalPayout payout = "75"%string.
Proof.
  eexists. eexists. split; [vm_compute; reflexivity |].
  destruct (recorded_totals (tierStore GOLD)) as (_ & Haward & _).
  destruct (Haward "provider-1" "75" STREAK None _ _ eq_refl)%string
    as (Hrows & Hbonus & _ & Htotal).
  split; [exact Hrows |]. split; [exact Hbonus | exact Htotal].
Defined.

(** C2 as stated fails: the payout [awardPerformanceBonus] records for a
    bonus of "75" has the total "75", which is not the sum printed with
    8 decimals, "75.00000000". *)
Lemma bonus_total_not_formatted :
  exists st' payout,
    awardPerformanceBonus "provider-1" "75" STREAK None (tierStore GOLD) = (st', Ok payout)
    /\ last (payoutRepo st') = Some payout
    /\ ProviderRevenuePayout.revenueShareAmount payout = "0"%string
    /\ ProviderRevenuePayout.bonusAmount payout = "75"%string
    /\ ProviderRevenuePayout.totalPayout payout = "75"%string
    /\ Big.toFixed (Big.plus (Big.mk 0 0) (Big.mk 75 0)) 8 = "75.00000000"%string
    /\ ~ totalIsFormattedSum payout.
Proof.
  eexists. eexists. split; [vm_compute; reflexivity |].
  split; [reflexivity |]. do 4 (split; [reflexivity |]).
  intros (r & g & Hr & Hg & Htotal).
  vm_compute in Hr. vm_compute in Hg. injection Hr as <-. injection Hg as <-.
  vm_compute in Htotal. discriminate.
Qed.

(** * Further properties *)

(** ** Tier rows *)

Lemma findTier_app (l : ProviderTierLevel) (rows extra : list RevenueShareTier.t) :
  findTier l (rows ++ extra)
  = match findTier l rows with
    | Some t => Some t
    | None => findTier l extra
    end.
Proof.
  unfold findTier. induction rows as [|r rows IH]; [reflexivity |].
  cbn [app List.find]. destruct (bool_decide _); [reflexivity | exact IH].
Qed.

Lemma findTier_level (l : ProviderTierLevel) (rows : list RevenueShareTier.t) t :
  findTier l rows = Some t -> RevenueShareTier.tierLevel t = l /\ t ∈ rows.
Proof.
  unfold findTier. intros H. apply List.find_some in H as [Hin Hl].
  split; [by apply bool_decide_eq_true in Hl | by apply list_elem_of_In].
Qed.

Lemma findTier_none (l : ProviderTierLevel) (rows : list RevenueShareTier.t) :
  findTier l rows = None <-> l ∉ tierLevels rows.
Proof.
  unfold findTier, tierLevels. induction rows as [|r rows IH]; cbn [List.find List.map].
  - split; [intros _; apply not_elem_of_nil | done].
  - rewrite not_elem_of_cons. destruct (bool_decide_reflect (RevenueShareTier.tierLevel r = l)).
    + split; [discriminate | intros [? _]; congruence].
    + rewrite IH. split; [intros ?; split; congruence | tauto].
Qed.

Lemma seed_loop (ds : list RevenueShareTier.t) : forall st : Store,
  NoDup (tierLevels ds) ->
  forEach ds
    (fun tier _ =>
       let* exists_ := gets (fun st => findTier (RevenueShareTier.tierLevel tier) (tierRepo st)) in
       match exists_ with
       | None => insertTier tier
       | Some _ => ret tt
       end) tt st
  = (withTierRows st
       (tierRepo st
          ++ List.filter (fun t => if findTier (RevenueShareTier.tierLevel t) (tierRepo st)
                                     is Some _ then false else true) ds),
     Ok tt).
Proof.
  induction ds as [|d ds IH]; intros st Hnd.
  - cbn [forEach List.filter ret]. rewrite app_nil_r. by destruct st.
  - cbn [tierLevels List.map] in Hnd. apply NoDup_cons in Hnd as [Hd Hnd].
    cbn [forEach List.filter]. unfold bind at 1. unfold bind at 1. unfold gets at 1.
    destruct (findTier (RevenueShareTier.tierLevel d) (tierRepo st)) as [t|] eqn:Hfind.
    + cbn [ret]. by rewrite IH.
    + unfold insertTier, modify. rewrite IH by exact Hnd. cbn [tierRepo].
      unfold withTierRows. cbn [tierRepo assignmentRepo payoutRepo statsRepo userRepo
                                 tierCache clock].
      f_equal. f_equal. rewrite <- app_assoc. cbn [app]. f_equal. f_equal.
      apply List.filter_ext_in. intros t Ht.
      rewrite findTier_app.
      destruct (findTier (RevenueShareTier.tierLevel t) (tierRepo st)); [reflexivity |].
      unfold findTier. cbn [List.find].
      destruct (bool_decide_reflect (RevenueShareTier.tierLevel d = RevenueShareTier.tierLevel t))
        as [Heq | Hne]; [| reflexivity].
      exfalso. apply Hd. rewrite Heq. apply list_elem_of_In in Ht.
      unfold tierLevels. by apply list_elem_of_fmap_2.
Qed.

Lemma DEFAULT_TIERS_levels : tierLevels DEFAULT_TIERS = TIER_ORDER.
Proof. reflexivity. Qed.

Lemma TIER_ORDER_NoDup : NoDup TIER_ORDER.
Proof. by apply (bool_decide_unpack _). Qed.

Lemma TIER_ORDER_all (l : ProviderTierLevel) : l ∈ TIER_ORDER.
Proof. destruct l; unfold TIER_ORDER; set_solver. Qed.

Lemma seedDefaultTiers_run (st : Store) :
  seedDefaultTiers st
  = (withTierRows st (tierRepo st ++ missingDefaults (tierRepo st)), Ok tt).
Proof.
  unfold seedDefaultTiers. rewrite seed_loop; [reflexivity |].
  rewrite DEFAULT_TIERS_levels. apply TIER_ORDER_NoDup.
Qed.

Lemma seeded_all_levels (rows : list RevenueShareTier.t) (l : ProviderTierLevel) :
  is_Some (findTier l (rows ++ missingDefaults rows)).
Proof.
  rewrite findTier_app. destruct (findTier l rows) as [t|] eqn:Hrows; [by eexists |].
  destruct (findTier l (missingDefaults rows)) as [t|] eqn:Hmiss; [by eexists |].
  exfalso. apply findTier_none in Hmiss. apply Hmiss.
  pose proof (TIER_ORDER_all l) as Hl. rewrite <- DEFAULT_TIERS_levels in Hl.
  unfold tierLevels in Hl |- *. apply list_elem_of_fmap in Hl as (d & -> & Hd).
  apply list_elem_of_fmap_2. unfold missingDefaults.
  apply list_elem_of_In, List.filter_In. split; [by apply list_elem_of_In |].
  by rewrite Hrows.
Qed.

Lemma missingDefaults_seeded (rows : list RevenueShareTier.t) :
  missingDefaults (rows ++ missingDefaults rows) = [].
Proof.
  unfold missingDefaults at 1.
  rewrite (List.filter_ext_in _ (fun _ => false)); [apply List.filter_false |].
  intros d _.
  by destruct (seeded_all_levels rows (RevenueShareTier.tierLevel d)) as [t ->].
Qed.

(** X1. [seedDefaultTiers] never throws and only adds tier rows: the rows
    that were there stay first and as they were, the default tiers whose
    level had no row are appended, after which every level has a row, and
    seeding a second time changes nothing. *)
Theorem seedDefaultTiers_idempotent (st : Store) :
  exists st1,
    seedDefaultTiers st = (st1, Ok tt)
    /\ tierRepo st1 = tierRepo st ++ missingDefaults (tierRepo st)
    /\ (forall l t, findTier l (tierRepo st) = Some t -> findTier l (tierRepo st1) = Some t)
    /\ (forall l, is_Some (findTier l (tierRepo st1)))
    /\ (assignmentRepo st1, payoutRepo st1, statsRepo st1, userRepo st1, tierCache st1, clock st1)
       = (assignmentRepo st, payoutRepo st, statsRepo st, userRepo st, tierCache st, clock st)
    /\ seedDefaultTiers st1 = (st1, Ok tt).
Proof.
  eexists. split; [apply seedDefaultTiers_run |]. cbn [withTierRows tierRepo].
  split; [reflexivity |]. split.
  { intros l t H. by rewrite findTier_app, H. }
  split; [apply seeded_all_levels |]. split; [reflexivity |].
  rewrite seedDefaultTiers_run. cbn [withTierRows tierRepo assignmentRepo payoutRepo
    statsRepo userRepo tierCache clock].
  by rewrite missingDefaults_seeded, app_nil_r.
Qed.

Lemma replaceTier_levels (l : ProviderTierLevel) (t : RevenueShareTier.t)
    (rows : list RevenueShareTier.t) :
  RevenueShareTier.tierLevel t = l ->
  tierLevels (replaceTier l t rows) = tierLevels rows.
Proof.
  intros Ht. unfold tierLevels. induction rows as [|r rows IH]; [reflexivity |].
  cbn [replaceTier]. destruct (bool_decide_reflect (RevenueShareTier.tierLevel r = l)).
  - cbn [List.map]. congruence.
  - cbn [List.map]. by rewrite IH.
Qed.

Lemma findTier_replaceTier (l l' : ProviderTierLevel) (t : RevenueShareTier.t)
    (rows : list RevenueShareTier.t) :
  RevenueShareTier.tierLevel t = l ->
  findTier l' (replaceTier l t rows)
  = if bool_decide (l' = l)
    then (if findTier l rows is Some _ then Some t else None)
    else findTier l' rows.
Proof.
  intros Ht. unfold findTier. induction rows as [|r rows IH].
  - cbn. by destruct (bool_decide _).
  - cbn [replaceTier List.find].
    destruct (bool_decide_reflect (RevenueShareTier.tierLevel r = l)) as [Hr | Hr].
    + cbn [List.find]. rewrite Ht.
      destruct (bool_decide_reflect (l' = l)) as [-> | Hl'].
      * by rewrite bool_decide_eq_true_2.
      * rewrite bool_decide_eq_false_2 by congruence.
        rewrite bool_decide_eq_false_2 by congruence. reflexivity.
    + cbn [List.find]. rewrite IH.
      destruct (bool_decide_reflect (l' = l)) as [-> | Hl'].
      * by rewrite bool_decide_eq_false_2.
      * reflexivity.
Qed.

Lemma updateTierConfig_run (st : Store) (l : ProviderTierLevel) (upd : TierConfigUpdates) :
  updateTierConfig l upd st
  = match findTier l (tierRepo st) with
    | None => (st, Throw (Error (TierNotFound l)))
    | Some t =>
        let rows := replaceTier l (assignUpdates t upd) (tierRepo st) in
        (mkStore rows (assignmentRepo st) (payoutRepo st) (statsRepo st) (userRepo st)
                 (activeTiers rows) (clock st),
         Ok (assignUpdates t upd))
    end.
Proof.
  unfold updateTierConfig, bind, gets.
  destruct (findTier l (tierRepo st)) as [t|] eqn:Hfind; [| reflexivity].
  destruct (findTier_level _ _ _ Hfind) as [<- _]. reflexivity.
Qed.

(** X2. [updateTierConfig] on a level without a row throws
    [Error("Tier ... not found")] and changes nothing.  On a level with a
    row it returns that row with the given fields replaced; afterwards
    [getTierConfig] of the level returns exactly the row returned, the rows
    of the other levels are as before, the level, name, description,
    reputation threshold and sort order of the row are untouched, and the
    cache holds the active rows of the new table by ascending sort
    order. *)
Theorem updateTierConfig_round_trip (st : Store) (l : ProviderTierLevel)
    (upd : TierConfigUpdates) :
  match findTier l (tierRepo st) with
  | None => updateTierConfig l upd st = (st, Throw (Error (TierNotFound l)))
  | Some t =>
      exists st',
        updateTierConfig l upd st = (st', Ok (assignUpdates t upd))
        /\ getTierConfig l st' = (st', Ok (Some (assignUpdates t upd)))
        /\ (forall l', l' <> l -> getTierConfig l' st' = (st', (getTierConfig l' st).2))
        /\ tierLevels (tierRepo st') = tierLevels (tierRepo st)
        /\ tierCache st' = activeTiers (tierRepo st')
        /\ (RevenueShareTier.tierLevel (assignUpdates t upd),
            RevenueShareTier.name (assignUpdates t upd),
            RevenueShareTier.description (assignUpdates t upd),
            RevenueShareTier.minReputationScore (assignUpdates t upd),
            RevenueShareTier.sortOrder (assignUpdates t upd))
           = (l, RevenueShareTier.name t, RevenueShareTier.description t,
              RevenueShareTier.minReputationScore t, RevenueShareTier.sortOrder t)
        /\ (assignmentRepo st', payoutRepo st', statsRepo st', userRepo st', clock st')
           = (assignmentRepo st, payoutRepo st, statsRepo st, userRepo st, clock st)
  end.
Proof.
  rewrite updateTierConfig_run.
  destruct (findTier l (tierRepo st)) as [t|] eqn:Hfind; [| reflexivity].
  destruct (findTier_level _ _ _ Hfind) as [Hl _].
  eexists. split; [reflexivity |]. cbn zeta.
  unfold getTierConfig, gets. cbn [tierRepo tierCache assignmentRepo payoutRepo statsRepo
                                   userRepo clock snd].
  assert (Hl' : RevenueShareTier.tierLevel (assignUpdates t upd) = l) by exact Hl.
  split.
  { rewrite (findTier_replaceTier _ _ _ _ Hl'), bool_decide_eq_true_2 by done.
    by rewrite Hfind. }
  split.
  { intros l' Hne. rewrite (findTier_replaceTier _ _ _ _ Hl').
    by rewrite bool_decide_eq_false_2. }
  split; [by apply replaceTier_levels |].
  split; [reflexivity |]. split; [| reflexivity].
  cbn [assignUpdates RevenueShareTier.tierLevel RevenueShareTier.name
       RevenueShareTier.description RevenueShareTier.minReputationScore
       RevenueShareTier.sortOrder]. by rewrite Hl.
Qed.

Lemma replaceTier_unique (l : ProviderTierLevel) (t u : RevenueShareTier.t)
    (rows : list RevenueShareTier.t) :
  NoDup (tierLevels rows) ->
  u ∈ replaceTier l t rows -> RevenueShareTier.tierLevel u = l -> u = t.
Proof.
  unfold tierLevels. induction rows as [|r rows IH]; cbn [replaceTier List.map].
  - intros _ Hu. by apply elem_of_nil in Hu.
  - intros Hnd Hu Hl. apply NoDup_cons in Hnd as [Hr Hnd].
    destruct (bool_decide_reflect (RevenueShareTier.tierLevel r = l)) as [Hrl | Hrl].
    + apply elem_of_cons in Hu as [-> | Hu]; [reflexivity |].
      exfalso. apply Hr. rewrite Hrl, <- Hl. by apply list_elem_of_fmap_2.
    + apply elem_of_cons in Hu as [-> | Hu]; [congruence |]. by apply IH.
Qed.

Lemma activeTiers_elem (rows : list RevenueShareTier.t) (t : RevenueShareTier.t) :
  t ∈ activeTiers rows <-> t ∈ rows /\ RevenueShareTier.isActive t = true.
Proof.
  unfold activeTiers. rewrite js_sort_perm.
  rewrite !list_elem_of_In, List.filter_In. reflexivity.
Qed.

Lemma resolveTierForMetrics_cached (st : Store) (metrics : ProviderMetrics) :
  resolveTierForMetrics st metrics = BRONZE
  \/ exists t, t ∈ tierCache st /\ qualifies metrics t = true
               /\ RevenueShareTier.tierLevel t = resolveTierForMetrics st metrics.
Proof.
  unfold resolveTierForMetrics.
  destruct (List.find _ _) as [t|] eqn:Hfind; [| by left].
  right. exists t. apply List.find_some in Hfind as [Hin Hq].
  apply list_elem_of_In in Hin. unfold getCachedTiers in Hin. rewrite js_sort_perm in Hin.
  done.
Qed.

(** X3. In a tier table with one row per level, once a tier has been
    switched off through [updateTierConfig] no cached tier has its level
    and [resolveTierForMetrics] returns it for no metrics whatever, with
    one exception: BRONZE, which stays the answer when nothing qualifies. *)
Theorem deactivated_tier_not_resolved (st : Store) (l : ProviderTierLevel) :
  NoDup (tierLevels (tierRepo st)) ->
  is_Some (findTier l (tierRepo st)) ->
  exists st' t,
    updateTierConfig l deactivate st = (st', Ok t)
    /\ RevenueShareTier.isActive t = false
    /\ (forall u, u ∈ tierCache st' -> RevenueShareTier.tierLevel u <> l)
    /\ (forall metrics, resolveTierForMetrics st' metrics = l -> l = BRONZE).
Proof.
  intros Hnd [t Hfind]. rewrite updateTierConfig_run, Hfind. cbn zeta.
  destruct (findTier_level _ _ _ Hfind) as [Hl _].
  eexists _, _. split; [reflexivity |]. split; [reflexivity |].
  cbn [tierCache].
  assert (Hcache : forall u,
             u ∈ activeTiers (replaceTier l (assignUpdates t deactivate) (tierRepo st)) ->
             RevenueShareTier.tierLevel u <> l).
  { intros u Hu Hul. apply activeTiers_elem in Hu as [Hu Hactive].
    rewrite (replaceTier_unique _ _ _ _ Hnd Hu Hul) in Hactive. discriminate. }
  split; [exact Hcache |].
  intros metrics Hres.
  destruct (resolveTierForMetrics_cached
              (mkStore (replaceTier l (assignUpdates t deactivate) (tierRepo st))
                 (assignmentRepo st) (payoutRepo st) (statsRepo st) (userRepo st)
                 (activeTiers (replaceTier l (assignUpdates t deactivate) (tierRepo st)))
                 (clock st)) metrics) as [Hb | (u & Hu & _ & Hul)].
  - congruence.
  - cbn [tierCache] in Hu. exfalso. apply (Hcache u Hu). congruence.
Qed.

Lemma deactivated_tier_not_resolved_witness :
  exists st' t,
    updateTierConfig GOLD deactivate seededStore = (st', Ok t)
    /\ RevenueShareTier.isActive t = false
    /\ (forall u, u ∈ tierCache st' -> RevenueShareTier.tierLevel u <> GOLD)
    /\ (forall metrics, resolveTierForMetrics st' metrics = GOLD -> GOLD = BRONZE).
Proof.
  apply (deactivated_tier_not_resolved seededStore GOLD).
  - by apply (bool_decide_unpack _).
  - by eexists.
Defined.

(** ** Tier summaries *)

Lemma forEach_pure {A S : Type} (f : Store -> A -> S -> S) (l : list A) (s : S)
    (st : Store) :
  forEach l (fun x s => let* y := gets (fun st => f st x s) in ret y) s st
  = (st, Ok (foldl (fun s x => f st x s) s l)).
Proof.
  revert s. induction l as [|x l IH]; intros s; [reflexivity |].
  cbn [forEach foldl]. unfold bind at 1. unfold bind at 1, gets at 1. cbn [ret].
  apply IH.
Qed.

Lemma foldl_snoc_acc {A B : Type} (g : A -> B) (l : list A) (acc : list B) :
  foldl (fun s x => s ++ [g x]) acc l = acc ++ List.map g l.
Proof.
  revert acc. induction l as [|x l IH]; intros acc; cbn [foldl List.map].
  - by rewrite app_nil_r.
  - rewrite IH, <- app_assoc. reflexivity.
Qed.

Lemma foldl_snoc_map {A B : Type} (g : A -> B) (l : list A) :
  foldl (fun s x => s ++ [g x]) [] l = List.map g l.
Proof. by rewrite foldl_snoc_acc. Qed.

Lemma getTierSummaries_run (st : Store) :
  getTierSummaries st = (st, Ok (List.map (summaryOf st) (activeTiers (tierRepo st)))).
Proof.
  unfold getTierSummaries. unfold bind at 1, gets at 1.
  fold (activeTiers (tierRepo st)).
  change (forEach (activeTiers (tierRepo st))
            (fun tier summaries =>
               let* y := gets (fun st => summaries ++ [summaryOf st tier]) in ret y) [] st
          = (st, Ok (List.map (summaryOf st) (activeTiers (tierRepo st))))).
  rewrite (forEach_pure (fun st tier summaries => summaries ++ [summaryOf st tier])).
  f_equal. f_equal. apply foldl_snoc_map.
Qed.

Lemma count_by_level (levels : list ProviderTierLevel)
    (rows : list ProviderTierAssignment.t) :
  NoDup levels ->
  foldr (fun l n =>
           Z.of_nat (List.length
                       (List.filter (fun a => bool_decide
                                        (ProviderTierAssignment.currentTier a = l)) rows)) + n)
        0 levels
  = Z.of_nat (List.length
                (List.filter (fun a => bool_decide
                                 (ProviderTierAssignment.currentTier a ∈ levels)) rows)).
Proof.
  induction levels as [|l ls IH]; intros Hnd.
  - cbn [foldr]. rewrite (List.filter_ext _ (fun _ => false)), List.filter_false; [done |].
    intros a. apply bool_decide_eq_false_2, not_elem_of_nil.
  - apply NoDup_cons in Hnd as [Hl Hnd]. cbn [foldr]. rewrite (IH Hnd). clear IH.
    induction rows as [|a rows IHr]; [reflexivity |].
    cbn [List.filter].
    destruct (bool_decide_reflect (ProviderTierAssignment.currentTier a = l)) as [Heq | Hne].
    + rewrite (bool_decide_eq_true_2 (_ ∈ l :: ls)) by (rewrite Heq; left).
      rewrite (bool_decide_eq_false_2 (_ ∈ ls)) by (by rewrite Heq).
      cbn [List.length]. rewrite !Nat2Z.inj_succ. lia.
    + destruct (bool_decide_reflect (ProviderTierAssignment.currentTier a ∈ ls)) as [Hin | Hout].
      * rewrite (bool_decide_eq_true_2 (_ ∈ l :: ls)) by (by right).
        cbn [List.length]. rewrite !Nat2Z.inj_succ. lia.
      * rewrite (bool_decide_eq_false_2 (_ ∈ l :: ls))
          by (rewrite not_elem_of_cons; tauto).
        exact IHr.
Qed.

Lemma totalProviderCount_map (st : Store) (tiers : list RevenueShareTier.t) :
  totalProviderCount (List.map (summaryOf st) tiers)
  = foldr (fun l n => Z.of_nat (List.length (assignmentsInTier l st)) + n) 0
          (tierLevels tiers).
Proof.
  induction tiers as [|t ts IH]; [reflexivity |].
  cbn [List.map tierLevels totalProviderCount foldr]. unfold totalProviderCount in IH.
  rewrite IH. reflexivity.
Qed.

Lemma NoDup_sublist_levels (rows : list RevenueShareTier.t) :
  NoDup (tierLevels rows) -> NoDup (tierLevels (activeTiers rows)).
Proof.
  intros Hnd. unfold tierLevels, activeTiers.
  rewrite js_sort_perm. induction rows as [|r rows IH]; [constructor |].
  cbn [List.map] in Hnd. apply NoDup_cons in Hnd as [Hr Hnd].
  cbn [List.filter]. destruct (RevenueShareTier.isActive r); [| by apply IH].
  cbn [List.map]. apply NoDup_cons. split; [| by apply IH].
  intros Hin. apply Hr. apply list_elem_of_fmap in Hin as (u & -> & Hu).
  apply list_elem_of_fmap_2. apply list_elem_of_In, List.filter_In in Hu as [Hu _].
  by apply list_elem_of_In.
Qed.

(** X4. [getTierSummaries] never throws and changes nothing; it returns
    one summary per active tier row, by ascending sort order, each with
    the fields of its row and the number of providers assigned to its
    level.  In a table with one row per level the counts add up to the
    number of providers whose tier is active, so to the number of all
    assigned providers when each of them is on an active tier. *)
Theorem getTierSummaries_counts (st : Store) :
  exists summaries,
    getTierSummaries st = (st, Ok summaries)
    /\ summaries = List.map (summaryOf st) (activeTiers (tierRepo st))
    /\ List.map ts_tierLevel summaries = tierLevels (activeTiers (tierRepo st))
    /\ (NoDup (tierLevels (tierRepo st)) ->
        totalProviderCount summaries
        = Z.of_nat (List.length
                      (assignmentsAt (tierLevels (activeTiers (tierRepo st))) st)))
    /\ (NoDup (tierLevels (tierRepo st)) ->
        (forall a, a ∈ (map_to_list (assignmentRepo st)).*2 ->
                   ProviderTierAssignment.currentTier a
                   ∈ tierLevels (activeTiers (tierRepo st))) ->
        totalProviderCount summaries = Z.of_nat (size (assignmentRepo st))).
Proof.
  eexists. split; [apply getTierSummaries_run |]. split; [reflexivity |].
  split.
  { unfold tierLevels. rewrite List.map_map. reflexivity. }
  assert (Hsum : NoDup (tierLevels (tierRepo st)) ->
            totalProviderCount (List.map (summaryOf st) (activeTiers (tierRepo st)))
            = Z.of_nat (List.length
                          (assignmentsAt (tierLevels (activeTiers (tierRepo st))) st))).
  { intros Hnd. rewrite totalProviderCount_map. unfold assignmentsInTier, assignmentsAt.
    apply count_by_level. by apply NoDup_sublist_levels. }
  split; [exact Hsum |].
  intros Hnd Hall. rewrite (Hsum Hnd). f_equal. unfold assignmentsAt.
  rewrite (List.filter_ext_in _ (fun _ => true)).
  - rewrite List.filter_true, length_fmap. unfold size, map_size.
    by rewrite length_map_to_list.
  - intros a Ha. apply bool_decide_eq_true_2, Hall. by apply list_elem_of_In.
Qed.

Lemma getTierSummaries_counts_witness :
  exists summaries,
    getTierSummaries topTierStore = (topTierStore, Ok summaries)
    /\ totalProviderCount summaries = 2.
Proof.
  destruct (getTierSummaries_counts topTierStore) as (s & Hrun & _ & _ & _ & Hall).
  exists s. split; [exact Hrun |]. rewrite Hall.
  - vm_compute. reflexivity.
  - apply (bool_decide_unpack _). vm_compute. reflexivity.
  - apply Forall_forall. apply (bool_decide_unpack _). vm_compute. reflexivity.
Defined.

(** ** Evaluation and the tier assignments *)

Lemma assignmentsInTier_elem (st : Store) (l : ProviderTierLevel)
    (a : ProviderTierAssignment.t) :
  a ∈ assignmentsInTier l st
  <-> (exists pid, assignmentRepo st !! pid = Some a)
      /\ ProviderTierAssignment.currentTier a = l.
Proof.
  unfold assignmentsInTier. rewrite list_elem_of_In, List.filter_In, <- list_elem_of_In.
  rewrite bool_decide_eq_true. split.
  - intros [Hin Hl]. split; [| exact Hl].
    apply list_elem_of_fmap in Hin as ([k a'] & -> & Hin).
    exists k. by apply elem_of_map_to_list in Hin.
  - intros [[k Hk] Hl]. split; [| exact Hl].
    apply list_elem_of_fmap. exists (k, a). split; [reflexivity |].
    by apply elem_of_map_to_list.
Qed.

(** X5. [evaluateProviderWithMetrics] never throws.  Afterwards
    [getProviderTier] returns an assignment whose tier is the one resolved
    from the metrics, whose previous tier is the tier the provider had (none
    at a first evaluation) and whose evaluation time is the clock's;
    [getProvidersInTier] lists that assignment under the new tier and under
    no other; the result is flagged promoted exactly when there was a
    previous tier of lower rank and demoted exactly when there was one of
    higher rank, never both; the assignments of other providers, the tier
    rows, the cache, the statistics and the users are untouched. *)
Theorem evaluateProviderWithMetrics_assigns (st : Store) (metrics : ProviderMetrics) :
  exists st' r a,
    evaluateProviderWithMetrics metrics st = (st', Ok r)
    /\ getProviderTier (providerId metrics) st' = (st', Ok (Some a))
    /\ newTier r = resolveTierForMetrics st metrics
    /\ ev_previousTier r
       = ProviderTierAssignment.currentTier <$> assignmentRepo st !! providerId metrics
    /\ ProviderTierAssignment.currentTier a = newTier r
    /\ ProviderTierAssignment.previousTier a = ev_previousTier r
    /\ ProviderTierAssignment.lastEvaluatedAt a = Some (clock st)
    /\ (forall l, a ∈ assignmentsInTier l st' <-> l = newTier r)
    /\ (promoted r = true
        <-> exists prev, ev_previousTier r = Some prev
                         /\ tierIndex prev < tierIndex (newTier r))
    /\ (demoted r = true
        <-> exists prev, ev_previousTier r = Some prev
                         /\ tierIndex (newTier r) < tierIndex prev)
    /\ promoted r && demoted r = false
    /\ (forall pid, pid <> providerId metrics ->
          assignmentRepo st' !! pid = assignmentRepo st !! pid)
    /\ (tierRepo st', statsRepo st', userRepo st', tierCache st', clock st')
       = (tierRepo st, statsRepo st, userRepo st, tierCache st, clock st).
Proof.
  rewrite evaluateProviderWithMetrics_run. cbn zeta.
  eexists _, _, _. split; [reflexivity |].
  unfold getProviderTier, gets. cbn [assignmentRepo].
  rewrite lookup_insert_eq. split; [reflexivity |].
  cbn [newTier ev_previousTier promoted demoted evaluatedAssignment
       ProviderTierAssignment.currentTier ProviderTierAssignment.previousTier
       ProviderTierAssignment.lastEvaluatedAt tierRepo statsRepo userRepo tierCache clock].
  do 5 (split; [reflexivity |]).
  split.
  { intros l. rewrite assignmentsInTier_elem. cbn [assignmentRepo]. split.
    - intros [_ Hl]. symmetry. exact Hl.
    - intros ->. split; [| reflexivity].
      exists (providerId metrics). by rewrite lookup_insert_eq. }
  unfold isPromotion.
  destruct (assignmentRepo st !! providerId metrics) as [old|]; cbn [fmap option_fmap option_map].
  - split.
    { rewrite Z.ltb_lt. split; [intros H; by eexists | intros (prev & [= <-] & H); exact H]. }
    split.
    { rewrite Z.ltb_lt. split; [intros H; by eexists | intros (prev & [= <-] & H); exact H]. }
    split.
    { destruct (Z.ltb_spec (tierIndex (ProviderTierAssignment.currentTier old))
                  (tierIndex (resolveTierForMetrics st metrics))); [| reflexivity].
      cbn [andb]. apply Z.ltb_ge. lia. }
    split; [| reflexivity].
    intros pid Hne. by rewrite lookup_insert_ne.
  - split; [split; [discriminate | intros (prev & [=] & _)] |].
    split; [split; [discriminate | intros (prev & [=] & _)] |].
    split; [reflexivity |]. split; [| reflexivity].
    intros pid Hne. by rewrite lookup_insert_ne.
Qed.

Lemma resolveTierForMetrics_cache (st st' : Store) (metrics : ProviderMetrics) :
  tierCache st' = tierCache st ->
  resolveTierForMetrics st' metrics = resolveTierForMetrics st metrics.
Proof. intros H. unfold resolveTierForMetrics, getCachedTiers. by rewrite H. Qed.

(** X6. Evaluating a provider a second time with the same metrics is
    never a promotion nor a demotion and pays nothing: the second result
    has the resolved tier as previous and as new tier, its flags are all
    false, its bonus amount is "0" and the ledger is as the first
    evaluation left it; the stored assignment then names the current tier
    as previous tier as well. *)
Theorem evaluateProviderWithMetrics_again (st : Store) (metrics : ProviderMetrics) :
  exists st1 r1 st2 r2 a,
    evaluateProviderWithMetrics metrics st = (st1, Ok r1)
    /\ evaluateProviderWithMetrics metrics st1 = (st2, Ok r2)
    /\ newTier r2 = newTier r1
    /\ ev_previousTier r2 = Some (newTier r1)
    /\ (promoted r2, demoted r2, bonusTriggered r2, ev_bonusAmount r2)
       = (false, false, false, "0"%string)
    /\ payoutRepo st2 = payoutRepo st1
    /\ assignmentRepo st2 !! providerId metrics = Some a
    /\ ProviderTierAssignment.currentTier a = newTier r1
    /\ ProviderTierAssignment.previousTier a = Some (newTier r1).
Proof.
  pose proof (evaluateProviderWithMetrics_run st metrics) as H1. cbn zeta in H1.
  set (issued := if isPromotion st metrics && negb (String.eqb (walletAddress metrics) "")
                 then promotionBonus st metrics else None) in H1.
  set (st1 := mkStore _ _ _ _ _ _ _) in H1. set (r1 := mkEvaluation _ _ _ _ _ _ _) in H1.
  exists st1, r1.
  assert (Hres : resolveTierForMetrics st1 metrics = resolveTierForMetrics st metrics)
    by (by apply resolveTierForMetrics_cache).
  assert (Hfound : assignmentRepo st1 !! providerId metrics
                   = Some (evaluatedAssignment st metrics
                             (if issued is Some _ then true else false)))
    by (subst st1; cbn [assignmentRepo]; apply lookup_insert_eq).
  assert (Hnot : isPromotion st1 metrics = false).
  { unfold isPromotion. rewrite Hfound, Hres.
    cbn [evaluatedAssignment ProviderTierAssignment.currentTier]. apply Z.ltb_irrefl. }
  pose proof (evaluateProviderWithMetrics_run st1 metrics) as H2. cbn zeta in H2.
  rewrite Hnot, Hfound, Hres in H2. cbn [andb] in H2.
  eexists _, _, _. split; [exact H1 |]. split; [exact H2 |].
  cbn [newTier ev_previousTier promoted demoted bonusTriggered ev_bonusAmount
       evaluatedAssignment ProviderTierAssignment.currentTier fmap option_fmap option_map
       default payoutRepo assignmentRepo].
  rewrite Z.ltb_irrefl, app_nil_r, lookup_insert_eq.
  do 5 (split; [reflexivity |]).
  unfold evaluatedAssignment.
  cbn [ProviderTierAssignment.currentTier ProviderTierAssignment.previousTier].
  rewrite Hfound, Hres. split; reflexivity.
Qed.

Lemma metricsOf_frame (st st' : Store) (pid : string) :
  statsRepo st' = statsRepo st -> metricsOf st' pid = metricsOf st pid.
Proof. intros H. unfold metricsOf. by rewrite H. Qed.

Lemma evaluateAll_loop (l : list ProviderStats.t) :
  forall (st0 : Store) (acc : list TierEvaluationResult),
  exists st' rs,
    forEach l
      (fun stats results =>
         try_catch
           (let* r := evaluateProvider (ProviderStats.providerId stats) in
            ret (results ++ [r]))
           (fun _ => ret results)) acc st0
    = (st', Ok (acc ++ rs))
    /\ List.map ev_providerId rs = List.map ProviderStats.providerId l
    /\ (tierRepo st', payoutRepo st', statsRepo st', userRepo st', tierCache st', clock st')
       = (tierRepo st0, payoutRepo st0, statsRepo st0, userRepo st0, tierCache st0, clock st0)
    /\ (forall pid, pid ∈ List.map ProviderStats.providerId l ->
          exists a, assignmentRepo st' !! pid = Some a
                    /\ ProviderTierAssignment.currentTier a
                       = resolveTierForMetrics st0 (metricsOf st0 pid))
    /\ (forall pid, pid ∉ List.map ProviderStats.providerId l ->
          assignmentRepo st' !! pid = assignmentRepo st0 !! pid).
Proof.
  induction l as [|s l IH]; intros st0 acc.
  - exists st0, []. cbn [forEach ret List.map]. rewrite app_nil_r.
    split; [reflexivity |]. split; [reflexivity |]. split; [reflexivity |].
    split; [intros pid H; by apply elem_of_nil in H | done].
  - cbn [forEach]. unfold bind at 1, try_catch at 1. unfold bind at 1.
    rewrite evaluateProvider_run. cbn [ret].
    set (st1 := mkStore _ _ _ _ _ _ _). set (r := mkEvaluation _ _ _ _ _ _ _).
    destruct (IH st1 (acc ++ [r])) as (st' & rs & Hrun & Hids & Hframe & Hin & Hout).
    exists st', (r :: rs). rewrite Hrun, <- app_assoc. cbn [app].
    split; [reflexivity |]. split; [cbn [List.map]; by rewrite Hids |].
    split; [exact Hframe |].
    assert (Hres : forall pid, resolveTierForMetrics st1 (metricsOf st1 pid)
                               = resolveTierForMetrics st0 (metricsOf st0 pid)).
    { intros pid. rewrite (metricsOf_frame st0 st1) by reflexivity.
      by apply resolveTierForMetrics_cache. }
    split.
    + intros pid Hpid. cbn [List.map] in Hpid.
      destruct (decide (pid ∈ List.map ProviderStats.providerId l)) as [Hl | Hl].
      * destruct (Hin pid Hl) as (a & Ha & Htier). exists a. by rewrite <- Hres.
      * apply elem_of_cons in Hpid as [-> | Hpid]; [| done].
        rewrite (Hout _ Hl). subst st1. cbn [assignmentRepo]. rewrite lookup_insert_eq.
        eexists. split; [reflexivity |]. reflexivity.
    + intros pid Hpid. cbn [List.map] in Hpid. rewrite not_elem_of_cons in Hpid.
      destruct Hpid as [Hne Hl]. rewrite (Hout _ Hl). subst st1. cbn [assignmentRepo].
      by rewrite lookup_insert_ne.
Qed.

(** X7. [evaluateAllProviders] never throws and returns one result per
    statistics row, in the order of the rows.  Afterwards every provider
    with statistics has an assignment, at the tier resolved from those
    statistics; a provider without statistics keeps the assignment it had,
    and the ledger, the tier rows, the cache, the statistics and the users
    are untouched. *)
Theorem evaluateAllProviders_covers (st : Store) :
  statsKeyed st ->
  exists st' results,
    evaluateAllProviders st = (st', Ok results)
    /\ List.map ev_providerId results
       = List.map ProviderStats.providerId (map_to_list (statsRepo st)).*2
    /\ List.length results = size (statsRepo st)
    /\ (forall pid, is_Some (statsRepo st !! pid) ->
          exists a, assignmentRepo st' !! pid = Some a
                    /\ ProviderTierAssignment.currentTier a
                       = resolveTierForMetrics st (metricsOf st pid))
    /\ (forall pid, statsRepo st !! pid = None ->
          assignmentRepo st' !! pid = assignmentRepo st !! pid)
    /\ (tierRepo st', payoutRepo st', statsRepo st', userRepo st', tierCache st', clock st')
       = (tierRepo st, payoutRepo st, statsRepo st, userRepo st, tierCache st, clock st).
Proof.
  intros Hkeyed. unfold evaluateAllProviders. unfold bind at 1, gets at 1.
  destruct (evaluateAll_loop (map_to_list (statsRepo st)).*2 st [])
    as (st' & rs & Hrun & Hids & Hframe & Hin & Hout).
  exists st', rs. split; [exact Hrun |]. split; [exact Hids |].
  assert (Hkeys : forall pid,
            pid ∈ List.map ProviderStats.providerId (map_to_list (statsRepo st)).*2
            <-> is_Some (statsRepo st !! pid)).
  { intros pid. split.
    - intros H. apply list_elem_of_fmap in H as (s & -> & Hs).
      apply list_elem_of_fmap in Hs as ([k s'] & -> & Hks).
      apply elem_of_map_to_list in Hks. cbn [snd].
      rewrite (Hkeyed _ _ Hks). by eexists.
    - intros [s Hs]. apply list_elem_of_fmap. exists s.
      split; [symmetry; by apply Hkeyed |].
      apply list_elem_of_fmap. exists (pid, s). split; [reflexivity |].
      by apply elem_of_map_to_list. }
  split.
  { rewrite <- (List.length_map ev_providerId), Hids, List.length_map, length_fmap.
    unfold size, map_size. by rewrite length_map_to_list. }
  split; [intros pid Hpid; apply Hin; by apply Hkeys |].
  split; [| exact Hframe].
  intros pid Hpid. apply Hout. rewrite Hkeys, Hpid. by intros [? ?].
Qed.

Lemma evaluateAllProviders_covers_witness :
  exists st' results,
    evaluateAllProviders statsStore = (st', Ok results)
    /\ List.length results = 2%nat
    /\ exists a, assignmentRepo st' !! "provider-1" = Some a
                 /\ ProviderTierAssignment.currentTier a = SILVER.
Proof.
  assert (Hkeyed : statsKeyed statsStore).
  { intros pid s. unfold statsStore. cbn [statsRepo].
    rewrite !lookup_insert_Some, lookup_empty. intros [[<- <-] | [_ [[<- <-] | [_ [=]]]]];
      reflexivity. }
  destruct (evaluateAllProviders_covers statsStore Hkeyed)
    as (st' & rs & Hrun & _ & Hlen & Hin & _).
  exists st', rs. split; [exact Hrun |]. split; [rewrite Hlen; vm_compute; reflexivity |].
  destruct (Hin "provider-1"%string) as (a & Ha & Htier).
  { vm_compute. by eexists. }
  exists a. split; [exact Ha |]. rewrite Htier. vm_compute. reflexivity.
Defined.

(** ** What a call may write *)

Lemma agreeOutside_refl (w : Footprint) (st : Store) : agreeOutside w st st.
Proof. by repeat split. Qed.

Lemma agreeOutside_trans (w : Footprint) (st1 st2 st3 : Store) :
  agreeOutside w st1 st2 -> agreeOutside w st2 st3 -> agreeOutside w st1 st3.
Proof.
  intros (H1 & H2 & H3 & H4 & H5 & H6 & H7) (K1 & K2 & K3 & K4 & K5 & K6 & K7).
  repeat split; try congruence; intros Hw.
  - by rewrite K4, H4.
  - by rewrite K5, H5.
  - by rewrite K6, H6.
  - by rewrite K7, H7.
Qed.

Lemma agreeOutside_within (w w' : Footprint) (st st' : Store) :
  within w w' -> agreeOutside w st st' -> agreeOutside w' st st'.
Proof.
  intros (W1 & W2 & W3 & W4) (H1 & H2 & H3 & H4 & H5 & H6 & H7).
  repeat split; try assumption; intros Hw.
  - apply H4. destruct (wTiers w); [rewrite W1 in Hw |]; done.
  - apply H5. destruct (wCache w); [rewrite W2 in Hw |]; done.
  - apply H6. destruct (wAssignments w); [rewrite W3 in Hw |]; done.
  - apply H7. destruct (wLedger w); [rewrite W4 in Hw |]; done.
Qed.

Lemma writesOnly_within (w w' : Footprint) {A : Type} (c : M A) :
  within w w' -> writesOnly w c -> writesOnly w' c.
Proof. intros Hw Hc st. by eapply agreeOutside_within. Qed.

Lemma writesOnly_ret (w : Footprint) {A : Type} (a : A) : writesOnly w (ret a).
Proof. intros st. apply agreeOutside_refl. Qed.

Lemma writesOnly_throw (w : Footprint) {A : Type} (e : Exception) :
  writesOnly w (@throw A e).
Proof. intros st. apply agreeOutside_refl. Qed.

Lemma writesOnly_gets (w : Footprint) {A : Type} (f : Store -> A) : writesOnly w (gets f).
Proof. intros st. apply agreeOutside_refl. Qed.

Lemma writesOnly_newBig (w : Footprint) (s : string) : writesOnly w (newBig s).
Proof. unfold newBig. destruct (Big.of_string s); intros st; apply agreeOutside_refl. Qed.

Lemma writesOnly_bigDiv (w : Footprint) (x y : Big.t) : writesOnly w (bigDiv x y).
Proof. unfold bigDiv. destruct (Big.div x y); intros st; apply agreeOutside_refl. Qed.

Lemma writesOnly_bind (w : Footprint) {A B : Type} (c : M A) (k : A -> M B) :
  writesOnly w c -> (forall a, writesOnly w (k a)) -> writesOnly w (bind c k).
Proof.
  intros Hc Hk st. unfold bind. specialize (Hc st).
  destruct (c st) as [st' [a | e]]; cbn [fst] in *; [| exact Hc].
  eapply agreeOutside_trans; [exact Hc | apply Hk].
Qed.

Lemma writesOnly_try_catch (w : Footprint) {A : Type} (c : M A) (h : Exception -> M A) :
  writesOnly w c -> (forall e, writesOnly w (h e)) -> writesOnly w (try_catch c h).
Proof.
  intros Hc Hh st. unfold try_catch. specialize (Hc st).
  destruct (c st) as [st' [a | e]]; cbn [fst] in *; [exact Hc |].
  eapply agreeOutside_trans; [exact Hc | apply Hh].
Qed.

Lemma writesOnly_forEach (w : Footprint) {A S : Type} (l : list A) (body : A -> S -> M S) :
  (forall x s, writesOnly w (body x s)) -> forall s, writesOnly w (forEach l body s).
Proof.
  intros Hb. induction l as [|x l IH]; intros s; cbn [forEach].
  - apply writesOnly_ret.
  - apply writesOnly_bind; [apply Hb | intros s'; apply IH].
Qed.

Lemma writesOnly_void (w : Footprint) {A : Type} (c : M A) :
  writesOnly w c -> writesOnly w (void c).
Proof. intros Hc. apply writesOnly_bind; [exact Hc | intros _; apply writesOnly_ret]. Qed.

Create HintDb writes.

(** A write to the store itself: the tables outside the footprint are
    read back as they were. *)
Ltac writes_store :=
  let st := fresh "st" in
  intros st; repeat split; solve [reflexivity | intros; reflexivity | intros; discriminate].

Ltac writes_within :=
  solve [ eapply writesOnly_within; [| solve [eauto with writes]];
          repeat split; cbn; solve [reflexivity | intros; assumption | intros; discriminate] ].

Ltac writes_step :=
  first
    [ apply writesOnly_ret | apply writesOnly_throw | apply writesOnly_gets
    | apply writesOnly_newBig | apply writesOnly_bigDiv
    | writes_within
    | apply writesOnly_void
    | apply writesOnly_bind; [| intros ?]
    | apply writesOnly_try_catch; [| intros ?]
    | apply writesOnly_forEach; intros ? ?
    | match goal with
      | |- writesOnly _ (match ?x with _ => _ end) => destruct x
      | |- writesOnly _ (if ?x then _ else _) => destruct x
      | |- writesOnly _ (let '(_, _) := ?x in _) => destruct x
      end
    | writes_store ].

Ltac writes := repeat writes_step.

Lemma writesOnly_saveAssignment a :
  writesOnly (mkFootprint false false true false) (saveAssignment a).
Proof. writes_store. Qed.

Lemma writesOnly_insertTier t :
  writesOnly (mkFootprint true false false false) (insertTier t).
Proof. writes_store. Qed.

Lemma writesOnly_saveTier t :
  writesOnly (mkFootprint true false false false) (saveTier t).
Proof. writes_store. Qed.

Lemma writesOnly_refreshTierCache :
  writesOnly (mkFootprint false true false false) refreshTierCache.
Proof. writes_store. Qed.

Lemma writesOnly_savePayout u p :
  writesOnly (mkFootprint false false false true) (savePayout u p).
Proof. writes_store. Qed.

Lemma writesOnly_recordPayout params :
  writesOnly (mkFootprint false false false true) (recordPayout params).
Proof. writes_store. Qed.

#[global] Hint Resolve writesOnly_saveAssignment writesOnly_insertTier writesOnly_saveTier
  writesOnly_refreshTierCache writesOnly_savePayout writesOnly_recordPayout : writes.

Lemma writesOnly_seedDefaultTiers :
  writesOnly (mkFootprint true false false false) seedDefaultTiers.
Proof. unfold seedDefaultTiers. writes. Qed.

#[global] Hint Resolve writesOnly_seedDefaultTiers : writes.

Lemma writesOnly_onModuleInit :
  writesOnly (mkFootprint true true false false) onModuleInit.
Proof. unfold onModuleInit. writes. Qed.

Lemma writesOnly_updateTierConfig l upd :
  writesOnly (mkFootprint true true false false) (updateTierConfig l upd).
Proof. unfold updateTierConfig. writes. Qed.

Lemma writesOnly_evaluateProviderWithMetrics metrics :
  writesOnly (mkFootprint false false true true) (evaluateProviderWithMetrics metrics).
Proof. intros st. rewrite evaluateProviderWithMetrics_run. by repeat split. Qed.

Lemma writesOnly_evaluateProvider pid :
  writesOnly (mkFootprint false false true false) (evaluateProvider pid).
Proof. intros st. rewrite evaluateProvider_run. by repeat split. Qed.

#[global] Hint Resolve writesOnly_onModuleInit writesOnly_updateTierConfig
  writesOnly_evaluateProviderWithMetrics writesOnly_evaluateProvider : writes.

Lemma writesOnly_evaluateAllProviders :
  writesOnly (mkFootprint false false true false) evaluateAllProviders.
Proof. unfold evaluateAllProviders. writes. Qed.

Lemma writesOnly_calculateRevenueShare pid rev incl :
  writesOnly (mkFootprint false false true false) (calculateRevenueShare pid rev incl).
Proof. unfold calculateRevenueShare. writes. Qed.

#[global] Hint Resolve writesOnly_evaluateAllProviders writesOnly_calculateRevenueShare
  : writes.

Lemma writesOnly_escalatePayout p :
  writesOnly (mkFootprint false false false true) (escalatePayout p).
Proof. unfold escalatePayout. writes. Qed.

#[global] Hint Resolve writesOnly_escalatePayout : writes.

Lemma writesOnly_processProviderPayout pid rev options :
  writesOnly (mkFootprint false false true true) (processProviderPayout pid rev options).
Proof. unfold processProviderPayout. writes. Qed.

#[global] Hint Resolve writesOnly_processProviderPayout : writes.

Lemma writesOnly_processMontlyBatch y m revenueMap :
  writesOnly (mkFootprint false false true true) (processMontlyBatch y m revenueMap).
Proof. unfold processMontlyBatch, batchStep. writes. Qed.

Lemma writesOnly_awardPerformanceBonus pid amount type reason :
  writesOnly (mkFootprint false false false true)
             (awardPerformanceBonus pid amount type reason).
Proof. unfold awardPerformanceBonus. writes. Qed.

#[global] Hint Resolve writesOnly_processMontlyBatch writesOnly_awardPerformanceBonus
  : writes.

Lemma writesOnly_confirmPayout i h :
  writesOnly (mkFootprint false false false true) (confirmPayout i h).
Proof. unfold confirmPayout, newDate. writes. Qed.

Lemma writesOnly_markPayoutFailed i reason :
  writesOnly (mkFootprint false false false true) (markPayoutFailed i reason).
Proof. unfold markPayoutFailed. writes. Qed.

Lemma writesOnly_retryFailedPayout i :
  writesOnly (mkFootprint false false false true) (retryFailedPayout i).
Proof. unfold retryFailedPayout. writes. Qed.

Lemma writesOnly_runRetentionBonusRound y m :
  writesOnly (mkFootprint false false false true) (runRetentionBonusRound y m).
Proof. unfold runRetentionBonusRound. writes. Qed.

Lemma writesOnly_checkAndIssueStreakBonus pid :
  writesOnly (mkFootprint false false false true) (checkAndIssueStreakBonus pid).
Proof. unfold checkAndIssueStreakBonus, newDate. writes. Qed.

Lemma writesOnly_getTierSummaries :
  writesOnly (mkFootprint false false false false) getTierSummaries.
Proof. unfold getTierSummaries. writes. Qed.

Lemma writesOnly_getProviderPayoutHistory pid page limit :
  writesOnly (mkFootprint false false false false)
             (getProviderPayoutHistory pid page limit).
Proof. unfold getProviderPayoutHistory. writes. Qed.

Lemma writesOnly_summaryStep p v :
  writesOnly (mkFootprint false false false false) (summaryStep p v).
Proof. unfold summaryStep. writes. Qed.

#[global] Hint Resolve writesOnly_summaryStep : writes.

Lemma writesOnly_getProviderEarningsSummary pid :
  writesOnly (mkFootprint false false false false) (getProviderEarningsSummary pid).
Proof. unfold getProviderEarningsSummary. writes. Qed.

Lemma writesOnly_periodStep p vars :
  writesOnly (mkFootprint false false false false) (periodStep p vars).
Proof. unfold periodStep. writes. Qed.

#[global] Hint Resolve writesOnly_periodStep : writes.

Lemma writesOnly_getPeriodPayouts y m :
  writesOnly (mkFootprint false false false false) (getPeriodPayouts y m).
Proof. unfold getPeriodPayouts. writes. Qed.

#[global] Hint Resolve writesOnly_confirmPayout writesOnly_markPayoutFailed
  writesOnly_retryFailedPayout writesOnly_runRetentionBonusRound
  writesOnly_checkAndIssueStreakBonus writesOnly_getTierSummaries
  writesOnly_getProviderPayoutHistory writesOnly_getProviderEarningsSummary
  writesOnly_getPeriodPayouts : writes.

Lemma writesOnly_perform (c : Call) : writesOnly (footprint c) (perform c).
Proof.
  destruct c; cbn [footprint perform];
    first [ apply writesOnly_void; solve [eauto with writes | apply writesOnly_gets]
          | solve [eauto with writes] ].
Qed.

(** X8. Whatever the store and the arguments, and whether it returns or
    throws, a call writes no table outside its footprint: the tier rows
    are written by [onModuleInit] and [updateTierConfig] only, the cache by
    these two and [refreshTierCache], the assignments by the evaluations
    and by the calculation, the payout and the batch that evaluate a
    provider seen for the first time, the ledger by the operations that
    record or move a payout; the queries write nothing, and no call ever
    writes the statistics, the users or the clock. *)
Theorem calls_write_only_their_tables (c : Call) (st : Store) :
  agreeOutside (footprint c) st (happen (Invoke c) st)
  /\ (forall calls : list Call,
        statsRepo (history (Invoke <$> calls) st) = statsRepo st
        /\ userRepo (history (Invoke <$> calls) st) = userRepo st
        /\ clock (history (Invoke <$> calls) st) = clock st).
Proof.
  split; [apply writesOnly_perform |].
  intros calls. revert st. induction calls as [|c' calls IH]; intros st; [done |].
  change (history (Invoke <$> c' :: calls) st)
    with (history (Invoke <$> calls) (happen (Invoke c') st)).
  destruct (IH (happen (Invoke c') st)) as (H1 & H2 & H3).
  destruct (writesOnly_perform c' st) as (K1 & K2 & K3 & _).
  rewrite H1, H2, H3. done.
Qed.

(** ** The tier table under any series of events *)

Lemma tierLevels_app (rows extra : list RevenueShareTier.t) :
  tierLevels (rows ++ extra) = tierLevels rows ++ tierLevels extra.
Proof. apply List.map_app. Qed.

Lemma missingDefaults_fresh (rows : list RevenueShareTier.t) :
  NoDup (tierLevels rows) -> NoDup (tierLevels (rows ++ missingDefaults rows)).
Proof.
  intros Hnd. rewrite tierLevels_app. apply NoDup_app. split; [exact Hnd |]. split.
  - intros l Hl Hmiss. unfold tierLevels in Hmiss.
    apply list_elem_of_fmap in Hmiss as (d & -> & Hd).
    apply list_elem_of_In, List.filter_In in Hd as [_ Hd].
    destruct (findTier (RevenueShareTier.tierLevel d) rows) eqn:Hfind; [discriminate |].
    by apply findTier_none in Hfind.
  - unfold missingDefaults, tierLevels.
    assert (Hdef : NoDup (List.map RevenueShareTier.tierLevel DEFAULT_TIERS))
      by (change (NoDup (tierLevels DEFAULT_TIERS)); rewrite DEFAULT_TIERS_levels;
          apply TIER_ORDER_NoDup).
    revert Hdef. generalize DEFAULT_TIERS. intros ds.
    induction ds as [|d ds IH]; intros Hdef; [constructor |].
    cbn [List.map] in Hdef. apply NoDup_cons in Hdef as [Hd Hdef].
    cbn [List.filter]. destruct (findTier _ rows); [by apply IH |].
    cbn [List.map]. apply NoDup_cons. split; [| by apply IH].
    intros Hin. apply Hd. apply list_elem_of_fmap in Hin as (u & -> & Hu).
    apply list_elem_of_fmap_2. apply list_elem_of_In, List.filter_In in Hu as [Hu _].
    by apply list_elem_of_In.
Qed.

Lemma replaceTier_core (l : ProviderTierLevel) (t t' : RevenueShareTier.t)
    (rows : list RevenueShareTier.t) :
  findTier l rows = Some t -> tierCore t' = tierCore t ->
  List.map tierCore (replaceTier l t' rows) = List.map tierCore rows.
Proof.
  unfold findTier. intros Hfind Hcore. induction rows as [|r rows IH]; [reflexivity |].
  cbn [List.find] in Hfind. cbn [replaceTier].
  destruct (bool_decide (RevenueShareTier.tierLevel r = l)).
  - injection Hfind as ->. cbn [List.map]. by rewrite Hcore.
  - cbn [List.map]. by rewrite IH.
Qed.

Lemma tierTable_perform (c : Call) (st : Store) :
  tierTableOk st ->
  tierTableOk (perform c st).1 /\ tierTableExtends st (perform c st).1.
Proof.
  intros [Hnd Hcache].
  destruct (writesOnly_perform c st) as (_ & _ & _ & Htiers & Hc & _).
  assert (Hkeep : wTiers (footprint c) = false -> wCache (footprint c) = false ->
                  tierTableOk (perform c st).1 /\ tierTableExtends st (perform c st).1).
  { intros H1 H2. unfold tierTableOk, tierTableExtends.
    rewrite (Htiers H1), (Hc H2). done. }
  destruct c; try (apply Hkeep; reflexivity); clear Hkeep Htiers Hc; cbn [perform].
  - (* onModuleInit *)
    unfold onModuleInit, bind. rewrite seedDefaultTiers_run. cbn [refreshTierCache modify fst].
    unfold tierTableOk, tierTableExtends. cbn [withTierRows tierRepo tierCache].
    split; [split; [by apply missingDefaults_fresh | reflexivity] |].
    rewrite List.map_app. by apply prefix_app_r.
  - (* refreshTierCache *)
    unfold tierTableOk, tierTableExtends. cbn. done.
  - (* updateTierConfig *)
    unfold void, bind. rewrite updateTierConfig_run.
    destruct (findTier tierLevel (tierRepo st)) as [t|] eqn:Hfind; cbn [fst ret].
    + destruct (findTier_level _ _ _ Hfind) as [Hl _].
      unfold tierTableOk, tierTableExtends. cbn [tierRepo tierCache].
      rewrite (replaceTier_levels tierLevel (assignUpdates t updates) _ Hl).
      rewrite (replaceTier_core _ t (assignUpdates t updates) _ Hfind eq_refl). done.
    + unfold tierTableOk, tierTableExtends. done.
Qed.

Lemma tierTable_happen (e : Event) (st : Store) :
  tierTableOk st -> tierTableOk (happen e st) /\ tierTableExtends st (happen e st).
Proof.
  destruct e; [apply tierTable_perform | | |]; intros H;
    (split; [exact H | unfold tierTableExtends; cbn; reflexivity]).
Qed.

Lemma findTier_core_prefix (rows rows' : list RevenueShareTier.t) (l : ProviderTierLevel) :
  List.map tierCore rows `prefix_of` List.map tierCore rows' ->
  is_Some (findTier l rows) -> is_Some (findTier l rows').
Proof.
  intros [k Hk] [t Ht]. apply findTier_level in Ht as [Hl Hin].
  destruct (findTier l rows') as [t'|] eqn:Hfind; [by eexists |].
  exfalso. apply findTier_none in Hfind. apply Hfind.
  assert (Hlev : tierLevels rows' = (List.map tierCore rows ++ k).*1.*1.*1.*1).
  { rewrite <- Hk. unfold tierLevels. rewrite <- !list_fmap_compose.
    apply list_fmap_ext. by intros ? []. }
  rewrite Hlev. rewrite !fmap_app. apply elem_of_app. left.
  rewrite <- !list_fmap_compose. apply list_elem_of_fmap. exists t. split; [| exact Hin].
  cbn. by rewrite Hl.
Qed.

(** X9. Under any series of events (calls of the services, whatever
    their outcome, and changes made from outside them) a tier table with
    one row per level stays so and its cache stays the active rows by
    ascending sort order; no row ever disappears or changes place, level,
    name, description, reputation threshold or sort order; a level that has
    a row keeps one.  The empty table is such a table, and once the module
    has been started every level has a row for good. *)
Theorem tier_table_invariant (events : list Event) (st : Store) :
  tierTableOk st ->
  tierTableOk (history events st)
  /\ tierTableExtends st (history events st)
  /\ (forall l, is_Some (findTier l (tierRepo st)) ->
                is_Some (findTier l (tierRepo (history events st))))
  /\ (forall l, is_Some (findTier l (tierRepo
                  (history (Invoke CallOnModuleInit :: events) st)))).
Proof.
  assert (Hmain : forall events st, tierTableOk st ->
            tierTableOk (history events st) /\ tierTableExtends st (history events st)).
  { clear. induction events as [|e events IH]; intros st Hok;
      [split; [exact Hok | unfold tierTableExtends; reflexivity] |].
    cbn [history foldl]. destruct (tierTable_happen e st Hok) as [Hok1 Hext1].
    destruct (IH _ Hok1) as [Hok2 Hext2]. split; [exact Hok2 |].
    unfold tierTableExtends in *. by etrans. }
  intros Hok. destruct (Hmain events st Hok) as [Hok' Hext].
  split; [exact Hok' |]. split; [exact Hext |].
  split; [intros l; by apply findTier_core_prefix |].
  intros l. cbn [history foldl].
  destruct (tierTable_happen (Invoke CallOnModuleInit) st Hok) as [Hok1 _].
  destruct (Hmain events _ Hok1) as [_ Hext1].
  eapply findTier_core_prefix; [exact Hext1 |].
  cbn [happen perform]. unfold onModuleInit, bind. rewrite seedDefaultTiers_run.
  cbn [refreshTierCache modify fst withTierRows tierRepo]. apply seeded_all_levels.
Qed.

Lemma tier_table_invariant_witness :
  tierTableOk (history [Invoke CallOnModuleInit;
                        Invoke (CallUpdateTierConfig GOLD deactivate)] emptyStore).
Proof.
  apply (tier_table_invariant
           [Invoke CallOnModuleInit; Invoke (CallUpdateTierConfig GOLD deactivate)]
           emptyStore).
  split; [constructor | reflexivity].
Defined.

(** ** The ledger under any series of events *)

Lemma ledgerOk_nil : ledgerOk [].
Proof. intros i p H. by rewrite lookup_nil in H. Qed.

Lemma ledgerOk_snoc (rows : list ProviderRevenuePayout.t) (p : ProviderRevenuePayout.t) :
  ledgerOk rows -> rowOk (List.length rows) p -> ledgerOk (rows ++ [p]).
Proof.
  intros Hrows Hp i q Hq. apply lookup_app_Some in Hq as [Hq | [Hi Hq]].
  - by apply Hrows.
  - apply list_lookup_singleton_Some in Hq as [Hi' <-].
    replace i with (List.length rows) by lia.
    exact Hp.
Qed.

Lemma ledgerOk_unsnoc (rows : list ProviderRevenuePayout.t) (p : ProviderRevenuePayout.t) :
  ledgerOk (rows ++ [p]) -> ledgerOk rows /\ rowOk (List.length rows) p.
Proof.
  intros H. split.
  - intros i q Hq. apply H. by apply lookup_app_l_Some.
  - apply H. by rewrite list_lookup_middle.
Qed.

Lemma find_app {A : Type} (f : A -> bool) (l1 l2 : list A) :
  List.find f (l1 ++ l2)
  = match List.find f l1 with
    | Some x => Some x
    | None => List.find f l2
    end.
Proof.
  induction l1 as [|x l1 IH]; [reflexivity |].
  cbn [app List.find]. destruct (f x); [reflexivity | exact IH].
Qed.

Lemma findPayout_lookup (rows : list ProviderRevenuePayout.t) (i : nat) :
  ledgerOk rows -> findPayout i rows = rows !! i.
Proof.
  unfold findPayout. induction rows as [|p rows IH] using rev_ind; intros Hok.
  - by rewrite lookup_nil.
  - apply ledgerOk_unsnoc in Hok as [Hrows Hp].
    rewrite find_app, (IH Hrows). destruct Hp as [Hid _].
    destruct (rows !! i) as [q|] eqn:Hq.
    + symmetry. by apply lookup_app_l_Some.
    + apply lookup_ge_None in Hq. cbn [List.find]. rewrite Hid.
      destruct (Nat.eqb_spec (List.length rows) i) as [<- | Hne].
      * symmetry. by rewrite list_lookup_middle.
      * symmetry. apply lookup_ge_None. rewrite length_app. cbn. lia.
Qed.

Lemma save_as_insert (rows : list ProviderRevenuePayout.t)
    (u : list ProviderRevenuePayout.key) (p p' : ProviderRevenuePayout.t) :
  ledgerOk rows ->
  rows !! ProviderRevenuePayout.id p' = Some p ->
  List.map (fun q => if Nat.eqb (ProviderRevenuePayout.id q) (ProviderRevenuePayout.id p')
                     then ProviderRevenuePayout.written u q p' else q) rows
  = <[ProviderRevenuePayout.id p' := ProviderRevenuePayout.written u p p']> rows.
Proof.
  intros Hok Hp. apply list_eq. intros j.
  change (List.map ?f rows) with (f <$> rows). rewrite list_lookup_fmap.
  destruct (rows !! j) as [q|] eqn:Hq; cbn [fmap option_fmap option_map].
  - destruct (Hok j q Hq) as [Hid _]. rewrite Hid.
    destruct (Nat.eqb_spec j (ProviderRevenuePayout.id p')) as [-> | Hne].
    + rewrite Hp in Hq. injection Hq as ->.
      symmetry. apply list_lookup_insert_eq. by eapply lookup_lt_Some.
    + rewrite list_lookup_insert_ne by done. by rewrite Hq.
  - symmetry. apply lookup_ge_None. rewrite length_insert. by apply lookup_ge_None.
Qed.

Lemma ledger_save (rows : list ProviderRevenuePayout.t) (p p' : ProviderRevenuePayout.t) :
  ledgerOk rows ->
  rows !! ProviderRevenuePayout.id p' = Some p ->
  payoutCore p' = payoutCore p ->
  rowOk (ProviderRevenuePayout.id p') p' ->
  ledgerOk (<[ProviderRevenuePayout.id p' := p']> rows)
  /\ List.map payoutCore (<[ProviderRevenuePayout.id p' := p']> rows)
     = List.map payoutCore rows.
Proof.
  intros Hok Hp Hcore Hrow. split.
  - intros j q Hq. apply list_lookup_insert_Some in Hq as [(<- & <- & _) | [Hne Hq]].
    + exact Hrow.
    + by apply Hok.
  - change (List.map payoutCore ?l) with (payoutCore <$> l).
    rewrite list_fmap_insert, Hcore. apply list_insert_id.
    by rewrite list_lookup_fmap, Hp.
Qed.

Lemma ledgerExtends_refl rows : ledgerExtends rows rows.
Proof. unfold ledgerExtends. reflexivity. Qed.

Lemma ledgerExtends_trans rows1 rows2 rows3 :
  ledgerExtends rows1 rows2 -> ledgerExtends rows2 rows3 -> ledgerExtends rows1 rows3.
Proof. unfold ledgerExtends. intros. by etrans. Qed.

Lemma ledgerExtends_app rows extra : ledgerExtends rows (rows ++ extra).
Proof. unfold ledgerExtends. rewrite List.map_app. by apply prefix_app_r. Qed.

Lemma ledgerSafe_keeps (w : Footprint) {A : Type} (c : M A) :
  wLedger w = false -> writesOnly w c -> ledgerSafe c.
Proof.
  intros Hw Hc st Hok. destruct (Hc st) as (_ & _ & _ & _ & _ & _ & H).
  rewrite (H Hw). split; [exact Hok | apply ledgerExtends_refl].
Qed.

Lemma ledgerSafe_ret {A : Type} (a : A) : ledgerSafe (ret a).
Proof. intros st Hok. split; [exact Hok | apply ledgerExtends_refl]. Qed.

Lemma ledgerSafe_bind {A B : Type} (c : M A) (k : A -> M B) :
  ledgerSafe c -> (forall a, ledgerSafe (k a)) -> ledgerSafe (bind c k).
Proof.
  intros Hc Hk st Hok. unfold bind. destruct (Hc st Hok) as [Hok1 Hext1].
  destruct (c st) as [st' [a | e]]; cbn [fst] in *; [| by split].
  destruct (Hk a st' Hok1) as [Hok2 Hext2]. split; [exact Hok2 |].
  by eapply ledgerExtends_trans.
Qed.

Lemma ledgerSafe_try_catch {A : Type} (c : M A) (h : Exception -> M A) :
  ledgerSafe c -> (forall e, ledgerSafe (h e)) -> ledgerSafe (try_catch c h).
Proof.
  intros Hc Hh st Hok. unfold try_catch. destruct (Hc st Hok) as [Hok1 Hext1].
  destruct (c st) as [st' [a | e]]; cbn [fst] in *; [by split |].
  destruct (Hh e st' Hok1) as [Hok2 Hext2]. split; [exact Hok2 |].
  by eapply ledgerExtends_trans.
Qed.

Lemma ledgerSafe_forEach {A S : Type} (l : list A) (body : A -> S -> M S) :
  (forall x s, ledgerSafe (body x s)) -> forall s, ledgerSafe (forEach l body s).
Proof.
  intros Hb. induction l as [|x l IH]; intros s; cbn [forEach].
  - apply ledgerSafe_ret.
  - apply ledgerSafe_bind; [apply Hb | intros s'; apply IH].
Qed.

Lemma ledgerSafe_void {A : Type} (c : M A) : ledgerSafe c -> ledgerSafe (void c).
Proof. intros Hc. apply ledgerSafe_bind; [exact Hc | intros _; apply ledgerSafe_ret]. Qed.

Lemma recordedRow_ok (st : Store) (params : PayoutParams) :
  rowOk (List.length (payoutRepo st)) (recordedRow st params).
Proof.
  unfold rowOk, recordedRow. cbn. repeat split; try done; lia.
Qed.

Lemma ledgerSafe_recordPayout params : ledgerSafe (recordPayout params).
Proof.
  intros st Hok. rewrite recordPayout_run. cbn [fst withPayout payoutRepo].
  split; [apply ledgerOk_snoc; [exact Hok | apply recordedRow_ok] | apply ledgerExtends_app].
Qed.

Lemma ledgerSafe_savePayout (st : Store) (u : list ProviderRevenuePayout.key)
    (p p' : ProviderRevenuePayout.t) :
  ledgerOk (payoutRepo st) ->
  payoutRepo st !! ProviderRevenuePayout.id p' = Some p ->
  payoutCore (ProviderRevenuePayout.written u p p') = payoutCore p ->
  rowOk (ProviderRevenuePayout.id p') (ProviderRevenuePayout.written u p p') ->
  ledgerOk (payoutRepo (savePayout u p' st).1)
  /\ ledgerExtends (payoutRepo st) (payoutRepo (savePayout u p' st).1).
Proof.
  intros Hok Hp Hcore Hrow. unfold savePayout. cbn [fst payoutRepo].
  rewrite (save_as_insert _ u p p' Hok Hp).
  rewrite <- (written_id u p p') in Hp, Hrow |- *.
  destruct (ledger_save _ _ _ Hok Hp Hcore Hrow) as [Hok' Hsame].
  split; [exact Hok' |]. unfold ledgerExtends. by rewrite Hsame.
Qed.

Lemma ledgerSafe_confirmPayout i h : ledgerSafe (confirmPayout i h).
Proof.
  intros st Hok. unfold confirmPayout, bind, gets, newDate.
  rewrite (findPayout_lookup _ _ Hok).
  destruct (payoutRepo st !! i) as [p|] eqn:Hp;
    [| split; [exact Hok | apply ledgerExtends_refl]].
  destruct (bool_decide _); [split; [exact Hok | apply ledgerExtends_refl] |].
  destruct (Hok i p Hp) as (Hid & Hasset & Hretry & _).
  apply (ledgerSafe_savePayout st _ p).
  - exact Hok.
  - cbn. by rewrite Hid.
  - reflexivity.
  - unfold rowOk. cbn. repeat split; try done; by eexists.
Qed.

Lemma ledgerSafe_markPayoutFailed i reason : ledgerSafe (markPayoutFailed i reason).
Proof.
  intros st Hok. unfold markPayoutFailed, bind, gets.
  rewrite (findPayout_lookup _ _ Hok).
  destruct (payoutRepo st !! i) as [p|] eqn:Hp;
    [| split; [exact Hok | apply ledgerExtends_refl]].
  destruct (Hok i p Hp) as (Hid & Hasset & Hretry & _).
  apply (ledgerSafe_savePayout st _ p).
  - exact Hok.
  - cbn. by rewrite Hid.
  - reflexivity.
  - unfold rowOk. cbn. repeat split; try done; try lia; by eexists.
Qed.

Lemma ledgerSafe_retryFailedPayout i : ledgerSafe (retryFailedPayout i).
Proof.
  intros st Hok. unfold retryFailedPayout, bind, gets.
  rewrite (findPayout_lookup _ _ Hok).
  destruct (payoutRepo st !! i) as [p|] eqn:Hp;
    [| split; [exact Hok | apply ledgerExtends_refl]].
  destruct (negb _); [split; [exact Hok | apply ledgerExtends_refl] |].
  destruct (5 <=? _); [split; [exact Hok | apply ledgerExtends_refl] |].
  destruct (Hok i p Hp) as (Hid & Hasset & Hretry & _).
  apply (ledgerSafe_savePayout st _ p).
  - exact Hok.
  - cbn. by rewrite Hid.
  - reflexivity.
  - unfold rowOk. cbn. repeat split; try done.
Qed.

Lemma ledgerSafe_evaluateProviderWithMetrics metrics :
  ledgerSafe (evaluateProviderWithMetrics metrics).
Proof.
  intros st Hok. rewrite evaluateProviderWithMetrics_run. cbn zeta. cbn [fst payoutRepo].
  destruct (if isPromotion st metrics && negb (String.eqb (walletAddress metrics) "")
            then promotionBonus st metrics else None) as [amount|].
  - split; [| apply ledgerExtends_app].
    apply ledgerOk_snoc; [exact Hok |]. unfold rowOk, bonusRow. cbn.
    repeat split; try done; lia.
  - rewrite app_nil_r. split; [exact Hok | apply ledgerExtends_refl].
Qed.

Create HintDb ledgersafe.

#[global] Hint Resolve ledgerSafe_ret ledgerSafe_recordPayout ledgerSafe_confirmPayout
  ledgerSafe_markPayoutFailed ledgerSafe_retryFailedPayout
  ledgerSafe_evaluateProviderWithMetrics : ledgersafe.

Ltac ledger_keeps :=
  solve [ apply (ledgerSafe_keeps (mkFootprint true true true false));
          [ reflexivity
          | first [ apply writesOnly_ret | apply writesOnly_throw | apply writesOnly_gets
                  | apply writesOnly_newBig | apply writesOnly_bigDiv | writes_within ] ] ].

Ltac ledger_step :=
  first
    [ solve [eauto with ledgersafe]
    | ledger_keeps
    | apply ledgerSafe_void
    | apply ledgerSafe_bind; [| intros ?]
    | apply ledgerSafe_try_catch; [| intros ?]
    | apply ledgerSafe_forEach; intros ? ?
    | match goal with
      | |- ledgerSafe (match ?x with _ => _ end) => destruct x
      | |- ledgerSafe (if ?x then _ else _) => destruct x
      | |- ledgerSafe (let '(_, _) := ?x in _) => destruct x
      end ].

Ltac ledger := repeat ledger_step.

Lemma ledgerSafe_awardPerformanceBonus pid amount type reason :
  ledgerSafe (awardPerformanceBonus pid amount type reason).
Proof. unfold awardPerformanceBonus. ledger. Qed.

#[global] Hint Resolve ledgerSafe_awardPerformanceBonus : ledgersafe.

Lemma ledgerSafe_runRetentionBonusRound y m : ledgerSafe (runRetentionBonusRound y m).
Proof. unfold runRetentionBonusRound. ledger. Qed.

Lemma ledgerSafe_checkAndIssueStreakBonus pid : ledgerSafe (checkAndIssueStreakBonus pid).
Proof. unfold checkAndIssueStreakBonus, newDate. ledger. Qed.

Lemma ledgerSafe_processProviderPayout pid rev options :
  ledgerSafe (processProviderPayout pid rev options).
Proof.
  intros st Hok.
  destruct (calculateRevenueShare pid rev (Some (default true (includeBonus options))) st)
    as [st1 [calc | e]] eqn:Hcalc.
  - assert (Hledger : payoutRepo st1 = payoutRepo st).
    { destruct (writesOnly_calculateRevenueShare pid rev
                  (Some (default true (includeBonus options))) st)
        as (_ & _ & _ & _ & _ & _ & H). rewrite Hcalc in H. by apply H. }
    rewrite (processProviderPayout_run _ _ _ _ _ _ Hcalc).
    destruct (userRepo st1 !! pid) as [user|]; cbn [fst];
      [| rewrite Hledger; split; [exact Hok | apply ledgerExtends_refl]].
    destruct (Big.of_string (RevenueShareCalculationDto.revenueShareAmount calc)) as [r|];
      cbn [fst]; [| rewrite Hledger; split; [exact Hok | apply ledgerExtends_refl]].
    destruct (Big.of_string (appliedBonus options calc).1) as [g|];
      cbn [fst]; [| rewrite Hledger; split; [exact Hok | apply ledgerExtends_refl]].
    cbn zeta. set (row := recordedRow st1 _).
    assert (Hok1 : ledgerOk (payoutRepo (withPayout st1 row))).
    { cbn [withPayout payoutRepo]. apply ledgerOk_snoc; [by rewrite Hledger |].
      apply recordedRow_ok. }
    assert (Hext1 : ledgerExtends (payoutRepo st) (payoutRepo (withPayout st1 row))).
    { cbn [withPayout payoutRepo]. rewrite Hledger. apply ledgerExtends_app. }
    destruct (isTopTier (RevenueShareCalculationDto.tierLevel calc)) eqn:Htop;
      [| by split].
    unfold escalatePayout.
    destruct (ledgerSafe_savePayout (withPayout st1 row) [] row
                (ProviderRevenuePayout.set_status PROCESSING row) Hok1) as [Hok2 Hext2].
    + cbn [withPayout payoutRepo ProviderRevenuePayout.set_status ProviderRevenuePayout.id].
      subst row. cbn [recordedRow ProviderRevenuePayout.id].
      by rewrite list_lookup_middle.
    + reflexivity.
    + subst row. unfold rowOk. cbn. rewrite Hledger. repeat split; try done.
    + split; [exact Hok2 |]. by eapply ledgerExtends_trans.
  - unfold processProviderPayout, bind. rewrite Hcalc. cbn [fst].
    destruct (writesOnly_calculateRevenueShare pid rev
                (Some (default true (includeBonus options))) st)
      as (_ & _ & _ & _ & _ & _ & H). rewrite Hcalc in H. cbn [fst] in H.
    rewrite H by reflexivity. split; [exact Hok | apply ledgerExtends_refl].
Qed.

#[global] Hint Resolve ledgerSafe_runRetentionBonusRound ledgerSafe_checkAndIssueStreakBonus
  ledgerSafe_processProviderPayout : ledgersafe.

Lemma ledgerSafe_processMontlyBatch y m revenueMap :
  ledgerSafe (processMontlyBatch y m revenueMap).
Proof. unfold processMontlyBatch, batchStep. ledger. Qed.

#[global] Hint Resolve ledgerSafe_processMontlyBatch : ledgersafe.

Lemma ledgerSafe_perform (c : Call) : ledgerSafe (perform c).
Proof.
  destruct (wLedger (footprint c)) eqn:Hw.
  - destruct c; try discriminate Hw; cbn [perform]; apply ledgerSafe_void;
      eauto with ledgersafe.
  - eapply ledgerSafe_keeps; [exact Hw | apply writesOnly_perform].
Qed.

Lemma ledgerSafe_happen (e : Event) (st : Store) :
  ledgerOk (payoutRepo st) ->
  ledgerOk (payoutRepo (happen e st))
  /\ ledgerExtends (payoutRepo st) (payoutRepo (happen e st)).
Proof.
  destruct e; [apply ledgerSafe_perform | | |]; intros Hok;
    (split; [exact Hok | apply ledgerExtends_refl]).
Qed.

Lemma ledgerSafe_history (events : list Event) (st : Store) :
  ledgerOk (payoutRepo st) ->
  ledgerOk (payoutRepo (history events st))
  /\ ledgerExtends (payoutRepo st) (payoutRepo (history events st)).
Proof.
  revert st. induction events as [|e events IH]; intros st Hok.
  - split; [exact Hok | apply ledgerExtends_refl].
  - cbn [history foldl]. destruct (ledgerSafe_happen e st Hok) as [Hok1 Hext1].
    destruct (IH _ Hok1) as [Hok2 Hext2]. split; [exact Hok2 |].
    by eapply ledgerExtends_trans.
Qed.



(** X11. Under any series of events a well-formed ledger stays well
    formed: the id of a row is its rank, its asset is "USDC", its retry
    count is not negative; a COMPLETED row has a transaction hash and a
    payment date; a FAILED row has a failure reason and a retry count of at
    least one; a PROCESSING row belongs to the ELITE or the PLATINUM tier
    and has never failed nor been paid.  The empty ledger is well
    formed. *)
Theorem ledger_rows_invariant (events : list Event) (st : Store) :
  ledgerOk (payoutRepo st) ->
  forall i p, payoutRepo (history events st) !! i = Some p -> rowOk i p.
Proof.
  intros Hok. by destruct (ledgerSafe_history events st Hok) as [Hok' _].
Qed.

Lemma ledger_rows_invariant_witness :
  exists p, payoutRepo (history sampleEvents emptyStore) !! 0%nat = Some p
            /\ ProviderRevenuePayout.status p = COMPLETED
            /\ rowOk 0 p.
Proof.
  eexists. split; [vm_compute; reflexivity |]. split; [reflexivity |].
  apply (ledger_rows_invariant sampleEvents emptyStore ledgerOk_nil).
  vm_compute. reflexivity.
Defined.

(** ** Payouts are recorded one at a time *)

Lemma processProviderPayout_appends (st : Store) (pid rev : string)
    (options : PayoutOptions) :
  match processProviderPayout pid rev options st with
  | (st', Throw _) => payoutRepo st' = payoutRepo st
  | (st', Ok p) =>
      ProviderRevenuePayout.providerId p = pid
      /\ (ledgerOk (payoutRepo st) ->
          payoutRepo st' = payoutRepo st ++ [p]
          /\ ProviderRevenuePayout.id p = List.length (payoutRepo st))
  end.
Proof.
  destruct (calculateRevenueShare pid rev (Some (default true (includeBonus options))) st)
    as [st1 [calc | e]] eqn:Hcalc.
  - assert (Hledger : payoutRepo st1 = payoutRepo st).
    { destruct (writesOnly_calculateRevenueShare pid rev
                  (Some (default true (includeBonus options))) st)
        as (_ & _ & _ & _ & _ & _ & H). rewrite Hcalc in H. by apply H. }
    rewrite (processProviderPayout_run _ _ _ _ _ _ Hcalc).
    destruct (userRepo st1 !! pid) as [user|]; [| exact Hledger].
    destruct (Big.of_string (RevenueShareCalculationDto.revenueShareAmount calc)) as [r|];
      [| exact Hledger].
    destruct (Big.of_string (appliedBonus options calc).1) as [g|]; [| exact Hledger].
    cbn zeta. set (row := recordedRow st1 _).
    destruct (isTopTier (RevenueShareCalculationDto.tierLevel calc)).
    + split; [reflexivity |].
      unfold escalatePayout, savePayout. cbn [withPayout payoutRepo].
      intros Hok.
      assert (Hok1 : ledgerOk (payoutRepo st1 ++ [row])).
      { apply ledgerOk_snoc; [by rewrite Hledger | apply recordedRow_ok]. }
      rewrite (save_as_insert _ [] row _ Hok1)
        by (subst row;
            cbn [recordedRow ProviderRevenuePayout.set_status ProviderRevenuePayout.id];
            rewrite Hledger; apply list_lookup_middle; reflexivity).
      cbn [ProviderRevenuePayout.written foldr
           ProviderRevenuePayout.set_status ProviderRevenuePayout.id].
      subst row. cbn [recordedRow ProviderRevenuePayout.id].
      rewrite Hledger. split; [| reflexivity].
      replace (List.length (payoutRepo st)) with (List.length (payoutRepo st) + 0)%nat
        at 1 by lia.
      rewrite insert_app_r. reflexivity.
    + split; [reflexivity |].
      intros _. cbn [withPayout payoutRepo]. subst row.
      cbn [recordedRow ProviderRevenuePayout.id]. rewrite Hledger.
      split; reflexivity.
  - unfold processProviderPayout, bind. rewrite Hcalc.
    destruct (writesOnly_calculateRevenueShare pid rev
                (Some (default true (includeBonus options))) st)
      as (_ & _ & _ & _ & _ & _ & H). rewrite Hcalc in H. by apply H.
Qed.

(** X12. [processProviderPayout] records all or nothing: when it throws,
    whatever the reason (a revenue that is no numeral or not positive, no
    tier row, no user, an override that is no numeral), the ledger is as it
    was; when it returns, the ledger, if well formed, has exactly one more
    row, the payout returned, whose id is the rank it was appended at. *)
Theorem processProviderPayout_all_or_nothing (st : Store) (pid rev : string)
    (options : PayoutOptions) :
  (forall st' e, processProviderPayout pid rev options st = (st', Throw e) ->
                 payoutRepo st' = payoutRepo st)
  /\ (forall st' p, processProviderPayout pid rev options st = (st', Ok p) ->
                    ledgerOk (payoutRepo st) ->
                    payoutRepo st' = payoutRepo st ++ [p]
                    /\ ProviderRevenuePayout.id p = List.length (payoutRepo st)).
Proof.
  pose proof (processProviderPayout_appends st pid rev options) as H.
  split.
  - intros st' e Hrun. by rewrite Hrun in H.
  - intros st' p Hrun. rewrite Hrun in H. by destruct H.
Qed.

Lemma processProviderPayout_all_or_nothing_witness :
  exists st' p,
    processProviderPayout "provider-1" "1000" (mkOptions None None None None)
                          (tierStore ELITE) = (st', Ok p)
    /\ payoutRepo st' = [p] /\ ProviderRevenuePayout.id p = 0%nat.
Proof.
  eexists _, _. split; [vm_compute; reflexivity |].
  apply (processProviderPayout_all_or_nothing (tierStore ELITE) "provider-1" "1000"
           (mkOptions None None None None)).
  - vm_compute. reflexivity.
  - apply ledgerOk_nil.
Defined.

Lemma batch_rows (year month : Z) (l : list (string * string)) :
  forall (st st' : Store) (result result' : MonthlyBatchResult.t) (acc acc' : Big.t),
    ledgerOk (payoutRepo st) ->
    forEach l (batchStep year month) (result, acc) st = (st', Ok (result', acc')) ->
    exists rows ds,
      payoutRepo st' = payoutRepo st ++ rows
      /\ MonthlyBatchResult.details result' = MonthlyBatchResult.details result ++ ds
      /\ MonthlyBatchResult.successfulPayouts result'
         = MonthlyBatchResult.successfulPayouts result + Z.of_nat (List.length rows)
      /\ List.map ProviderRevenuePayout.providerId rows
         = List.map d_providerId (successes ds)
      /\ List.map ProviderRevenuePayout.totalPayout rows
         = List.map d_amount (successes ds).
Proof.
  induction l as [|[pid rev] l IH]; intros st st' result result' acc acc' Hok Hrun.
  - cbn [forEach ret] in Hrun. injection Hrun as <- <- <-.
    exists [], []. rewrite !app_nil_r. cbn. repeat split; lia.
  - cbn [forEach] in Hrun. unfold bind at 1 in Hrun.
    destruct (Big.of_string rev) as [b|] eqn:Hb;
      [| unfold batchStep, bind, newBig in Hrun; rewrite Hb in Hrun; discriminate].
    destruct (Z_le_gt_dec (Big.coef b) 0) as [Hle | Hgt].
    + rewrite (batchStep_skipped _ _ _ _ _ _ _ _ Hb Hle) in Hrun.
      destruct (IH _ _ _ _ _ _ Hok Hrun) as (rows & ds & Hrows & Hds & Hn & Hpid & Htot).
      cbn [MonthlyBatchResult.details MonthlyBatchResult.successfulPayouts] in Hds, Hn.
      exists rows, (mkDetail pid skipped "0" (Some ZeroRevenue) :: ds).
      rewrite Hds, <- app_assoc. by repeat split.
    + pose proof (processProviderPayout_appends st pid rev (batchOptions year month)) as Happ.
      destruct (ledgerSafe_processProviderPayout pid rev (batchOptions year month) st Hok)
        as [Hok1 _].
      destruct (processProviderPayout pid rev (batchOptions year month) st)
        as [st1 [payout | e]] eqn:Hpay; cbn [fst] in Hok1.
      * rewrite (batchStep_success _ _ _ _ _ _ _ _ _ _ Hb ltac:(lia) Hpay) in Hrun.
        destruct Happ as [Hprov Happ]. destruct (Happ Hok) as [Hst1 _].
        destruct (IH _ _ _ _ _ _ Hok1 Hrun) as (rows & ds & Hrows & Hds & Hn & Hpid & Htot).
        cbn [MonthlyBatchResult.details MonthlyBatchResult.successfulPayouts] in Hds, Hn.
        exists (payout :: rows),
               (mkDetail pid success (ProviderRevenuePayout.totalPayout payout) None :: ds).
        rewrite Hrows, Hst1, Hds, <- !app_assoc. cbn [app List.length List.map successes
          List.filter d_status d_providerId d_amount].
        fold (successes ds). rewrite Hpid, Htot, Hprov.
        repeat split. lia.
      * rewrite (batchStep_failed _ _ _ _ _ _ _ _ _ _ Hb ltac:(lia) Hpay) in Hrun.
        destruct (IH _ _ _ _ _ _ Hok1 Hrun) as (rows & ds & Hrows & Hds & Hn & Hpid & Htot).
        cbn [MonthlyBatchResult.details MonthlyBatchResult.successfulPayouts] in Hds, Hn.
        exists rows, (mkDetail pid failed "0" (Some (ErrMessage (message e))) :: ds).
        rewrite Hrows, Happ, Hds, <- app_assoc. by repeat split.
Qed.

(** X13. When [processMontlyBatch] returns on a well-formed ledger, the
    rows it has added to the ledger are the payouts of the providers it
    reports as successes, in the order of the details: as many rows as
    [successfulPayouts], each for the provider of its detail and with the
    detail's amount as total; a skipped or failed provider adds no row. *)
Theorem processMontlyBatch_rows (year month : Z) (revenueMap : list (string * string))
    (st st' : Store) (result : MonthlyBatchResult.t) :
  ledgerOk (payoutRepo st) ->
  processMontlyBatch year month revenueMap st = (st', Ok result) ->
  exists rows,
    payoutRepo st' = payoutRepo st ++ rows
    /\ MonthlyBatchResult.successfulPayouts result = Z.of_nat (List.length rows)
    /\ List.map ProviderRevenuePayout.providerId rows
       = List.map d_providerId (successes (MonthlyBatchResult.details result))
    /\ List.map ProviderRevenuePayout.totalPayout rows
       = List.map d_amount (successes (MonthlyBatchResult.details result)).
Proof.
  intros Hok Hrun. unfold processMontlyBatch, bind in Hrun.
  destruct (forEach revenueMap (batchStep year month)
              (MonthlyBatchResult.mk 0 "0" 0 0 0 [], Big.of_Z 0) st)
    as [st1 [[result1 acc1] | e]] eqn:Hloop; [| discriminate].
  cbn [ret] in Hrun. injection Hrun as <- <-.
  destruct (batch_rows _ _ _ _ _ _ _ _ _ Hok Hloop) as (rows & ds & Hrows & Hds & Hn & Hpid & Htot).
  cbn [MonthlyBatchResult.details MonthlyBatchResult.successfulPayouts app] in Hds, Hn |- *.
  exists rows. rewrite Hds. repeat split; try done; lia.
Qed.

Lemma processMontlyBatch_rows_witness :
  exists st' result rows,
    processMontlyBatch 2026 11
      [("provider-0", "0"); ("provider-9", "5"); ("provider-1", "1000")]%string
      (tierStore GOLD) = (st', Ok result)
    /\ payoutRepo st' = payoutRepo (tierStore GOLD) ++ rows
    /\ MonthlyBatchResult.successfulPayouts result = Z.of_nat (List.length rows).
Proof.
  eexists _, _.
  assert (Hrun : processMontlyBatch 2026 11
            [("provider-0", "0"); ("provider-9", "5"); ("provider-1", "1000")]%string
            (tierStore GOLD)
          = ((processMontlyBatch 2026 11
                [("provider-0", "0"); ("provider-9", "5"); ("provider-1", "1000")]%string
                (tierStore GOLD)).1,
             Ok (MonthlyBatchResult.mk 3 "100.00000000" 1 1 1
                   [ mkDetail "provider-0" skipped "0" (Some ZeroRevenue);
                     mkDetail "provider-9" failed "0"
                       (Some (ErrMessage (ProviderUserNotFound "provider-9")));
                     mkDetail "provider-1" success "100.00000000" None ])))
    by (vm_compute; reflexivity).
  destruct (processMontlyBatch_rows 2026 11 _ (tierStore GOLD) _ _
              (ledgerOk_nil : ledgerOk (payoutRepo (tierStore GOLD))) Hrun)
    as (rows & H1 & H2 & _).
  exists rows. split; [exact Hrun |]. split; [exact H1 | exact H2].
Defined.

(** ** What the calculation leaves behind *)

(** X14. [calculateRevenueShare] is a preview only for a provider that
    has a tier assignment: then the store is left as it was, whatever the
    outcome.  A revenue that is no decimal numeral (big.js error) or not
    above zero (bad request) is refused before anything is written.  For a
    provider without an assignment and a revenue above zero the provider
    is evaluated first and the assignment written stays, also when the
    call then throws because the tier has no row; the call throws nothing
    but these three errors. *)
Theorem calculateRevenueShare_writes (st : Store) (pid rev : string) (incl : option bool) :
  (is_Some (assignmentRepo st !! pid) ->
   (calculateRevenueShare pid rev incl st).1 = st)
  /\ (Big.of_string rev = None ->
      calculateRevenueShare pid rev incl st = (st, Throw (Error BigInvalidNumber)))
  /\ (forall b, Big.of_string rev = Some b -> Big.coef b <= 0 ->
      calculateRevenueShare pid rev incl st
      = (st, Throw (BadRequestException BaseRevenueMustBePositive)))
  /\ (forall b, Big.of_string rev = Some b -> 0 < Big.coef b ->
      assignmentRepo st !! pid = None ->
      (calculateRevenueShare pid rev incl st).1 = (evaluateProvider pid st).1
      /\ exists a,
           assignmentRepo (calculateRevenueShare pid rev incl st).1 !! pid = Some a
           /\ ProviderTierAssignment.currentTier a
              = resolveTierForMetrics st (metricsOf st pid)
           /\ ProviderTierAssignment.previousTier a = None)
  /\ (forall st' e, calculateRevenueShare pid rev incl st = (st', Throw e) ->
      e = Error BigInvalidNumber
      \/ e = BadRequestException BaseRevenueMustBePositive
      \/ e = NotFoundException (TierDefinitionNotFound (assignedTier st' pid))).
Proof.
  assert (Hstore : forall b, Big.of_string rev = Some b -> 0 < Big.coef b ->
            (calculateRevenueShare pid rev incl st).1 = withAssignment st pid).
  { intros b Hb Hpos. rewrite calculateRevenueShare_run, Hb, lte_zero.
    replace (Big.coef b <=? 0) with false by (symmetry; apply Z.leb_gt; lia).
    cbn zeta. destruct (findTier _ _) as [def|]; [| reflexivity].
    destruct (Big.of_string (RevenueShareTier.revenueSharePercentage def)); [| reflexivity].
    destruct (Big.div _ _); [| reflexivity].
    destruct (_ && _); [| reflexivity].
    by destruct (Big.of_string (RevenueShareTier.monthlyRetentionBonusUsdc def)). }
  split; [| split; [| split; [| split]]].
  - intros [a Ha].
    destruct (Big.of_string rev) as [b|] eqn:Hb;
      [| by rewrite calculateRevenueShare_run, Hb].
    destruct (Z.leb_spec (Big.coef b) 0) as [Hle | Hpos].
    + rewrite calculateRevenueShare_run, Hb, lte_zero.
      by rewrite (proj2 (Z.leb_le _ _) Hle).
    + rewrite (Hstore b eq_refl Hpos). unfold withAssignment. by rewrite Ha.
  - intros Hb. by rewrite calculateRevenueShare_run, Hb.
  - intros b Hb Hle. rewrite calculateRevenueShare_run, Hb, lte_zero.
    by rewrite (proj2 (Z.leb_le _ _) Hle).
  - intros b Hb Hpos Hnone. rewrite (Hstore b Hb Hpos). unfold withAssignment.
    rewrite Hnone. split; [reflexivity |].
    rewrite evaluateProvider_run. cbn [fst assignmentRepo]. rewrite lookup_insert_eq.
    eexists. split; [reflexivity |].
    unfold evaluatedAssignment.
    cbn [ProviderTierAssignment.currentTier ProviderTierAssignment.previousTier
         metricsOf providerId].
    by rewrite Hnone.
  - intros st' e. rewrite calculateRevenueShare_run.
    destruct (Big.of_string rev) as [b|]; [| intros [= <- <-]; by left].
    destruct (Big.lte b (Big.of_Z 0)); [intros [= <- <-]; right; by left |].
    cbn zeta. destruct (findTier _ _) as [def|]; [| intros [= <- <-]; right; by right].
    destruct (Big.of_string (RevenueShareTier.revenueSharePercentage def)) as [p|];
      [| intros [= <- <-]; by left].
    unfold Big.div. cbn [Big.coef Big.of_Z Z.eqb].
    destruct (_ && _); [| discriminate].
    destruct (Big.of_string (RevenueShareTier.monthlyRetentionBonusUsdc def));
      [discriminate | intros [= <- <-]; by left].
Qed.

Lemma calculateRevenueShare_writes_witness :
  exists a,
    assignmentRepo (calculateRevenueShare "provider-2" "1000" None (tierStore GOLD)).1
      !! "provider-2" = Some a
    /\ ProviderTierAssignment.currentTier a = BRONZE.
Proof.
  destruct (calculateRevenueShare_writes (tierStore GOLD) "provider-2" "1000" None)
    as (_ & _ & _ & H & _).
  destruct (H (Big.mk 1000 0)) as [_ (a & Ha & Htier & _)].
  - vm_compute. reflexivity.
  - reflexivity.
  - vm_compute. reflexivity.
  - exists a. split; [exact Ha |]. rewrite Htier. vm_compute. reflexivity.
Defined.

(** ** Reports *)

(** *** Values and sums *)

Lemma pow10_pos_id (k : nat) : Z.pos (Z.to_pos (pow10 k)) = pow10 k.
Proof. apply Z2Pos.id, pow10_pos. Qed.

Lemma bigValue_plus (x y : Big.t) :
  (bigValue (Big.plus x y) == bigValue x + bigValue y)%Q.
Proof.
  destruct x as [cx dx], y as [cy dy].
  unfold bigValue, Big.plus, Qeq, Qplus. cbn [Qnum Qden Big.coef Big.dp].
  rewrite Pos2Z.inj_mul, !pow10_pos_id.
  destruct (Nat.le_ge_cases dx dy) as [Hle | Hge].
  - destruct (Nat.le_exists_sub dx dy Hle) as (k & -> & _).
    replace (k + dx - dx)%nat with k by lia.
    replace (dx - (k + dx))%nat with 0%nat by lia.
    replace (Nat.max dx (k + dx)) with (k + dx)%nat by lia.
    rewrite !pow10_add. change (pow10 0) with 1. ring.
  - destruct (Nat.le_exists_sub dy dx Hge) as (k & -> & _).
    replace (k + dy - dy)%nat with k by lia.
    replace (dy - (k + dy))%nat with 0%nat by lia.
    replace (Nat.max (k + dy) dy) with (k + dy)%nat by lia.
    rewrite !pow10_add. change (pow10 0) with 1. ring.
Qed.

Lemma bigValue_zero : (bigValue (Big.of_Z 0) == 0)%Q.
Proof. reflexivity. Qed.

Lemma amountValue_some (s : string) (x : Big.t) :
  Big.of_string s = Some x -> amountValue s = bigValue x.
Proof. intros H. unfold amountValue. by rewrite H. Qed.

Lemma sumOver_snoc {A : Type} (f : A -> Q) (l : list A) (x : A) :
  (sumOver f (l ++ [x]) == sumOver f l + f x)%Q.
Proof.
  induction l as [|y l IH]; cbn [app sumOver foldr].
  - ring.
  - fold (sumOver f (l ++ [x])). fold (sumOver f l). rewrite IH. ring.
Qed.

Lemma filter_snoc {A : Type} (f : A -> bool) (l : list A) (x : A) :
  List.filter f (l ++ [x]) = List.filter f l ++ (if f x then [x] else []).
Proof. rewrite List.filter_app. reflexivity. Qed.

Lemma sumOver_filter_snoc {A : Type} (g : A -> Q) (f : A -> bool) (l : list A) (x : A) :
  (sumOver g (List.filter f (l ++ [x]))
   == sumOver g (List.filter f l) + (if f x then g x else 0))%Q.
Proof.
  rewrite filter_snoc. destruct (f x).
  - apply sumOver_snoc.
  - rewrite app_nil_r. ring.
Qed.

(** *** Dates *)

Lemma leb_refl (a : Date.t) : Date.leb a a = true.
Proof.
  unfold Date.leb. rewrite !Z.eqb_refl, N.leb_refl.
  by rewrite !andb_true_r, !orb_true_r.
Qed.

Lemma leb_spec (a b : Date.t) :
  Date.leb a b = true
  <-> Date.getFullYear a < Date.getFullYear b
      \/ (Date.getFullYear a = Date.getFullYear b
          /\ (Date.getMonth a < Date.getMonth b
              \/ (Date.getMonth a = Date.getMonth b
                  /\ (Date.sinceMonthStart a <= Date.sinceMonthStart b)%N))).
Proof.
  unfold Date.leb.
  rewrite !orb_true_iff, !andb_true_iff, !orb_true_iff, !andb_true_iff.
  rewrite !Z.ltb_lt, !Z.eqb_eq, N.leb_le. reflexivity.
Qed.

Lemma leb_total (a b : Date.t) : Date.leb a b = false -> Date.leb b a = true.
Proof.
  intros H. apply leb_spec.
  assert (Hn : ~ (Date.leb a b = true)) by (rewrite H; discriminate).
  rewrite leb_spec in Hn. lia.
Qed.

Lemma leb_trans (a b c : Date.t) :
  Date.leb a b = true -> Date.leb b c = true -> Date.leb a c = true.
Proof. rewrite !leb_spec. lia. Qed.

(** *** Sorting with a comparator that is a total order *)

Section SortByOrder.
Context {A : Type} (cmp : A -> A -> Z).
Hypothesis cmp_total : forall x y, 0 < cmp x y -> cmp y x <= 0.
Hypothesis cmp_trans : forall x y z, cmp x y <= 0 -> cmp y z <= 0 -> cmp x z <= 0.

Lemma sort_insert_ordered (x : A) (l : list A) :
StronglySorted (fun a b => cmp a b <= 0) l ->
StronglySorted (fun a b => cmp a b <= 0) (sort_insert cmp x l).
Proof.
induction 1 as [|y l Hs IH Hy]; cbn [sort_insert].
- repeat constructor.
- destruct (0 <? cmp x y) eqn:Hc.
  + apply Z.ltb_lt in Hc. constructor; [exact IH |].
    rewrite sort_insert_perm. constructor; [by apply cmp_total | exact Hy].
  + apply Z.ltb_ge in Hc. constructor; [by constructor |].
    constructor; [exact Hc |].
    eapply Forall_impl; [exact Hy |]. cbn. intros z Hz. by eapply cmp_trans.
Qed.

Lemma js_sort_ordered (l : list A) :
StronglySorted (fun a b => cmp a b <= 0) (js_sort cmp l).
Proof.
induction l as [|x l IH]; cbn [js_sort foldr]; [constructor | by apply sort_insert_ordered].
Qed.
End SortByOrder.

(** *** Period keys *)

Lemma int_digits_app (fuel : nat) : forall (n : Z) (acc rest : string),
  String.append (int_digits fuel n acc) rest = int_digits fuel n (String.append acc rest).
Proof.
  induction fuel as [|fuel IH]; intros n acc rest; [reflexivity |].
  cbn [int_digits]. destruct (Z.eqb (n / 10) 0); [reflexivity | apply IH].
Qed.

Lemma Z_digits_app (n : Z) (rest : string) :
  String.append (Z_digits n "") rest = Z_digits n rest.
Proof. unfold Z_digits. apply int_digits_app. Qed.

Lemma scan_Z_digits (n : Z) (rest : string) :
  0 <= n ->
  (forall a c, scan_digits rest a c = (a, c, rest)) ->
  exists k, scan_digits (Z_digits n rest) 0 0 = (n, S k, rest).
Proof.
  intros Hn Hrest. destruct (Z_digits_run n rest Hn) as [k Hk].
  exists k. rewrite Hk, Hrest. repeat f_equal; lia.
Qed.

Lemma numberToString_app (n : Z) (rest : string) :
  String.append (numberToString n) rest
  = if n <? 0 then String "-" (Z_digits (- n) rest) else Z_digits n rest.
Proof.
  unfold numberToString. destruct (n <? 0).
  - change (String "-" (String.append (Z_digits (- n) "") rest)
            = String "-" (Z_digits (- n) rest)).
    by rewrite Z_digits_app.
  - apply Z_digits_app.
Qed.

Lemma readNumber_numberToString (n : Z) (rest : string) :
  (forall a c, scan_digits rest a c = (a, c, rest)) ->
  readNumber (String.append (numberToString n) rest) = (n, rest).
Proof.
  intros Hrest. rewrite numberToString_app. unfold readNumber.
  destruct (Z.ltb_spec n 0) as [Hneg | Hpos].
  - destruct (scan_Z_digits (- n) rest ltac:(lia) Hrest) as [k Hk].
    cbn [scan_digits]. change (digit_val "-") with (@None Z). cbn [Nat.eqb].
    rewrite Hk. f_equal. lia.
  - destruct (scan_Z_digits n rest Hpos Hrest) as [k ->]. reflexivity.
Qed.

Lemma readPeriodKey_periodKey (year month : Z) :
  readPeriodKey (periodKey year month) = Some (year, month).
Proof.
  unfold readPeriodKey, periodKey.
  rewrite readNumber_numberToString by reflexivity.
  replace (numberToString month) with (String.append (numberToString month) "").
  - by rewrite readNumber_numberToString.
  - generalize (numberToString month). intros s.
    induction s as [|c s IH]; [reflexivity |].
    change (String c (String.append s "") = String c s). by rewrite IH.
Qed.

Lemma periodKey_inj (y m y' m' : Z) :
  periodKey y m = periodKey y' m' -> y = y' /\ m = m'.
Proof.
  intros H. pose proof (readPeriodKey_periodKey y m) as H1.
  rewrite H, readPeriodKey_periodKey in H1. by injection H1.
Qed.

(** *** Maps in insertion order *)

Lemma mapGet_elem {K V : Type} `{EqDecision K} (key : K) (v : V) (m : list (K * V)) :
  mapGet key m = Some v -> (key, v) ∈ m.
Proof.
  induction m as [|[k w] m IH]; cbn [mapGet]; [discriminate |].
  destruct (bool_decide_reflect (k = key)) as [-> | Hne].
  - intros [= ->]. left.
  - intros H. right. by apply IH.
Qed.

Lemma mapGet_none {K V : Type} `{EqDecision K} (key : K) (m : list (K * V)) :
  mapGet key m = None <-> key ∉ m.*1.
Proof.
  induction m as [|[k w] m IH]; cbn [mapGet fmap list_fmap fst].
  - split; [intros _; apply not_elem_of_nil | done].
  - rewrite not_elem_of_cons. destruct (bool_decide_reflect (k = key)) as [-> | Hne].
    + split; [discriminate | intros [? _]; done].
    + rewrite IH. split; [intros ?; split; congruence | tauto].
Qed.

Lemma mapGet_unique {K V : Type} `{EqDecision K} (key : K) (v : V) (m : list (K * V)) :
  NoDup m.*1 -> (key, v) ∈ m -> mapGet key m = Some v.
Proof.
  induction m as [|[k w] m IH]; cbn [mapGet fmap list_fmap fst].
  - intros _ H. by apply elem_of_nil in H.
  - intros Hnd Hin. apply NoDup_cons in Hnd as [Hk Hnd].
    apply elem_of_cons in Hin as [[= <- <-] | Hin].
    + by rewrite bool_decide_eq_true_2.
    + rewrite bool_decide_eq_false_2; [by apply IH |].
      intros ->. apply Hk. by apply (list_elem_of_fmap_2 fst _ (key, v)).
Qed.

Lemma mapSet_new {K V : Type} `{EqDecision K} (key : K) (v : V) (m : list (K * V)) :
  mapGet key m = None -> mapSet key v m = m ++ [(key, v)].
Proof.
  induction m as [|[k w] m IH]; cbn [mapGet mapSet]; [reflexivity |].
  destruct (bool_decide (k = key)); [discriminate |].
  intros H. cbn [app]. by rewrite IH.
Qed.

Lemma mapSet_keys {K V : Type} `{EqDecision K} (key : K) (v : V) (m : list (K * V)) :
  is_Some (mapGet key m) -> (mapSet key v m).*1 = m.*1.
Proof.
  induction m as [|[k w] m IH]; cbn [mapGet mapSet]; [intros [? [=]] |].
  destruct (bool_decide (k = key)); [reflexivity |].
  intros H. cbn [fmap list_fmap fst]. f_equal. by apply IH.
Qed.

Lemma mapSet_elem {K V : Type} `{EqDecision K} (key : K) (v : V) (m : list (K * V))
    (k : K) (w : V) :
  NoDup m.*1 -> is_Some (mapGet key m) ->
  (k, w) ∈ mapSet key v m <-> (k = key /\ w = v) \/ (k <> key /\ (k, w) ∈ m).
Proof.
  induction m as [|[k0 w0] m IH]; cbn [mapGet mapSet fmap list_fmap fst];
    [intros _ [? [=]] |].
  intros Hnd Hsome. apply NoDup_cons in Hnd as [Hk0 Hnd].
  destruct (bool_decide_reflect (k0 = key)) as [-> | Hne].
  - rewrite !elem_of_cons. split.
    + intros [[= -> ->] | Hin]; [by left |]. right. split; [| by right].
      intros ->. apply Hk0. by apply (list_elem_of_fmap_2 fst _ (key, w)).
    + intros [[-> ->] | [Hk [[= -> ->] | Hin]]]; [by left | done | by right].
  - rewrite !elem_of_cons, (IH Hnd Hsome). split.
    + intros [[= -> ->] | [[-> ->] | [Hk Hin]]].
      * right. split; [done | by left].
      * by left.
      * right. split; [done | by right].
    + intros [[-> ->] | [Hk [[= -> ->] | Hin]]].
      * right. by left.
      * by left.
      * right. right. by split.
Qed.

(** *** The loop of the earnings summary *)

Ltac decide_status :=
  repeat match goal with
         | |- context [bool_decide (?a = ?b)] =>
             let r := eval vm_compute in (bool_decide (a = b)) in
             change (bool_decide (a = b)) with r
         | H : context [bool_decide (?a = ?b)] |- _ =>
             let r := eval vm_compute in (bool_decide (a = b)) in
             change (bool_decide (a = b)) with r in H
         end.

Lemma summaryStep_run (p : ProviderRevenuePayout.t) (v : SummaryVars) (st : Store) :
  summable p -> summaryStep p v st = (st, Ok (summaryNext p v)).
Proof.
  intros ([rs Hrs] & [bonus Hb] & Ht).
  unfold summaryStep, summaryNext, isCompleted, isOutstanding in *.
  unfold bind at 1. unfold newBig at 1. rewrite Hrs. cbn [ret].
  unfold bind at 1. unfold newBig at 1. rewrite Hb. cbn [ret default].
  destruct (ProviderRevenuePayout.status p) eqn:Hstatus; decide_status;
    cbn [orb] in *; try reflexivity.
  - destruct (Ht eq_refl) as [t Htot]. unfold bind, newBig. rewrite Htot. reflexivity.
  - destruct (Ht eq_refl) as [t Htot]. unfold bind, newBig. rewrite Htot. reflexivity.
Qed.

Lemma summaryStep_outcome (p : ProviderRevenuePayout.t) (v : SummaryVars) (st : Store) :
  summaryStep p v st = (st, Throw (Error BigInvalidNumber))
  \/ exists v', summaryStep p v st = (st, Ok v').
Proof.
  destruct (Big.of_string (ProviderRevenuePayout.revenueShareAmount p)) as [rs|] eqn:Hrs;
    [| left; unfold summaryStep, bind, newBig; by rewrite Hrs].
  destruct (Big.of_string (ProviderRevenuePayout.bonusAmount p)) as [bonus|] eqn:Hb;
    [| left; unfold summaryStep, bind, newBig; by rewrite Hrs, Hb].
  destruct (isOutstanding p) eqn:Hout.
  - destruct (Big.of_string (ProviderRevenuePayout.totalPayout p)) as [t|] eqn:Htot.
    + right. eexists. apply summaryStep_run. unfold summable.
      rewrite Hrs, Hb, Htot. by repeat split.
    + left. unfold summaryStep. unfold bind at 1. unfold newBig at 1. rewrite Hrs.
      cbn [ret]. unfold bind at 1. unfold newBig at 1. rewrite Hb. cbn [ret].
      unfold isOutstanding in Hout.
      destruct (ProviderRevenuePayout.status p); decide_status; cbn [orb] in *;
        try discriminate; unfold bind, newBig; by rewrite Htot.
  - right. eexists. apply summaryStep_run. unfold summable.
    rewrite Hrs, Hb, Hout. by repeat split.
Qed.

Lemma summaryStep_bad_bonus (p : ProviderRevenuePayout.t) (v : SummaryVars) (st : Store) :
  Big.of_string (ProviderRevenuePayout.bonusAmount p) = None ->
  summaryStep p v st = (st, Throw (Error BigInvalidNumber)).
Proof.
  intros Hb. unfold summaryStep. unfold bind at 1. unfold newBig at 1.
  destruct (Big.of_string (ProviderRevenuePayout.revenueShareAmount p)); [| reflexivity].
  cbn [ret]. unfold bind at 1. unfold newBig at 1. by rewrite Hb.
Qed.

Lemma summary_loop_throws (ps : list ProviderRevenuePayout.t) (p : ProviderRevenuePayout.t) :
  p ∈ ps -> Big.of_string (ProviderRevenuePayout.bonusAmount p) = None ->
  forall v st, forEach ps summaryStep v st = (st, Throw (Error BigInvalidNumber)).
Proof.
  intros Hin Hb. induction ps as [|q ps IH]; [by apply elem_of_nil in Hin |].
  intros v st. cbn [forEach]. unfold bind.
  apply elem_of_cons in Hin as [<- | Hin].
  - by rewrite summaryStep_bad_bonus.
  - destruct (summaryStep_outcome q v st) as [-> | [v' ->]]; [reflexivity |].
    by apply IH.
Qed.

Lemma default_of_string (s : string) (x : Big.t) :
  Big.of_string s = Some x -> default (Big.of_Z 0) (Big.of_string s) = x.
Proof. by intros ->. Qed.

Lemma summaryInv_nil :
  summaryInv [] (mkVars (Big.of_Z 0) (Big.of_Z 0) (Big.of_Z 0) None []).
Proof.
  constructor; cbn.
  - reflexivity.
  - reflexivity.
  - reflexivity.
  - intros d [=].
  - intros _ p Hp. by apply elem_of_nil in Hp.
  - constructor.
  - intros key m H. by apply elem_of_nil in H.
  - intros p Hp. by apply elem_of_nil in Hp.
Qed.

Lemma summaryInv_totals (seen : list ProviderRevenuePayout.t) (v : SummaryVars)
    (p : ProviderRevenuePayout.t) :
  summaryInv seen v -> summable p ->
  (bigValue (v_totalEarnings (summaryNext p v))
   == sumOver (fun p => amountValue (ProviderRevenuePayout.revenueShareAmount p)
                        + amountValue (ProviderRevenuePayout.bonusAmount p))
              (List.filter isCompleted (seen ++ [p])))%Q
  /\ (bigValue (v_totalBonuses (summaryNext p v))
      == sumOver (fun p => amountValue (ProviderRevenuePayout.bonusAmount p))
                 (List.filter isCompleted (seen ++ [p])))%Q
  /\ (bigValue (v_pendingPayouts (summaryNext p v))
      == sumOver (fun p => amountValue (ProviderRevenuePayout.totalPayout p))
                 (List.filter isOutstanding (seen ++ [p])))%Q.
Proof.
  intros Hinv ([rs Hrs] & [bonus Hb] & Ht).
  rewrite !sumOver_filter_snoc. unfold summaryNext.
  cbn [v_totalEarnings v_totalBonuses v_pendingPayouts].
  rewrite (default_of_string _ _ Hrs), (default_of_string _ _ Hb).
  rewrite (amountValue_some _ _ Hrs), (amountValue_some _ _ Hb).
  rewrite <- (inv_earnings _ _ Hinv), <- (inv_bonuses _ _ Hinv), <- (inv_pending _ _ Hinv).
  split; [| split].
  - destruct (isCompleted p); [rewrite !bigValue_plus |]; ring.
  - destruct (isCompleted p); [rewrite !bigValue_plus |]; ring.
  - destruct (isOutstanding p).
    + destruct (Ht eq_refl) as [t Htot].
      rewrite (default_of_string _ _ Htot), (amountValue_some _ _ Htot), bigValue_plus.
      ring.
    + ring.
Qed.

Lemma summaryInv_last (seen : list ProviderRevenuePayout.t) (v : SummaryVars)
    (p : ProviderRevenuePayout.t) :
  summaryInv seen v ->
  (forall d, v_lastPayoutAt (summaryNext p v) = Some d ->
     (exists q, q ∈ seen ++ [p] /\ isCompleted q = true
                /\ ProviderRevenuePayout.paidAt q = Some d)
     /\ (forall q d', q ∈ seen ++ [p] -> isCompleted q = true ->
           ProviderRevenuePayout.paidAt q = Some d' -> Date.leb d' d = true))
  /\ (v_lastPayoutAt (summaryNext p v) = None ->
      forall q, q ∈ seen ++ [p] -> isCompleted q = true ->
                ProviderRevenuePayout.paidAt q = None).
Proof.
  intros Hinv. unfold summaryNext. cbn [v_lastPayoutAt].
  pose proof (inv_last_some _ _ Hinv) as Hsome.
  pose proof (inv_last_none _ _ Hinv) as Hnone.
  destruct (isCompleted p) eqn:Hc.
  - destruct (v_lastPayoutAt v) as [last|] eqn:Hlast.
    + destruct (Hsome last eq_refl) as [(q0 & Hq0 & Hc0 & Hp0) Hmax].
      destruct (ProviderRevenuePayout.paidAt p) as [paid|] eqn:Hpaid.
      * destruct (Date.leb paid last) eqn:Hle; cbn [negb].
        -- split; [| discriminate]. intros d [= <-]. split.
           ++ exists q0. split; [apply elem_of_app; by left | done].
           ++ intros q d' Hq Hcq Hpq. apply elem_of_app in Hq as [Hq | Hq].
              ** by eapply Hmax.
              ** apply list_elem_of_singleton in Hq as ->. congruence.
        -- split; [| discriminate]. intros d [= <-]. split.
           ++ exists p. split; [apply elem_of_app; right; by left | done].
           ++ intros q d' Hq Hcq Hpq. apply elem_of_app in Hq as [Hq | Hq].
              ** apply (leb_trans _ last); [by eapply Hmax | by apply leb_total].
              ** apply list_elem_of_singleton in Hq as ->.
                 rewrite Hpaid in Hpq. injection Hpq as <-. apply leb_refl.
      * split; [| discriminate]. intros d [= <-]. split.
        -- exists q0. split; [apply elem_of_app; by left | done].
        -- intros q d' Hq Hcq Hpq. apply elem_of_app in Hq as [Hq | Hq].
           ++ by eapply Hmax.
           ++ apply list_elem_of_singleton in Hq as ->. congruence.
    + split.
      * intros d Hd. split.
        -- exists p. split; [apply elem_of_app; right; by left | done].
        -- intros q d' Hq Hcq Hpq. apply elem_of_app in Hq as [Hq | Hq].
           ++ rewrite (Hnone eq_refl q Hq Hcq) in Hpq. discriminate.
           ++ apply list_elem_of_singleton in Hq as ->.
              rewrite Hd in Hpq. injection Hpq as <-. apply leb_refl.
      * intros Hp q Hq Hcq. apply elem_of_app in Hq as [Hq | Hq].
        -- by apply Hnone.
        -- by apply list_elem_of_singleton in Hq as ->.
  - split.
    + intros d Hd. destruct (Hsome d Hd) as [(q0 & Hq0 & Hc0 & Hp0) Hmax]. split.
      * exists q0. split; [apply elem_of_app; by left | done].
      * intros q d' Hq Hcq Hpq. apply elem_of_app in Hq as [Hq | Hq].
        -- by eapply Hmax.
        -- apply list_elem_of_singleton in Hq as ->. congruence.
    + intros Hl q Hq Hcq. apply elem_of_app in Hq as [Hq | Hq].
      * by apply Hnone.
      * apply list_elem_of_singleton in Hq as ->. congruence.
Qed.

Lemma inPeriod_spec (year month : Z) (p : ProviderRevenuePayout.t) :
  inPeriod year month p = true
  <-> ProviderRevenuePayout.periodYear p = year /\ ProviderRevenuePayout.periodMonth p = month.
Proof. unfold inPeriod. by rewrite andb_true_iff, !Z.eqb_eq. Qed.

Lemma inPeriod_own (p : ProviderRevenuePayout.t) :
  inPeriod (ProviderRevenuePayout.periodYear p) (ProviderRevenuePayout.periodMonth p) p
  = true.
Proof. by apply inPeriod_spec. Qed.

Lemma inPeriod_other (year month : Z) (p : ProviderRevenuePayout.t) :
  periodKey year month
  <> periodKey (ProviderRevenuePayout.periodYear p) (ProviderRevenuePayout.periodMonth p) ->
  inPeriod year month p = false.
Proof.
  intros Hne. destruct (inPeriod year month p) eqn:H; [| reflexivity].
  apply inPeriod_spec in H as [<- <-]. done.
Qed.

Lemma filter_none {A : Type} (f : A -> bool) (l : list A) :
  (forall x, x ∈ l -> f x = false) -> List.filter f l = [].
Proof.
  intros H. induction l as [|x l IH]; [reflexivity |].
  cbn [List.filter]. rewrite (H x) by left. apply IH. intros y Hy. apply H. by right.
Qed.

Lemma summaryInv_map (seen : list ProviderRevenuePayout.t) (v : SummaryVars)
    (p : ProviderRevenuePayout.t) :
  summaryInv seen v -> summable p ->
  NoDup (v_monthlyMap (summaryNext p v)).*1
  /\ (forall key m, (key, m) ∈ v_monthlyMap (summaryNext p v) ->
        key = periodKey (mt_year m) (mt_month m)
        /\ (exists q, q ∈ seen ++ [p] /\ inPeriod (mt_year m) (mt_month m) q = true)
        /\ (bigValue (mt_revenueShare m)
            == sumOver (fun p => amountValue (ProviderRevenuePayout.revenueShareAmount p))
                       (List.filter (inPeriod (mt_year m) (mt_month m)) (seen ++ [p])))%Q
        /\ (bigValue (mt_bonuses m)
            == sumOver (fun p => amountValue (ProviderRevenuePayout.bonusAmount p))
                       (List.filter (inPeriod (mt_year m) (mt_month m)) (seen ++ [p])))%Q)
  /\ (forall q, q ∈ seen ++ [p] ->
        exists m, (periodKey (ProviderRevenuePayout.periodYear q)
                             (ProviderRevenuePayout.periodMonth q), m)
                  ∈ v_monthlyMap (summaryNext p v)).
Proof.
  intros Hinv ([rs Hrs] & [bonus Hb] & _).
  pose proof (inv_keys _ _ Hinv) as Hkeys.
  pose proof (inv_entries _ _ Hinv) as Hentries.
  pose proof (inv_periods _ _ Hinv) as Hperiods.
  unfold summaryNext. cbn [v_monthlyMap].
  rewrite (default_of_string _ _ Hrs), (default_of_string _ _ Hb).
  set (y := ProviderRevenuePayout.periodYear p) in *.
  set (mo := ProviderRevenuePayout.periodMonth p) in *.
  set (k := periodKey y mo).
  pose proof (inPeriod_own p : inPeriod y mo p = true) as Hown.
  assert (Hold : forall key m, (key, m) ∈ v_monthlyMap v -> key <> k ->
            key = periodKey (mt_year m) (mt_month m)
            /\ (exists q, q ∈ seen ++ [p] /\ inPeriod (mt_year m) (mt_month m) q = true)
            /\ (bigValue (mt_revenueShare m)
                == sumOver (fun p => amountValue (ProviderRevenuePayout.revenueShareAmount p))
                     (List.filter (inPeriod (mt_year m) (mt_month m)) (seen ++ [p])))%Q
            /\ (bigValue (mt_bonuses m)
                == sumOver (fun p => amountValue (ProviderRevenuePayout.bonusAmount p))
                     (List.filter (inPeriod (mt_year m) (mt_month m)) (seen ++ [p])))%Q).
  { intros key m Hin Hne. destruct (Hentries key m Hin) as (Hkey & (q & Hq & Hqp) & Hr & Hbn).
    split; [exact Hkey |]. split; [exists q; split; [apply elem_of_app; by left | done] |].
    assert (Hp : inPeriod (mt_year m) (mt_month m) p = false)
      by (apply inPeriod_other; by rewrite <- Hkey).
    rewrite !sumOver_filter_snoc, Hp, Hr, Hbn. split; ring. }
  destruct (mapGet k (v_monthlyMap v)) as [e|] eqn:Hget; cbn [default from_option id].
  - (* the period has an entry already *)
    pose proof (mapGet_elem _ _ _ Hget) as He.
    destruct (Hentries k e He) as (Hkey & _ & Hr & Hbn).
    destruct (periodKey_inj _ _ _ _ Hkey) as [Hy Hmo].
    assert (Hsome : is_Some (mapGet k (v_monthlyMap v))) by (by eexists).
    split; [by rewrite mapSet_keys |]. split.
    + intros key m Hin. apply (mapSet_elem _ _ _ _ _ Hkeys Hsome) in Hin
        as [[-> ->] | [Hne Hin]]; [| by apply Hold].
      cbn [mt_year mt_month mt_revenueShare mt_bonuses]. rewrite <- Hy, <- Hmo.
      split; [reflexivity |].
      split; [exists p; split; [apply elem_of_app; right; by left | exact Hown] |].
      rewrite !sumOver_filter_snoc, Hown.
      rewrite !bigValue_plus, (amountValue_some _ _ Hrs), (amountValue_some _ _ Hb).
      rewrite Hr, Hbn, <- Hy, <- Hmo. split; reflexivity.
    + intros q Hq.
      destruct (decide (periodKey (ProviderRevenuePayout.periodYear q)
                                  (ProviderRevenuePayout.periodMonth q) = k)) as [-> | Hne].
      * eexists. apply (mapSet_elem _ _ _ _ _ Hkeys Hsome). by left.
      * apply elem_of_app in Hq as [Hq | Hq];
          [| apply list_elem_of_singleton in Hq as ->; done].
        destruct (Hperiods q Hq) as [m Hm]. exists m.
        apply (mapSet_elem _ _ _ _ _ Hkeys Hsome). right. by split.
  - (* the period is new *)
    rewrite (mapSet_new _ _ _ Hget). apply mapGet_none in Hget.
    assert (Hfresh : forall q, q ∈ seen -> inPeriod y mo q = false).
    { intros q Hq. destruct (inPeriod y mo q) eqn:Hqp; [| reflexivity].
      apply inPeriod_spec in Hqp as [Hqy Hqm]. destruct (Hperiods q Hq) as [m Hm].
      rewrite Hqy, Hqm in Hm. exfalso. apply Hget.
      by apply (list_elem_of_fmap_2 fst _ (k, m)). }
    split.
    { rewrite fmap_app. apply NoDup_app. split; [exact Hkeys |].
      split; [| apply NoDup_singleton].
      intros key Hk1 Hk2. apply list_elem_of_singleton in Hk2 as ->. done. }
    split.
    + intros key m Hin. apply elem_of_app in Hin as [Hin | Hin].
      * apply Hold; [exact Hin |]. intros ->. apply Hget.
        by apply (list_elem_of_fmap_2 fst _ (k, m)).
      * apply list_elem_of_singleton in Hin as [= -> ->].
        cbn [mt_year mt_month mt_revenueShare mt_bonuses].
        split; [reflexivity |].
        split; [exists p; split; [apply elem_of_app; right; by left | exact Hown] |].
        rewrite !sumOver_filter_snoc, Hown.
        rewrite (filter_none _ _ Hfresh).
        rewrite !bigValue_plus, bigValue_zero.
        rewrite (amountValue_some _ _ Hrs), (amountValue_some _ _ Hb).
        cbn [sumOver foldr]. split; ring.
    + intros q Hq. apply elem_of_app in Hq as [Hq | Hq].
      * destruct (Hperiods q Hq) as [m Hm]. exists m. apply elem_of_app. by left.
      * apply list_elem_of_singleton in Hq as ->. eexists. apply elem_of_app. right. by left.
Qed.

Lemma summaryInv_step (seen : list ProviderRevenuePayout.t) (v : SummaryVars)
    (p : ProviderRevenuePayout.t) :
  summaryInv seen v -> summable p -> summaryInv (seen ++ [p]) (summaryNext p v).
Proof.
  intros Hinv Hp.
  destruct (summaryInv_totals _ _ _ Hinv Hp) as (H1 & H2 & H3).
  destruct (summaryInv_last _ _ p Hinv) as (H4 & H5).
  destruct (summaryInv_map _ _ _ Hinv Hp) as (H6 & H7 & H8).
  by constructor.
Qed.

Lemma summary_loop (ps : list ProviderRevenuePayout.t) :
  Forall summable ps ->
  forall (seen : list ProviderRevenuePayout.t) (v : SummaryVars) (st : Store),
    summaryInv seen v ->
    exists v', forEach ps summaryStep v st = (st, Ok v') /\ summaryInv (seen ++ ps) v'.
Proof.
  induction 1 as [|p ps Hp _ IH]; intros seen v st Hinv.
  - exists v. rewrite app_nil_r. by split.
  - cbn [forEach]. unfold bind. rewrite (summaryStep_run _ _ _ Hp).
    destruct (IH (seen ++ [p]) (summaryNext p v) st (summaryInv_step _ _ _ Hinv Hp))
      as (v' & Hrun & Hinv').
    exists v'. split; [exact Hrun |]. by rewrite <- app_assoc in Hinv'.
Qed.

Lemma getProviderEarningsSummary_run (st : Store) (pid : string)
    (a : ProviderTierAssignment.t) :
  assignmentRepo st !! pid = Some a ->
  Forall summable (payoutsOf pid (payoutRepo st)) ->
  exists v,
    summaryInv (payoutsOf pid (payoutRepo st)) v
    /\ getProviderEarningsSummary pid st
       = (st, Ok (ProviderEarningsSummaryDto.mk pid
                    (ProviderTierAssignment.currentTier a)
                    (match findTier (ProviderTierAssignment.currentTier a) (tierRepo st) with
                     | Some def => RevenueShareTier.revenueSharePercentage def
                     | None => "0"%string
                     end)
                    (Big.toFixed (v_totalEarnings v) 8)
                    (Big.toFixed (v_totalBonuses v) 8)
                    (Big.toFixed (v_pendingPayouts v) 8)
                    (v_lastPayoutAt v)
                    (List.map
                       (fun m => mkBreakdown (mt_year m) (mt_month m)
                                   (Big.toFixed (mt_revenueShare m) 8)
                                   (Big.toFixed (mt_bonuses m) 8)
                                   (Big.toFixed (Big.plus (mt_revenueShare m) (mt_bonuses m)) 8))
                       (js_sort byPeriodDesc (v_monthlyMap v).*2)))).
Proof.
  intros Ha Hps.
  destruct (summary_loop _ Hps [] (mkVars (Big.of_Z 0) (Big.of_Z 0) (Big.of_Z 0) None [])
              st summaryInv_nil) as (v & Hrun & Hinv).
  exists v. split; [exact Hinv |].
  unfold getProviderEarningsSummary. unfold bind at 1, gets at 1. rewrite Ha.
  unfold bind at 1, gets at 1. unfold bind at 1, gets at 1. unfold bind at 1.
  rewrite Hrun. reflexivity.
Qed.

(** X15. [getProviderEarningsSummary] throws the not-found error for a
    provider without a tier assignment and never changes the store.  When
    the amounts of the provider's payouts are decimal numerals it returns
    the provider's tier with the percentage of its row ("0" when the tier
    has no row); [totalEarnings] is the sum of share and bonus over the
    COMPLETED payouts, [totalBonuses] the sum of their bonuses and
    [pendingPayouts] the sum of the totals of the PENDING and PROCESSING
    ones, each printed with 8 decimals, so that a FAILED payout counts in
    none of the three; [lastPayoutAt] is the latest payment date of a
    COMPLETED payout, absent when none has one. *)
Theorem getProviderEarningsSummary_totals (st : Store) (pid : string) :
  (getProviderEarningsSummary pid st).1 = st
  /\ (assignmentRepo st !! pid = None ->
      getProviderEarningsSummary pid st
      = (st, Throw (NotFoundException (NoTierAssignment pid))))
  /\ (forall a,
        assignmentRepo st !! pid = Some a ->
        Forall summable (payoutsOf pid (payoutRepo st)) ->
        exists dto E B P,
          getProviderEarningsSummary pid st = (st, Ok dto)
          /\ ProviderEarningsSummaryDto.providerId dto = pid
          /\ ProviderEarningsSummaryDto.currentTier dto
             = ProviderTierAssignment.currentTier a
          /\ ProviderEarningsSummaryDto.revenueSharePercentage dto
             = match findTier (ProviderTierAssignment.currentTier a) (tierRepo st) with
               | Some def => RevenueShareTier.revenueSharePercentage def
               | None => "0"%string
               end
          /\ ProviderEarningsSummaryDto.totalEarnings dto = Big.toFixed E 8
          /\ (bigValue E
              == sumOver (fun p => amountValue (ProviderRevenuePayout.revenueShareAmount p)
                                   + amountValue (ProviderRevenuePayout.bonusAmount p))
                         (List.filter isCompleted (payoutsOf pid (payoutRepo st))))%Q
          /\ ProviderEarningsSummaryDto.totalBonuses dto = Big.toFixed B 8
          /\ (bigValue B
              == sumOver (fun p => amountValue (ProviderRevenuePayout.bonusAmount p))
                         (List.filter isCompleted (payoutsOf pid (payoutRepo st))))%Q
          /\ ProviderEarningsSummaryDto.pendingPayouts dto = Big.toFixed P 8
          /\ (bigValue P
              == sumOver (fun p => amountValue (ProviderRevenuePayout.totalPayout p))
                         (List.filter isOutstanding (payoutsOf pid (payoutRepo st))))%Q
          /\ (forall d, ProviderEarningsSummaryDto.lastPayoutAt dto = Some d ->
                (exists p, p ∈ payoutsOf pid (payoutRepo st) /\ isCompleted p = true
                           /\ ProviderRevenuePayout.paidAt p = Some d)
                /\ (forall p d', p ∈ payoutsOf pid (payoutRepo st) ->
                      isCompleted p = true ->
                      ProviderRevenuePayout.paidAt p = Some d' -> Date.leb d' d = true))
          /\ (ProviderEarningsSummaryDto.lastPayoutAt dto = None ->
              forall p, p ∈ payoutsOf pid (payoutRepo st) -> isCompleted p = true ->
                        ProviderRevenuePayout.paidAt p = None)).
Proof.
  split; [| split].
  - destruct (writesOnly_getProviderEarningsSummary pid st) as (H1 & H2 & H3 & H4 & H5 & H6 & H7).
    destruct ((getProviderEarningsSummary pid st).1) as [a b c d e f g], st as [a' b' c' d' e' f' g'].
    cbn in *. rewrite H1, H2, H3, H4, H5, H6, H7 by reflexivity. reflexivity.
  - intros Hnone. unfold getProviderEarningsSummary, bind, gets. by rewrite Hnone.
  - intros a Ha Hps.
    destruct (getProviderEarningsSummary_run st pid a Ha Hps) as (v & Hinv & Hrun).
    eexists _, (v_totalEarnings v), (v_totalBonuses v), (v_pendingPayouts v).
    split; [exact Hrun |].
    cbn [ProviderEarningsSummaryDto.providerId ProviderEarningsSummaryDto.currentTier
         ProviderEarningsSummaryDto.revenueSharePercentage
         ProviderEarningsSummaryDto.totalEarnings ProviderEarningsSummaryDto.totalBonuses
         ProviderEarningsSummaryDto.pendingPayouts ProviderEarningsSummaryDto.lastPayoutAt].
    do 4 (split; [reflexivity |]).
    split; [apply (inv_earnings _ _ Hinv) |]. split; [reflexivity |].
    split; [apply (inv_bonuses _ _ Hinv) |]. split; [reflexivity |].
    split; [apply (inv_pending _ _ Hinv) |].
    split; [apply (inv_last_some _ _ Hinv) | apply (inv_last_none _ _ Hinv)].
Qed.

Lemma reportStore_summable :
  Forall summable (payoutsOf "provider-1" (payoutRepo reportStore)).
Proof.
  repeat constructor; try (eexists; vm_compute; reflexivity);
    intros _; eexists; vm_compute; reflexivity.
Qed.

Lemma getProviderEarningsSummary_totals_witness :
  exists dto,
    getProviderEarningsSummary "provider-1" reportStore = (reportStore, Ok dto)
    /\ ProviderEarningsSummaryDto.totalEarnings dto = "100.00000000"%string
    /\ ProviderEarningsSummaryDto.totalBonuses dto = "20.00000000"%string
    /\ ProviderEarningsSummaryDto.pendingPayouts dto = "75.00000000"%string.
Proof.
  destruct (getProviderEarningsSummary_totals reportStore "provider-1") as (_ & _ & H).
  destruct (H (ProviderTierAssignment.mk "provider-1" GOLD None None None None None None false))
    as (dto & E & B & P & Hrun & _).
  - vm_compute. reflexivity.
  - apply reportStore_summable.
  - exists dto. split; [exact Hrun |].
    assert (Hc : (getProviderEarningsSummary "provider-1" reportStore).2
                 = Ok (ProviderEarningsSummaryDto.mk "provider-1" GOLD "8.00"
                         "100.00000000" "20.00000000" "75.00000000" (Some noon)
                         [mkBreakdown 2026 11 "80.00000000" "95.00000000" "175.00000000";
                          mkBreakdown 2026 10 "40.00000000" "0.00000000" "40.00000000"]))
      by (vm_compute; reflexivity).
    rewrite Hrun in Hc. cbn [snd] in Hc. injection Hc as ->. by repeat split.
Defined.

(** *** The monthly breakdown *)

Lemma byPeriodDesc_le (a b : MonthlyTotals) :
  byPeriodDesc a b <= 0
  <-> mt_year b < mt_year a \/ (mt_year b = mt_year a /\ mt_month b <= mt_month a).
Proof.
  unfold byPeriodDesc. destruct (Z.eqb_spec (mt_year b - mt_year a) 0); lia.
Qed.

Lemma byPeriodDesc_total (x y : MonthlyTotals) :
  0 < byPeriodDesc x y -> byPeriodDesc y x <= 0.
Proof.
  intros H. apply byPeriodDesc_le.
  assert (Hn : ~ byPeriodDesc x y <= 0) by lia. rewrite byPeriodDesc_le in Hn. lia.
Qed.

Lemma byPeriodDesc_trans (x y z : MonthlyTotals) :
  byPeriodDesc x y <= 0 -> byPeriodDesc y z <= 0 -> byPeriodDesc x z <= 0.
Proof. rewrite !byPeriodDesc_le. lia. Qed.

Lemma StronglySorted_fmap {A B : Type} (f : A -> B) (R : A -> A -> Prop)
    (S : B -> B -> Prop) (l : list A) :
  (forall a b, R a b -> S (f a) (f b)) ->
  StronglySorted R l -> StronglySorted S (List.map f l).
Proof.
  intros HRS Hs. induction Hs as [|a l Hs IH Ha]; [constructor |].
  cbn [List.map]. constructor; [exact IH |].
  rewrite Forall_forall in Ha. apply Forall_forall. intros b Hb.
  apply list_elem_of_fmap in Hb as (x & -> & Hx). by apply HRS, Ha.
Qed.

Lemma monthly_entries_distinct (seen : list ProviderRevenuePayout.t) (v : SummaryVars) :
  summaryInv seen v -> NoDup (v_monthlyMap v).*2.
Proof.
  intros Hinv. pose proof (inv_keys _ _ Hinv) as Hkeys.
  pose proof (inv_entries _ _ Hinv) as Hentries.
  assert (Heq : (v_monthlyMap v).*1
                = (fun m => periodKey (mt_year m) (mt_month m)) <$> (v_monthlyMap v).*2).
  { rewrite <- list_fmap_compose. apply Forall_fmap_ext_1, Forall_forall.
    intros [key m] Hin. cbn. by destruct (Hentries key m Hin) as [-> _]. }
  rewrite Heq in Hkeys. by apply NoDup_fmap_1 in Hkeys.
Qed.

Lemma monthly_entries_periods (seen : list ProviderRevenuePayout.t) (v : SummaryVars)
    (a b : MonthlyTotals) :
  summaryInv seen v ->
  a ∈ (v_monthlyMap v).*2 -> b ∈ (v_monthlyMap v).*2 ->
  mt_year a = mt_year b -> mt_month a = mt_month b -> a = b.
Proof.
  intros Hinv Ha Hb Hy Hm.
  apply list_elem_of_fmap in Ha as ([ka a'] & -> & Ha).
  apply list_elem_of_fmap in Hb as ([kb b'] & -> & Hb). cbn [snd] in *.
  destruct (inv_entries _ _ Hinv ka a' Ha) as [Hka _].
  destruct (inv_entries _ _ Hinv kb b' Hb) as [Hkb _].
  assert (ka = kb) as -> by (rewrite Hka, Hkb, Hy, Hm; reflexivity).
  pose proof (mapGet_unique _ _ _ (inv_keys _ _ Hinv) Ha) as H1.
  pose proof (mapGet_unique _ _ _ (inv_keys _ _ Hinv) Hb) as H2.
  congruence.
Qed.

(** X16. When the amounts of the provider's payouts are decimal
    numerals, the monthly breakdown of [getProviderEarningsSummary] has one
    entry for each billing period in which the provider has a payout and
    no other, the later period first; the share and the bonuses of an
    entry are the sums over all the payouts of its period, whatever their
    status (a FAILED or PENDING payout counts here, though not in the
    totals of the summary), each printed with 8 decimals, and the total of
    the entry is their sum. *)
Theorem getProviderEarningsSummary_breakdown (st : Store) (pid : string)
    (a : ProviderTierAssignment.t) :
  assignmentRepo st !! pid = Some a ->
  Forall summable (payoutsOf pid (payoutRepo st)) ->
  exists dto,
    getProviderEarningsSummary pid st = (st, Ok dto)
    /\ StronglySorted laterPeriod (ProviderEarningsSummaryDto.monthlyBreakdown dto)
    /\ (forall p, p ∈ payoutsOf pid (payoutRepo st) ->
          exists e, e ∈ ProviderEarningsSummaryDto.monthlyBreakdown dto
                    /\ mb_year e = ProviderRevenuePayout.periodYear p
                    /\ mb_month e = ProviderRevenuePayout.periodMonth p)
    /\ (forall e, e ∈ ProviderEarningsSummaryDto.monthlyBreakdown dto ->
          (exists p, p ∈ payoutsOf pid (payoutRepo st)
                     /\ inPeriod (mb_year e) (mb_month e) p = true)
          /\ exists R B,
               mb_revenueShare e = Big.toFixed R 8
               /\ (bigValue R
                   == sumOver (fun p => amountValue (ProviderRevenuePayout.revenueShareAmount p))
                        (List.filter (inPeriod (mb_year e) (mb_month e))
                                     (payoutsOf pid (payoutRepo st))))%Q
               /\ mb_bonuses e = Big.toFixed B 8
               /\ (bigValue B
                   == sumOver (fun p => amountValue (ProviderRevenuePayout.bonusAmount p))
                        (List.filter (inPeriod (mb_year e) (mb_month e))
                                     (payoutsOf pid (payoutRepo st))))%Q
               /\ mb_total e = Big.toFixed (Big.plus R B) 8
               /\ (bigValue (Big.plus R B) == bigValue R + bigValue B)%Q).
Proof.
  intros Ha Hps.
  destruct (getProviderEarningsSummary_run st pid a Ha Hps) as (v & Hinv & Hrun).
  eexists. split; [exact Hrun |].
  cbn [ProviderEarningsSummaryDto.monthlyBreakdown].
  set (toEntry := fun m => mkBreakdown (mt_year m) (mt_month m)
                             (Big.toFixed (mt_revenueShare m) 8)
                             (Big.toFixed (mt_bonuses m) 8)
                             (Big.toFixed (Big.plus (mt_revenueShare m) (mt_bonuses m)) 8)).
  assert (Hperm : js_sort byPeriodDesc (v_monthlyMap v).*2 ≡ₚ (v_monthlyMap v).*2)
    by apply js_sort_perm.
  split; [| split].
  - apply (StronglySorted_fmap toEntry
             (fun a b => byPeriodDesc a b <= 0 /\ a ∈ (v_monthlyMap v).*2
                         /\ b ∈ (v_monthlyMap v).*2 /\ a <> b)).
    + intros x y (Hle & Hx & Hy & Hne). unfold laterPeriod. cbn [toEntry mb_year mb_month].
      apply byPeriodDesc_le in Hle.
      destruct (Z.eq_dec (mt_year x) (mt_year y)) as [Hyr | Hyr]; [| lia].
      destruct (Z.eq_dec (mt_month x) (mt_month y)) as [Hmo | Hmo]; [| lia].
      exfalso. apply Hne. by eapply monthly_entries_periods.
    + assert (Hin : forall x, x ∈ js_sort byPeriodDesc (v_monthlyMap v).*2 ->
                              x ∈ (v_monthlyMap v).*2) by (intros x; by rewrite Hperm).
      assert (Hnd : NoDup (js_sort byPeriodDesc (v_monthlyMap v).*2))
        by (rewrite Hperm; by eapply monthly_entries_distinct).
      pose proof (js_sort_ordered byPeriodDesc byPeriodDesc_total byPeriodDesc_trans
                    (v_monthlyMap v).*2) as Hsorted.
      revert Hin Hnd Hsorted. generalize (js_sort byPeriodDesc (v_monthlyMap v).*2).
      intros l Hin Hnd Hsorted. induction Hsorted as [|x l Hs IH Hx]; [constructor |].
      apply NoDup_cons in Hnd as [Hxl Hnd].
      constructor; [apply IH; [intros y Hy; apply Hin; by right | exact Hnd] |].
      rewrite Forall_forall in Hx. apply Forall_forall. intros y Hy.
      split; [by apply Hx |]. split; [apply Hin; by left |].
      split; [apply Hin; by right |]. intros ->. done.
  - intros p Hp. destruct (inv_periods _ _ Hinv p Hp) as [m Hm].
    destruct (inv_entries _ _ Hinv _ m Hm) as [Hkey _].
    apply periodKey_inj in Hkey as [Hy Hmo].
    exists (toEntry m). split.
    + apply list_elem_of_fmap. exists m. split; [reflexivity |]. rewrite Hperm.
      apply list_elem_of_fmap. eexists (_, m). split; [reflexivity | exact Hm].
    + cbn [toEntry mb_year mb_month]. by split.
  - intros e He. apply list_elem_of_fmap in He as (m & -> & Hm).
    rewrite Hperm in Hm. apply list_elem_of_fmap in Hm as ([key m'] & -> & Hm).
    cbn [snd]. destruct (inv_entries _ _ Hinv key m' Hm) as (_ & Hrow & Hr & Hb).
    cbn [toEntry mb_year mb_month mb_revenueShare mb_bonuses mb_total].
    split; [exact Hrow |].
    exists (mt_revenueShare m'), (mt_bonuses m').
    split; [reflexivity |]. split; [exact Hr |]. split; [reflexivity |].
    split; [exact Hb |]. split; [reflexivity | apply bigValue_plus].
Qed.

Lemma getProviderEarningsSummary_breakdown_witness :
  exists dto,
    getProviderEarningsSummary "provider-1" reportStore = (reportStore, Ok dto)
    /\ StronglySorted laterPeriod (ProviderEarningsSummaryDto.monthlyBreakdown dto).
Proof.
  destruct (getProviderEarningsSummary_breakdown reportStore "provider-1"
              (ProviderTierAssignment.mk "provider-1" GOLD None None None None None None
                 false)) as (dto & Hrun & Hsorted & _).
  - vm_compute. reflexivity.
  - apply reportStore_summable.
  - exists dto. by split.
Defined.

(** ** Relations every step of a call respects *)

Section Preserves.
Context (R : relation Store) `{!PreOrder R}.

Lemma preserves_ret {A : Type} (a : A) : preserves R (ret a).
Proof. intros st. reflexivity. Qed.

Lemma preserves_throw {A : Type} (e : Exception) : preserves R (@throw A e).
Proof. intros st. reflexivity. Qed.

Lemma preserves_gets {A : Type} (f : Store -> A) : preserves R (gets f).
Proof. intros st. reflexivity. Qed.

Lemma preserves_newBig (s : string) : preserves R (newBig s).
Proof. unfold newBig. destruct (Big.of_string s); intros st; reflexivity. Qed.

Lemma preserves_bind {A B : Type} (c : M A) (k : A -> M B) :
  preserves R c -> (forall a, preserves R (k a)) -> preserves R (bind c k).
Proof.
  intros Hc Hk st. unfold bind. specialize (Hc st).
  destruct (c st) as [st' [a | e]]; cbn [fst] in *; [| exact Hc].
  etrans; [exact Hc | apply Hk].
Qed.

Lemma preserves_try_catch {A : Type} (c : M A) (h : Exception -> M A) :
  preserves R c -> (forall e, preserves R (h e)) -> preserves R (try_catch c h).
Proof.
  intros Hc Hh st. unfold try_catch. specialize (Hc st).
  destruct (c st) as [st' [a | e]]; cbn [fst] in *; [exact Hc |].
  etrans; [exact Hc | apply Hh].
Qed.

Lemma preserves_forEach {A S : Type} (l : list A) (body : A -> S -> M S) :
  (forall x s, preserves R (body x s)) -> forall s, preserves R (forEach l body s).
Proof.
  intros Hb. induction l as [|x l IH]; intros s; cbn [forEach].
  - apply preserves_ret.
  - apply preserves_bind; [apply Hb | intros s'; apply IH].
Qed.

Lemma preserves_void {A : Type} (c : M A) : preserves R c -> preserves R (void c).
Proof. intros Hc. apply preserves_bind; [exact Hc | intros _; apply preserves_ret]. Qed.
End Preserves.

#[local] Instance assignmentsKept_preorder : PreOrder assignmentsKept.
Proof.
  split.
  - by intros st pid.
  - intros st1 st2 st3 H12 H23 pid Hpid. by apply H23, H12.
Qed.

Lemma assignmentsKept_writes (w : Footprint) {A : Type} (c : M A) :
  wAssignments w = false -> writesOnly w c -> preserves assignmentsKept c.
Proof.
  intros Hw Hc st pid Hpid. destruct (Hc st) as (_ & _ & _ & _ & _ & H & _).
  by rewrite (H Hw).
Qed.

Lemma assignmentsKept_evaluateProviderWithMetrics metrics :
  preserves assignmentsKept (evaluateProviderWithMetrics metrics).
Proof.
  intros st pid Hpid. rewrite evaluateProviderWithMetrics_run. cbn [fst assignmentRepo].
  destruct (decide (pid = providerId metrics)) as [-> | Hne].
  - rewrite lookup_insert_eq. by eexists.
  - by rewrite lookup_insert_ne.
Qed.

Lemma assignmentsKept_evaluateProvider pid :
  preserves assignmentsKept (evaluateProvider pid).
Proof.
  intros st. rewrite evaluateProvider_metrics.
  apply assignmentsKept_evaluateProviderWithMetrics.
Qed.

Create HintDb kept.

#[global] Hint Resolve assignmentsKept_evaluateProviderWithMetrics
  assignmentsKept_evaluateProvider : kept.

Ltac kept_leaf :=
  solve [ apply (assignmentsKept_writes (mkFootprint true true false true));
          [ reflexivity
          | first [ apply writesOnly_ret | apply writesOnly_throw | apply writesOnly_gets
                  | apply writesOnly_newBig | apply writesOnly_bigDiv | writes_within ] ] ].

Ltac kept_step :=
  first
    [ solve [eauto with kept]
    | kept_leaf
    | apply (preserves_void assignmentsKept)
    | apply (preserves_bind assignmentsKept); [| intros ?]
    | apply (preserves_try_catch assignmentsKept); [| intros ?]
    | apply (preserves_forEach assignmentsKept); intros ? ?
    | match goal with
      | |- preserves _ (match ?x with _ => _ end) => destruct x
      | |- preserves _ (if ?x then _ else _) => destruct x
      | |- preserves _ (let '(_, _) := ?x in _) => destruct x
      end ].

Ltac kept := repeat kept_step.

Lemma assignmentsKept_evaluateAllProviders :
  preserves assignmentsKept evaluateAllProviders.
Proof. unfold evaluateAllProviders. kept. Qed.

Lemma assignmentsKept_calculateRevenueShare pid rev incl :
  preserves assignmentsKept (calculateRevenueShare pid rev incl).
Proof. unfold calculateRevenueShare. kept. Qed.

#[global] Hint Resolve assignmentsKept_evaluateAllProviders
  assignmentsKept_calculateRevenueShare : kept.

Lemma assignmentsKept_processProviderPayout pid rev options :
  preserves assignmentsKept (processProviderPayout pid rev options).
Proof. unfold processProviderPayout. kept. Qed.

#[global] Hint Resolve assignmentsKept_processProviderPayout : kept.

Lemma assignmentsKept_processMontlyBatch y m revenueMap :
  preserves assignmentsKept (processMontlyBatch y m revenueMap).
Proof. unfold processMontlyBatch, batchStep. kept. Qed.

#[global] Hint Resolve assignmentsKept_processMontlyBatch : kept.

Lemma assignmentsKept_perform (c : Call) : preserves assignmentsKept (perform c).
Proof.
  destruct (wAssignments (footprint c)) eqn:Hw.
  - destruct c; try discriminate Hw; cbn [perform];
      apply (preserves_void assignmentsKept); eauto with kept.
  - eapply assignmentsKept_writes; [exact Hw | apply writesOnly_perform].
Qed.

Lemma assignmentsKept_history (events : list Event) (st : Store) :
  assignmentsKept st (history events st).
Proof.
  revert st. induction events as [|e events IH]; intros st; [reflexivity |].
  cbn [history foldl]. etrans; [| apply IH].
  destruct e; [apply assignmentsKept_perform | | |]; by intros pid.
Qed.

(** ** A bonus amount that is no numeral *)

Lemma ledgerExtends_lookup (rows rows' : list ProviderRevenuePayout.t) (i : nat)
    (p : ProviderRevenuePayout.t) :
  ledgerExtends rows rows' -> rows !! i = Some p ->
  exists q, rows' !! i = Some q /\ payoutCore q = payoutCore p.
Proof.
  intros [k Hk] Hp.
  assert (Hi : (payoutCore <$> rows') !! i = Some (payoutCore p)).
  { change (payoutCore <$> rows') with (List.map payoutCore rows'). rewrite Hk.
    apply lookup_app_l_Some.
    change (List.map payoutCore rows) with (payoutCore <$> rows).
    by rewrite list_lookup_fmap, Hp. }
  rewrite list_lookup_fmap in Hi.
  destruct (rows' !! i) as [q|]; [| discriminate].
  exists q. split; [reflexivity |]. cbn in Hi. congruence.
Qed.

Lemma getProviderEarningsSummary_throws (st : Store) (pid : string)
    (p : ProviderRevenuePayout.t) :
  is_Some (assignmentRepo st !! pid) ->
  p ∈ payoutRepo st -> ProviderRevenuePayout.providerId p = pid ->
  Big.of_string (ProviderRevenuePayout.bonusAmount p) = None ->
  getProviderEarningsSummary pid st = (st, Throw (Error BigInvalidNumber)).
Proof.
  intros [a Ha] Hin Hpid Hbad.
  unfold getProviderEarningsSummary. unfold bind at 1, gets at 1. rewrite Ha.
  unfold bind at 1, gets at 1. unfold bind at 1, gets at 1. unfold bind at 1.
  rewrite (summary_loop_throws _ p); [reflexivity | | exact Hbad].
  unfold payoutsOf. apply list_elem_of_In, List.filter_In.
  split; [by apply list_elem_of_In |]. rewrite Hpid. apply String.eqb_refl.
Qed.

(** X17. [awardPerformanceBonus] does not look at the amount it is
    given: for a provider with a user row it records a PENDING payout whose
    bonus and total are the string as it came, also when that string is no
    decimal numeral.  From then on, whatever happens later, the earnings
    summary of that provider, once the provider has a tier assignment,
    throws the big.js error instead of returning. *)
Theorem unvalidated_bonus_breaks_summary (st : Store) (pid amount : string)
    (type : BonusType) (reason : option string) :
  ledgerOk (payoutRepo st) ->
  is_Some (userRepo st !! pid) ->
  is_Some (assignmentRepo st !! pid) ->
  Big.of_string amount = None ->
  exists st1 p,
    awardPerformanceBonus pid amount type reason st = (st1, Ok p)
    /\ ProviderRevenuePayout.status p = PENDING
    /\ ProviderRevenuePayout.bonusAmount p = amount
    /\ ProviderRevenuePayout.totalPayout p = amount
    /\ payoutRepo st1 = payoutRepo st ++ [p]
    /\ forall events : list Event,
         getProviderEarningsSummary pid (history events st1)
         = (history events st1, Throw (Error BigInvalidNumber)).
Proof.
  intros Hok [user Hu] Ha Hbad.
  pose proof (ledgerSafe_awardPerformanceBonus pid amount type reason st Hok) as [Hok1 _].
  rewrite awardPerformanceBonus_run, Hu in Hok1 |- *. cbn zeta in Hok1 |- *.
  set (row := bonusRow st pid (assignedTier st pid) amount type (User.walletAddress user)
                None None) in *.
  exists (withPayout st row), row. split; [reflexivity |].
  do 4 (split; [reflexivity |]).
  intros events. cbn [fst] in Hok1.
  destruct (ledgerSafe_history events (withPayout st row) Hok1) as [_ Hext].
  destruct (ledgerExtends_lookup _ _ (List.length (payoutRepo st)) row Hext)
    as (q & Hq & Hcore).
  { cbn [withPayout payoutRepo]. by rewrite list_lookup_middle. }
  apply (getProviderEarningsSummary_throws _ _ q).
  - apply (assignmentsKept_history events (withPayout st row)). exact Ha.
  - by eapply list_elem_of_lookup_2.
  - unfold payoutCore in Hcore. by injection Hcore.
  - unfold payoutCore in Hcore.
    replace (ProviderRevenuePayout.bonusAmount q) with amount; [exact Hbad |].
    by injection Hcore.
Qed.

Lemma unvalidated_bonus_breaks_summary_witness :
  exists st1 p,
    awardPerformanceBonus "provider-1" "ten" PERFORMANCE None (tierStore GOLD) = (st1, Ok p)
    /\ getProviderEarningsSummary "provider-1" st1 = (st1, Throw (Error BigInvalidNumber)).
Proof.
  destruct (unvalidated_bonus_breaks_summary (tierStore GOLD) "provider-1" "ten"
              PERFORMANCE None) as (st1 & p & Hrun & _ & _ & _ & _ & Hthrows).
  - apply ledgerOk_nil.
  - vm_compute. by eexists.
  - vm_compute. by eexists.
  - vm_compute. reflexivity.
  - exists st1, p. split; [exact Hrun | exact (Hthrows [])].
Defined.

(** ** The report of a billing period *)

Lemma periodStep_run (p : ProviderRevenuePayout.t)
    (vars : Big.t * list (ProviderTierLevel * TierTotals)) (st : Store) :
  is_Some (Big.of_string (ProviderRevenuePayout.totalPayout p)) ->
  periodStep p vars st = (st, Ok (periodNext p vars)).
Proof.
  intros [t Ht]. destruct vars as [D tb].
  unfold periodStep, periodNext, isDispatched. cbn [fst snd].
  rewrite (default_of_string _ _ Ht).
  destruct (bool_decide (ProviderRevenuePayout.status p = COMPLETED)
            || bool_decide (ProviderRevenuePayout.status p = PROCESSING));
    unfold bind, newBig; rewrite Ht; reflexivity.
Qed.

Lemma periodStep_bad_total (p : ProviderRevenuePayout.t)
    (vars : Big.t * list (ProviderTierLevel * TierTotals)) (st : Store) :
  Big.of_string (ProviderRevenuePayout.totalPayout p) = None ->
  periodStep p vars st = (st, Throw (Error BigInvalidNumber)).
Proof.
  intros Ht. destruct vars as [D tb]. unfold periodStep.
  destruct (bool_decide (ProviderRevenuePayout.status p = COMPLETED)
            || bool_decide (ProviderRevenuePayout.status p = PROCESSING));
    unfold bind, newBig; rewrite Ht; reflexivity.
Qed.

Lemma period_loop_throws (ps : list ProviderRevenuePayout.t) (p : ProviderRevenuePayout.t) :
  p ∈ ps -> Big.of_string (ProviderRevenuePayout.totalPayout p) = None ->
  forall vars st, forEach ps periodStep vars st = (st, Throw (Error BigInvalidNumber)).
Proof.
  intros Hin Hb. induction ps as [|q ps IH]; [by apply elem_of_nil in Hin |].
  intros vars st. cbn [forEach]. unfold bind.
  destruct (Big.of_string (ProviderRevenuePayout.totalPayout q)) as [t|] eqn:Hq.
  - rewrite periodStep_run by (by eexists).
    apply elem_of_cons in Hin as [-> | Hin]; [congruence | by apply IH].
  - by rewrite periodStep_bad_total.
Qed.

Lemma totalCount_app {T : Type} (count : T -> Z) (m1 m2 : list (ProviderTierLevel * T)) :
  totalCount count (m1 ++ m2) = totalCount count m1 + totalCount count m2.
Proof.
  induction m1 as [|e m1 IH]; cbn [app totalCount foldr]; [reflexivity |].
  fold (totalCount count (m1 ++ m2)). fold (totalCount count m1). lia.
Qed.

Lemma totalCount_mapSet {T : Type} (count : T -> Z) (key : ProviderTierLevel) (e e' : T)
    (m : list (ProviderTierLevel * T)) :
  mapGet key m = Some e ->
  totalCount count (mapSet key e' m) = totalCount count m - count e + count e'.
Proof.
  induction m as [|[k w] m IH]; cbn [mapGet mapSet]; [discriminate |].
  destruct (bool_decide (k = key)).
  - intros [= ->]. cbn [totalCount foldr snd]. lia.
  - intros H. cbn [totalCount foldr snd]. fold (totalCount count (mapSet key e' m)).
    fold (totalCount count m). rewrite (IH H). lia.
Qed.

Lemma totalCount_formatted (m : list (ProviderTierLevel * TierTotals)) :
  totalCount fst
    (List.map (fun '(tier, data) => (tier, (tt_count data, Big.toFixed (tt_total data) 8))) m)
  = totalCount tt_count m.
Proof.
  induction m as [|[k w] m IH]; [reflexivity |].
  cbn [List.map totalCount foldr snd fst]. f_equal. exact IH.
Qed.

Lemma ofTier_own (p : ProviderRevenuePayout.t) :
  ofTier (ProviderRevenuePayout.tierLevel p) p = true.
Proof. unfold ofTier. by apply bool_decide_eq_true. Qed.

Lemma ofTier_other (tier : ProviderTierLevel) (p : ProviderRevenuePayout.t) :
  tier <> ProviderRevenuePayout.tierLevel p -> ofTier tier p = false.
Proof. intros H. unfold ofTier. apply bool_decide_eq_false. congruence. Qed.

Lemma periodInv_nil : periodInv [] (Big.of_Z 0, []).
Proof.
  constructor; cbn.
  - reflexivity.
  - constructor.
  - intros tier e H. by apply elem_of_nil in H.
  - intros p H. by apply elem_of_nil in H.
  - reflexivity.
Qed.

Lemma periodInv_step (seen : list ProviderRevenuePayout.t)
    (vars : Big.t * list (ProviderTierLevel * TierTotals)) (p : ProviderRevenuePayout.t) :
  periodInv seen vars ->
  is_Some (Big.of_string (ProviderRevenuePayout.totalPayout p)) ->
  periodInv (seen ++ [p]) (periodNext p vars).
Proof.
  intros Hinv [t Ht]. destruct vars as [D tb].
  pose proof (pinv_dispatched _ _ Hinv) as Hd.
  pose proof (pinv_keys _ _ Hinv) as Hkeys.
  pose proof (pinv_entries _ _ Hinv) as Hentries.
  pose proof (pinv_tiers _ _ Hinv) as Htiers.
  pose proof (pinv_count _ _ Hinv) as Hcount.
  cbn [fst snd] in *.
  unfold periodNext. cbn [fst snd]. rewrite (default_of_string _ _ Ht).
  set (k := ProviderRevenuePayout.tierLevel p) in *.
  pose proof (ofTier_own p : ofTier k p = true) as Hown.
  assert (Hdisp : (bigValue (if isDispatched p then Big.plus D t else D)
                   == sumOver (fun p => amountValue (ProviderRevenuePayout.totalPayout p))
                              (List.filter isDispatched (seen ++ [p])))%Q).
  { rewrite sumOver_filter_snoc. destruct (isDispatched p).
    - rewrite bigValue_plus, (amountValue_some _ _ Ht), Hd. reflexivity.
    - rewrite Hd. ring. }
  assert (Hold : forall tier e, (tier, e) ∈ tb -> tier <> k ->
            tt_count e = Z.of_nat (List.length (List.filter (ofTier tier) (seen ++ [p])))
            /\ 0 < tt_count e
            /\ (bigValue (tt_total e)
                == sumOver (fun p => amountValue (ProviderRevenuePayout.totalPayout p))
                           (List.filter (ofTier tier) (seen ++ [p])))%Q).
  { intros tier e Hin Hne. destruct (Hentries tier e Hin) as (Hc & Hpos & Hsum).
    assert (Hp : ofTier tier p = false) by (by apply ofTier_other).
    rewrite sumOver_filter_snoc, filter_snoc, Hp, app_nil_r, Hsum.
    split; [exact Hc |]. split; [exact Hpos | ring]. }
  destruct (mapGet k tb) as [e|] eqn:Hget; cbn [default from_option id].
  - pose proof (mapGet_elem _ _ _ Hget) as He.
    destruct (Hentries k e He) as (Hc & Hpos & Hsum).
    assert (Hsome : is_Some (mapGet k tb)) by (by eexists).
    constructor; cbn [fst snd].
    + exact Hdisp.
    + by rewrite mapSet_keys.
    + intros tier e' Hin. apply (mapSet_elem _ _ _ _ _ Hkeys Hsome) in Hin
        as [[-> ->] | [Hne Hin]]; [| by apply Hold].
      cbn [tt_count tt_total].
      rewrite sumOver_filter_snoc, filter_snoc, Hown, length_app. cbn [List.length].
      rewrite bigValue_plus, (amountValue_some _ _ Ht), Hsum.
      split; [lia |]. split; [lia | reflexivity].
    + intros q Hq. rewrite mapSet_keys by exact Hsome.
      apply elem_of_app in Hq as [Hq | Hq]; [by apply Htiers |].
      apply list_elem_of_singleton in Hq as ->.
      by apply (list_elem_of_fmap_2 fst _ (k, e)).
    + rewrite (totalCount_mapSet _ _ _ _ _ Hget), length_app. cbn [tt_count List.length]. lia.
  - rewrite (mapSet_new _ _ _ Hget). apply mapGet_none in Hget.
    assert (Hfresh : forall q, q ∈ seen -> ofTier k q = false).
    { intros q Hq. destruct (ofTier k q) eqn:Hqk; [| reflexivity].
      unfold ofTier in Hqk. apply bool_decide_eq_true in Hqk.
      exfalso. apply Hget. rewrite <- Hqk. by apply Htiers. }
    constructor; cbn [fst snd].
    + exact Hdisp.
    + rewrite fmap_app. apply NoDup_app. split; [exact Hkeys |].
      split; [| apply NoDup_singleton].
      intros key Hk1 Hk2. apply list_elem_of_singleton in Hk2 as ->. done.
    + intros tier e' Hin. apply elem_of_app in Hin as [Hin | Hin].
      * apply Hold; [exact Hin |]. intros ->. apply Hget.
        by apply (list_elem_of_fmap_2 fst _ (k, e')).
      * apply list_elem_of_singleton in Hin as [= -> ->].
        cbn [tt_count tt_total].
        rewrite sumOver_filter_snoc, filter_snoc, Hown, length_app.
        rewrite (filter_none _ _ Hfresh). cbn [List.length].
        rewrite bigValue_plus, bigValue_zero, (amountValue_some _ _ Ht).
        cbn [sumOver foldr]. split; [lia |]. split; [lia | ring].
    + intros q Hq. rewrite fmap_app. apply elem_of_app.
      apply elem_of_app in Hq as [Hq | Hq]; [left; by apply Htiers |].
      apply list_elem_of_singleton in Hq as ->. right. by left.
    + rewrite totalCount_app, Hcount, length_app.
      cbn [totalCount foldr snd tt_count List.length]. lia.
Qed.

Lemma period_loop (ps : list ProviderRevenuePayout.t) :
  Forall (fun p => is_Some (Big.of_string (ProviderRevenuePayout.totalPayout p))) ps ->
  forall (seen : list ProviderRevenuePayout.t)
         (vars : Big.t * list (ProviderTierLevel * TierTotals)) (st : Store),
    periodInv seen vars ->
    exists vars', forEach ps periodStep vars st = (st, Ok vars')
                  /\ periodInv (seen ++ ps) vars'.
Proof.
  induction 1 as [|p ps Hp _ IH]; intros seen vars st Hinv.
  - exists vars. rewrite app_nil_r. by split.
  - cbn [forEach]. unfold bind. rewrite (periodStep_run _ _ _ Hp).
    destruct (IH (seen ++ [p]) (periodNext p vars) st (periodInv_step _ _ _ Hinv Hp))
      as (v' & Hrun & Hinv').
    exists v'. split; [exact Hrun |]. by rewrite <- app_assoc in Hinv'.
Qed.

Lemma dateCompare_le (a b : Date.t) : dateCompare a b <= 0 <-> Date.leb a b = true.
Proof.
  unfold dateCompare. destruct (Date.leb a b); [destruct (Date.leb b a) |]; split;
    try done; try lia.
Qed.

Lemma dateCompare_total (a b : Date.t) : 0 < dateCompare a b -> dateCompare b a <= 0.
Proof.
  intros H. apply dateCompare_le. apply leb_total.
  destruct (Date.leb a b) eqn:Hab; [| reflexivity].
  apply dateCompare_le in Hab. lia.
Qed.

Lemma dateCompare_trans (a b c : Date.t) :
  dateCompare a b <= 0 -> dateCompare b c <= 0 -> dateCompare a c <= 0.
Proof. rewrite !dateCompare_le. apply leb_trans. Qed.

Lemma newestFirst_sorted (rows : list ProviderRevenuePayout.t) :
  StronglySorted createdNotBefore (newestFirst rows).
Proof.
  unfold newestFirst.
  set (cmp := fun a b : ProviderRevenuePayout.t =>
                dateCompare (ProviderRevenuePayout.createdAt b)
                            (ProviderRevenuePayout.createdAt a)).
  assert (Hs : StronglySorted (fun a b => cmp a b <= 0) (js_sort cmp rows)).
  { apply js_sort_ordered.
    - intros x y. apply dateCompare_total.
    - intros x y z H1 H2. unfold cmp in *. eapply dateCompare_trans; eassumption. }
  revert Hs. generalize (js_sort cmp rows). intros l Hs.
  induction Hs as [|x l Hs IH Hx]; constructor; [exact IH |].
  eapply Forall_impl; [exact Hx |]. intros y Hy. by apply dateCompare_le.
Qed.

Lemma oldestFirst_sorted (rows : list ProviderRevenuePayout.t) :
  StronglySorted createdNotAfter (oldestFirst rows).
Proof.
  unfold oldestFirst.
  set (cmp := fun a b : ProviderRevenuePayout.t =>
                dateCompare (ProviderRevenuePayout.createdAt a)
                            (ProviderRevenuePayout.createdAt b)).
  assert (Hs : StronglySorted (fun a b => cmp a b <= 0) (js_sort cmp rows)).
  { apply js_sort_ordered.
    - intros x y. apply dateCompare_total.
    - intros x y z H1 H2. unfold cmp in *. eapply dateCompare_trans; eassumption. }
  revert Hs. generalize (js_sort cmp rows). intros l Hs.
  induction Hs as [|x l Hs IH Hx]; constructor; [exact IH |].
  eapply Forall_impl; [exact Hx |]. intros y Hy. by apply dateCompare_le.
Qed.

Lemma getPeriodPayouts_run (st : Store) (year month : Z) :
  Forall (fun p => is_Some (Big.of_string (ProviderRevenuePayout.totalPayout p)))
         (List.filter (inPeriod year month) (payoutRepo st)) ->
  exists vars,
    periodInv (newestFirst (List.filter (inPeriod year month) (payoutRepo st))) vars
    /\ getPeriodPayouts year month st
       = (st, Ok (mkPeriod (newestFirst (List.filter (inPeriod year month) (payoutRepo st)))
                    (Big.toFixed vars.1 8)
                    (List.map (fun '(tier, data) =>
                                 (tier, (tt_count data, Big.toFixed (tt_total data) 8)))
                              vars.2))).
Proof.
  intros Hps.
  assert (Hall : Forall (fun p => is_Some (Big.of_string (ProviderRevenuePayout.totalPayout p)))
                   (newestFirst (List.filter (inPeriod year month) (payoutRepo st)))).
  { apply Forall_forall. intros p Hp. unfold newestFirst in Hp. rewrite js_sort_perm in Hp.
    rewrite Forall_forall in Hps. by apply Hps. }
  destruct (period_loop _ Hall [] (Big.of_Z 0, []) st periodInv_nil) as ([D tb] & Hrun & Hinv).
  exists (D, tb). split; [exact Hinv |].
  unfold getPeriodPayouts. unfold bind at 1, gets at 1. unfold bind at 1.
  change (fun p : ProviderRevenuePayout.t =>
            (ProviderRevenuePayout.periodYear p =? year)
            && (ProviderRevenuePayout.periodMonth p =? month))
    with (inPeriod year month).
  rewrite Hrun. reflexivity.
Qed.

(** X18. [getPeriodPayouts] never changes the store.  It throws the
    invalid-number error when the total of some payout of the period is
    not a decimal numeral, whatever the status of that payout.  Otherwise
    it returns the payouts of the period, the later created first;
    [totalDispatched] is the sum of the totals of the COMPLETED and
    PROCESSING ones, so PENDING and FAILED payouts are left out of it,
    while the breakdown has one entry for each tier that occurs, with
    the number and the sum of the totals of ALL the payouts of that tier,
    whatever their status; the counts add up to the number of payouts
    returned. *)
Theorem getPeriodPayouts_report (st : Store) (year month : Z) :
  (getPeriodPayouts year month st).1 = st
  /\ (forall p, p ∈ payoutRepo st -> inPeriod year month p = true ->
        Big.of_string (ProviderRevenuePayout.totalPayout p) = None ->
        getPeriodPayouts year month st = (st, Throw (Error BigInvalidNumber)))
  /\ (Forall (fun p => is_Some (Big.of_string (ProviderRevenuePayout.totalPayout p)))
             (List.filter (inPeriod year month) (payoutRepo st)) ->
      exists r D,
        getPeriodPayouts year month st = (st, Ok r)
        /\ per_payouts r ≡ₚ List.filter (inPeriod year month) (payoutRepo st)
        /\ StronglySorted createdNotBefore (per_payouts r)
        /\ per_totalDispatched r = Big.toFixed D 8
        /\ (bigValue D
            == sumOver (fun p => amountValue (ProviderRevenuePayout.totalPayout p))
                       (List.filter isDispatched (per_payouts r)))%Q
        /\ NoDup (per_tierBreakdown r).*1
        /\ (forall p, p ∈ per_payouts r ->
              ProviderRevenuePayout.tierLevel p ∈ (per_tierBreakdown r).*1)
        /\ (forall tier count total, (tier, (count, total)) ∈ per_tierBreakdown r ->
              0 < count
              /\ count = Z.of_nat (List.length (List.filter (ofTier tier) (per_payouts r)))
              /\ exists T, total = Big.toFixed T 8
                 /\ (bigValue T
                     == sumOver (fun p => amountValue (ProviderRevenuePayout.totalPayout p))
                                (List.filter (ofTier tier) (per_payouts r)))%Q)
        /\ totalCount fst (per_tierBreakdown r) = Z.of_nat (List.length (per_payouts r))).
Proof.
  assert (Hthrows : forall p, p ∈ payoutRepo st -> inPeriod year month p = true ->
            Big.of_string (ProviderRevenuePayout.totalPayout p) = None ->
            getPeriodPayouts year month st = (st, Throw (Error BigInvalidNumber))).
  { intros p Hin Hper Hbad.
    unfold getPeriodPayouts. unfold bind at 1, gets at 1. unfold bind at 1.
    rewrite (period_loop_throws _ p); [reflexivity | | exact Hbad].
    unfold newestFirst. rewrite js_sort_perm. apply list_elem_of_In.
    apply List.filter_In. split; [by apply list_elem_of_In | exact Hper]. }
  assert (Hrun : Forall (fun p => is_Some (Big.of_string (ProviderRevenuePayout.totalPayout p)))
                   (List.filter (inPeriod year month) (payoutRepo st)) ->
                 exists vars,
                   periodInv (newestFirst (List.filter (inPeriod year month) (payoutRepo st))) vars
                   /\ getPeriodPayouts year month st
                      = (st, Ok (mkPeriod
                           (newestFirst (List.filter (inPeriod year month) (payoutRepo st)))
                           (Big.toFixed vars.1 8)
                           (List.map (fun '(tier, data) =>
                              (tier, (tt_count data, Big.toFixed (tt_total data) 8)))
                              vars.2))))
    by apply getPeriodPayouts_run.
  split; [| split; [exact Hthrows |]].
  - destruct (writesOnly_getPeriodPayouts year month st) as (H1 & H2 & H3 & H4 & H5 & H6 & H7).
    destruct ((getPeriodPayouts year month st).1) as [a b c d e f g], st as [a' b' c' d' e' f' g'].
    cbn in *. rewrite H1, H2, H3, H4, H5, H6, H7 by reflexivity. reflexivity.
  - intros Hall. destruct (Hrun Hall) as ([D tb] & Hinv & Heq).
    eexists. exists D. split; [exact Heq |]. cbn [per_payouts per_totalDispatched
      per_tierBreakdown fst snd].
    pose proof (pinv_dispatched _ _ Hinv) as Hd.
    pose proof (pinv_keys _ _ Hinv) as Hkeys.
    pose proof (pinv_entries _ _ Hinv) as Hentries.
    pose proof (pinv_tiers _ _ Hinv) as Htiers.
    pose proof (pinv_count _ _ Hinv) as Hcount.
    cbn [fst snd] in *.
    assert (Hfst : (List.map (fun '(tier, data) =>
                      (tier, (tt_count data, Big.toFixed (tt_total data) 8))) tb).*1 = tb.*1).
    { clear. induction tb as [|[k w] tb IH]; [reflexivity |].
      cbn [List.map fmap list_fmap fst]. f_equal. exact IH. }
    split; [apply js_sort_perm |]. split; [apply newestFirst_sorted |].
    split; [reflexivity |]. split; [exact Hd |].
    split; [by rewrite Hfst |]. split; [by rewrite Hfst |].
    split; [| by rewrite totalCount_formatted].
    intros tier count total Hin. apply list_elem_of_In in Hin.
    apply (proj1 (List.in_map_iff _ _ _)) in Hin as (x & Hx & Hin).
    destruct x as [k e]. injection Hx as <- <- <-.
    apply list_elem_of_In in Hin. destruct (Hentries k e Hin) as (Hc & Hpos & Hsum).
    split; [exact Hpos |]. split; [exact Hc |]. by exists (tt_total e).
Qed.

(** ** The retention bonus round *)

Lemma withPayouts_nil (st : Store) : withPayouts st [] = st.
Proof. destruct st. unfold withPayouts. cbn. by rewrite app_nil_r. Qed.

Lemma withPayouts_app (st : Store) (rows rows' : list ProviderRevenuePayout.t) :
  withPayouts (withPayouts st rows) rows' = withPayouts st (rows ++ rows').
Proof. unfold withPayouts. cbn. by rewrite app_assoc. Qed.

Lemma withPayout_withPayouts (st : Store) (p : ProviderRevenuePayout.t) :
  withPayout st p = withPayouts st [p].
Proof. reflexivity. Qed.

Lemma sumOver_app {A : Type} (f : A -> Q) (l l' : list A) :
  (sumOver f (l ++ l') == sumOver f l + sumOver f l')%Q.
Proof.
  induction l as [|x l IH]; cbn [app].
  - change (sumOver f []) with 0%Q. ring.
  - change (sumOver f (x :: l ++ l')) with (f x + sumOver f (l ++ l'))%Q.
    change (sumOver f (x :: l)) with (f x + sumOver f l)%Q. rewrite IH. ring.
Qed.

Lemma retentionStep_run (year month : Z) (tier : ProviderTierLevel)
    (tierDef : RevenueShareTier.t) (a : ProviderTierAssignment.t)
    (c : Z) (T : Big.t) (st : Store) :
  isTopTier tier = true ->
  exists rows T',
    retentionStep year month tier tierDef a (c, T) st
    = (withPayouts st rows,
       Ok (c + Z.of_nat (List.length (List.filter isCounted rows)), T'))
    /\ ProviderRevenuePayout.providerId <$> rows
       = ProviderTierAssignment.providerId
         <$> (if bool_decide (is_Some (userRepo st !! ProviderTierAssignment.providerId a))
              then [a] else [])
    /\ Forall (retentionRow year month) rows
    /\ (bigValue T'
        == bigValue T
           + sumOver (fun p => amountValue (ProviderRevenuePayout.bonusAmount p))
                     (List.filter isCounted rows))%Q.
Proof.
  intros Htop. unfold retentionStep, try_catch. unfold bind at 1, gets at 1.
  destruct (userRepo st !! ProviderTierAssignment.providerId a) as [user|] eqn:Huser.
  - rewrite bool_decide_eq_true_2 by (by eexists).
    unfold bind at 1. rewrite recordPayout_run.
    set (row := recordedRow st _).
    destruct (Big.of_string (RevenueShareTier.monthlyRetentionBonusUsdc tierDef))
      as [g|] eqn:Hg.
    + exists [row], (Big.plus T g). unfold bind, newBig. rewrite Hg. cbn [ret].
      assert (Hc : isCounted row = true).
      { unfold isCounted. apply bool_decide_eq_true. cbn. rewrite Hg. by eexists. }
      cbn [List.filter]. rewrite Hc. cbn [List.length].
      split; [reflexivity |]. split; [reflexivity |].
      split; [repeat constructor; exact Htop |].
      rewrite bigValue_plus. cbn [sumOver foldr].
      change (ProviderRevenuePayout.bonusAmount row)
        with (RevenueShareTier.monthlyRetentionBonusUsdc tierDef).
      rewrite (amountValue_some _ _ Hg). ring.
    + exists [row], T. unfold bind, newBig. rewrite Hg. cbn [ret throw].
      assert (Hc : isCounted row = false).
      { unfold isCounted. apply bool_decide_eq_false. cbn. rewrite Hg. by intros [? [=]]. }
      cbn [List.filter]. rewrite Hc. cbn [List.length]. rewrite Z.add_0_r.
      split; [reflexivity |]. split; [reflexivity |].
      split; [repeat constructor; exact Htop |].
      cbn [sumOver foldr]. ring.
  - rewrite bool_decide_eq_false_2 by (by intros [? [=]]).
    exists [], T. rewrite withPayouts_nil. cbn [List.filter List.length ret].
    rewrite Z.add_0_r. split; [reflexivity |]. split; [reflexivity |].
    split; [constructor |]. cbn [sumOver foldr]. ring.
Qed.

Lemma retention_loop (year month : Z) (tier : ProviderTierLevel)
    (tierDef : RevenueShareTier.t) (assignments : list ProviderTierAssignment.t) :
  isTopTier tier = true ->
  forall (c : Z) (T : Big.t) (st : Store),
  exists rows T',
    forEach assignments (retentionStep year month tier tierDef) (c, T) st
    = (withPayouts st rows,
       Ok (c + Z.of_nat (List.length (List.filter isCounted rows)), T'))
    /\ ProviderRevenuePayout.providerId <$> rows
       = ProviderTierAssignment.providerId
         <$> List.filter
               (fun a => bool_decide
                           (is_Some (userRepo st !! ProviderTierAssignment.providerId a)))
               assignments
    /\ Forall (retentionRow year month) rows
    /\ (bigValue T'
        == bigValue T
           + sumOver (fun p => amountValue (ProviderRevenuePayout.bonusAmount p))
                     (List.filter isCounted rows))%Q.
Proof.
  intros Htop. induction assignments as [|a assignments IH]; intros c T st.
  - exists [], T. rewrite withPayouts_nil. cbn [forEach List.filter List.length ret].
    rewrite Z.add_0_r. split; [reflexivity |]. split; [reflexivity |].
    split; [constructor |]. cbn [sumOver foldr]. ring.
  - destruct (retentionStep_run year month tier tierDef a c T st Htop)
      as (rows1 & T1 & Hrun1 & Hpid1 & Hrows1 & HT1).
    destruct (IH (c + Z.of_nat (List.length (List.filter isCounted rows1))) T1
                 (withPayouts st rows1))
      as (rows2 & T2 & Hrun2 & Hpid2 & Hrows2 & HT2).
    exists (rows1 ++ rows2), T2. cbn [forEach]. unfold bind. rewrite Hrun1, Hrun2.
    rewrite withPayouts_app, List.filter_app, !length_app, Nat2Z.inj_add, Z.add_assoc.
    split; [reflexivity |]. split.
    + rewrite fmap_app, Hpid1, Hpid2. cbn [List.filter userRepo withPayouts].
      by destruct (bool_decide
                     (is_Some (userRepo st !! ProviderTierAssignment.providerId a))).
    + split; [by apply Forall_app |].
      rewrite HT2, HT1, sumOver_app. ring.
Qed.

Lemma retentionTier_run (year month : Z) (tier : ProviderTierLevel)
    (c : Z) (T : Big.t) (st : Store) :
  isTopTier tier = true ->
  exists rows T',
    retentionTier year month tier (c, T) st
    = (withPayouts st rows,
       Ok (c + Z.of_nat (List.length (List.filter isCounted rows)), T'))
    /\ ProviderRevenuePayout.providerId <$> rows
       = ProviderTierAssignment.providerId <$> retentionRecipients st tier
    /\ Forall (retentionRow year month) rows
    /\ (bigValue T'
        == bigValue T
           + sumOver (fun p => amountValue (ProviderRevenuePayout.bonusAmount p))
                     (List.filter isCounted rows))%Q.
Proof.
  intros Htop. unfold retentionTier, retentionRecipients.
  unfold bind at 1, gets at 1. unfold bind at 1, gets at 1.
  assert (Hnone : exists rows T',
            (st, Ok (c, T))
            = (withPayouts st rows,
               Ok (c + Z.of_nat (List.length (List.filter isCounted rows)), T'))
            /\ ProviderRevenuePayout.providerId <$> rows
               = ProviderTierAssignment.providerId <$> []
            /\ Forall (retentionRow year month) rows
            /\ (bigValue T'
                == bigValue T
                   + sumOver (fun p => amountValue (ProviderRevenuePayout.bonusAmount p))
                             (List.filter isCounted rows))%Q).
  { exists [], T. rewrite withPayouts_nil. cbn [List.filter List.length].
    rewrite Z.add_0_r. split; [reflexivity |]. split; [reflexivity |].
    split; [constructor |]. cbn [sumOver foldr]. ring. }
  destruct (findTier tier (tierRepo st)) as [tierDef|]; [| exact Hnone].
  destruct (Js.eqb (Js.parseFloat (RevenueShareTier.monthlyRetentionBonusUsdc tierDef))
                   (Js.of_Z 0)); [exact Hnone |].
  apply retention_loop. exact Htop.
Qed.

Lemma retentionRecipients_frame (st st' : Store) (tier : ProviderTierLevel) :
  tierRepo st' = tierRepo st -> assignmentRepo st' = assignmentRepo st ->
  userRepo st' = userRepo st ->
  retentionRecipients st' tier = retentionRecipients st tier.
Proof. intros H1 H2 H3. unfold retentionRecipients. by rewrite H1, H2, H3. Qed.

Lemma runRetentionBonusRound_loops (year month : Z) :
  runRetentionBonusRound year month
  = (let* '(credited, totalBonus) :=
       forEach [ELITE; PLATINUM] (retentionTier year month) (0, Big.of_Z 0) in
     ret (mkRetention credited (Big.toFixed totalBonus 8))).
Proof. reflexivity. Qed.

Lemma runRetentionBonusRound_run (year month : Z) (st : Store) :
  exists rows T,
    runRetentionBonusRound year month st
    = (withPayouts st rows,
       Ok (mkRetention (Z.of_nat (List.length (List.filter isCounted rows)))
                       (Big.toFixed T 8)))
    /\ ProviderRevenuePayout.providerId <$> rows
       = ProviderTierAssignment.providerId
         <$> (retentionRecipients st ELITE ++ retentionRecipients st PLATINUM)
    /\ Forall (retentionRow year month) rows
    /\ (bigValue T
        == sumOver (fun p => amountValue (ProviderRevenuePayout.bonusAmount p))
                   (List.filter isCounted rows))%Q.
Proof.
  destruct (retentionTier_run year month ELITE 0 (Big.of_Z 0) st eq_refl)
    as (rows1 & T1 & Hrun1 & Hpid1 & Hrows1 & HT1).
  destruct (retentionTier_run year month PLATINUM
              (0 + Z.of_nat (List.length (List.filter isCounted rows1))) T1
              (withPayouts st rows1) eq_refl)
    as (rows2 & T2 & Hrun2 & Hpid2 & Hrows2 & HT2).
  exists (rows1 ++ rows2), T2.
  split; [| split; [| split]].
  - rewrite runRetentionBonusRound_loops. unfold bind at 1. cbn [forEach].
    unfold bind at 1. rewrite Hrun1. unfold bind at 1. rewrite Hrun2.
    cbn [ret]. rewrite withPayouts_app, List.filter_app, length_app, Nat2Z.inj_add.
    reflexivity.
  - rewrite !fmap_app, Hpid1, Hpid2. reflexivity.
  - by apply Forall_app.
  - rewrite HT2, HT1, List.filter_app, sumOver_app, bigValue_zero. ring.
Qed.

(** X19. [runRetentionBonusRound] never throws and writes nothing but new
    rows at the end of the ledger: one PENDING row of type MONTHLY_TOP for
    the given period for every ELITE and then every PLATINUM provider that
    has a user row, provided the tier has a row whose retention bonus
    parses to a number other than zero.  [credited] counts the rows whose
    bonus is a numeral [Big] accepts and [totalBonusUsdc] is their sum: a
    row with another bonus text is recorded all the same, but counted in
    neither.  Nothing remembers that a period has been paid: a second
    round for the same period records a row for the same providers once
    more. *)
Theorem runRetentionBonusRound_pays_again (year month : Z) (st : Store) :
  exists st1 r1 rows1 st2 r2 rows2 T,
    runRetentionBonusRound year month st = (st1, Ok r1)
    /\ st1 = withPayouts st rows1
    /\ ProviderRevenuePayout.providerId <$> rows1
       = ProviderTierAssignment.providerId
         <$> (retentionRecipients st ELITE ++ retentionRecipients st PLATINUM)
    /\ Forall (retentionRow year month) rows1
    /\ credited r1 = Z.of_nat (List.length (List.filter isCounted rows1))
    /\ totalBonusUsdc r1 = Big.toFixed T 8
    /\ (bigValue T
        == sumOver (fun p => amountValue (ProviderRevenuePayout.bonusAmount p))
                   (List.filter isCounted rows1))%Q
    /\ runRetentionBonusRound year month st1 = (st2, Ok r2)
    /\ st2 = withPayouts st1 rows2
    /\ ProviderRevenuePayout.providerId <$> rows2
       = ProviderRevenuePayout.providerId <$> rows1
    /\ Forall (retentionRow year month) rows2.
Proof.
  destruct (runRetentionBonusRound_run year month st)
    as (rows1 & T & Hrun1 & Hpid1 & Hrows1 & HT1).
  destruct (runRetentionBonusRound_run year month (withPayouts st rows1))
    as (rows2 & T' & Hrun2 & Hpid2 & Hrows2 & _).
  eexists _, _, rows1, _, _, rows2, T.
  split; [exact Hrun1 |]. split; [reflexivity |]. split; [exact Hpid1 |].
  split; [exact Hrows1 |]. split; [reflexivity |]. split; [reflexivity |].
  split; [exact HT1 |]. split; [exact Hrun2 |]. split; [reflexivity |].
  split; [| exact Hrows2].
  rewrite Hpid2, Hpid1. reflexivity.
Qed.

(** Two ELITE providers with user rows, in a table whose ELITE bonus is
    not a numeral [Big] reads although [parseFloat] reads 5 in it: both
    get a row, none is counted. *)
Lemma runRetentionBonusRound_pays_again_witness :
  exists st1 r1,
    runRetentionBonusRound 2026 11 retentionStore = (st1, Ok r1)
    /\ List.length (payoutRepo st1) = 2%nat
    /\ credited r1 = 0
    /\ exists st2 r2,
         runRetentionBonusRound 2026 11 st1 = (st2, Ok r2)
         /\ List.length (payoutRepo st2) = 4%nat.
Proof.
  destruct (runRetentionBonusRound_pays_again 2026 11 retentionStore)
    as (st1 & r1 & rows1 & st2 & r2 & rows2 & T & Hrun1 & -> & Hpid1 & _ & Hc & _ & _
        & Hrun2 & -> & Hpid2 & _).
  assert (Hlen1 : List.length rows1 = 2%nat).
  { rewrite <- (length_fmap ProviderRevenuePayout.providerId), Hpid1. vm_compute. reflexivity. }
  assert (Hlen2 : List.length rows2 = 2%nat).
  { rewrite <- (length_fmap ProviderRevenuePayout.providerId), Hpid2, length_fmap. exact Hlen1. }
  exists (withPayouts retentionStore rows1), r1. split; [exact Hrun1 |].
  split; [cbn [payoutRepo withPayouts]; rewrite length_app, Hlen1; reflexivity |].
  split.
  - assert (Hr : (runRetentionBonusRound 2026 11 retentionStore).2
                 = Ok (mkRetention 0 "0.00000000")) by (vm_compute; reflexivity).
    rewrite Hrun1 in Hr. cbn [snd] in Hr. by injection Hr as ->.
  - exists (withPayouts (withPayouts retentionStore rows1) rows2), r2.
    split; [exact Hrun2 |].
    cbn [payoutRepo withPayouts]. rewrite !length_app, Hlen1, Hlen2. reflexivity.
Defined.

Lemma getPeriodPayouts_report_witness :
  exists r,
    getPeriodPayouts 2026 11 reportStore = (reportStore, Ok r)
    /\ List.length (per_payouts r) = 2%nat
    /\ per_totalDispatched r = "100.00000000"%string
    /\ per_tierBreakdown r = [(GOLD, (2, "175.00000000"%string))].
Proof.
  destruct (getPeriodPayouts_report reportStore 2026 11) as (_ & _ & H).
  destruct H as (r & D & Hrun & _).
  - repeat constructor; eexists; vm_compute; reflexivity.
  - exists r. split; [exact Hrun |].
    assert (Hc : (fun x => match x with
                           | Ok r => (List.length (per_payouts r), per_totalDispatched r,
                                      per_tierBreakdown r)
                           | Throw _ => (0%nat, ""%string, [])
                           end) (getPeriodPayouts 2026 11 reportStore).2
                 = (2%nat, "100.00000000"%string, [(GOLD, (2, "175.00000000"%string))]))
      by (vm_compute; reflexivity).
    rewrite Hrun in Hc. cbn [snd] in Hc. injection Hc as -> -> ->. by repeat split.
Defined.

(** ** The queries over the ledger *)

Lemma StronglySorted_app_inv {A : Type} (R : A -> A -> Prop) (l1 l2 : list A) :
  StronglySorted R (l1 ++ l2) ->
  StronglySorted R l1 /\ StronglySorted R l2
  /\ forall x y, x ∈ l1 -> y ∈ l2 -> R x y.
Proof.
  induction l1 as [|a l1 IH]; cbn [app]; intros Hs.
  - split; [constructor |]. split; [exact Hs |]. intros x y Hx. by apply elem_of_nil in Hx.
  - apply StronglySorted_inv in Hs as [Hs Ha]. destruct (IH Hs) as (H1 & H2 & H3).
    apply Forall_app in Ha as [Ha1 Ha2].
    split; [by constructor |]. split; [exact H2 |].
    intros x y Hx Hy. apply elem_of_cons in Hx as [-> | Hx]; [| by apply H3].
    rewrite Forall_forall in Ha2. by apply Ha2.
Qed.

Lemma elem_of_firstn {A : Type} (n : nat) (l : list A) (x : A) :
  x ∈ List.firstn n l -> x ∈ l.
Proof.
  intros H. rewrite <- (List.firstn_skipn n l). apply elem_of_app. by left.
Qed.

Lemma elem_of_skipn {A : Type} (n : nat) (l : list A) (x : A) :
  x ∈ List.skipn n l -> x ∈ l.
Proof.
  intros H. rewrite <- (List.firstn_skipn n l). apply elem_of_app. by right.
Qed.

Lemma length_page {A : Type} (l : list A) (skip take : Z) :
  0 <= skip -> 0 <= take ->
  Z.of_nat (List.length (List.firstn (Z.to_nat take) (List.skipn (Z.to_nat skip) l)))
  = Z.max 0 (Z.min take (Z.of_nat (List.length l) - skip)).
Proof.
  intros Hs Ht. rewrite List.length_firstn, List.length_skipn. lia.
Qed.

(** X20. [getPendingPayouts] reads only: for a limit of at least one (50
    when none is given) it returns PENDING rows of the ledger and no
    others, the earlier created first, as many as there are up to the
    limit; a PENDING row it leaves out was created no earlier than any row
    it returns.  So a payout that is PROCESSING, FAILED or COMPLETED is
    never in the list. *)
Theorem getPendingPayouts_queue (st : Store) (limit : option Z) :
  1 <= default 50 limit ->
  exists rows,
    getPendingPayouts limit st = (st, Ok rows)
    /\ (forall p, p ∈ rows ->
          p ∈ payoutRepo st /\ ProviderRevenuePayout.status p = PENDING)
    /\ StronglySorted createdNotAfter rows
    /\ Z.of_nat (List.length rows)
       = Z.min (default 50 limit)
               (Z.of_nat (List.length
                  (List.filter
                     (fun p => bool_decide (ProviderRevenuePayout.status p = PENDING))
                     (payoutRepo st))))
    /\ (forall p q, p ∈ payoutRepo st -> ProviderRevenuePayout.status p = PENDING ->
          p ∉ rows -> q ∈ rows -> createdNotAfter q p).
Proof.
  intros Hlimit. eexists. split; [reflexivity |].
  set (pending := List.filter
                    (fun p => bool_decide (ProviderRevenuePayout.status p = PENDING))
                    (payoutRepo st)).
  set (n := Z.to_nat (default 50 limit)).
  pose proof (oldestFirst_sorted pending) as Hsorted.
  assert (Hperm : oldestFirst pending ≡ₚ pending) by apply js_sort_perm.
  rewrite <- (List.firstn_skipn n (oldestFirst pending)) in Hsorted.
  apply StronglySorted_app_inv in Hsorted as (Hs1 & _ & Hcross).
  assert (Hpending : forall p, p ∈ oldestFirst pending
            <-> p ∈ payoutRepo st /\ ProviderRevenuePayout.status p = PENDING).
  { intros p. rewrite Hperm. unfold pending. rewrite !list_elem_of_In, List.filter_In.
    by rewrite bool_decide_eq_true. }
  split; [| split; [exact Hs1 | split]].
  - intros p Hp. apply Hpending. by apply elem_of_firstn in Hp.
  - rewrite List.length_firstn. rewrite (Permutation_length Hperm). unfold n. lia.
  - intros p q Hp Hstatus Hout Hq. apply Hcross; [exact Hq |].
    assert (Hin : p ∈ oldestFirst pending) by (by apply Hpending).
    rewrite <- (List.firstn_skipn n (oldestFirst pending)) in Hin.
    apply elem_of_app in Hin as [Hin | Hin]; [by destruct Hout | exact Hin].
Qed.

Lemma getPendingPayouts_queue_witness :
  exists rows,
    getPendingPayouts None reportStore = (reportStore, Ok rows)
    /\ ProviderRevenuePayout.id <$> rows = [1%nat].
Proof.
  destruct (getPendingPayouts_queue reportStore None) as (rows & Hrun & _).
  - cbn. lia.
  - exists rows. split; [exact Hrun |].
    assert (Hc : (fun x => match x with
                           | Ok rows => ProviderRevenuePayout.id <$> rows
                           | Throw _ => []
                           end) (getPendingPayouts None reportStore).2 = [1%nat])
      by (vm_compute; reflexivity).
    rewrite Hrun in Hc. exact Hc.
Defined.

(** X21. [getProviderPayoutHistory] reads only: for a page and a limit of
    at least one (1 and 20 when not given) it returns them back with
    [total], the number of all payouts of the provider whatever the page,
    and with [data], payouts of that provider from the ledger, the later
    created first, [limit] of them or what is left of [total] after the
    pages before; a page past the end is empty, not an error. *)
Theorem getProviderPayoutHistory_page (st : Store) (pid : string) (page limit : option Z) :
  1 <= default 1 page -> 1 <= default 20 limit ->
  exists dto,
    getProviderPayoutHistory pid page limit st = (st, Ok dto)
    /\ h_page dto = default 1 page
    /\ h_limit dto = default 20 limit
    /\ h_total dto = Z.of_nat (List.length (payoutsOf pid (payoutRepo st)))
    /\ (forall p, p ∈ h_data dto ->
          p ∈ payoutRepo st /\ ProviderRevenuePayout.providerId p = pid)
    /\ StronglySorted createdNotBefore (h_data dto)
    /\ Z.of_nat (List.length (h_data dto))
       = Z.max 0 (Z.min (default 20 limit)
                        (h_total dto - (default 1 page - 1) * default 20 limit)).
Proof.
  intros Hpage Hlimit. eexists. split.
  { unfold getProviderPayoutHistory, bind, gets, ret. cbv zeta. reflexivity. }
  cbn [h_page h_limit h_total h_data].
  set (found := newestFirst (payoutsOf pid (payoutRepo st))).
  set (skip := Z.to_nat ((default 1 page - 1) * default 20 limit)).
  set (take := Z.to_nat (default 20 limit)).
  assert (Hperm : found ≡ₚ payoutsOf pid (payoutRepo st)) by apply js_sort_perm.
  pose proof (newestFirst_sorted (payoutsOf pid (payoutRepo st))) as Hsorted.
  fold found in Hsorted.
  split; [reflexivity |]. split; [reflexivity |].
  split; [by rewrite (Permutation_length Hperm) |]. split; [| split].
  - intros p Hp. apply elem_of_firstn, elem_of_skipn in Hp. rewrite Hperm in Hp.
    apply list_elem_of_In in Hp. unfold payoutsOf in Hp. apply List.filter_In in Hp as [Hp Heq].
    split; [by apply list_elem_of_In |]. by apply String.eqb_eq.
  - rewrite <- (List.firstn_skipn skip found) in Hsorted.
    apply StronglySorted_app_inv in Hsorted as (_ & Hs2 & _).
    rewrite <- (List.firstn_skipn take (List.skipn skip found)) in Hs2.
    by apply StronglySorted_app_inv in Hs2 as (Hs & _).
  - unfold take, skip. rewrite length_page by nia. reflexivity.
Qed.

Lemma getProviderPayoutHistory_page_witness :
  exists dto,
    getProviderPayoutHistory "provider-1" (Some 2) (Some 2) reportStore = (reportStore, Ok dto)
    /\ h_total dto = 3
    /\ List.length (h_data dto) = 1%nat.
Proof.
  destruct (getProviderPayoutHistory_page reportStore "provider-1" (Some 2) (Some 2))
    as (dto & Hrun & _ & _ & Htotal & _ & _ & Hlen).
  - cbn. lia.
  - cbn. lia.
  - exists dto. split; [exact Hrun |].
    assert (Ht : h_total dto = 3) by (rewrite Htotal; vm_compute; reflexivity).
    split; [exact Ht |]. rewrite Ht in Hlen. cbn in Hlen. lia.
Defined.

(** ** Confirming a payout *)

Section RowStays.
Context (i : nat) (p : ProviderRevenuePayout.t).
Hypothesis p_completed : ProviderRevenuePayout.status p = COMPLETED.

#[local] Instance rowStays_preorder : PreOrder (rowStays i p).
Proof.
  split.
  - intros st Hok Hp. by split.
  - intros st1 st2 st3 H12 H23 Hok Hp.
    destruct (H12 Hok Hp) as [Hok2 Hp2]. by apply H23.
Qed.

Lemma rowStays_writes (w : Footprint) {A : Type} (c : M A) :
  wLedger w = false -> writesOnly w c -> preserves (rowStays i p) c.
Proof.
  intros Hw Hc st Hok Hp. destruct (Hc st) as (_ & _ & _ & _ & _ & _ & H).
  by rewrite (H Hw).
Qed.

(** A call that keeps the ledger well formed and the row in its place. *)
Lemma rowStays_safe {A : Type} (c : M A) :
  ledgerSafe c ->
  (forall st, ledgerOk (payoutRepo st) -> payoutRepo st !! i = Some p ->
              payoutRepo (c st).1 !! i = Some p) ->
  preserves (rowStays i p) c.
Proof.
  intros Hsafe Hrow st Hok Hp. destruct (Hsafe st Hok) as [Hok' _].
  split; [exact Hok' | by apply Hrow].
Qed.

Lemma rowStays_recordPayout params : preserves (rowStays i p) (recordPayout params).
Proof.
  apply rowStays_safe; [apply ledgerSafe_recordPayout |].
  intros st _ Hp. rewrite recordPayout_run. cbn [fst withPayout payoutRepo].
  by apply lookup_app_l_Some.
Qed.

Lemma rowStays_evaluateProviderWithMetrics metrics :
  preserves (rowStays i p) (evaluateProviderWithMetrics metrics).
Proof.
  apply rowStays_safe; [apply ledgerSafe_evaluateProviderWithMetrics |].
  intros st _ Hp. rewrite evaluateProviderWithMetrics_run. cbn zeta. cbn [fst payoutRepo].
  by apply lookup_app_l_Some.
Qed.

Lemma rowStays_evaluateProvider pid : preserves (rowStays i p) (evaluateProvider pid).
Proof.
  intros st. rewrite evaluateProvider_metrics. apply rowStays_evaluateProviderWithMetrics.
Qed.

(** Saving the row of another payout. *)
Lemma lookup_saved_other (st : Store) (u : list ProviderRevenuePayout.key)
    (q q' : ProviderRevenuePayout.t) :
  ledgerOk (payoutRepo st) ->
  payoutRepo st !! ProviderRevenuePayout.id q' = Some q ->
  ProviderRevenuePayout.id q' <> i ->
  payoutRepo (savePayout u q' st).1 !! i = payoutRepo st !! i.
Proof.
  intros Hok Hq Hne. unfold savePayout. cbn [fst payoutRepo].
  rewrite (save_as_insert _ u q q' Hok Hq). by apply list_lookup_insert_ne.
Qed.

Lemma rowStays_confirmPayout j tx : preserves (rowStays i p) (confirmPayout j tx).
Proof.
  apply rowStays_safe; [apply ledgerSafe_confirmPayout |].
  intros st Hok Hp. unfold confirmPayout, newDate, bind, gets.
  rewrite (findPayout_lookup _ _ Hok).
  destruct (payoutRepo st !! j) as [q|] eqn:Hq; [| exact Hp].
  destruct (bool_decide_reflect (ProviderRevenuePayout.status q = COMPLETED))
    as [Hdone | Hnot]; [exact Hp |].
  destruct (Hok j q Hq) as [Hid _].
  rewrite (lookup_saved_other st _ q); [exact Hp | exact Hok | cbn; by rewrite Hid |].
  cbn. rewrite Hid. intros ->. rewrite Hp in Hq. injection Hq as <-. done.
Qed.

Lemma rowStays_markPayoutFailed j reason :
  j <> i -> preserves (rowStays i p) (markPayoutFailed j reason).
Proof.
  intros Hne. apply rowStays_safe; [apply ledgerSafe_markPayoutFailed |].
  intros st Hok Hp. unfold markPayoutFailed, bind, gets.
  rewrite (findPayout_lookup _ _ Hok).
  destruct (payoutRepo st !! j) as [q|] eqn:Hq; [| exact Hp].
  destruct (Hok j q Hq) as [Hid _].
  rewrite (lookup_saved_other st _ q); [exact Hp | exact Hok | cbn; by rewrite Hid |].
  cbn. by rewrite Hid.
Qed.

Lemma rowStays_retryFailedPayout j : preserves (rowStays i p) (retryFailedPayout j).
Proof.
  apply rowStays_safe; [apply ledgerSafe_retryFailedPayout |].
  intros st Hok Hp. unfold retryFailedPayout, bind, gets.
  rewrite (findPayout_lookup _ _ Hok).
  destruct (payoutRepo st !! j) as [q|] eqn:Hq; [| exact Hp].
  destruct (bool_decide_reflect (ProviderRevenuePayout.status q = FAILED))
    as [Hfailed | Hnot]; cbn [negb]; [| exact Hp].
  destruct (5 <=? ProviderRevenuePayout.retryCount q); [exact Hp |].
  destruct (Hok j q Hq) as [Hid _].
  rewrite (lookup_saved_other st _ q); [exact Hp | exact Hok | cbn; by rewrite Hid |].
  cbn. rewrite Hid. intros ->. rewrite Hp in Hq. injection Hq as <-. congruence.
Qed.

Lemma rowStays_processProviderPayout pid rev options :
  preserves (rowStays i p) (processProviderPayout pid rev options).
Proof.
  apply rowStays_safe; [apply ledgerSafe_processProviderPayout |].
  intros st Hok Hp. pose proof (processProviderPayout_appends st pid rev options) as H.
  destruct (processProviderPayout pid rev options st) as [st' [q | e]]; cbn [fst].
  - destruct H as [_ H]. destruct (H Hok) as [-> _]. by apply lookup_app_l_Some.
  - by rewrite H.
Qed.

Create HintDb stays.

#[local] Hint Resolve rowStays_recordPayout rowStays_evaluateProviderWithMetrics
  rowStays_evaluateProvider rowStays_confirmPayout rowStays_retryFailedPayout
  rowStays_processProviderPayout : stays.

Ltac stays_leaf :=
  solve [ apply (rowStays_writes (mkFootprint true true true false));
          [ reflexivity
          | first [ apply writesOnly_ret | apply writesOnly_throw | apply writesOnly_gets
                  | apply writesOnly_newBig | apply writesOnly_bigDiv | writes_within ] ] ].

Ltac stays_step :=
  first
    [ solve [eauto with stays]
    | stays_leaf
    | apply (preserves_void (rowStays i p))
    | apply (preserves_bind (rowStays i p)); [| intros ?]
    | apply (preserves_try_catch (rowStays i p)); [| intros ?]
    | apply (preserves_forEach (rowStays i p)); intros ? ?
    | match goal with
      | |- preserves _ (match ?x with _ => _ end) => destruct x
      | |- preserves _ (if ?x then _ else _) => destruct x
      | |- preserves _ (let '(_, _) := ?x in _) => destruct x
      end ].

Ltac stays := repeat stays_step.

Lemma rowStays_awardPerformanceBonus pid amount type reason :
  preserves (rowStays i p) (awardPerformanceBonus pid amount type reason).
Proof. unfold awardPerformanceBonus. stays. Qed.

#[local] Hint Resolve rowStays_awardPerformanceBonus : stays.

Lemma rowStays_runRetentionBonusRound y m :
  preserves (rowStays i p) (runRetentionBonusRound y m).
Proof. unfold runRetentionBonusRound. stays. Qed.

Lemma rowStays_checkAndIssueStreakBonus pid :
  preserves (rowStays i p) (checkAndIssueStreakBonus pid).
Proof. unfold checkAndIssueStreakBonus, newDate. stays. Qed.

Lemma rowStays_processMontlyBatch y m revenueMap :
  preserves (rowStays i p) (processMontlyBatch y m revenueMap).
Proof. unfold processMontlyBatch, batchStep. stays. Qed.

#[local] Hint Resolve rowStays_runRetentionBonusRound rowStays_checkAndIssueStreakBonus
  rowStays_processMontlyBatch : stays.

Lemma rowStays_perform (c : Call) :
  sparesPayout i (Invoke c) -> preserves (rowStays i p) (perform c).
Proof.
  intros Hspare. destruct (wLedger (footprint c)) eqn:Hw.
  - destruct c; try discriminate Hw; cbn [perform];
      apply (preserves_void (rowStays i p)); eauto with stays.
    apply rowStays_markPayoutFailed. intros ->. by apply (Hspare reason).
  - eapply rowStays_writes; [exact Hw | apply writesOnly_perform].
Qed.

Lemma rowStays_history (events : list Event) (st : Store) :
  Forall (sparesPayout i) events -> rowStays i p st (history events st).
Proof.
  intros Hall. revert st. induction Hall as [|e events He _ IH]; intros st; [reflexivity |].
  cbn [history foldl]. etrans; [| apply IH].
  destruct e; [by apply rowStays_perform | | |]; by intros Hok Hp.
Qed.
End RowStays.

(** X22. [confirmPayout] of an id without a row throws the not-found
    error and writes nothing.  On a row of a well-formed ledger that is
    not COMPLETED, whatever else its status (a FAILED one too, whose
    failure reason and retry count stay), it stores and returns the row as
    COMPLETED with the given transaction hash and the time of the call, no
    other row being touched.  Through any series of events after that in
    which [markPayoutFailed] is not called for this payout, the row stays
    exactly as it was confirmed, and a [confirmPayout] of the id, with
    whatever hash, returns that row and writes nothing.  The condition is
    needed: after a [markPayoutFailed] of the payout, which nothing
    refuses, the next [confirmPayout] replaces the hash and the payment
    time. *)
Theorem confirmPayout_first_stands (st : Store) (i : nat) (tx : string) :
  ledgerOk (payoutRepo st) ->
  match payoutRepo st !! i with
  | None => confirmPayout i tx st = (st, Throw (NotFoundException (PayoutNotFound i)))
  | Some p =>
      ProviderRevenuePayout.status p <> COMPLETED ->
      exists st1 p1,
        confirmPayout i tx st = (st1, Ok p1)
        /\ p1 = ProviderRevenuePayout.set_paidAt (Some (clock st))
                  (ProviderRevenuePayout.set_stellarTxHash (Some tx)
                     (ProviderRevenuePayout.set_status COMPLETED p))
        /\ payoutRepo st1 = <[i := p1]> (payoutRepo st)
        /\ (forall j, j <> i -> payoutRepo st1 !! j = payoutRepo st !! j)
        /\ payoutRepo st1 !! i = Some p1
        /\ (ProviderRevenuePayout.failureReason p1, ProviderRevenuePayout.retryCount p1)
           = (ProviderRevenuePayout.failureReason p, ProviderRevenuePayout.retryCount p)
        /\ (forall events : list Event,
              Forall (sparesPayout i) events ->
              payoutRepo (history events st1) !! i = Some p1
              /\ forall tx', confirmPayout i tx' (history events st1)
                             = (history events st1, Ok p1))
        /\ (forall reason tx',
              exists st2 p2 st3 p3,
                markPayoutFailed i reason st1 = (st2, Ok p2)
                /\ confirmPayout i tx' st2 = (st3, Ok p3)
                /\ payoutRepo st3 !! i = Some p3
                /\ ProviderRevenuePayout.stellarTxHash p3 = Some tx'
                /\ ProviderRevenuePayout.paidAt p3 = Some (clock st2))
  end.
Proof.
  intros Hok. pose proof (findPayout_lookup _ i Hok) as Hfind.
  destruct (payoutRepo st !! i) as [p|] eqn:Hp.
  - intros Hstatus. destruct (Hok i p Hp) as [Hid _].
    set (p1 := ProviderRevenuePayout.set_paidAt (Some (clock st))
                 (ProviderRevenuePayout.set_stellarTxHash (Some tx)
                    (ProviderRevenuePayout.set_status COMPLETED p))).
    assert (Hid1 : ProviderRevenuePayout.id p1 = i) by exact Hid.
    assert (Hrun : confirmPayout i tx st
                   = (mkStore (tierRepo st) (assignmentRepo st) (<[i := p1]> (payoutRepo st))
                        (statsRepo st) (userRepo st) (tierCache st) (clock st), Ok p1)).
    { unfold confirmPayout. unfold bind at 1, gets at 1. rewrite Hfind.
      rewrite bool_decide_eq_false_2 by exact Hstatus.
      unfold bind, newDate, gets, savePayout. fold p1.
      rewrite (save_as_insert _ [] p p1 Hok) by (by rewrite Hid1).
      cbn [ProviderRevenuePayout.written foldr]. rewrite Hid1. reflexivity. }
    assert (Hlt : (i < List.length (payoutRepo st))%nat) by (by eapply lookup_lt_Some).
    destruct (ledgerSafe_confirmPayout i tx st Hok) as [Hok1 _].
    rewrite Hrun in Hok1. cbn [fst] in Hok1.
    set (st1 := mkStore _ _ _ _ _ _ _) in *.
    assert (Hp1 : payoutRepo st1 !! i = Some p1) by (by apply list_lookup_insert_eq).
    exists st1, p1. split; [exact Hrun |].
    split; [reflexivity |]. split; [reflexivity |].
    split; [intros j Hj; by apply list_lookup_insert_ne |].
    split; [exact Hp1 |]. split; [reflexivity |]. split.
    + intros events Hall.
      destruct (rowStays_history i p1 eq_refl events st1 Hall Hok1 Hp1) as [Hok2 Hp2].
      split; [exact Hp2 |]. intros tx'. apply confirmPayout_completed; [| reflexivity].
      by rewrite findPayout_lookup.
    + intros reason tx'.
      destruct (markPayoutFailed_any st1 i reason p1) as (st2 & Hfail & Hf2 & _);
        [by rewrite findPayout_lookup |].
      destruct (ledgerSafe_markPayoutFailed i reason st1 Hok1) as [Hok2 _].
      rewrite Hfail in Hok2. cbn [fst] in Hok2.
      rewrite (findPayout_lookup _ _ Hok2) in Hf2.
      set (p2 := ProviderRevenuePayout.set_retryCount _ _) in *.
      set (p3 := ProviderRevenuePayout.set_paidAt (Some (clock st2))
                   (ProviderRevenuePayout.set_stellarTxHash (Some tx')
                      (ProviderRevenuePayout.set_status COMPLETED p2))).
      assert (Hconfirm : confirmPayout i tx' st2
                = (mkStore (tierRepo st2) (assignmentRepo st2) (<[i := p3]> (payoutRepo st2))
                     (statsRepo st2) (userRepo st2) (tierCache st2) (clock st2), Ok p3)).
      { unfold confirmPayout. unfold bind at 1, gets at 1.
        rewrite (findPayout_lookup _ _ Hok2), Hf2.
        rewrite bool_decide_eq_false_2 by discriminate.
        unfold bind, newDate, gets, savePayout. fold p3.
        assert (Hid3 : ProviderRevenuePayout.id p3 = i) by exact Hid.
        rewrite (save_as_insert _ [] p2 p3 Hok2) by (by rewrite Hid3).
        cbn [ProviderRevenuePayout.written foldr]. rewrite Hid3. reflexivity. }
      eexists st2, p2, _, p3. split; [exact Hfail |]. split; [exact Hconfirm |].
      cbn [payoutRepo]. split; [| split; reflexivity].
      apply list_lookup_insert_eq. by eapply lookup_lt_Some.
  - unfold confirmPayout, bind, gets. by rewrite Hfind.
Qed.

Lemma confirmPayout_first_stands_witness :
  exists st1 p1,
    confirmPayout 0 "hash-1" (ledgerStore PENDING 0) = (st1, Ok p1)
    /\ ProviderRevenuePayout.stellarTxHash p1 = Some "hash-1"%string
    /\ confirmPayout 0 "hash-2"
         (history [Tick noon; Invoke (CallRetryFailedPayout 0);
                   Invoke (CallConfirmPayout 0 "hash-3")] st1)
       = (history [Tick noon; Invoke (CallRetryFailedPayout 0);
                   Invoke (CallConfirmPayout 0 "hash-3")] st1, Ok p1).
Proof.
  pose proof (confirmPayout_first_stands (ledgerStore PENDING 0) 0 "hash-1") as H.
  cbn [ledgerStore payoutRepo lookup list_lookup] in H.
  destruct H as (st1 & p1 & Hrun & -> & _ & _ & _ & _ & Hagain & _).
  - intros j q Hq. destruct j as [|j]; [| by destruct j].
    injection Hq as <-. unfold rowOk, payoutRow. cbn.
    repeat split; try done; try lia.
  - discriminate.
  - exists st1. eexists. split; [exact Hrun |]. split; [reflexivity |].
    apply Hagain. repeat constructor; intros reason; discriminate.
Defined.
